(** * Revision ingestion and build/task expansion of the repotracker

    A shallow embedding of package [repotracker] (FetchRevisions,
    StoreRevisions, GetProjectConfig, CreateVersionFromConfig,
    shellVersionFromRevision, sanityCheckOrderNum, createVersionItems and
    addBuildBreakSubscriptions) as programs of a state monad over the
    persisted store, with Go's [(value, error)] results as pairs of options
    and nil-pointer dereferences as an explicit [Panic] outcome. *)

From Stdlib Require Import List String ZArith Bool Lia Sorted.
From Stdlib Require Import DecimalString.
Import ListNotations.

Open Scope string_scope.
Open Scope Z_scope.

(** ** Go errors *)

(** The dynamic type of a Go [error] value decides the type assertions of
    GetProjectConfig and StoreRevisions, so the error types the code tells
    apart are constructors. *)
Inductive error : Type :=
| APIRequestError (m : string)       (* thirdparty.APIRequestError *)
| YAMLFormatError (m : string)       (* thirdparty.YAMLFormatError *)
| FileNotFoundError (m : string)     (* thirdparty.FileNotFoundError *)
| APIUnmarshalError (m : string)     (* thirdparty.APIUnmarshalError *)
| ResponseReadError (m : string)     (* thirdparty.ResponseReadError *)
| APIResponseError (m : string)      (* thirdparty.APIResponseError *)
| projectConfigError (Errors Warnings : list string)
| DuplicateKeyError (m : string)     (* what db.IsDuplicateKey recognises *)
| errorString (m : string)           (* errors.New, errors.Errorf, others *)
| withMessage (cause : error) (m : string)   (* errors.Wrap on non-nil *)
| withStack (cause : error).                 (* errors.WithStack on non-nil *)

(** The Error() method. *)
Fixpoint error_message (e : error) : string :=
  match e with
  | APIRequestError m | YAMLFormatError m | FileNotFoundError m
  | APIUnmarshalError m | ResponseReadError m | APIResponseError m
  | DuplicateKeyError m | errorString m => m
  | projectConfigError _ _ => "Invalid project configuration"
  | withMessage cause m => m ++ ": " ++ error_message cause
  | withStack cause => error_message cause
  end.

(** errors.Wrap and errors.WithStack return nil on a nil error. *)
Definition errors_Wrap (err : option error) (m : string) : option error :=
  match err with
  | None => None
  | Some e => Some (withMessage e m)
  end.

Definition errors_WithStack (err : option error) : option error :=
  match err with
  | None => None
  | Some e => Some (withStack e)
  end.

(** [%v] of an int in a format string: its decimal digits, with a minus
    sign when it is negative. *)
Definition Sprint_int (n : Z) : string :=
  NilZero.string_of_int (Z.to_int n).

Definition db_IsDuplicateKey (e : error) : bool :=
  match e with
  | DuplicateKeyError _ => true
  | _ => false
  end.

(** ** Data model *)

(** time.Time as nanoseconds on an unbounded line; time.Duration is an
    int64 count of nanoseconds, whose arithmetic wraps. *)
Definition Time := Z.
Definition Duration := Z.

Definition wrap64 (z : Z) : Z := (z + 2 ^ 63) mod 2 ^ 64 - 2 ^ 63.

Definition time_Minute : Duration := 60000000000.

Definition Duration_mul (a b : Duration) : Duration := wrap64 (a * b).

Definition Time_Add (t : Time) (d : Duration) : Time := t + d.

Module Revision.
Record t : Type := mk {
  Author : string;
  AuthorGithubUID : Z;
  AuthorEmail : string;
  RevisionMessage : string;
  Revision : string;
  CreateTime : Time
}.
End Revision.

Module BuildStatus.
Record t : Type := mk {
  BuildVariant : string;
  Activated : bool;
  ActivateAt : Time;
  BuildId : string
}.
End BuildStatus.

Module Version.
Record t : Type := mk {
  Id : string;
  CreateTime : Time;
  Revision : string;
  Author : string;
  AuthorEmail : string;
  AuthorID : string;
  Message : string;
  Status : string;
  RevisionOrderNumber : Z;
  Config : string;
  Ignored : bool;
  Owner : string;
  Repo : string;
  Branch : string;
  RepoKind : string;
  BuildVariants : list BuildStatus.t;
  BuildIds : list string;
  Identifier : string;
  RemotePath : string;
  Requester : string;
  Warnings : list string;
  Errors : list string
}.

Definition set_AuthorID (x : string) (v : t) : t :=
  mk (Id v) (CreateTime v) (Revision v) (Author v) (AuthorEmail v) x
     (Message v) (Status v) (RevisionOrderNumber v) (Config v) (Ignored v)
     (Owner v) (Repo v) (Branch v) (RepoKind v) (BuildVariants v)
     (BuildIds v) (Identifier v) (RemotePath v) (Requester v) (Warnings v)
     (Errors v).

Definition set_Config (x : string) (v : t) : t :=
  mk (Id v) (CreateTime v) (Revision v) (Author v) (AuthorEmail v)
     (AuthorID v) (Message v) (Status v) (RevisionOrderNumber v) x
     (Ignored v) (Owner v) (Repo v) (Branch v) (RepoKind v)
     (BuildVariants v) (BuildIds v) (Identifier v) (RemotePath v)
     (Requester v) (Warnings v) (Errors v).

Definition set_Ignored (x : bool) (v : t) : t :=
  mk (Id v) (CreateTime v) (Revision v) (Author v) (AuthorEmail v)
     (AuthorID v) (Message v) (Status v) (RevisionOrderNumber v) (Config v)
     x (Owner v) (Repo v) (Branch v) (RepoKind v) (BuildVariants v)
     (BuildIds v) (Identifier v) (RemotePath v) (Requester v) (Warnings v)
     (Errors v).

Definition set_Warnings (x : list string) (v : t) : t :=
  mk (Id v) (CreateTime v) (Revision v) (Author v) (AuthorEmail v)
     (AuthorID v) (Message v) (Status v) (RevisionOrderNumber v) (Config v)
     (Ignored v) (Owner v) (Repo v) (Branch v) (RepoKind v)
     (BuildVariants v) (BuildIds v) (Identifier v) (RemotePath v)
     (Requester v) x (Errors v).

Definition set_Errors (x : list string) (v : t) : t :=
  mk (Id v) (CreateTime v) (Revision v) (Author v) (AuthorEmail v)
     (AuthorID v) (Message v) (Status v) (RevisionOrderNumber v) (Config v)
     (Ignored v) (Owner v) (Repo v) (Branch v) (RepoKind v)
     (BuildVariants v) (BuildIds v) (Identifier v) (RemotePath v)
     (Requester v) (Warnings v) x.

(** [v.BuildIds = append(v.BuildIds, id)] together with
    [v.BuildVariants = append(v.BuildVariants, bs)]. *)
Definition add_build (id : string) (bs : BuildStatus.t) (v : t) : t :=
  mk (Id v) (CreateTime v) (Revision v) (Author v) (AuthorEmail v)
     (AuthorID v) (Message v) (Status v) (RevisionOrderNumber v) (Config v)
     (Ignored v) (Owner v) (Repo v) (Branch v) (RepoKind v)
     (BuildVariants v ++ [bs]) (BuildIds v ++ [id]) (Identifier v)
     (RemotePath v) (Requester v) (Warnings v) (Errors v).
End Version.

Module BuildVariant.
Record t : Type := mk {
  Name : string;
  Disabled : bool;
  BatchTime : option Z;          (* *int: nil when there is no override *)
  Tasks : list string
}.
End BuildVariant.

Module Project.
Record t : Type := mk {
  Identifier : string;
  Ignore : list string;
  BuildVariants : list BuildVariant.t;
  Source : string                (* the rest of the parsed configuration *)
}.
End Project.

Module RepotrackerError.
Record t : Type := mk {
  Exists : bool;
  InvalidRevision : string
}.
End RepotrackerError.

Module ProjectRef.
Record t : Type := mk {
  Owner : string;
  Repo : string;
  Branch : string;
  RepoKind : string;
  Enabled : bool;
  BatchTime : Z;
  RemotePath : string;
  Identifier : string;
  LocalConfig : string;
  Admins : list string;
  NotifyOnBuildFailure : bool;
  RepotrackerError : option RepotrackerError.t
}.
End ProjectRef.

Module Repository.
Record t : Type := mk {
  Project : string;
  LastRevision : string;
  RevisionOrderNumber : Z
}.
End Repository.

Module Build.
Record t : Type := mk {
  Id : string;
  Version : string;
  BuildVariant : string;
  Tasks : list string
}.
End Build.

Module Task.
Record t : Type := mk {
  Id : string;
  DisplayName : string;
  BuildId : string;
  BuildVariant : string;
  Version : string
}.
End Task.

Module DBUser.
Record t : Type := mk {
  Id : string;
  EmailAddress : string;
  SlackUsername : string;
  BuildBreak : string;           (* Settings.Notifications.BuildBreak *)
  BuildBreakID : string          (* Settings.Notifications.BuildBreakID *)
}.
End DBUser.

Module Subscriber.
Record t : Type := mk {
  Type_ : string;
  Target : string
}.
End Subscriber.

Module Subscription.
Record t : Type := mk {
  ResourceType : string;
  Trigger : string;
  Selectors : list (string * string);
  Subscriber : Subscriber.t
}.
End Subscription.

Module ValidationError.
Inductive Level : Type := Error | Warning.
Record t : Type := mk {
  level : Level;
  Message : string
}.
End ValidationError.

Record VersionErrors : Type := mkVersionErrors {
  VersionErrors_Errors : list string;
  VersionErrors_Warnings : list string
}.

Module Settings.
Record t : Type := mk {
  NumNewRepoRevisionsToFetch : Z;
  MaxRepoRevisionsToSearch : Z
}.
End Settings.

(** ** The persisted store and the log *)

Inductive LogLevel : Type := Debug | Info | Warning | Error | Critical.

Record LogEntry : Type := mkLog {
  log_level : LogLevel;
  log_message : string;
  log_revision : string
}.

Record World : Type := mkWorld {
  versions : list Version.t;              (* in insertion order *)
  builds : list Build.t;
  tasks : list Task.t;
  repositories : string -> option Repository.t;
  subscriptions : list Subscription.t;
  log : list LogEntry
}.

Definition set_versions (x : list Version.t) (w : World) : World :=
  mkWorld x (builds w) (tasks w) (repositories w) (subscriptions w) (log w).

Definition set_builds (b : list Build.t) (t : list Task.t) (w : World) : World :=
  mkWorld (versions w) b t (repositories w) (subscriptions w) (log w).

Definition set_repository (p : string) (r : Repository.t) (w : World) : World :=
  mkWorld (versions w) (builds w) (tasks w)
          (fun q => if String.eqb q p then Some r else repositories w q)
          (subscriptions w) (log w).

Definition set_subscriptions (x : list Subscription.t) (w : World) : World :=
  mkWorld (versions w) (builds w) (tasks w) (repositories w) x (log w).

Definition add_log (e : LogEntry) (w : World) : World :=
  mkWorld (versions w) (builds w) (tasks w) (repositories w)
          (subscriptions w) (log w ++ [e]).

(** ** The monad of the pipeline *)

Inductive Outcome (A : Type) : Type :=
| Ret (a : A) (w : World)
| Panic (reason : string) (w : World).
Arguments Ret {A} a w.
Arguments Panic {A} reason w.

Definition M (A : Type) : Type := World -> Outcome A.

Definition ret {A} (a : A) : M A := fun w => Ret a w.

Definition bind {A B} (m : M A) (k : A -> M B) : M B :=
  fun w => match m w with
           | Ret a w' => k a w'
           | Panic r w' => Panic r w'
           end.

Definition panic {A} (reason : string) : M A := fun w => Panic reason w.

Definition world_of {A} (o : Outcome A) : World :=
  match o with
  | Ret _ w => w
  | Panic _ w => w
  end.

Declare Scope go_scope.
Delimit Scope go_scope with go.
Notation "x <- m ;; k" := (bind m (fun x => k))
  (at level 61, m at next level, right associativity) : go_scope.
Notation "' pat <- m ;; k" := (bind m (fun x => match x with pat => k end))
  (at level 61, pat pattern, m at next level, right associativity) : go_scope.
Notation "m ;;; k" := (bind m (fun _ => k))
  (at level 61, right associativity) : go_scope.
Open Scope go_scope.

(** ** Logging (package grip) *)

Definition grip_log (l : LogLevel) (m rev : string) : M unit :=
  fun w => Ret tt (add_log (mkLog l m rev) w).

(** [grip.Error(message.WrapError(err, fields))] logs only a non-nil
    error. *)
Definition grip_WrapError (l : LogLevel) (err : option error) (m rev : string)
  : M unit :=
  match err with
  | None => ret tt
  | Some _ => grip_log l m rev
  end.

(** ** Collaborators outside the package *)

(** The queries of package version that the pipeline issues. *)
Inductive Query : Type :=
| ById (id : string)
| ByProjectIdAndRevision (projectId revision : string)
| ByMostRecentSystemRequester (projectId : string)
| ByLastVariantActivation (projectId variant : string).

(** The RepoPoller interface. *)
Record RepoPoller : Type := mkRepoPoller {
  GetRemoteConfig : string -> World -> option Project.t * option error;
  GetChangedFiles : string -> World -> list string * option error;
  GetRevisionsSince : string -> Z -> World -> list Revision.t * option error;
  GetRecentRevisions : Z -> World -> list Revision.t * option error
}.

(** What the store, the validator, the user collection and the clock answer:
    every call that returns an error in the source can be made to fail. *)
Record Env : Type := mkEnv {
  FindOne_fault : Query -> World -> option (option Version.t * error);
  Insert_fault : Version.t -> World -> option error;
  NewOrderNumber_result : string -> World -> error + nat;
  CreateBuild_fault : Version.t -> string -> World -> option error;
  DeleteBuild_fault : string -> World -> option error;
  FindRepository_fault : string -> World -> option error;
  UpdateLastRevision_fault : string -> string -> World -> option error;
  Upsert_fault : Subscription.t -> World -> option error;
  user_FindByGithubUID : Z -> World -> option DBUser.t * option error;
  user_FindOne : string -> World -> option DBUser.t * option error;
  model_FindProject : ProjectRef.t -> World -> option Project.t * option error;
  model_DoProjectActivation : string -> World -> World * option error;
  validator_CheckProjectSyntax : Project.t -> list ValidationError.t * option error;
  yaml_Marshal : Project.t -> string * option error;
  IgnoresAllFiles : Project.t -> list string -> bool;
  util_CleanName : string -> string;
  Fields_String : string -> string -> string -> string;
  BuildId_of : Version.t -> string -> string;
  TaskId_of : Version.t -> string -> string -> string;
  time_Now : World -> Time
}.

Record RepoTracker : Type := mkRepoTracker {
  RepoTracker_Settings : Settings.t;
  RepoTracker_ProjectRef : ProjectRef.t;
  RepoTracker_RepoPoller : RepoPoller
}.

Definition RunnerName : string := "repotracker".
Definition RepotrackerVersionRequester : string := "gitter_request".
Definition VersionCreated : string := "created".
Definition ResourceTypeVersion : string := "VERSION".
Definition PreferenceEmail : string := "email".
Definition PreferenceSlack : string := "slack".

Definition DefaultNumNewRepoRevisionsToFetch : Z := 200.
Definition DefaultMaxRepoRevisionsToSearch : Z := 50.
Definition DefaultNumConcurrentRequests : Z := 10.

(** *** The version collection *)

(** The document with the highest order number among [vs] (the first of
    them on a tie), as a descending sort on the order number returns it. *)
Fixpoint highest_order (best : option Version.t) (vs : list Version.t)
  : option Version.t :=
  match vs with
  | [] => best
  | v :: vs' =>
      highest_order
        (match best with
         | None => Some v
         | Some b =>
             if Version.RevisionOrderNumber b <? Version.RevisionOrderNumber v
             then Some v else Some b
         end) vs'
  end.

Definition records_activation (variant : string) (v : Version.t) : bool :=
  existsb (fun bs => String.eqb (BuildStatus.BuildVariant bs) variant
                     && BuildStatus.Activated bs)
          (Version.BuildVariants v).

(** Modelled from the spec: the bodies of the queries are not in the
    sources. The store offers point lookups by id, by (project, revision),
    by "latest for project", and the most recent Version of a project that
    recorded an activation for a build-variant name; "latest" and "most
    recent" are by order number. *)
Definition run_query (q : Query) (vs : list Version.t) : option Version.t :=
  match q with
  | ById id => find (fun v => String.eqb (Version.Id v) id) vs
  | ByProjectIdAndRevision p r =>
      find (fun v => String.eqb (Version.Identifier v) p
                     && String.eqb (Version.Revision v) r) vs
  | ByMostRecentSystemRequester p =>
      highest_order None
        (filter (fun v => String.eqb (Version.Identifier v) p) vs)
  | ByLastVariantActivation p variant =>
      highest_order None
        (filter (fun v => String.eqb (Version.Identifier v) p
                          && records_activation variant v) vs)
  end.

(** Modelled from the spec: the store enforces uniqueness of the document
    id, of (projectId, revisionId) and of (projectId, orderNumber). *)
Definition conflicts (v u : Version.t) : bool :=
  String.eqb (Version.Id u) (Version.Id v)
  || (String.eqb (Version.Identifier u) (Version.Identifier v)
      && (String.eqb (Version.Revision u) (Version.Revision v)
          || (Version.RevisionOrderNumber u =? Version.RevisionOrderNumber v))).

Section Pipeline.

Variable env : Env.

(** Modelled from the spec: version.FindOne is not in the sources. A lookup
    answers from the stored documents, nil when nothing matches. *)
Definition version_FindOne (q : Query) : M (option Version.t * option error) :=
  fun w => match FindOne_fault env q w with
           | Some (r, e) => Ret (r, Some e) w
           | None => Ret (run_query q (versions w), None) w
           end.

(** Modelled from the spec: Version.Insert is not in the sources. An insert
    appends the document unless a unique constraint rejects it with a
    duplicate-key error. *)
Definition Version_Insert (v : Version.t) : M (option error) :=
  fun w => match Insert_fault env v w with
           | Some e => Ret (Some e) w
           | None =>
               if existsb (conflicts v) (versions w)
               then Ret (Some (DuplicateKeyError (Version.Id v))) w
               else Ret None (set_versions (versions w ++ [v]) w)
           end.

(** *** The repository document: watermark and order-number counter *)

Definition order_counter (w : World) (p : string) : Z :=
  match repositories w p with
  | Some r => Repository.RevisionOrderNumber r
  | None => 0
  end.

Definition last_revision (w : World) (p : string) : string :=
  match repositories w p with
  | Some r => Repository.LastRevision r
  | None => ""
  end.

(** Modelled from the spec: model.FindRepository is not in the sources. The
    watermark of a project, absent when it was never polled. *)
Definition model_FindRepository (p : string)
  : M (option Repository.t * option error) :=
  fun w => match FindRepository_fault env p w with
           | Some e => Ret (None, Some e) w
           | None => Ret (repositories w p, None) w
           end.

(** Modelled from the spec: model.UpdateLastRevision is not in the sources.
    It advances the watermark of the project. *)
Definition model_UpdateLastRevision (p revision : string) : M (option error) :=
  fun w => match UpdateLastRevision_fault env p revision w with
           | Some e => Ret (Some e) w
           | None =>
               Ret None
                 (set_repository p
                    (Repository.mk p revision (order_counter w p)) w)
           end.

(** Modelled from the spec: model.GetNewRevisionOrderNumber is not in the
    sources. The counter is atomic and may skip but never repeats or goes
    backward. *)
Definition model_GetNewRevisionOrderNumber (p : string)
  : M (Z * option error) :=
  fun w => match NewOrderNumber_result env p w with
           | inl e => Ret (0, Some e) w
           | inr skip =>
               let n := order_counter w p + 1 + Z.of_nat skip in
               Ret (n, None)
                 (set_repository p (Repository.mk p (last_revision w p) n) w)
           end.

(** *** Builds and tasks *)

Definition TaskIdTable : Type := list (string * string * string).

(** Modelled from the spec: model.NewTaskIdTable is not in the sources. The
    table gives every task of every enabled build variant its identifier. *)
Definition model_NewTaskIdTable (project : Project.t) (v : Version.t)
  : TaskIdTable :=
  flat_map
    (fun bv =>
       map (fun t => (BuildVariant.Name bv, t,
                      TaskId_of env v (BuildVariant.Name bv) t))
           (BuildVariant.Tasks bv))
    (filter (fun bv => negb (BuildVariant.Disabled bv))
            (Project.BuildVariants project)).

Definition variant_tasks (taskIds : TaskIdTable) (name : string)
  : list (string * string * string) :=
  filter (fun e => String.eqb (fst (fst e)) name) taskIds.

(** Modelled from the spec: model.CreateBuildFromVersion is not in the
    sources. It stores the Build of the named variant and its Tasks, with
    the identifiers of the table, and returns the id of the Build. *)
Definition model_CreateBuildFromVersion (project : Project.t) (v : Version.t)
    (taskIds : TaskIdTable) (buildName : string) : M (string * option error) :=
  fun w => match CreateBuild_fault env v buildName w with
           | Some e => Ret ("", Some e) w
           | None =>
               let id := BuildId_of env v buildName in
               let ts := variant_tasks taskIds buildName in
               let b := Build.mk id (Version.Id v) buildName (map snd ts) in
               let new_tasks :=
                 map (fun e => Task.mk (snd e) (snd (fst e)) id buildName
                                       (Version.Id v)) ts in
               Ret (id, None)
                 (set_builds (builds w ++ [b]) (tasks w ++ new_tasks) w)
           end.

(** Modelled from the spec: model.DeleteBuild is not in the sources. It
    deletes the Build and the Tasks it owns. *)
Definition model_DeleteBuild (id : string) : M (option error) :=
  fun w => match DeleteBuild_fault env id w with
           | Some e => Ret (Some e) w
           | None =>
               Ret None
                 (set_builds
                    (filter (fun b => negb (String.eqb (Build.Id b) id))
                            (builds w))
                    (filter (fun t => negb (String.eqb (Task.BuildId t) id))
                            (tasks w))
                    w)
           end.

(** Modelled from the spec: ProjectRef.GetBatchTime is not in the sources.
    The batch time of the variant, or the project-wide default when the
    variant has no override. *)
Definition GetBatchTime (ref : ProjectRef.t) (variant : BuildVariant.t) : Z :=
  match BuildVariant.BatchTime variant with
  | Some n => n
  | None => ProjectRef.BatchTime ref
  end.

(** Modelled from the spec: Subscription.Upsert is not in the sources. *)
Definition Subscription_Upsert (s : Subscription.t) : M (option error) :=
  fun w => match Upsert_fault env s w with
           | Some e => Ret (Some e) w
           | None => Ret None (set_subscriptions (subscriptions w ++ [s]) w)
           end.

(** Reads of collaborators that do not change the store. *)
Definition ask {A} (f : World -> A) : M A := fun w => Ret (f w) w.

(** ** Package repotracker *)

(** [p projectConfigError] and the thirdparty errors that only concern the
    fetch of one configuration file. *)
Definition fetch_error (e : error) : bool :=
  match e with
  | APIRequestError _ | YAMLFormatError _ | FileNotFoundError _ => true
  | _ => false
  end.

(** GetProjectConfig fetches the project configuration for a given
    revision: the local configuration when the project names one, the
    remote file as at the revision otherwise. *)
Definition GetProjectConfig (repoTracker : RepoTracker) (revision : string)
  : M (option Project.t * option error) :=
  let projectRef := RepoTracker_ProjectRef repoTracker in
  if negb (String.eqb (ProjectRef.LocalConfig projectRef) "") then
    ask (model_FindProject env projectRef)
  else
    '(project, err) <-
       ask (GetRemoteConfig (RepoTracker_RepoPoller repoTracker) revision) ;;
    match err with
    | Some e =>
        if fetch_error e then
          let msg := Fields_String env (ProjectRef.Identifier projectRef)
                       revision (ProjectRef.RemotePath projectRef) in
          grip_log Error "problem finding project configuration" revision ;;;
          ret (None, Some (projectConfigError [msg] []))
        else
          '(repository, fErr) <-
             model_FindRepository (ProjectRef.Identifier projectRef) ;;
          lastRevision <-
            match fErr, repository with
            | None, Some r => ret (Repository.LastRevision r)
            | _, _ =>
                grip_WrapError Error fErr "problem finding repository" "" ;;;
                ret ""
            end ;;
          grip_log Critical "repotracker configuration problem" lastRevision ;;;
          ret (None, Some e)
    | None => ret (project, None)
    end.

(** shellVersionFromRevision populates a new Version with metadata from a
    revision; it stores nothing but takes the next order number. *)
Definition shellVersionFromRevision (ref : ProjectRef.t) (rev : Revision.t)
  : M (option Version.t * option error) :=
  '(u, err) <- ask (user_FindByGithubUID env (Revision.AuthorGithubUID rev)) ;;
  grip_WrapError Error err "failed to fetch everg user with Github UID" "" ;;;
  '(number, err) <-
     model_GetNewRevisionOrderNumber (ProjectRef.Identifier ref) ;;
  match err with
  | Some e => ret (None, Some e)
  | None =>
      let v := {|
        Version.Id :=
          util_CleanName env
            (ProjectRef.Identifier ref ++ "_" ++ Revision.Revision rev);
        Version.CreateTime := Revision.CreateTime rev;
        Version.Revision := Revision.Revision rev;
        Version.Author := Revision.Author rev;
        Version.AuthorEmail := Revision.AuthorEmail rev;
        Version.AuthorID := "";
        Version.Message := Revision.RevisionMessage rev;
        Version.Status := VersionCreated;
        Version.RevisionOrderNumber := number;
        Version.Config := "";
        Version.Ignored := false;
        Version.Owner := ProjectRef.Owner ref;
        Version.Repo := ProjectRef.Repo ref;
        Version.Branch := ProjectRef.Branch ref;
        Version.RepoKind := ProjectRef.RepoKind ref;
        Version.BuildVariants := [];
        Version.BuildIds := [];
        Version.Identifier := ProjectRef.Identifier ref;
        Version.RemotePath := ProjectRef.RemotePath ref;
        Version.Requester := RepotrackerVersionRequester;
        Version.Warnings := [];
        Version.Errors := []
      |} in
      ret (Some (match u with
                 | Some u' => Version.set_AuthorID (DBUser.Id u') v
                 | None => v
                 end), None)
  end.

(** sanityCheckOrderNum verifies that the given order number is higher than
    the latest number stored for the project. *)
Definition sanityCheckOrderNum (revOrderNum : Z) (projectId revision : string)
  : M (option error) :=
  '(latest, err) <- version_FindOne (ByMostRecentSystemRequester projectId) ;;
  match err, latest with
  | None, Some l =>
      if String.eqb (Version.Revision l) revision then
        grip_log Critical "attempting to add a duplicate version" revision ;;;
        ret (Some (errorString
               "refusing to add a new version with a duplicate revision id"))
      else if revOrderNum <=? Version.RevisionOrderNumber l then
        ret (Some (errorString
               ("Commit order number isn't greater than last stored version's: "
                ++ Sprint_int revOrderNum ++ " <= "
                ++ Sprint_int (Version.RevisionOrderNumber l))))
      else ret None
  | _, _ => ret (errors_Wrap err "Error getting latest version")
  end.

(** The scan of [lastActivated.BuildVariants] for the status of the variant
    that is activated, stopping at the first. *)
Definition lastActivationOf (lastActivated : option Version.t) (name : string)
  : option Time :=
  match lastActivated with
  | None => None
  | Some la =>
      option_map BuildStatus.ActivateAt
        (find (fun buildStatus =>
                 String.eqb (BuildStatus.BuildVariant buildStatus) name
                 && BuildStatus.Activated buildStatus)
              (Version.BuildVariants la))
  end.

(** One round of the loop of createVersionItems over the build variants:
    the updated version, and the error of an early return. *)
Definition createVersionItems_variant (ref : ProjectRef.t)
    (project : Project.t) (taskIds : TaskIdTable) (v : Version.t)
    (buildvariant : BuildVariant.t) : M (Version.t * option error) :=
  if BuildVariant.Disabled buildvariant then ret (v, None)
  else
    '(buildId, err) <-
       model_CreateBuildFromVersion project v taskIds
         (BuildVariant.Name buildvariant) ;;
    match err with
    | Some e => ret (v, Some (withStack e))
    | None =>
        '(lastActivated, err) <-
           version_FindOne
             (ByLastVariantActivation (ProjectRef.Identifier ref)
                (BuildVariant.Name buildvariant)) ;;
        match err with
        | Some e =>
            ret (v, Some (withMessage e
                            "problem getting activatation time for variant"))
        | None =>
            activateAt <-
              match lastActivationOf lastActivated
                      (BuildVariant.Name buildvariant) with
              | None => ask (time_Now env)
              | Some lastActivation =>
                  ret (Time_Add lastActivation
                         (Duration_mul time_Minute
                            (GetBatchTime ref buildvariant)))
              end ;;
            grip_log Debug "activating build" (Version.Id v) ;;;
            ret (Version.add_build buildId
                   (BuildStatus.mk (BuildVariant.Name buildvariant) false
                      activateAt buildId) v, None)
        end
    end.

Fixpoint createVersionItems_builds (ref : ProjectRef.t) (project : Project.t)
    (taskIds : TaskIdTable) (v : Version.t) (bvs : list BuildVariant.t)
  : M (Version.t * option error) :=
  match bvs with
  | [] => ret (v, None)
  | buildvariant :: rest =>
      '(v', err) <- createVersionItems_variant ref project taskIds v
                      buildvariant ;;
      match err with
      | Some e => ret (v', Some e)
      | None => createVersionItems_builds ref project taskIds v' rest
      end
  end.

(** The compensating deletes after a failed insert of the version. *)
Fixpoint delete_builds (versionId : string) (bss : list BuildStatus.t)
  : M unit :=
  match bss with
  | [] => ret tt
  | buildStatus :: rest =>
      buildErr <- model_DeleteBuild (BuildStatus.BuildId buildStatus) ;;
      grip_WrapError Error buildErr "issue deleting build" versionId ;;;
      delete_builds versionId rest
  end.

(** createVersionItems populates and stores all the tasks and builds for a
    version according to the given project config. The version is a
    pointer in the source: the caller sees the builds appended to it, so it
    is returned next to the error. *)
Definition createVersionItems (v : Version.t) (ref : ProjectRef.t)
    (project : Project.t) : M (Version.t * option error) :=
  let taskIds := model_NewTaskIdTable project v in
  '(v', err) <- createVersionItems_builds ref project taskIds v
                  (Project.BuildVariants project) ;;
  match err with
  | Some e => ret (v', Some e)
  | None =>
      err <- Version_Insert v' ;;
      match err with
      | Some e =>
          if negb (db_IsDuplicateKey e) then
            grip_log Error "problem inserting version" (Version.Id v') ;;;
            delete_builds (Version.Id v') (Version.BuildVariants v') ;;;
            ret (v', Some (withStack e))
          else ret (v', None)
      | None => ret (v', None)
      end
  end.

Definition messages_of (l : ValidationError.Level)
    (verrs : list ValidationError.t) : list string :=
  map ValidationError.Message
    (filter (fun e => match ValidationError.level e, l with
                      | ValidationError.Warning, ValidationError.Warning
                      | ValidationError.Error, ValidationError.Error => true
                      | _, _ => false
                      end) verrs).

(** CreateVersionFromConfig. [config] is a pointer that may be nil; [ref]
    is never nil at the call of StoreRevisions. A nil slice is the empty
    list, so the guards [versionErrs.Warnings != nil] and
    [versionErrs.Errors != nil] around the appends make no difference. *)
Definition CreateVersionFromConfig (ref : ProjectRef.t)
    (config : option Project.t) (rev : Revision.t) (ignore : bool)
    (versionErrs : option VersionErrors)
  : M (option Version.t * option error) :=
  match config with
  | None =>
      ret (None, Some (errorString "project ref and project cannot be nil"))
  | Some config =>
      '(v, err) <- shellVersionFromRevision ref rev ;;
      match err, v with
      | Some e, _ =>
          ret (None, Some (withMessage e "unable to create shell version"))
      | None, None => panic "nil pointer dereference: v.RevisionOrderNumber"
      | None, Some v =>
          err <- sanityCheckOrderNum (Version.RevisionOrderNumber v)
                   (ProjectRef.Identifier ref) (Revision.Revision rev) ;;
          match err with
          | Some e =>
              ret (None, Some (withMessage e "inconsistent version order"))
          | None =>
              let '(configYaml, err) := yaml_Marshal env config in
              match err with
              | Some e =>
                  ret (None, Some (withMessage e "error marshaling config"))
              | None =>
                  let v := Version.set_Ignored ignore
                             (Version.set_Config configYaml v) in
                  let '(verrs, err) :=
                    validator_CheckProjectSyntax env config in
                  match err with
                  | Some e =>
                      ret (None,
                           Some (withMessage e "error validating project"))
                  | None =>
                      let expand := fun v : Version.t =>
                        '(v', err) <- createVersionItems v ref config ;;
                        ret (Some v',
                             errors_Wrap err "error creating version items") in
                      if Nat.ltb 0 (List.length verrs)
                         || match versionErrs with
                            | Some _ => true
                            | None => false
                            end
                      then
                        let projectWarnings :=
                          messages_of ValidationError.Warning verrs in
                        let projectErrors :=
                          messages_of ValidationError.Error verrs in
                        let v :=
                          match versionErrs with
                          | Some ve =>
                              Version.set_Errors
                                (projectErrors ++ VersionErrors_Errors ve)
                                (Version.set_Warnings
                                   (projectWarnings
                                      ++ VersionErrors_Warnings ve) v)
                          | None =>
                              Version.set_Errors projectErrors
                                (Version.set_Warnings projectWarnings v)
                          end in
                        if Nat.ltb 0 (List.length (Version.Errors v)) then
                          err <- Version_Insert v ;;
                          ret (Some v,
                               errors_Wrap err "error inserting version")
                        else expand v
                      else expand v
                  end
              end
          end
      end
  end.

Definition makeBuildBreakSubscriber (userID : string)
  : M (option Subscriber.t * option error) :=
  '(u, err) <- ask (user_FindOne env userID) ;;
  match err, u with
  | Some e, _ => ret (None, Some (withMessage e "unable to find user"))
  | None, None =>
      ret (None, Some (errorString ("user " ++ userID ++ " does not exist")))
  | None, Some u =>
      let preference := DBUser.BuildBreak u in
      if negb (String.eqb preference "") then
        if String.eqb preference PreferenceEmail then
          ret (Some (Subscriber.mk preference (DBUser.EmailAddress u)), None)
        else if String.eqb preference PreferenceSlack then
          ret (Some (Subscriber.mk preference (DBUser.SlackUsername u)), None)
        else
          ret (None,
               Some (errorString
                       ("invalid subscription preference for build break: "
                        ++ preference)))
      else ret (None, None)
  end.

Definition newline : string := String (Ascii.ascii_of_nat 10) EmptyString.

(** The grip catcher: the errors added so far; Resolve is nil when there is
    none. *)
Definition catcher_Add (catcher : list error) (err : option error)
  : list error :=
  match err with
  | None => catcher
  | Some e => catcher ++ [e]
  end.

Definition catcher_Resolve (catcher : list error) : option error :=
  match catcher with
  | [] => None
  | _ => Some (errorString (String.concat newline
                              (map error_message catcher)))
  end.

Fixpoint admin_subscribers (admins : list string)
    (subscribers : list Subscriber.t) (catcher : list error)
  : M (list Subscriber.t * list error) :=
  match admins with
  | [] => ret (subscribers, catcher)
  | admin :: rest =>
      '(subscriber, err) <- makeBuildBreakSubscriber admin ;;
      match err, subscriber with
      | Some e, _ => admin_subscribers rest subscribers (catcher ++ [e])
      | None, Some s => admin_subscribers rest (subscribers ++ [s]) catcher
      | None, None => admin_subscribers rest subscribers catcher
      end
  end.

Fixpoint upsert_all (subscriptionBase : Subscriber.t -> Subscription.t)
    (subscribers : list Subscriber.t) (catcher : list error)
  : M (list error) :=
  match subscribers with
  | [] => ret catcher
  | subscriber :: rest =>
      err <- Subscription_Upsert (subscriptionBase subscriber) ;;
      upsert_all subscriptionBase rest (catcher_Add catcher err)
  end.

Definition addBuildBreakSubscriptions (v : Version.t)
    (projectRef : ProjectRef.t) : M (option error) :=
  let subscriptionBase := fun subscriber =>
    Subscription.mk ResourceTypeVersion "build-break"
      [("object", "task");
       ("project", ProjectRef.Identifier projectRef);
       ("requester", RepotrackerVersionRequester)]
      subscriber in
  (* the commit author: [Some catcher] to go on, [None] for [return nil] *)
  authorCheck <-
    (if negb (String.eqb (Version.AuthorID v) "") then
       '(author, err) <- ask (user_FindOne env (Version.AuthorID v)) ;;
       match err, author with
       | Some e, _ => ret (Some [withMessage e "unable to retrieve user"])
       | None, None => panic "nil pointer dereference: author.Settings"
       | None, Some a =>
           if negb (String.eqb (DBUser.BuildBreakID a) "") then ret None
           else ret (Some [])
       end
     else ret (Some [])) ;;
  match authorCheck with
  | None => ret None
  | Some catcher =>
      if negb (ProjectRef.NotifyOnBuildFailure projectRef) then ret None
      else
        '(subscribers, catcher) <-
           admin_subscribers (ProjectRef.Admins projectRef) [] catcher ;;
        catcher <- upsert_all subscriptionBase subscribers catcher ;;
        ret (catcher_Resolve catcher)
  end.

(** What one round of the loop of StoreRevisions decides: [continue] (or
    the end of the body) with the newest version so far, or [return]. *)
Inductive LoopCtl : Type :=
| Continue (newestVersion : option Version.t)
| Return (result : option Version.t * option error).

(** The end of the loop body: create the version, subscribe to build
    breaks, and bind the newest version. *)
Definition StoreRevisions_create (repoTracker : RepoTracker)
    (rev : Revision.t) (project : option Project.t) (ignore : bool)
    (versionErrs : option VersionErrors) (newestVersion : option Version.t)
  : M LoopCtl :=
  let ref := RepoTracker_ProjectRef repoTracker in
  let revision := Revision.Revision rev in
  '(v, err) <- CreateVersionFromConfig ref project rev ignore versionErrs ;;
  match err with
  | Some _ =>
      grip_log Error "error creating version" revision ;;;
      ret (Continue newestVersion)
  | None =>
      match v with
      | None => panic "nil pointer dereference: v.AuthorID"
      | Some v =>
          err <- addBuildBreakSubscriptions v ref ;;
          match err with
          | Some _ =>
              grip_log Error "error creating build break subscriptions"
                revision ;;;
              ret (Continue newestVersion)
          | None => ret (Continue (Some v))
          end
      end
  end.

(** The ignore check and what follows it. *)
Definition StoreRevisions_ignore (repoTracker : RepoTracker)
    (rev : Revision.t) (project : option Project.t)
    (versionErrs : option VersionErrors) (newestVersion : option Version.t)
  : M LoopCtl :=
  let revision := Revision.Revision rev in
  match project with
  | None => panic "nil pointer dereference: project.Ignore"
  | Some p =>
      if Nat.ltb 0 (List.length (Project.Ignore p)) then
        '(filenames, err) <-
           ask (GetChangedFiles (RepoTracker_RepoPoller repoTracker)
                  revision) ;;
        match err with
        | Some _ =>
            grip_log Error "error checking GitHub for ignored files"
              revision ;;;
            ret (Continue newestVersion)
        | None =>
            StoreRevisions_create repoTracker rev project
              (IgnoresAllFiles env p filenames) versionErrs newestVersion
        end
      else
        StoreRevisions_create repoTracker rev project false versionErrs
          newestVersion
  end.

(** The stub version of a revision whose configuration is invalid. *)
Definition StoreRevisions_stub (repoTracker : RepoTracker) (rev : Revision.t)
    (versionErrs : VersionErrors) : M LoopCtl :=
  let ref := RepoTracker_ProjectRef repoTracker in
  let revision := Revision.Revision rev in
  '(stubVersion, dbErr) <- shellVersionFromRevision ref rev ;;
  grip_WrapError Error dbErr "error creating shell version" revision ;;;
  match stubVersion with
  | None => panic "nil pointer dereference: stubVersion.Errors"
  | Some stubVersion =>
      let stubVersion :=
        Version.set_Warnings (VersionErrors_Warnings versionErrs)
          (Version.set_Errors (VersionErrors_Errors versionErrs)
             stubVersion) in
      err <- Version_Insert stubVersion ;;
      grip_WrapError Error err "error inserting shell version" revision ;;;
      ret (Continue (Some stubVersion))
  end.

(** The body of the loop of StoreRevisions, for [revisions[i]]. *)
Definition StoreRevisions_revision (repoTracker : RepoTracker)
    (rev : Revision.t) (newestVersion : option Version.t) : M LoopCtl :=
  let ref := RepoTracker_ProjectRef repoTracker in
  let revision := Revision.Revision rev in
  grip_log Info "Processing revision" revision ;;;
  '(existingVersion, err) <-
     version_FindOne
       (ByProjectIdAndRevision (ProjectRef.Identifier ref) revision) ;;
  grip_WrapError Error err "problem looking up version for project"
    revision ;;;
  match existingVersion with
  | Some ev =>
      grip_log Info "skipping creating version because it already exists"
        revision ;;;
      ret (Continue (Some ev))
  | None =>
      '(project, err) <- GetProjectConfig repoTracker revision ;;
      match err with
      | Some (projectConfigError errs warns) =>
          let versionErrs := mkVersionErrors errs warns in
          if Nat.ltb 0 (List.length (VersionErrors_Errors versionErrs)) then
            StoreRevisions_stub repoTracker rev versionErrs
          else
            StoreRevisions_ignore repoTracker rev project (Some versionErrs)
              newestVersion
      | Some e =>
          grip_log Error "error getting project config" revision ;;;
          ret (Return (None, Some e))
      | None =>
          StoreRevisions_ignore repoTracker rev project None newestVersion
      end
  end.

(** The loop [for i := len(revisions) - 1; i >= 0; i--], over the revisions
    in the order it visits them (oldest first). *)
Fixpoint StoreRevisions_loop (repoTracker : RepoTracker)
    (oldestFirst : list Revision.t) (newestVersion : option Version.t)
  : M (option Version.t * option error) :=
  match oldestFirst with
  | [] => ret (newestVersion, None)
  | rev :: rest =>
      ctl <- StoreRevisions_revision repoTracker rev newestVersion ;;
      match ctl with
      | Continue newestVersion' =>
          StoreRevisions_loop repoTracker rest newestVersion'
      | Return result => ret result
      end
  end.

(** StoreRevisions constructs all versions stored from recent repository
    revisions, given newest first. The deferred function re-reads the
    newest version when the result is not nil. *)
Definition StoreRevisions (repoTracker : RepoTracker)
    (revisions : list Revision.t) : M (option Version.t * option error) :=
  '(newestVersion, err) <-
     StoreRevisions_loop repoTracker (rev revisions) None ;;
  match newestVersion with
  | Some nv => version_FindOne (ById (Version.Id nv))
  | None => ret (None, err)
  end.

(** FetchRevisions runs the pipeline for the project of the tracker: it
    polls the repository, stores the revisions and advances the watermark.
    [projectRef.String()] is the identifier of the project. *)
Definition FetchRevisions (repoTracker : RepoTracker) : M (option error) :=
  let settings := RepoTracker_Settings repoTracker in
  let projectRef := RepoTracker_ProjectRef repoTracker in
  let poller := RepoTracker_RepoPoller repoTracker in
  let projectIdentifier := ProjectRef.Identifier projectRef in
  if negb (ProjectRef.Enabled projectRef) then
    grip_log Info "skip disabled project" "" ;;;
    ret None
  else
    '(repository, err) <- model_FindRepository projectIdentifier ;;
    match err with
    | Some e =>
        ret (Some (withMessage e
                     ("error finding repository '" ++ projectIdentifier
                      ++ "'")))
    | None =>
        let lastRevision :=
          match repository with
          | Some r => Repository.LastRevision r
          | None => ""
          end in
        (* [None] stands for the early [return nil] *)
        polled <-
          (if String.eqb lastRevision "" then
             let numRevisions :=
               if Settings.NumNewRepoRevisionsToFetch settings <=? 0
               then DefaultNumNewRepoRevisionsToFetch
               else Settings.NumNewRepoRevisionsToFetch settings in
             grip_log Debug
               "no last recorded revision, using most recent revisions" "" ;;;
             r <- ask (GetRecentRevisions poller numRevisions) ;;
             ret (Some r)
           else
             grip_log Debug "found last recorded revision" lastRevision ;;;
             if match ProjectRef.RepotrackerError projectRef with
                | Some re => RepotrackerError.Exists re
                | None => false
                end
             then
               grip_log Warning "repotracker error for base revision" "" ;;;
               ret None
             else
               let max :=
                 if Settings.MaxRepoRevisionsToSearch settings <=? 0
                 then DefaultMaxRepoRevisionsToSearch
                 else Settings.MaxRepoRevisionsToSearch settings in
               r <- ask (GetRevisionsSince poller lastRevision max) ;;
               ret (Some r)) ;;
        match polled with
        | None => ret None
        | Some (_, Some _) =>
            grip_log Error "problem fetching revisions for repository" "" ;;;
            ret None
        | Some (revisions, None) =>
            stored <-
              (if Nat.ltb 0 (List.length revisions) then
                 '(lastVersion, err) <- StoreRevisions repoTracker revisions ;;
                 match err with
                 | Some e =>
                     grip_log Error
                       "problem sorting revisions for repository" "" ;;;
                     ret (Some (withStack e))
                 | None =>
                     match lastVersion with
                     | None =>
                         panic "nil pointer dereference: lastVersion.Identifier"
                     | Some lv =>
                         err <- model_UpdateLastRevision
                                  (Version.Identifier lv)
                                  (Version.Revision lv) ;;
                         match err with
                         | Some e =>
                             grip_log Error
                               "problem updating last revision for repository"
                               "" ;;;
                             ret (Some (withStack e))
                         | None => ret None
                         end
                     end
                 end
               else ret None) ;;
            match stored with
            | Some e => ret (Some e)
            | None =>
                err <- (fun w =>
                          let '(w', e) :=
                            model_DoProjectActivation env projectIdentifier w in
                          Ret e w') ;;
                match err with
                | Some e =>
                    grip_log Error
                      "problem activating recent commit for project" "" ;;;
                    ret (Some (withStack e))
                | None => ret None
                end
            end
        end
    end.

End Pipeline.

(** What the fetch of the remote config of a revision answers: a config,
    or an error about the file itself. *)
Inductive Resolution : Type :=
| resolves (c : Project.t)
| unusable (e : error).

(** ** A concrete store and collaborators, to run the pipeline *)

Module Sample.

Definition empty_world : World :=
  mkWorld [] [] [] (fun _ => None) [] [].

(** Collaborators that never fail: no users, a validator without
    diagnostics, a pattern that ignores exactly the files it names. *)
Definition env_with
    (insert_fault : Version.t -> World -> option error)
    (delete_fault : string -> World -> option error)
    (validate : Project.t -> list ValidationError.t * option error)
    (now : World -> Time) : Env :=
  {| FindOne_fault := fun _ _ => None;
     Insert_fault := insert_fault;
     NewOrderNumber_result := fun _ _ => inr 0%nat;
     CreateBuild_fault := fun _ _ _ => None;
     DeleteBuild_fault := delete_fault;
     FindRepository_fault := fun _ _ => None;
     UpdateLastRevision_fault := fun _ _ _ => None;
     Upsert_fault := fun _ _ => None;
     user_FindByGithubUID := fun _ _ => (None, None);
     user_FindOne := fun _ _ => (None, None);
     model_FindProject := fun _ _ => (None, Some (errorString "no file"));
     model_DoProjectActivation := fun _ w => (w, None);
     validator_CheckProjectSyntax := validate;
     yaml_Marshal := fun p => (Project.Source p, None);
     IgnoresAllFiles := fun p files =>
       forallb (fun f => existsb (String.eqb f) (Project.Ignore p)) files;
     util_CleanName := fun s => s;
     Fields_String := fun _ revision _ =>
       "problem finding project configuration at " ++ revision;
     BuildId_of := fun v name => Version.Id v ++ "_" ++ name;
     TaskId_of := fun v name t => Version.Id v ++ "_" ++ name ++ "_" ++ t;
     time_Now := now |}.

Definition env : Env :=
  env_with (fun _ _ => None) (fun _ _ => None) (fun _ => ([], None))
           (fun _ => 5000).

Definition ref : ProjectRef.t :=
  {| ProjectRef.Owner := "evergreen-ci";
     ProjectRef.Repo := "sample";
     ProjectRef.Branch := "master";
     ProjectRef.RepoKind := "github";
     ProjectRef.Enabled := true;
     ProjectRef.BatchTime := 60;
     ProjectRef.RemotePath := "evergreen.yml";
     ProjectRef.Identifier := "proj";
     ProjectRef.LocalConfig := "";
     ProjectRef.Admins := [];
     ProjectRef.NotifyOnBuildFailure := false;
     ProjectRef.RepotrackerError := None |}.

Definition linux : BuildVariant.t :=
  BuildVariant.mk "linux-64" false None ["compile"; "test"].

Definition osx_disabled : BuildVariant.t :=
  BuildVariant.mk "osx" true (Some 30) ["compile"].

Definition config (ignore : list string) : Project.t :=
  Project.mk "proj" ignore [linux; osx_disabled] "buildvariants: ...".

Definition revision (r : string) (t : Time) : Revision.t :=
  Revision.mk "author" 7 "author@example.com" ("commit " ++ r) r t.

Definition settings : Settings.t := Settings.mk 0 0.

(** A poller that answers [remote] and [changed] per revision and
    always polls the same [batch]. *)
Definition poller
    (remote : string -> option Project.t * option error)
    (changed : string -> list string * option error)
    (batch : list Revision.t) : RepoPoller :=
  {| GetRemoteConfig := fun r _ => remote r;
     GetChangedFiles := fun r _ => changed r;
     GetRevisionsSince := fun _ _ _ => (batch, None);
     GetRecentRevisions := fun _ _ => (batch, None) |}.

Definition tracker (p : RepoPoller) : RepoTracker :=
  mkRepoTracker settings ref p.

Definition r1 : Revision.t := revision "r1" 100.
Definition r2 : Revision.t := revision "r2" 200.
Definition r3 : Revision.t := revision "r3" 300.

(** The remote config is missing at the revisions [missing]. *)
Definition remote_without (missing : list string) (ignore : list string)
  : string -> option Project.t * option error :=
  fun r => if existsb (String.eqb r) missing
           then (None, Some (FileNotFoundError "evergreen.yml not found"))
           else (Some (config ignore), None).

Definition no_changes : string -> list string * option error :=
  fun _ => ([], None).

(** Inserts of the versions of revision [r] fail. *)
Definition insert_fails_for (r : string)
  : Version.t -> World -> option error :=
  fun v _ => if String.eqb (Version.Revision v) r
             then Some (errorString "connection reset") else None.

Definition env_insert_fails (r : string) : Env :=
  env_with (insert_fails_for r) (fun _ _ => None) (fun _ => ([], None))
           (fun _ => 5000).

Definition version_of (r : string) (order : Z)
    (statuses : list BuildStatus.t) : Version.t :=
  {| Version.Id := "proj_" ++ r;
     Version.CreateTime := 0;
     Version.Revision := r;
     Version.Author := "author";
     Version.AuthorEmail := "author@example.com";
     Version.AuthorID := "";
     Version.Message := "commit " ++ r;
     Version.Status := VersionCreated;
     Version.RevisionOrderNumber := order;
     Version.Config := "buildvariants: ...";
     Version.Ignored := false;
     Version.Owner := "evergreen-ci";
     Version.Repo := "sample";
     Version.Branch := "master";
     Version.RepoKind := "github";
     Version.BuildVariants := statuses;
     Version.BuildIds := map BuildStatus.BuildId statuses;
     Version.Identifier := "proj";
     Version.RemotePath := "evergreen.yml";
     Version.Requester := RepotrackerVersionRequester;
     Version.Warnings := [];
     Version.Errors := [] |}.

(** A store with the versions [vs] of the project, its counter at
    [counter] and its watermark at [last]. *)
Definition world_of_versions (vs : list Version.t) (counter : Z)
    (last : string) : World :=
  mkWorld vs [] []
    (fun q => if String.eqb q "proj"
              then Some (Repository.mk "proj" last counter) else None)
    [] [].

Definition changes_fail : string -> list string * option error :=
  fun _ => ([], Some (ResponseReadError "connection closed")).

Definition changes (files : list string)
  : string -> list string * option error :=
  fun _ => (files, None).

(** One stored version, of order number 3, and a counter left at 2. *)
Definition stale_world : World :=
  world_of_versions [version_of "r0" 3 []] 2 "r0".

(** One stored version whose build of linux-64 was activated at 1000. *)
Definition activated_world : World :=
  world_of_versions
    [version_of "r0" 1 [BuildStatus.mk "linux-64" true 1000 "proj_r0_linux-64"]]
    1 "r0".

Definition windows : BuildVariant.t :=
  BuildVariant.mk "windows" false (Some 30) ["compile"].

(** A config with two enabled variants and a disabled one. *)
Definition config2 : Project.t :=
  Project.mk "proj" [] [linux; osx_disabled; windows] "buildvariants: ...".

(** Every remote config is there; no ignore patterns. *)
Definition tracker_plain : RepoTracker :=
  tracker (poller (remote_without [] []) no_changes []).

(** The remote config is missing at r2. *)
Definition tracker_r2_missing : RepoTracker :=
  tracker (poller (remote_without ["r2"] []) no_changes []).

(** The remote config is missing at r1; the poll returns r2 and r1. *)
Definition tracker_r1_missing : RepoTracker :=
  tracker (poller (remote_without ["r1"] []) no_changes [r2; r1]).

(** The fetch of the config of r2 fails on a malformed API response; the
    poll returns r3, r2 and r1. *)
Definition tracker_r2_unreadable : RepoTracker :=
  tracker
    (poller (fun r => if String.eqb r "r2"
                      then (None, Some (APIUnmarshalError "unexpected JSON"))
                      else (Some (config []), None))
            no_changes [r3; r2; r1]).

(** The config ignores README.md; the fetch of the changed files fails. *)
Definition tracker_changes_fail : RepoTracker :=
  tracker (poller (remote_without [] ["README.md"]) changes_fail []).

(** The config ignores README.md, the only file the revisions change. *)
Definition tracker_readme_only : RepoTracker :=
  tracker (poller (remote_without [] ["README.md"]) (changes ["README.md"])
             []).

(** The store after a first run over r3, r2, r1 with the config of r2
    missing. *)
Definition after_first_run : World :=
  world_of (StoreRevisions env tracker_r2_missing [r3; r2; r1] empty_world).

(** One stored version whose build of linux-64 is recorded to be activated
    at 1000 and was not activated yet. *)
Definition pending_world : World :=
  world_of_versions
    [version_of "r0" 1 [BuildStatus.mk "linux-64" false 1000 "proj_r0_linux-64"]]
    1 "r0".

(** One stored version, of order number 5, and a counter left at 2. *)
Definition ahead_world : World :=
  world_of_versions [version_of "r0" 5 []] 2 "r0".

(** The collaborators of [env], with lookups of a version by project and
    revision that fail. *)
Definition env_lookup_fails : Env :=
  {| FindOne_fault := fun q _ =>
       match q with
       | ByProjectIdAndRevision _ _ =>
           Some (None, errorString "connection reset")
       | _ => None
       end;
     Insert_fault := Insert_fault env;
     NewOrderNumber_result := NewOrderNumber_result env;
     CreateBuild_fault := CreateBuild_fault env;
     DeleteBuild_fault := DeleteBuild_fault env;
     FindRepository_fault := FindRepository_fault env;
     UpdateLastRevision_fault := UpdateLastRevision_fault env;
     Upsert_fault := Upsert_fault env;
     user_FindByGithubUID := user_FindByGithubUID env;
     user_FindOne := user_FindOne env;
     model_FindProject := model_FindProject env;
     model_DoProjectActivation := model_DoProjectActivation env;
     validator_CheckProjectSyntax := validator_CheckProjectSyntax env;
     yaml_Marshal := yaml_Marshal env;
     IgnoresAllFiles := IgnoresAllFiles env;
     util_CleanName := util_CleanName env;
     Fields_String := Fields_String env;
     BuildId_of := BuildId_of env;
     TaskId_of := TaskId_of env;
     time_Now := time_Now env |}.

(** The store after a run over r2 and r1, both with a config. *)
Definition two_stored : World :=
  world_of (StoreRevisions env tracker_plain [r2; r1] empty_world).

(** What the fetch of the remote config answers when it is missing at r2
    only. *)
Definition r2_missing (r : string) : Resolution :=
  if String.eqb r "r2"
  then unusable (FileNotFoundError "evergreen.yml not found")
  else resolves (config []).

End Sample.

(** ** More trackers and stores, to run the pipeline *)

Module Demo.

(** The config ignores README.md and the fetch of the changed files fails;
    the poll returns r2 and r1. *)
Definition tracker_changes_fail : RepoTracker :=
  Sample.tracker
    (Sample.poller (Sample.remote_without [] ["README.md"]) Sample.changes_fail
       [Sample.r2; Sample.r1]).

(** The order-number counter is out of reach. *)
Definition env_counter_fails : Env :=
  {| FindOne_fault := fun _ _ => None;
     Insert_fault := fun _ _ => None;
     NewOrderNumber_result := fun _ _ => inl (errorString "no reachable servers");
     CreateBuild_fault := fun _ _ _ => None;
     DeleteBuild_fault := fun _ _ => None;
     FindRepository_fault := fun _ _ => None;
     UpdateLastRevision_fault := fun _ _ _ => None;
     Upsert_fault := fun _ _ => None;
     user_FindByGithubUID := fun _ _ => (None, None);
     user_FindOne := fun _ _ => (None, None);
     model_FindProject := fun _ _ => (None, Some (errorString "no file"));
     model_DoProjectActivation := fun _ w => (w, None);
     validator_CheckProjectSyntax := fun _ => ([], None);
     yaml_Marshal := fun p => (Project.Source p, None);
     IgnoresAllFiles := fun p files =>
       forallb (fun f => existsb (String.eqb f) (Project.Ignore p)) files;
     util_CleanName := fun s => s;
     Fields_String := fun _ revision _ =>
       "problem finding project configuration at " ++ revision;
     BuildId_of := fun v name => Version.Id v ++ "_" ++ name;
     TaskId_of := fun v name t => Version.Id v ++ "_" ++ name ++ "_" ++ t;
     time_Now := fun _ => 5000 |}.

(** Every remote config is there, without ignore patterns; the poll
    returns r2 and r1. *)
Definition tracker_batch : RepoTracker :=
  Sample.tracker
    (Sample.poller (Sample.remote_without [] []) Sample.no_changes
       [Sample.r2; Sample.r1]).

(** A project with a local config. *)
Definition ref_local : ProjectRef.t :=
  {| ProjectRef.Owner := "evergreen-ci";
     ProjectRef.Repo := "sample";
     ProjectRef.Branch := "master";
     ProjectRef.RepoKind := "github";
     ProjectRef.Enabled := true;
     ProjectRef.BatchTime := 60;
     ProjectRef.RemotePath := "evergreen.yml";
     ProjectRef.Identifier := "proj";
     ProjectRef.LocalConfig := "local.yml";
     ProjectRef.Admins := [];
     ProjectRef.NotifyOnBuildFailure := false;
     ProjectRef.RepotrackerError := None |}.

Definition tracker_local : RepoTracker :=
  mkRepoTracker Sample.settings ref_local
    (Sample.poller (Sample.remote_without [] []) Sample.no_changes []).

(** A disabled project, and one with a recorded tracker error. *)
Definition ref_with (enabled : bool) (re : option RepotrackerError.t)
  : ProjectRef.t :=
  {| ProjectRef.Owner := "evergreen-ci";
     ProjectRef.Repo := "sample";
     ProjectRef.Branch := "master";
     ProjectRef.RepoKind := "github";
     ProjectRef.Enabled := enabled;
     ProjectRef.BatchTime := 60;
     ProjectRef.RemotePath := "evergreen.yml";
     ProjectRef.Identifier := "proj";
     ProjectRef.LocalConfig := "";
     ProjectRef.Admins := [];
     ProjectRef.NotifyOnBuildFailure := false;
     ProjectRef.RepotrackerError := re |}.

Definition tracker_with (ref : ProjectRef.t) : RepoTracker :=
  mkRepoTracker Sample.settings ref
    (Sample.poller (Sample.remote_without [] []) Sample.no_changes [Sample.r1]).

(** A validator that finds one error and one warning. *)
Definition env_invalid : Env :=
  Sample.env_with (fun _ _ => None) (fun _ _ => None)
    (fun _ => ([ValidationError.mk ValidationError.Error "unknown task";
                ValidationError.mk ValidationError.Warning "unused variant"],
               None))
    (fun _ => 5000).

(** The build of the variant windows cannot be created. *)
Definition env_build_fails : Env :=
  {| FindOne_fault := fun _ _ => None;
     Insert_fault := fun _ _ => None;
     NewOrderNumber_result := fun _ _ => inr 0%nat;
     CreateBuild_fault := fun _ name _ =>
       if String.eqb name "windows" then Some (errorString "disk full")
       else None;
     DeleteBuild_fault := fun _ _ => None;
     FindRepository_fault := fun _ _ => None;
     UpdateLastRevision_fault := fun _ _ _ => None;
     Upsert_fault := fun _ _ => None;
     user_FindByGithubUID := fun _ _ => (None, None);
     user_FindOne := fun _ _ => (None, None);
     model_FindProject := fun _ _ => (None, Some (errorString "no file"));
     model_DoProjectActivation := fun _ w => (w, None);
     validator_CheckProjectSyntax := fun _ => ([], None);
     yaml_Marshal := fun p => (Project.Source p, None);
     IgnoresAllFiles := fun p files =>
       forallb (fun f => existsb (String.eqb f) (Project.Ignore p)) files;
     util_CleanName := fun s => s;
     Fields_String := fun _ revision _ =>
       "problem finding project configuration at " ++ revision;
     BuildId_of := fun v name => Version.Id v ++ "_" ++ name;
     TaskId_of := fun v name t => Version.Id v ++ "_" ++ name ++ "_" ++ t;
     time_Now := fun _ => 5000 |}.

(** Users: alice takes e-mail and has a build-break subscription of her
    own, bob takes Slack, carol has no preference, dave has one that is
    neither. *)
Definition users (id : string) : option DBUser.t * option error :=
  if String.eqb id "alice"
  then (Some (DBUser.mk "alice" "alice@example.com" "alice" "email" "sub-1"),
        None)
  else if String.eqb id "bob"
  then (Some (DBUser.mk "bob" "bob@example.com" "bob.s" "slack" ""), None)
  else if String.eqb id "carol"
  then (Some (DBUser.mk "carol" "carol@example.com" "carol" "" ""), None)
  else if String.eqb id "dave"
  then (Some (DBUser.mk "dave" "dave@example.com" "dave" "pager" ""), None)
  else (None, None).

Definition env_users : Env :=
  {| FindOne_fault := fun _ _ => None;
     Insert_fault := fun _ _ => None;
     NewOrderNumber_result := fun _ _ => inr 0%nat;
     CreateBuild_fault := fun _ _ _ => None;
     DeleteBuild_fault := fun _ _ => None;
     FindRepository_fault := fun _ _ => None;
     UpdateLastRevision_fault := fun _ _ _ => None;
     Upsert_fault := fun _ _ => None;
     user_FindByGithubUID := fun _ _ => (None, None);
     user_FindOne := fun id _ => users id;
     model_FindProject := fun _ _ => (None, Some (errorString "no file"));
     model_DoProjectActivation := fun _ w => (w, None);
     validator_CheckProjectSyntax := fun _ => ([], None);
     yaml_Marshal := fun p => (Project.Source p, None);
     IgnoresAllFiles := fun p files =>
       forallb (fun f => existsb (String.eqb f) (Project.Ignore p)) files;
     util_CleanName := fun s => s;
     Fields_String := fun _ revision _ =>
       "problem finding project configuration at " ++ revision;
     BuildId_of := fun v name => Version.Id v ++ "_" ++ name;
     TaskId_of := fun v name t => Version.Id v ++ "_" ++ name ++ "_" ++ t;
     time_Now := fun _ => 5000 |}.

(** A project that notifies its admins of build failures. *)
Definition ref_notifying : ProjectRef.t :=
  {| ProjectRef.Owner := "evergreen-ci";
     ProjectRef.Repo := "sample";
     ProjectRef.Branch := "master";
     ProjectRef.RepoKind := "github";
     ProjectRef.Enabled := true;
     ProjectRef.BatchTime := 60;
     ProjectRef.RemotePath := "evergreen.yml";
     ProjectRef.Identifier := "proj";
     ProjectRef.LocalConfig := "";
     ProjectRef.Admins := ["alice"; "nobody"; "bob"; "carol"];
     ProjectRef.NotifyOnBuildFailure := true;
     ProjectRef.RepotrackerError := None |}.

End Demo.
(** * REST models of the notifications

    Package [model] of the REST layer: the API structs of a JIRA comment, a
    JIRA issue, a Slack message with its attachments and an e-mail, with
    their conversions from and to the service-level messages. *)

(** ** Go values *)

(** A slice is nil or holds elements; [append] never returns nil, and
    [range] visits the elements of a slice, none for nil. *)
Definition slice (A : Type) : Type := option (list A).

Definition append {A : Type} (s : slice A) (x : A) : slice A :=
  Some (match s with
        | None => [x]
        | Some l => (l ++ [x])%list
        end).

Definition range {A : Type} (s : slice A) : list A :=
  match s with
  | None => []
  | Some l => l
  end.

(** The result of a call that may dereference a nil pointer. *)
Inductive Go (A : Type) : Type :=
| Value (a : A)
| Panics (reason : string).
Arguments Value {A} a.
Arguments Panics {A} reason.

(** What the package takes from outside these sources: the APIString type
    with its zero value and its two conversions, and the types of the maps
    and of the callback that the conversions only copy. *)
Record Externals : Type := mkExternals {
  APIString : Type;
  nilAPIString : APIString;
  ToAPIString : string -> APIString;
  FromAPIString : APIString -> string;
  IssueFields : Type;              (* map[string]interface{} *)
  IssueCallback : Type;            (* func(string) *)
  EmailHeaders : Type              (* map[string][]string *)
}.

(** ** The service-level messages (package message) *)

Module JIRAComment.
Record t : Type := mk {
  IssueID : string;
  Body : string
}.
End JIRAComment.

Module JiraIssue.
Record t (X : Externals) : Type := mk {
  IssueKey : string;
  Project : string;
  Summary : string;
  Description : string;
  Reporter : string;
  Assignee : string;
  Type_ : string;
  Components : slice string;
  Labels : slice string;
  Fields : option (IssueFields X);
  Callback : option (IssueCallback X)
}.
Arguments mk {X}.
Arguments IssueKey {X}.
Arguments Project {X}.
Arguments Summary {X}.
Arguments Description {X}.
Arguments Reporter {X}.
Arguments Assignee {X}.
Arguments Type_ {X}.
Arguments Components {X}.
Arguments Labels {X}.
Arguments Fields {X}.
Arguments Callback {X}.
End JiraIssue.

Module SlackAttachmentField.
Record t : Type := mk {
  Title : string;
  Value : string;
  Short : bool
}.
End SlackAttachmentField.

Module SlackAttachment.
Record t : Type := mk {
  Color : string;
  Fallback : string;
  AuthorName : string;
  AuthorIcon : string;
  Title : string;
  TitleLink : string;
  Text : string;
  Fields : slice (option SlackAttachmentField.t);   (* []*SlackAttachmentField *)
  MarkdownIn : slice string;
  Footer : string
}.
End SlackAttachment.

Module Slack.
Record t : Type := mk {
  Target : string;
  Msg : string;
  Attachments : slice SlackAttachment.t
}.
End Slack.

Module Email.
Record t (X : Externals) : Type := mk {
  From : string;
  Recipients : slice string;
  Subject : string;
  Body : string;
  PlainTextContents : bool;
  Headers : option (EmailHeaders X)
}.
Arguments mk {X}.
Arguments From {X}.
Arguments Recipients {X}.
Arguments Subject {X}.
Arguments Body {X}.
Arguments PlainTextContents {X}.
Arguments Headers {X}.
End Email.

(** A value of type [interface{}] as the conversions receive and return
    it: its dynamic type is one of the message types, a pointer to one
    (possibly nil), or something else; or the interface itself is nil. *)
Inductive Service (X : Externals) : Type :=
| nil_interface
| JIRAComment_value (v : JIRAComment.t)
| JIRAComment_pointer (v : option JIRAComment.t)
| JiraIssue_value (v : JiraIssue.t X)
| JiraIssue_pointer (v : option (JiraIssue.t X))
| Slack_value (v : Slack.t)
| Slack_pointer (v : option Slack.t)
| SlackAttachment_value (v : SlackAttachment.t)
| SlackAttachment_pointer (v : option SlackAttachment.t)
| SlackAttachmentField_value (v : SlackAttachmentField.t)
| SlackAttachmentField_pointer (v : option SlackAttachmentField.t)
| Email_value (v : Email.t X)
| Email_pointer (v : option (Email.t X))
| other_value (type_name : string).
Arguments nil_interface {X}.
Arguments JIRAComment_value {X} v.
Arguments JIRAComment_pointer {X} v.
Arguments JiraIssue_value {X} v.
Arguments JiraIssue_pointer {X} v.
Arguments Slack_value {X} v.
Arguments Slack_pointer {X} v.
Arguments SlackAttachment_value {X} v.
Arguments SlackAttachment_pointer {X} v.
Arguments SlackAttachmentField_value {X} v.
Arguments SlackAttachmentField_pointer {X} v.
Arguments Email_value {X} v.
Arguments Email_pointer {X} v.
Arguments other_value {X} type_name.

(** The verb [%T]: the dynamic type of the value. *)
Definition type_name {X : Externals} (h : Service X) : string :=
  match h with
  | nil_interface => "<nil>"
  | JIRAComment_value _ => "message.JIRAComment"
  | JIRAComment_pointer _ => "*message.JIRAComment"
  | JiraIssue_value _ => "message.JiraIssue"
  | JiraIssue_pointer _ => "*message.JiraIssue"
  | Slack_value _ => "message.Slack"
  | Slack_pointer _ => "*message.Slack"
  | SlackAttachment_value _ => "message.SlackAttachment"
  | SlackAttachment_pointer _ => "*message.SlackAttachment"
  | SlackAttachmentField_value _ => "message.SlackAttachmentField"
  | SlackAttachmentField_pointer _ => "*message.SlackAttachmentField"
  | Email_value _ => "message.Email"
  | Email_pointer _ => "*message.Email"
  | other_value n => n
  end.

Definition unsupported {X : Externals} (h : Service X) : error :=
  errorString (type_name h ++ " is not a supported expansion type").

(** ** The API structs *)

Module APIJiraComment.
Record t (X : Externals) : Type := mk {
  IssueID : APIString X;
  Body : APIString X
}.
Arguments mk {X}.
Arguments IssueID {X}.
Arguments Body {X}.
End APIJiraComment.

Module APIJiraIssue.
Record t (X : Externals) : Type := mk {
  IssueKey : APIString X;
  Project : APIString X;
  Summary : APIString X;
  Description : APIString X;
  Reporter : APIString X;
  Assignee : APIString X;
  Type_ : APIString X;
  Components : slice (APIString X);
  Labels : slice (APIString X);
  Fields : option (IssueFields X);
  Callback : option (IssueCallback X)
}.
Arguments mk {X}.
Arguments IssueKey {X}.
Arguments Project {X}.
Arguments Summary {X}.
Arguments Description {X}.
Arguments Reporter {X}.
Arguments Assignee {X}.
Arguments Type_ {X}.
Arguments Components {X}.
Arguments Labels {X}.
Arguments Fields {X}.
Arguments Callback {X}.
End APIJiraIssue.

Module APISlackAttachmentField.
Record t (X : Externals) : Type := mk {
  Title : APIString X;
  Value : APIString X;
  Short : bool
}.
Arguments mk {X}.
Arguments Title {X}.
Arguments Value {X}.
Arguments Short {X}.
End APISlackAttachmentField.

Module APISlackAttachment.
Record t (X : Externals) : Type := mk {
  Color : APIString X;
  Fallback : APIString X;
  AuthorName : APIString X;
  AuthorIcon : APIString X;
  Title : APIString X;
  TitleLink : APIString X;
  Text : APIString X;
  Fields : slice (option (APISlackAttachmentField.t X));
  MarkdownIn : slice (APIString X);
  Footer : APIString X
}.
Arguments mk {X}.
Arguments Color {X}.
Arguments Fallback {X}.
Arguments AuthorName {X}.
Arguments AuthorIcon {X}.
Arguments Title {X}.
Arguments TitleLink {X}.
Arguments Text {X}.
Arguments Fields {X}.
Arguments MarkdownIn {X}.
Arguments Footer {X}.
End APISlackAttachment.

Module APISlack.
Record t (X : Externals) : Type := mk {
  Target : APIString X;
  Msg : APIString X;
  Attachments : slice (APISlackAttachment.t X)
}.
Arguments mk {X}.
Arguments Target {X}.
Arguments Msg {X}.
Arguments Attachments {X}.
End APISlack.

Module APIEmail.
Record t (X : Externals) : Type := mk {
  From : APIString X;
  Recipients : slice (APIString X);
  Subject : APIString X;
  Body : APIString X;
  PlainTextContents : bool;
  Headers : option (EmailHeaders X)
}.
Arguments mk {X}.
Arguments From {X}.
Arguments Recipients {X}.
Arguments Subject {X}.
Arguments Body {X}.
Arguments PlainTextContents {X}.
Arguments Headers {X}.
End APIEmail.

(** ** The conversions *)

Section Conversions.

Variable X : Externals.

(** The loops [for _, s := range xs { out = append(out, f(s)) }]. *)
Definition append_all {A B : Type} (f : A -> B) (xs : list A) (out : slice B)
  : slice B :=
  fold_left (fun out s => append out (f s)) xs out.

(** *** APIJiraComment *)

(** BuildFromService converts from a service-level JIRAComment, given by
    value or by pointer; the receiver is returned next to the error. *)
Definition APIJiraComment_BuildFromService (c : APIJiraComment.t X)
    (h : Service X) : Go (APIJiraComment.t X * option error) :=
  let build := fun comment : JIRAComment.t =>
    Value (APIJiraComment.mk
             (ToAPIString X (JIRAComment.IssueID comment))
             (ToAPIString X (JIRAComment.Body comment)), None) in
  match h with
  | JIRAComment_value v => build v
  | JIRAComment_pointer (Some v) => build v
  | JIRAComment_pointer None => Panics "nil pointer dereference: *v"
  | _ => Value (c, Some (unsupported h))
  end.

(** ToService returns a pointer to the service-level JIRAComment. *)
Definition APIJiraComment_ToService (c : APIJiraComment.t X)
  : Service X * option error :=
  (JIRAComment_pointer
     (Some (JIRAComment.mk (FromAPIString X (APIJiraComment.IssueID c))
                           (FromAPIString X (APIJiraComment.Body c)))),
   None).

(** *** APIJiraIssue *)

Definition APIJiraIssue_BuildFromService (i : APIJiraIssue.t X)
    (h : Service X) : Go (APIJiraIssue.t X * option error) :=
  let build := fun issue : JiraIssue.t X =>
    Value
      (APIJiraIssue.mk
         (ToAPIString X (JiraIssue.IssueKey issue))
         (ToAPIString X (JiraIssue.Project issue))
         (ToAPIString X (JiraIssue.Summary issue))
         (ToAPIString X (JiraIssue.Description issue))
         (ToAPIString X (JiraIssue.Reporter issue))
         (ToAPIString X (JiraIssue.Assignee issue))
         (ToAPIString X (JiraIssue.Type_ issue))
         (match JiraIssue.Components issue with
          | Some components => append_all (ToAPIString X) components (Some [])
          | None => APIJiraIssue.Components i
          end)
         (match JiraIssue.Labels issue with
          | Some labels => append_all (ToAPIString X) labels (Some [])
          | None => APIJiraIssue.Labels i
          end)
         (JiraIssue.Fields issue)
         (JiraIssue.Callback issue), None) in
  match h with
  | JiraIssue_value v => build v
  | JiraIssue_pointer (Some v) => build v
  | JiraIssue_pointer None => Panics "nil pointer dereference: *v"
  | _ => Value (i, Some (unsupported h))
  end.

Definition APIJiraIssue_ToService (i : APIJiraIssue.t X)
  : Service X * option error :=
  (JiraIssue_pointer
     (Some (JiraIssue.mk
              (FromAPIString X (APIJiraIssue.IssueKey i))
              (FromAPIString X (APIJiraIssue.Project i))
              (FromAPIString X (APIJiraIssue.Summary i))
              (FromAPIString X (APIJiraIssue.Description i))
              (FromAPIString X (APIJiraIssue.Reporter i))
              (FromAPIString X (APIJiraIssue.Assignee i))
              (FromAPIString X (APIJiraIssue.Type_ i))
              (append_all (FromAPIString X)
                 (range (APIJiraIssue.Components i)) None)
              (append_all (FromAPIString X)
                 (range (APIJiraIssue.Labels i)) None)
              (APIJiraIssue.Fields i)
              (APIJiraIssue.Callback i))),
   None).

(** *** APISlackAttachmentField *)

Definition APISlackAttachmentField_zero : APISlackAttachmentField.t X :=
  APISlackAttachmentField.mk (nilAPIString X) (nilAPIString X) false.

Definition APISlackAttachmentField_BuildFromService
    (f : APISlackAttachmentField.t X) (h : Service X)
  : Go (APISlackAttachmentField.t X * option error) :=
  let build := fun field : SlackAttachmentField.t =>
    Value (APISlackAttachmentField.mk
             (ToAPIString X (SlackAttachmentField.Title field))
             (ToAPIString X (SlackAttachmentField.Value field))
             (SlackAttachmentField.Short field), None) in
  match h with
  | SlackAttachmentField_value v => build v
  | SlackAttachmentField_pointer (Some v) => build v
  | SlackAttachmentField_pointer None => Panics "nil pointer dereference: *v"
  | _ => Value (f, Some (unsupported h))
  end.

Definition APISlackAttachmentField_ToService (f : APISlackAttachmentField.t X)
  : Service X * option error :=
  (SlackAttachmentField_pointer
     (Some (SlackAttachmentField.mk
              (FromAPIString X (APISlackAttachmentField.Title f))
              (FromAPIString X (APISlackAttachmentField.Value f))
              (APISlackAttachmentField.Short f))),
   None).

(** *** APISlackAttachment *)

Definition APISlackAttachment_zero : APISlackAttachment.t X :=
  APISlackAttachment.mk (nilAPIString X) (nilAPIString X) (nilAPIString X)
    (nilAPIString X) (nilAPIString X) (nilAPIString X) (nilAPIString X)
    None None (nilAPIString X).

(** The loop of BuildFromService over [attachment.Fields], whose elements
    are pointers: each is converted into a fresh field, and an error ends
    the loop. *)
Fixpoint APISlackAttachment_fields
    (fields : list (option SlackAttachmentField.t))
    (out : slice (option (APISlackAttachmentField.t X)))
  : Go (slice (option (APISlackAttachmentField.t X)) * option error) :=
  match fields with
  | [] => Value (out, None)
  | f :: rest =>
      match APISlackAttachmentField_BuildFromService
              APISlackAttachmentField_zero (SlackAttachmentField_pointer f) with
      | Panics r => Panics r
      | Value (_, Some err) =>
          Value (out,
                 Some (withMessage err
                         "Error converting from slack.Attachment to model.APISlackAttachment"))
      | Value (field, None) =>
          APISlackAttachment_fields rest (append out (Some field))
      end
  end.

Definition APISlackAttachment_BuildFromService (a : APISlackAttachment.t X)
    (h : Service X) : Go (APISlackAttachment.t X * option error) :=
  let build := fun attachment : SlackAttachment.t =>
    let a1 :=
      APISlackAttachment.mk
        (ToAPIString X (SlackAttachment.Color attachment))
        (ToAPIString X (SlackAttachment.Fallback attachment))
        (ToAPIString X (SlackAttachment.AuthorName attachment))
        (ToAPIString X (SlackAttachment.AuthorIcon attachment))
        (ToAPIString X (SlackAttachment.Title attachment))
        (ToAPIString X (SlackAttachment.TitleLink attachment))
        (ToAPIString X (SlackAttachment.Text attachment))
        (APISlackAttachment.Fields a)
        (APISlackAttachment.MarkdownIn a)
        (ToAPIString X (SlackAttachment.Footer attachment)) in
    let with_fields := fun fields : slice (option (APISlackAttachmentField.t X)) =>
      APISlackAttachment.mk
        (APISlackAttachment.Color a1) (APISlackAttachment.Fallback a1)
        (APISlackAttachment.AuthorName a1) (APISlackAttachment.AuthorIcon a1)
        (APISlackAttachment.Title a1) (APISlackAttachment.TitleLink a1)
        (APISlackAttachment.Text a1) fields
        (APISlackAttachment.MarkdownIn a1) (APISlackAttachment.Footer a1) in
    let with_markdown := fun (a2 : APISlackAttachment.t X) =>
      match SlackAttachment.MarkdownIn attachment with
      | Some ms =>
          APISlackAttachment.mk
            (APISlackAttachment.Color a2) (APISlackAttachment.Fallback a2)
            (APISlackAttachment.AuthorName a2)
            (APISlackAttachment.AuthorIcon a2)
            (APISlackAttachment.Title a2) (APISlackAttachment.TitleLink a2)
            (APISlackAttachment.Text a2) (APISlackAttachment.Fields a2)
            (append_all (ToAPIString X) ms (Some []))
            (APISlackAttachment.Footer a2)
      | None => a2
      end in
    match SlackAttachment.Fields attachment with
    | Some fields =>
        match APISlackAttachment_fields fields (Some []) with
        | Panics r => Panics r
        | Value (out, Some err) => Value (with_fields out, Some err)
        | Value (out, None) => Value (with_markdown (with_fields out), None)
        end
    | None => Value (with_markdown a1, None)
    end in
  match h with
  | SlackAttachment_value v => build v
  | SlackAttachment_pointer (Some v) => build v
  | SlackAttachment_pointer None => Panics "nil pointer dereference: *v"
  | _ => Value (a, Some (unsupported h))
  end.

(** The loop of ToService over [a.Fields]: a nil element is dereferenced
    by its ToService; the type assertion on the result always holds. *)
Fixpoint APISlackAttachment_service_fields
    (fields : list (option (APISlackAttachmentField.t X)))
    (out : slice (option SlackAttachmentField.t))
  : Go (slice (option SlackAttachmentField.t) * option error) :=
  match fields with
  | [] => Value (out, None)
  | None :: _ => Panics "nil pointer dereference: f.Title"
  | Some f :: rest =>
      match APISlackAttachmentField_ToService f with
      | (_, Some err) =>
          Value (out,
                 Some (withMessage err
                         "Error converting from model.APISlackAttachment to message.SlackAttachment"))
      | (SlackAttachmentField_pointer i, None) =>
          APISlackAttachment_service_fields rest (append out i)
      | (_, None) => Panics "interface conversion"
      end
  end.

Definition APISlackAttachment_ToService (a : APISlackAttachment.t X)
  : Go (Service X * option error) :=
  match APISlackAttachment_service_fields
          (range (APISlackAttachment.Fields a)) None with
  | Panics r => Panics r
  | Value (_, Some err) => Value (nil_interface, Some err)
  | Value (fields, None) =>
      Value
        (SlackAttachment_pointer
           (Some (SlackAttachment.mk
                    (FromAPIString X (APISlackAttachment.Color a))
                    (FromAPIString X (APISlackAttachment.Fallback a))
                    (FromAPIString X (APISlackAttachment.AuthorName a))
                    (FromAPIString X (APISlackAttachment.AuthorIcon a))
                    (FromAPIString X (APISlackAttachment.Title a))
                    (FromAPIString X (APISlackAttachment.TitleLink a))
                    (FromAPIString X (APISlackAttachment.Text a))
                    fields
                    (append_all (FromAPIString X)
                       (range (APISlackAttachment.MarkdownIn a)) None)
                    (FromAPIString X (APISlackAttachment.Footer a)))),
         None)
  end.

(** *** APISlack *)

(** The loop of BuildFromService over [slack.Attachments], whose elements
    are values. *)
Fixpoint APISlack_attachments (attachments : list SlackAttachment.t)
    (out : slice (APISlackAttachment.t X))
  : Go (slice (APISlackAttachment.t X) * option error) :=
  match attachments with
  | [] => Value (out, None)
  | a :: rest =>
      match APISlackAttachment_BuildFromService APISlackAttachment_zero
              (SlackAttachment_value a) with
      | Panics r => Panics r
      | Value (_, Some err) =>
          Value (out,
                 Some (withMessage err
                         "Error converting from message.Slack to model.APISlack"))
      | Value (attachment, None) =>
          APISlack_attachments rest (append out attachment)
      end
  end.

Definition APISlack_BuildFromService (n : APISlack.t X) (h : Service X)
  : Go (APISlack.t X * option error) :=
  let build := fun slack : Slack.t =>
    let target := ToAPIString X (Slack.Target slack) in
    let msg := ToAPIString X (Slack.Msg slack) in
    match Slack.Attachments slack with
    | Some attachments =>
        match APISlack_attachments attachments (Some []) with
        | Panics r => Panics r
        | Value (out, err) => Value (APISlack.mk target msg out, err)
        end
    | None => Value (APISlack.mk target msg (APISlack.Attachments n), None)
    end in
  match h with
  | Slack_value v => build v
  | Slack_pointer (Some v) => build v
  | Slack_pointer None => Panics "nil pointer dereference: *v"
  | _ => Value (n, Some (unsupported h))
  end.

(** ToService is not implemented. *)
Definition APISlack_ToService (n : APISlack.t X) : Service X * option error :=
  (nil_interface,
   Some (errorString "ToService() is not implemented for model.APISlack")).

(** *** APIEmail *)

Definition APIEmail_BuildFromService (n : APIEmail.t X) (h : Service X)
  : Go (APIEmail.t X * option error) :=
  let build := fun email : Email.t X =>
    Value (APIEmail.mk
             (ToAPIString X (Email.From email))
             (append_all (ToAPIString X) (range (Email.Recipients email))
                (APIEmail.Recipients n))
             (ToAPIString X (Email.Subject email))
             (ToAPIString X (Email.Body email))
             (Email.PlainTextContents email)
             (Email.Headers email), None) in
  match h with
  | Email_value v => build v
  | Email_pointer (Some v) => build v
  | Email_pointer None => Panics "nil pointer dereference: *v"
  | _ => Value (n, Some (unsupported h))
  end.

Definition APIEmail_ToService (n : APIEmail.t X) : Service X * option error :=
  (Email_pointer
     (Some (Email.mk
              (FromAPIString X (APIEmail.From n))
              (append_all (FromAPIString X) (range (APIEmail.Recipients n))
                 None)
              (FromAPIString X (APIEmail.Subject n))
              (FromAPIString X (APIEmail.Body n))
              (APIEmail.PlainTextContents n)
              (APIEmail.Headers n))),
   None).

End Conversions.

(** * The notification routes

    Package [route]: POST /rest/v2/notifications/{target_id}, which hands
    the request to the handler of the target and sends one message. *)

(** The keys of the senders of the environment. *)
Inductive SenderKey : Type :=
| SenderJIRAComment
| SenderJIRAIssue
| SenderSlack
| SenderEmail.

(** The messages the handlers compose: message.MakeJIRACommentMessage,
    MakeJiraMessage, MakeSlackMessage and MakeEmailMessage. *)
Inductive Composer (X : Externals) : Type :=
| JIRACommentMessage (issueID body : string)
| JiraMessage (issue : JiraIssue.t X)
| SlackMessage (target msg : string) (attachments : slice SlackAttachment.t)
| EmailMessage (email : Email.t X).
Arguments JIRACommentMessage {X} issueID body.
Arguments JiraMessage {X} issue.
Arguments SlackMessage {X} target msg attachments.
Arguments EmailMessage {X} email.

(** What gimlet answers with. *)
Inductive Responder : Type :=
| NewJSONResponse                                   (* 200, the empty struct *)
| MakeJSONInternalErrorResponder (err : error)      (* 500 *)
| MakeJSONErrorResponder (StatusCode : Z) (Message : string).

Definition StatusInternalServerError : Z := 500.

(** The request as the handlers read it: the variables of the route and
    what ioutil.ReadAll returns for the body. *)
Record Request : Type := mkRequest {
  Vars : list (string * string);
  Body : string * option error
}.

(** [gimlet.GetVars(r)[key]]: the empty string for a missing key. *)
Fixpoint GetVars (vars : list (string * string)) (key : string) : string :=
  match vars with
  | [] => ""
  | (k, v) :: rest => if String.eqb k key then v else GetVars rest key
  end.

(** The environment and encoding/json: the sender of a key, and what
    json.Unmarshal leaves in the struct it is given, with its error. *)
Record Route (X : Externals) : Type := mkRoute {
  GetSender : SenderKey -> option string * option error;
  Unmarshal_APIJiraComment :
    string -> APIJiraComment.t X -> APIJiraComment.t X * option error;
  Unmarshal_APIJiraIssue :
    string -> APIJiraIssue.t X -> APIJiraIssue.t X * option error;
  Unmarshal_APISlack :
    string -> APISlack.t X -> APISlack.t X * option error;
  Unmarshal_APIEmail :
    string -> APIEmail.t X -> APIEmail.t X * option error
}.
Arguments GetSender {X}.
Arguments Unmarshal_APIJiraComment {X}.
Arguments Unmarshal_APIJiraIssue {X}.
Arguments Unmarshal_APISlack {X}.
Arguments Unmarshal_APIEmail {X}.

(** The handler of one target: the API struct of its payload, nil until it
    is parsed, the composer and the sender. *)
Record targetHandler (X : Externals) (API : Type) : Type := mkTargetHandler {
  payload : option API;
  composer : option (Composer X);
  sender : option string
}.
Arguments mkTargetHandler {X API}.
Arguments payload {X API}.
Arguments composer {X API}.
Arguments sender {X API}.

Inductive RouteHandler (X : Externals) : Type :=
| jiraCommentNotificationPostHandler
    (h : targetHandler X (APIJiraComment.t X))
| jiraIssueNotificationPostHandler (h : targetHandler X (APIJiraIssue.t X))
| slackNotificationPostHandler (h : targetHandler X (APISlack.t X))
| emailNotificationPostHandler (h : targetHandler X (APIEmail.t X)).
Arguments jiraCommentNotificationPostHandler {X} h.
Arguments jiraIssueNotificationPostHandler {X} h.
Arguments slackNotificationPostHandler {X} h.
Arguments emailNotificationPostHandler {X} h.

(** What a Run leaves behind: the handler, the response and the messages
    handed to senders, each with its sender. *)
Record Ran (X : Externals) (H : Type) : Type := mkRan {
  ran_handler : H;
  ran_response : Responder;
  ran_sent : list (string * Composer X)
}.
Arguments mkRan {X H}.
Arguments ran_handler {X H}.
Arguments ran_response {X H}.
Arguments ran_sent {X H}.

Section Routes.

Variable X : Externals.
Variable environment : Route X.

Definition APIJiraComment_zero : APIJiraComment.t X :=
  APIJiraComment.mk (nilAPIString X) (nilAPIString X).

Definition APIJiraIssue_zero : APIJiraIssue.t X :=
  APIJiraIssue.mk (nilAPIString X) (nilAPIString X) (nilAPIString X)
    (nilAPIString X) (nilAPIString X) (nilAPIString X) (nilAPIString X)
    None None None None.

Definition APISlack_zero : APISlack.t X :=
  APISlack.mk (nilAPIString X) (nilAPIString X) None.

Definition APIEmail_zero : APIEmail.t X :=
  APIEmail.mk (nilAPIString X) None (nilAPIString X) (nilAPIString X) false
    None.

(** The handler a make function or a Factory returns. *)
Definition makeTargetHandler {API : Type} : targetHandler X API :=
  mkTargetHandler None None None.

(** Parse of the four target handlers: a failing read of the body is
    returned; the error of json.Unmarshal is wrapped and dropped. *)
Definition target_Parse {API : Type} (zero : API)
    (unmarshal : string -> API -> API * option error)
    (h : targetHandler X API) (r : Request)
  : targetHandler X API * option error :=
  match Body r with
  | (_, Some err) => (h, Some (withMessage err "Argument read error"))
  | (b, None) =>
      (mkTargetHandler (Some (fst (unmarshal b zero))) (composer h) (sender h),
       None)
  end.

Definition jiraCommentNotificationPostHandler_Parse :=
  target_Parse APIJiraComment_zero (Unmarshal_APIJiraComment environment).

Definition jiraIssueNotificationPostHandler_Parse :=
  target_Parse APIJiraIssue_zero (Unmarshal_APIJiraIssue environment).

Definition slackNotificationPostHandler_Parse :=
  target_Parse APISlack_zero (Unmarshal_APISlack environment).

Definition emailNotificationPostHandler_Parse :=
  target_Parse APIEmail_zero (Unmarshal_APIEmail environment).

(** The end of every Run: fetch the sender of the key and send. *)
Definition send_with {API : Type} (h : targetHandler X API)
    (c : Composer X) (key : SenderKey) (what : string)
  : Go (Ran X (targetHandler X API)) :=
  match GetSender environment key with
  | (s, Some err) =>
      Value (mkRan (mkTargetHandler (payload h) (Some c) s)
               (MakeJSONInternalErrorResponder
                  (withMessage err ("Error fetching sender key for " ++ what)))
               [])
  | (None, None) => Panics "nil pointer dereference: h.sender.Send"
  | (Some s, None) =>
      Value (mkRan (mkTargetHandler (payload h) (Some c) (Some s))
               NewJSONResponse [(s, c)])
  end.

Definition unexpected_type (i : Service X) (what : string) : Responder :=
  MakeJSONErrorResponder StatusInternalServerError
    ("Unexpected type " ++ type_name i ++ " for " ++ what).

Definition jiraCommentNotificationPostHandler_Run
    (h : targetHandler X (APIJiraComment.t X))
  : Go (Ran X (targetHandler X (APIJiraComment.t X))) :=
  match payload h with
  | None => Panics "nil pointer dereference: c.IssueID"
  | Some api =>
      match APIJiraComment_ToService X api with
      | (_, Some err) =>
          Value (mkRan h
                   (MakeJSONInternalErrorResponder
                      (withMessage err
                         "API error converting from model.APIJiraComment to message.JIRAComment"))
                   [])
      | (JIRAComment_pointer (Some comment), None) =>
          send_with h
            (JIRACommentMessage (JIRAComment.IssueID comment)
               (JIRAComment.Body comment))
            SenderJIRAComment "evergreen.SenderJIRAComment"
      | (JIRAComment_pointer None, None) =>
          Panics "nil pointer dereference: comment.IssueID"
      | (i, None) =>
          Value (mkRan h (unexpected_type i "message.JIRAComment") [])
      end
  end.

Definition jiraIssueNotificationPostHandler_Run
    (h : targetHandler X (APIJiraIssue.t X))
  : Go (Ran X (targetHandler X (APIJiraIssue.t X))) :=
  match payload h with
  | None => Panics "nil pointer dereference: i.IssueKey"
  | Some api =>
      match APIJiraIssue_ToService X api with
      | (_, Some err) =>
          Value (mkRan h
                   (MakeJSONInternalErrorResponder
                      (withMessage err
                         "API error converting from model.APIJiraIssue to message.JiraIssue"))
                   [])
      | (JiraIssue_pointer (Some issue), None) =>
          send_with h (JiraMessage issue) SenderJIRAIssue
            "evergreen.SenderJIRAIssue"
      | (JiraIssue_pointer None, None) =>
          Panics "nil pointer dereference: issue"
      | (i, None) =>
          Value (mkRan h (unexpected_type i "message.JiraIssue") [])
      end
  end.

(** The loop of the Run of the Slack handler over the attachments. *)
Fixpoint slack_attachments (as_ : list (APISlackAttachment.t X))
    (attachments : slice SlackAttachment.t)
  : Go (slice SlackAttachment.t + Responder) :=
  match as_ with
  | [] => Value (inl attachments)
  | a :: rest =>
      match APISlackAttachment_ToService X a with
      | Panics r => Panics r
      | Value (_, Some err) =>
          Value (inr (MakeJSONInternalErrorResponder
                        (withMessage err
                           "API error converting from model.APISlackAttachment to message.SlackAttachment")))
      | Value (SlackAttachment_pointer (Some attachment), None) =>
          slack_attachments rest (append attachments attachment)
      | Value (SlackAttachment_pointer None, None) =>
          Panics "nil pointer dereference: *attachment"
      | Value (i, None) =>
          Value (inr (unexpected_type i "message.SlackAttachment"))
      end
  end.

Definition slackNotificationPostHandler_Run
    (h : targetHandler X (APISlack.t X))
  : Go (Ran X (targetHandler X (APISlack.t X))) :=
  match payload h with
  | None => Panics "nil pointer dereference: h.APISlack.Attachments"
  | Some api =>
      match slack_attachments (range (APISlack.Attachments api)) (Some []) with
      | Panics r => Panics r
      | Value (inr response) => Value (mkRan h response [])
      | Value (inl attachments) =>
          let target := FromAPIString X (APISlack.Target api) in
          let msg := FromAPIString X (APISlack.Msg api) in
          let c := SlackMessage target msg attachments in
          match GetSender environment SenderSlack with
          | (_, Some err) =>
              Value (mkRan (mkTargetHandler (payload h) (Some c) (sender h))
                       (MakeJSONInternalErrorResponder
                          (withMessage err
                             "Error fetching sender key for evergreen.SenderSlack"))
                       [])
          | (None, None) => Panics "nil pointer dereference: h.sender.Send"
          | (Some s, None) =>
              Value (mkRan (mkTargetHandler (payload h) (Some c) (Some s))
                       NewJSONResponse [(s, c)])
          end
      end
  end.

Definition emailNotificationPostHandler_Run
    (h : targetHandler X (APIEmail.t X))
  : Go (Ran X (targetHandler X (APIEmail.t X))) :=
  match payload h with
  | None => Panics "nil pointer dereference: n.From"
  | Some api =>
      match APIEmail_ToService X api with
      | (_, Some err) =>
          Value (mkRan h
                   (MakeJSONInternalErrorResponder
                      (withMessage err
                         "API error converting from model.APIEmail to message.Email"))
                   [])
      | (Email_pointer (Some email), None) =>
          send_with h (EmailMessage email) SenderEmail "evergreen.SenderEmail"
      | (Email_pointer None, None) =>
          Panics "nil pointer dereference: *email"
      | (i, None) => Value (mkRan h (unexpected_type i "message.Email") [])
      end
  end.

(** *** POST /rest/v2/notifications/{target_id} *)

(** The handler of the route keeps the handler of the target, nil until
    Parse chooses it. *)
Definition notificationPostHandler : Type := option (RouteHandler X).

Definition makeNotification : notificationPostHandler := None.

(** Parse and Run of the handler of a target, through the interface. *)
Definition RouteHandler_Parse (h : RouteHandler X) (r : Request)
  : RouteHandler X * option error :=
  match h with
  | jiraCommentNotificationPostHandler t =>
      let '(t', err) := jiraCommentNotificationPostHandler_Parse t r in
      (jiraCommentNotificationPostHandler t', err)
  | jiraIssueNotificationPostHandler t =>
      let '(t', err) := jiraIssueNotificationPostHandler_Parse t r in
      (jiraIssueNotificationPostHandler t', err)
  | slackNotificationPostHandler t =>
      let '(t', err) := slackNotificationPostHandler_Parse t r in
      (slackNotificationPostHandler t', err)
  | emailNotificationPostHandler t =>
      let '(t', err) := emailNotificationPostHandler_Parse t r in
      (emailNotificationPostHandler t', err)
  end.

Definition Go_map {A B : Type} (f : A -> B) (g : Go A) : Go B :=
  match g with
  | Value a => Value (f a)
  | Panics r => Panics r
  end.

Definition wrap_ran {H H' : Type} (f : H -> H') (x : Ran X H) : Ran X H' :=
  mkRan (f (ran_handler x)) (ran_response x) (ran_sent x).

Definition RouteHandler_Run (h : RouteHandler X)
  : Go (Ran X (RouteHandler X)) :=
  match h with
  | jiraCommentNotificationPostHandler t =>
      Go_map (wrap_ran jiraCommentNotificationPostHandler)
        (jiraCommentNotificationPostHandler_Run t)
  | jiraIssueNotificationPostHandler t =>
      Go_map (wrap_ran jiraIssueNotificationPostHandler)
        (jiraIssueNotificationPostHandler_Run t)
  | slackNotificationPostHandler t =>
      Go_map (wrap_ran slackNotificationPostHandler)
        (slackNotificationPostHandler_Run t)
  | emailNotificationPostHandler t =>
      Go_map (wrap_ran emailNotificationPostHandler)
        (emailNotificationPostHandler_Run t)
  end.

(** Parse fetches the target from the request and parses the payload with
    the handler of the target, whose error it does not look at. *)
Definition notificationPostHandler_Parse (h : notificationPostHandler)
    (r : Request) : notificationPostHandler * option error :=
  let targetID := GetVars (Vars r) "target_id" in
  let chosen :=
    if String.eqb targetID "jira_comment"
    then Some (jiraCommentNotificationPostHandler makeTargetHandler)
    else if String.eqb targetID "jira_issue"
    then Some (jiraIssueNotificationPostHandler makeTargetHandler)
    else if String.eqb targetID "slack"
    then Some (slackNotificationPostHandler makeTargetHandler)
    else if String.eqb targetID "email"
    then Some (emailNotificationPostHandler makeTargetHandler)
    else None in
  match chosen with
  | None =>
      (h, Some (errorString
                  ("'" ++ targetID ++ "' is not a supported {target_id}")))
  | Some handler => (Some (fst (RouteHandler_Parse handler r)), None)
  end.

(** Run dispatches the notification. *)
Definition notificationPostHandler_Run (h : notificationPostHandler)
  : Go (Ran X notificationPostHandler) :=
  match h with
  | None => Panics "nil pointer dereference: h.handler.Run"
  | Some handler => Go_map (wrap_ran Some) (RouteHandler_Run handler)
  end.

End Routes.

(** ** Strings as pointers, a request and senders, to run the routes *)

Module DemoRest.

(** APIString as a pointer to a string, nil for the zero value; the maps
    and the callback carry nothing. *)
Definition pointers : Externals :=
  {| APIString := option string;
     nilAPIString := None;
     ToAPIString := fun s => Some s;
     FromAPIString := fun p => match p with Some s => s | None => "" end;
     IssueFields := unit;
     IssueCallback := unit;
     EmailHeaders := unit |}.

(** The senders are there except the one of Slack; the decoder takes the
    body for the text of a comment on EVG-1 and rejects what does not start
    with a brace, leaving the struct as it was. *)
Definition environment : Route pointers :=
  {| GetSender := fun key =>
       match key with
       | SenderSlack => (None, Some (errorString "no slack token"))
       | SenderJIRAComment => (Some "jira-comment", None)
       | SenderJIRAIssue => (Some "jira-issue", None)
       | SenderEmail => (Some "email", None)
       end;
     Unmarshal_APIJiraComment := fun b zero =>
       if String.prefix "{" b
       then (APIJiraComment.mk (X := pointers) (Some "EVG-1") (Some b), None)
       else (zero, Some (errorString "invalid character"));
     Unmarshal_APIJiraIssue := fun _ zero => (zero, None);
     Unmarshal_APISlack := fun _ zero => (zero, None);
     Unmarshal_APIEmail := fun _ zero => (zero, None) |}.

Definition request (target body : string) (err : option error) : Request :=
  mkRequest [("target_id", target)] (body, err).

Definition field : SlackAttachmentField.t :=
  SlackAttachmentField.mk "task" "compile" true.

Definition attachment (fields : slice (option SlackAttachmentField.t))
  : SlackAttachment.t :=
  SlackAttachment.mk "danger" "build break" "evergreen" "" "compile failed"
    "https://evergreen.example.com/task/1" "" fields (Some []) "".

End DemoRest.
(** * The Docker client of the container pools

    Package [cloud]: dockerClientImpl, the wrapper of the Docker API that
    the container provider uses, as programs over the state of the wrapper,
    the calls it has made and its log. *)

(** ** Strings *)

(** [strings.Contains] and [strings.TrimSuffix]. *)
Fixpoint strings_Contains (s substr : string) : bool :=
  if String.prefix substr s then true
  else match s with
       | EmptyString => false
       | String _ rest => strings_Contains rest substr
       end.

Definition strings_HasSuffix (s suffix : string) : bool :=
  Nat.leb (String.length suffix) (String.length s)
  && String.eqb
       (String.substring (String.length s - String.length suffix)%nat
          (String.length suffix) s) suffix.

Definition strings_TrimSuffix (s suffix : string) : string :=
  if strings_HasSuffix s suffix
  then String.substring 0 (String.length s - String.length suffix)%nat s
  else s.

(** [strings.Join]. *)
Fixpoint strings_Join (elems : list string) (sep : string) : string :=
  match elems with
  | [] => ""
  | [a] => a
  | a :: rest => a ++ sep ++ strings_Join rest sep
  end.

(** The verb %v of an unsigned integer. *)
Definition Sprint_uint (n : N) : string :=
  NilZero.string_of_uint (N.to_uint n).

(** ** Hosts *)

(** distro.Distro as the client reads it: two fields, and the results of
    the three methods it calls. *)
Module Distro.
Record t : Type := mk {
  WorkDir : string;
  User : string;
  IsWindows : bool;
  ExecutableSubPath : string;
  BinaryName : string
}.
End Distro.

(** host.Host: the struct behind the pointer. Port is the port of the
    container pool settings, a uint16. *)
Module Host.
Record t : Type := mk {
  Id : string;
  Host : string;
  Port : N;
  Secret : string;
  Distro : Distro.t
}.
End Host.

Record dockerSettings : Type := mkDockerSettings {
  ImageURL : string
}.

(** evergreen.Settings as the client reads it. *)
Module CloudSettings.
Record t : Type := mk {
  ApiUrl : string;
  UiUrl : string                      (* Ui.Url *)
}.
End CloudSettings.

(** ** The wrapper *)

(** http.Client: the timeout and the transport, an interface that holds a
    *http.Transport (possibly nil), another type, or nothing. *)
Record TLSConfig : Type := mkTLSConfig {
  InsecureSkipVerify : bool
}.

Record HTTPTransport : Type := mkHTTPTransport {
  TLSClientConfig : option TLSConfig
}.

Inductive RoundTripper : Type :=
| NilRoundTripper
| TransportPointer (t : option HTTPTransport)
| OtherRoundTripper (type_name : string).

Record HTTPClient : Type := mkHTTPClient {
  Timeout : Duration;
  Transport : RoundTripper
}.

(** A docker.Client, named by the endpoint and the version it was made
    for. *)
Record Client : Type := mkClient {
  client_endpoint : string;
  client_version : string
}.

Record dockerClientImpl : Type := mkDockerClientImpl {
  apiVersion : string;
  httpClient : option HTTPClient;
  client : option Client;
  evergreenSettings : option CloudSettings.t
}.

Definition provisionedImageTag (image : string) : string :=
  image ++ ":provisioned".

Definition imageImportTimeout : Duration := Duration_mul 10 time_Minute.

(** ** Calls and log *)

Record ImageBuildOptions : Type := mkImageBuildOptions {
  BuildArgs : list (string * string);
  Remove : bool;
  RemoteContext : string;
  Tags : list string
}.

Record ContainerConfig : Type := mkContainerConfig {
  Cmd : list string;
  Image : string;
  ContainerUser : string              (* User *)
}.

(** The body of a response, an io.ReadCloser. *)
Definition Response : Type := string.

(** What leaves the wrapper: the calls of the Docker API, each on a
    client, and the calls of packages util and host. *)
Inductive Call : Type :=
| GetHTTPClient
| NewClient (endpoint version : string)
| ImageInspectWithRaw (cl : Client) (imageName : string)
| ImageImport (cl : Client) (source imageName : string)
| ReadAll (resp : Response)
| ImageBuild (cl : Client) (options : ImageBuildOptions)
| ContainerCreate (cl : Client) (config : ContainerConfig) (name : string)
| ContainerInspect (cl : Client) (containerID : string)
| ContainerList (cl : Client) (all : bool)
| ImageList (cl : Client) (all : bool)
| ImageRemove (cl : Client) (imageID : string) (force : bool)
| ContainerRemove (cl : Client) (containerID : string) (force : bool)
| ContainerStart (cl : Client) (containerID : string)
| CreateSecret (hostId : string).

(** The messages the wrapper logs; the durations of the operation messages
    are left out. *)
Inductive DockerMessage : Type :=
| OperationFields (operation details : string)
| DockerLogMessage (api_name parent : string) (data : list (string * string))
| InitializeFailed (err : error) (endpoint api_version : string)
| ErrorMessage (err : error).

(** The http client a docker.Client sends its requests with is the one
    that docker.NewClient was given, a pointer: the http client of the
    wrapper for as long as c.httpClient is that pointer, so that the client
    sees what the wrapper writes through it; and once Init has put another
    pointer in c.httpClient, the http client as it was left then, which the
    wrapper does not reach any more. *)
Inductive ClientHTTP : Type :=
| wrapper_http
| earlier_http (hc : option HTTPClient).

(** The wrapper, the http client of its docker client, the calls made so
    far, each with the timeout that http client had at the call, and the
    log. *)
Record Cloud : Type := mkCloud {
  impl : dockerClientImpl;
  client_http : ClientHTTP;
  calls : list (option Duration * Call);
  cloud_log : list (LogLevel * DockerMessage)
}.

(** What the packages outside these sources answer: path and filepath, the
    pool of http clients, docker.NewClient (a client for the endpoint and
    the version, or an error), the Docker daemon and host.CreateSecret,
    each on the state it is called in. *)
Record Daemon : Type := mkDaemon {
  path_Base : string -> string;
  filepath_Ext : string -> string;
  filepath_Join : list string -> string;
  APIRoutePrefix : string;
  ContainerJSON : Type;
  Container : Type;
  ImageSummary : Type;
  ImageDeleteResponseItem : Type;
  GetHTTPClient_result : Cloud -> option HTTPClient;
  NewClient_fault : string -> string -> Cloud -> option error;
  ImageInspectWithRaw_fault : Client -> string -> Cloud -> option error;
  ImageImport_result :
    Client -> string -> string -> Cloud -> option Response * option error;
  ReadAll_fault : Response -> Cloud -> option error;
  ImageBuild_result :
    Client -> ImageBuildOptions -> Cloud -> option Response * option error;
  ContainerCreate_fault :
    Client -> ContainerConfig -> string -> Cloud -> option error;
  ContainerInspect_result :
    Client -> string -> Cloud -> ContainerJSON * option error;
  ContainerList_result : Client -> Cloud -> slice Container * option error;
  ImageList_result : Client -> Cloud -> slice ImageSummary * option error;
  ImageRemove_result :
    Client -> string -> Cloud -> slice ImageDeleteResponseItem * option error;
  ContainerRemove_fault : Client -> string -> Cloud -> option error;
  ContainerStart_fault : Client -> string -> Cloud -> option error;
  CreateSecret_result : Host.t -> Cloud -> Host.t * option error
}.

(** ** Programs of the wrapper *)

Definition D (A : Type) : Type := Cloud -> Go (A * Cloud).

Definition dret {A : Type} (a : A) : D A := fun w => Value (a, w).

Definition dbind {A B : Type} (m : D A) (k : A -> D B) : D B :=
  fun w => match m w with
           | Value (a, w') => k a w'
           | Panics r => Panics r
           end.

Definition dpanic {A : Type} (reason : string) : D A :=
  fun _ => Panics reason.

Declare Scope docker_scope.
Delimit Scope docker_scope with docker.
Notation "x <- m ;; k" := (dbind m (fun x => k))
  (at level 61, m at next level, right associativity) : docker_scope.
Notation "' pat <- m ;; k" := (dbind m (fun x => match x with pat => k end))
  (at level 61, pat pattern, m at next level, right associativity)
  : docker_scope.
Notation "m ;;; k" := (dbind m (fun _ => k))
  (at level 61, right associativity) : docker_scope.

Definition the_impl : D dockerClientImpl := fun w => Value (impl w, w).

Definition set_impl (c : dockerClientImpl) : D unit :=
  fun w => Value (tt, mkCloud c (client_http w) (calls w) (cloud_log w)).

Definition set_apiVersion (v : string) (c : dockerClientImpl)
  : dockerClientImpl :=
  mkDockerClientImpl v (httpClient c) (client c) (evergreenSettings c).

Definition set_httpClient (h : option HTTPClient) (c : dockerClientImpl)
  : dockerClientImpl :=
  mkDockerClientImpl (apiVersion c) h (client c) (evergreenSettings c).

Definition set_client (cl : option Client) (c : dockerClientImpl)
  : dockerClientImpl :=
  mkDockerClientImpl (apiVersion c) (httpClient c) cl (evergreenSettings c).

Definition update (f : dockerClientImpl -> dockerClientImpl) : D unit :=
  fun w => Value (tt, mkCloud (f (impl w)) (client_http w) (calls w)
                        (cloud_log w)).

(** The timeout of the http client of the wrapper, if it has one. *)
Definition timeout_of (c : dockerClientImpl) : option Duration :=
  match httpClient c with
  | None => None
  | Some hc => Some (Timeout hc)
  end.

(** The timeout of the http client that the docker client of the wrapper
    sends its requests with. *)
Definition client_timeout (w : Cloud) : option Duration :=
  match client_http w with
  | wrapper_http => timeout_of (impl w)
  | earlier_http None => None
  | earlier_http (Some hc) => Some (Timeout hc)
  end.

(** A call: the answer is that of the state the call is made in. *)
Definition perform {A : Type} (c : Call) (answer : Cloud -> A) : D A :=
  fun w => Value (answer w,
                  mkCloud (impl w) (client_http w)
                          (calls w ++ [(client_timeout w, c)]) (cloud_log w)).

Definition grip (l : LogLevel) (m : DockerMessage) : D unit :=
  fun w => Value (tt, mkCloud (impl w) (client_http w) (calls w)
                        (cloud_log w ++ [(l, m)])).

(** docker.NewClient keeps the pointer c.httpClient it is given: the new
    client sends its requests with the http client of the wrapper. *)
Definition shares_httpClient : D unit :=
  fun w => Value (tt, mkCloud (impl w) wrapper_http (calls w) (cloud_log w)).

(** [c.httpClient = hc], another pointer: a docker client that was made
    with the pointer before keeps that one, with the http client as it
    is. *)
Definition replace_httpClient (hc : option HTTPClient) : D unit :=
  fun w => Value (tt,
                  mkCloud (set_httpClient hc (impl w))
                    (match client (impl w), client_http w with
                     | Some _, wrapper_http =>
                         earlier_http (httpClient (impl w))
                     | _, kept => kept
                     end)
                    (calls w) (cloud_log w)).

Definition makeDockerLogMessage (name parent : string)
    (data : list (string * string)) : DockerMessage :=
  DockerLogMessage name parent data.

Section DockerClient.

Variable K : Daemon.

Local Open Scope docker_scope.

(** generateClient generates a Docker client that can talk to the
    specified host machine, and caches it in the wrapper. *)
Definition generateClient (h : Host.t) : D (option Client * option error) :=
  if String.eqb (Host.Host h) ""
  then dret (None, Some (errorString "HostIP must not be blank"))
  else
    c <- the_impl ;;
    match client c with
    | Some cl => dret (Some cl, None)
    | None =>
        let endpoint :=
          "tcp://" ++ Host.Host h ++ ":" ++ Sprint_uint (Host.Port h) in
        err <- perform (NewClient endpoint (apiVersion c))
                 (NewClient_fault K endpoint (apiVersion c)) ;;
        match err with
        | Some e =>
            update (set_client None) ;;;
            grip Error (InitializeFailed e endpoint (apiVersion c)) ;;;
            dret (None,
                  Some (withMessage e
                          ("Docker initialize client API call failed at endpoint '"
                           ++ endpoint ++ "'")))
        | None =>
            let cl := mkClient endpoint (apiVersion c) in
            update (set_client (Some cl)) ;;;
            shares_httpClient ;;;
            dret (Some cl, None)
        end
    end.

(** changeTimeout changes the timeout of the http client of the wrapper,
    a write through the pointer c.httpClient, and returns the client of
    generateClient. *)
Definition changeTimeout (h : Host.t) (newTimeout : Duration)
  : D (option Client * option error) :=
  c <- the_impl ;;
  match httpClient c with
  | None => dpanic "nil pointer dereference: c.httpClient.Timeout"
  | Some hc =>
      update (set_httpClient (Some (mkHTTPClient newTimeout (Transport hc)))) ;;;
      ' (cl, err) <- generateClient h ;;
      update (set_client cl) ;;;
      match err with
      | Some e =>
          dret (None, Some (withMessage e "Failed to generate docker client"))
      | None => dret (cl, None)
      end
  end.

(** The %T of the transport of an http client. *)
Definition transport_type (t : RoundTripper) : string :=
  match t with
  | NilRoundTripper => "<nil>"
  | TransportPointer _ => "*http.Transport"
  | OtherRoundTripper n => n
  end.

(** Init sets the Docker API version to use and takes an http client that
    accepts self-signed certificates. *)
Definition Init (version : string) : D (option error) :=
  if String.eqb version ""
  then dret (Some (errorString
                     ("Docker API version '" ++ version ++ "' is invalid")))
  else
    update (set_apiVersion version) ;;;
    pooled <- perform GetHTTPClient (GetHTTPClient_result K) ;;
    replace_httpClient pooled ;;;
    match pooled with
    | None => dpanic "nil pointer dereference: c.httpClient.Transport"
    | Some hc =>
        match Transport hc with
        | TransportPointer (Some transport) =>
            match TLSClientConfig transport with
            | None =>
                dpanic "nil pointer dereference: transport.TLSClientConfig.InsecureSkipVerify"
            | Some _ =>
                update (set_httpClient
                          (Some (mkHTTPClient (Timeout hc)
                                   (TransportPointer
                                      (Some (mkHTTPTransport
                                               (Some (mkTLSConfig true)))))))) ;;;
                dret None
            end
        | TransportPointer None =>
            dpanic "nil pointer dereference: transport.TLSClientConfig"
        | other =>
            dret (Some (errorString
                          ("Type assertion failed: type " ++ transport_type other
                           ++ " does not hold a *http.Transport")))
        end
    end.

(** The name of the image of a URL: its last element without the
    extension. *)
Definition image_name (url : string) : string :=
  let baseName := path_Base K url in
  strings_TrimSuffix baseName (filepath_Ext K baseName).

(** ioutil.ReadAll of a response; a nil reader cannot be read. *)
Definition ioutil_ReadAll (resp : option Response) : D (option error) :=
  match resp with
  | None => dpanic "nil pointer dereference: ioutil.ReadAll"
  | Some r => perform (ReadAll r) (ReadAll_fault K r)
  end.

(** A method of a nil docker client. *)
Definition nil_client {A : Type} : D A :=
  dpanic "nil pointer dereference: dockerClient".

(** EnsureImageDownloaded checks if the image of the URL already exists on
    the host, and if not, imports it from the remote tarball. *)
Definition EnsureImageDownloaded (h : Host.t) (url : string)
  : D (string * option error) :=
  ' (dockerClient, err) <- generateClient h ;;
  match err with
  | Some e => dret ("", Some (withMessage e "Failed to generate docker client"))
  | None =>
      grip Info (OperationFields "EnsureImageDownloaded" "generateclient") ;;;
      let imageName := image_name url in
      match dockerClient with
      | None => nil_client
      | Some cl =>
          err <- perform (ImageInspectWithRaw cl imageName)
                   (ImageInspectWithRaw_fault K cl imageName) ;;
          grip Info
            (OperationFields "EnsureImageDownloaded" "ImageInspectWithRaw") ;;;
          match err with
          | None => dret (imageName, None)
          | Some e =>
              if strings_Contains (error_message e) "No such image"
              then
                c <- the_impl ;;
                match httpClient c with
                | None => dpanic "nil pointer dereference: c.httpClient.Timeout"
                | Some hc =>
                    let normalTimeout := Timeout hc in
                    ' (dockerClient, err) <- changeTimeout h imageImportTimeout ;;
                    match err with
                    | Some e =>
                        dret ("", Some (withMessage e
                                          "Error changing http client timeout"))
                    | None =>
                        let msg :=
                          makeDockerLogMessage "ImageImport" (Host.Id h)
                            [("source", url); ("image_name", imageName);
                             ("image_url", url)] in
                        match dockerClient with
                        | None => nil_client
                        | Some cl =>
                            ' (resp, err) <-
                              perform (ImageImport cl url imageName)
                                (ImageImport_result K cl url imageName) ;;
                            match err with
                            | Some e =>
                                dret ("", Some (withMessage e
                                                  ("Error importing image from "
                                                   ++ url)))
                            | None =>
                                grip Info
                                  (OperationFields "EnsureImageDownloaded"
                                     "ImageImport") ;;;
                                grip Info msg ;;;
                                err <- ioutil_ReadAll resp ;;
                                match err with
                                | Some e =>
                                    dret ("", Some (withMessage e
                                                      "Error reading ImageImport response"))
                                | None =>
                                    grip Info
                                      (OperationFields "EnsureImageDownloaded"
                                         "readall") ;;;
                                    ' (_, err) <- changeTimeout h normalTimeout ;;
                                    match err with
                                    | Some e =>
                                        dret ("", Some (withMessage e
                                                          "Error changing http client timeout"))
                                    | None => dret (imageName, None)
                                    end
                                end
                            end
                        end
                    end
                end
              else dret ("", Some (withMessage e
                                     ("Error inspecting image " ++ imageName)))
          end
      end
  end.

(** BuildImageWithAgent takes a base image and builds a new image on the
    host from the Dockerfile of the API server, which adds the agent. *)
Definition BuildImageWithAgent (h : Host.t) (baseImage : string)
  : D (string * option error) :=
  let dockerfileRoute := "dockerfile" in
  ' (dockerClient, err) <- generateClient h ;;
  match err with
  | Some e => dret ("", Some (withMessage e "Failed to generate docker client"))
  | None =>
      grip Info (OperationFields "BuildImageWithAgent" "generateclient") ;;;
      let provisionedImage := provisionedImageTag baseImage in
      let executableSubPath := Distro.ExecutableSubPath (Host.Distro h) in
      let binaryName := Distro.BinaryName (Host.Distro h) in
      c <- the_impl ;;
      match evergreenSettings c with
      | None => dpanic "nil pointer dereference: c.evergreenSettings.ApiUrl"
      | Some settings =>
          let dockerfileUrl :=
            strings_Join [CloudSettings.ApiUrl settings; APIRoutePrefix K;
                          dockerfileRoute] "/" in
          let options :=
            mkImageBuildOptions
              [("BASE_IMAGE", baseImage);
               ("EXECUTABLE_SUB_PATH", executableSubPath);
               ("BINARY_NAME", binaryName);
               ("URL", CloudSettings.UiUrl settings)]
              true dockerfileUrl [provisionedImage] in
          let msg :=
            makeDockerLogMessage "ImageBuild" (Host.Id h)
              [("base_image", baseImage);
               ("dockerfile_url", RemoteContext options)] in
          match dockerClient with
          | None => nil_client
          | Some cl =>
              ' (resp, err) <- perform (ImageBuild cl options)
                                 (ImageBuild_result K cl options) ;;
              match err with
              | Some e =>
                  dret ("", Some (withMessage e
                                    ("Error building Docker image from base image "
                                     ++ baseImage)))
              | None =>
                  grip Info (OperationFields "BuildImageWithAgent" "ImageBuild") ;;;
                  grip Info msg ;;;
                  err <- ioutil_ReadAll resp ;;
                  match err with
                  | Some e =>
                      dret ("", Some (withMessage e
                                        "Error reading ImageBuild response"))
                  | None =>
                      grip Info
                        (OperationFields "BuildImageWithAgent" "ReadAll") ;;;
                      dret (provisionedImage, None)
                  end
              end
          end
      end
  end.

(** The command of the agent in a container. *)
Definition agentCmdParts (pathToExecutable apiUrl : string)
    (containerHost : Host.t) : list string :=
  [pathToExecutable;
   "agent";
   "--api_server=" ++ apiUrl;
   "--host_id=" ++ Host.Id containerHost;
   "--host_secret=" ++ Host.Secret containerHost;
   "--log_prefix="
     ++ filepath_Join K [Distro.WorkDir (Host.Distro containerHost); "agent"];
   "--working_directory=" ++ Distro.WorkDir (Host.Distro containerHost);
   "--cleanup"].

(** CreateContainer creates a new Docker container with the agent. The
    container host is returned as the call leaves it. *)
Definition CreateContainer (parentHost containerHost : Host.t)
    (settings : dockerSettings) : D (Host.t * option error) :=
  ' (dockerClient, err) <- generateClient parentHost ;;
  match err with
  | Some e =>
      dret (containerHost,
            Some (withMessage e "Failed to generate docker client"))
  | None =>
      let provisionedImage :=
        provisionedImageTag (image_name (ImageURL settings)) in
      let pathToExecutable :=
        filepath_Join K ["root"; "evergreen"]
        ++ (if Distro.IsWindows (Host.Distro parentHost) then ".exe" else "") in
      ' (containerHost, err) <-
        (if String.eqb (Host.Secret containerHost) ""
         then perform (CreateSecret (Host.Id containerHost))
                (CreateSecret_result K containerHost)
         else dret (containerHost, None)) ;;
      match err with
      | Some e =>
          dret (containerHost,
                Some (withMessage e
                        ("creating secret for " ++ Host.Id containerHost)))
      | None =>
          c <- the_impl ;;
          match evergreenSettings c with
          | None =>
              dpanic "nil pointer dereference: c.evergreenSettings.ApiUrl"
          | Some settings =>
              let containerConf :=
                mkContainerConfig
                  (agentCmdParts pathToExecutable
                     (CloudSettings.ApiUrl settings) containerHost)
                  provisionedImage
                  (Distro.User (Host.Distro containerHost)) in
              let msg :=
                makeDockerLogMessage "ContainerCreate" (Host.Id parentHost)
                  [("image", Image containerConf)] in
              match dockerClient with
              | None => nil_client
              | Some cl =>
                  err <- perform
                           (ContainerCreate cl containerConf
                              (Host.Id containerHost))
                           (ContainerCreate_fault K cl containerConf
                              (Host.Id containerHost)) ;;
                  match err with
                  | Some e =>
                      let err :=
                        withMessage e
                          ("Docker create API call failed for container '"
                           ++ Host.Id containerHost ++ "'") in
                      grip Error (ErrorMessage err) ;;;
                      dret (containerHost, Some err)
                  | None =>
                      grip Info msg ;;;
                      dret (containerHost, None)
                  end
              end
          end
      end
  end.

(** GetContainer returns low-level information on the container with the
    ID on the host machine. *)
Definition GetContainer (h : Host.t) (containerID : string)
  : D (option (ContainerJSON K) * option error) :=
  ' (dockerClient, err) <- generateClient h ;;
  match err with
  | Some e => dret (None, Some (withMessage e "Failed to generate docker client"))
  | None =>
      match dockerClient with
      | None => nil_client
      | Some cl =>
          ' (container, err) <- perform (ContainerInspect cl containerID)
                                  (ContainerInspect_result K cl containerID) ;;
          match err with
          | Some e =>
              dret (None,
                    Some (withMessage e
                            ("Docker inspect API call failed for container '"
                             ++ containerID ++ "'")))
          | None => dret (Some container, None)
          end
      end
  end.

(** ListContainers lists all containers running on the host machine. *)
Definition ListContainers (h : Host.t)
  : D (slice (Container K) * option error) :=
  ' (dockerClient, err) <- generateClient h ;;
  match err with
  | Some e => dret (None, Some (withMessage e "Failed to generate docker client"))
  | None =>
      match dockerClient with
      | None => nil_client
      | Some cl =>
          ' (containers, err) <- perform (ContainerList cl false)
                                   (ContainerList_result K cl) ;;
          match err with
          | Some e =>
              let err := withMessage e "Docker list API call failed" in
              grip Error (ErrorMessage err) ;;;
              dret (None, Some err)
          | None => dret (containers, None)
          end
      end
  end.

(** ListImages lists all images on the host machine. *)
Definition ListImages (h : Host.t)
  : D (slice (ImageSummary K) * option error) :=
  ' (dockerClient, err) <- generateClient h ;;
  match err with
  | Some e => dret (None, Some (withMessage e "Failed to generate docker client"))
  | None =>
      match dockerClient with
      | None => nil_client
      | Some cl =>
          ' (images, err) <- perform (ImageList cl false)
                               (ImageList_result K cl) ;;
          match err with
          | Some e =>
              dret (None, Some (withMessage e "Docker list API call failed"))
          | None => dret (images, None)
          end
      end
  end.

(** RemoveImage forcibly removes an image from its host machine. *)
Definition RemoveImage (h : Host.t) (imageID : string) : D (option error) :=
  ' (dockerClient, err) <- generateClient h ;;
  match err with
  | Some e => dret (Some (withMessage e "Failed to generate docker client"))
  | None =>
      match dockerClient with
      | None => nil_client
      | Some cl =>
          ' (removed, err) <- perform (ImageRemove cl imageID true)
                                (ImageRemove_result K cl imageID) ;;
          match err with
          | Some e =>
              dret (Some (withMessage e
                            ("Failed to remove image '" ++ imageID ++ "'")))
          | None =>
              if (Z.of_nat (List.length (range removed)) <=? 0)%Z
              then dret (Some (errorString
                                 ("Failed to remove image '" ++ imageID ++ "'")))
              else dret None
          end
      end
  end.

(** RemoveContainer forcibly removes a running or stopped container by ID
    from its host machine. *)
Definition RemoveContainer (h : Host.t) (containerID : string)
  : D (option error) :=
  ' (dockerClient, err) <- generateClient h ;;
  match err with
  | Some e => dret (Some (withMessage e "Failed to generate docker client"))
  | None =>
      match dockerClient with
      | None => nil_client
      | Some cl =>
          err <- perform (ContainerRemove cl containerID true)
                   (ContainerRemove_fault K cl containerID) ;;
          match err with
          | Some e =>
              let err :=
                withMessage e
                  ("Failed to remove container '" ++ containerID ++ "'") in
              grip Error (ErrorMessage err) ;;;
              dret (Some err)
          | None => dret None
          end
      end
  end.

(** StartContainer starts a stopped or new container by ID on the host
    machine. *)
Definition StartContainer (h : Host.t) (containerID : string)
  : D (option error) :=
  ' (dockerClient, err) <- generateClient h ;;
  match err with
  | Some e => dret (Some (withMessage e "Failed to generate docker client"))
  | None =>
      match dockerClient with
      | None => nil_client
      | Some cl =>
          err <- perform (ContainerStart cl containerID)
                   (ContainerStart_fault K cl containerID) ;;
          match err with
          | Some e =>
              dret (Some (withMessage e
                            ("Failed to start container " ++ containerID)))
          | None => dret None
          end
      end
  end.

End DockerClient.
(** ** A Docker daemon to run the client on *)

Module DemoDocker.

(** path.Base and filepath.Ext on paths with slashes. *)
Fixpoint last_element (path cur last : string) : string :=
  match path with
  | EmptyString => if String.eqb cur "" then last else cur
  | String c rest =>
      if String.eqb (String c "") "/"
      then last_element rest "" (if String.eqb cur "" then last else cur)
      else last_element rest (cur ++ String c "") last
  end.

Definition Base (path : string) : string :=
  if String.eqb path "" then "."
  else match last_element path "" "" with
       | EmptyString => "/"
       | b => b
       end.

Fixpoint extension (path : string) (ext : option string) : string :=
  match path with
  | EmptyString => match ext with
                   | Some e => e
                   | None => ""
                   end
  | String c rest =>
      if String.eqb (String c "") "." then extension rest (Some ".")
      else if String.eqb (String c "") "/" then extension rest None
      else extension rest
             (match ext with
              | Some e => Some (e ++ String c "")
              | None => None
              end)
  end.

Definition Ext (path : string) : string := extension path None.

Definition is_import (c : option Duration * Call) : bool :=
  match snd c with
  | ImageImport _ _ _ => true
  | _ => false
  end.

Definition pooled : HTTPClient :=
  mkHTTPClient 30000000000
    (TransportPointer (Some (mkHTTPTransport (Some (mkTLSConfig false))))).

Definition with_secret (s : string) (h : Host.t) : Host.t :=
  Host.mk (Host.Id h) (Host.Host h) (Host.Port h) s (Host.Distro h).

(** A daemon that has an image once it was imported, removes nothing and
    answers every other call. *)
Definition daemon : Daemon :=
  mkDaemon Base Ext (fun elems => strings_Join elems "/") "api"
    string string string string
    (fun _ => Some pooled)
    (fun _ _ _ => None)
    (fun _ imageName w =>
       if existsb is_import (calls w) then None
       else Some (errorString ("Error: No such image: " ++ imageName)))
    (fun _ _ _ _ => (Some "layers", None))
    (fun _ _ => None)
    (fun _ _ _ => (Some "stream", None))
    (fun _ _ _ _ => None)
    (fun _ containerID _ => (containerID, None))
    (fun _ _ => (Some ["container-1"], None))
    (fun _ _ => (Some ["ubuntu"], None))
    (fun _ _ _ => (Some [], None))
    (fun _ _ _ => None)
    (fun _ _ _ => None)
    (fun h _ => (with_secret "73a1c0" h, None)).

Definition linux : Distro.t :=
  Distro.mk "/data/mci" "mci-exec" false "linux_amd64/evergreen" "evergreen".

Definition parent : Host.t := Host.mk "parent-1" "10.0.0.1" 3369 "" linux.

Definition other : Host.t := Host.mk "parent-2" "10.0.0.2" 3369 "" linux.

Definition blank : Host.t := Host.mk "parent-3" "" 3369 "" linux.

Definition container : Host.t := Host.mk "container-1" "" 0 "" linux.

Definition image : dockerSettings :=
  mkDockerSettings "https://s3.example.com/images/ubuntu1604.tar".

Definition settings : CloudSettings.t :=
  CloudSettings.mk "https://evergreen.example.com"
    "https://ui.evergreen.example.com".

(** The wrapper after Init, before its first call. *)
Definition ready : Cloud :=
  mkCloud (mkDockerClientImpl "1.23" (Some pooled) None (Some settings))
    wrapper_http [] [].

End DemoDocker.
(** * The grid of the signal-processing page

    SignalProcessingCtrl.js: the controller that turns the sorting and the
    filters of the grid into an aggregation, sends it through Stitch and
    shows the documents of the most recent query. *)

(** ** The state of the grid and the aggregation *)

Record SortingItem : Type := mkSortingItem {
  sorting_field : string;
  sorting_direction : string
}.

(** [state]: the sorting, an array or nothing; the filtering, an object
    read in the order of its keys; and the mode. *)
Record GridState : Type := mkGridState {
  sorting : option (list SortingItem);
  filtering : list (string * string);
  mode : string
}.

(** An element of the filtering context: field, term and type. *)
Record FilteringContext : Type := mkFilteringContext {
  context_field : string;
  context_term : string;
  context_type : string
}.

(** A document of the collections, as hydrateData reads and extends it; a
    property that is not there is undefined. *)
Record Point : Type := mkPoint {
  suspect_revision : option string;
  variant : option string;
  createTime : option string;
  _versionId : option string;
  _buildId : option string
}.

(** What the controller takes from outside the file: the columns of the
    grid with the type of their definition, the compiler of
    MDBQueryAdaptor, whose result may be falsy, EvgUtil, the names of the
    collections and the project of the window. *)
Record Page : Type := mkPage {
  Compiled : Type;
  getCol : string -> option (option string);
  compileFiltering : list FilteringContext -> option Compiled;
  compileSorting : list SortingItem -> option Compiled;
  generateVersionId : string -> option string -> string;
  generateBuildId :
    string -> option string -> option string -> option string -> string;
  COLL_UNPROCESSED_POINTS : string;
  COLL_PROCESSED_POINTS : string;
  project : string
}.

(** A stage of an aggregation: a compiled query or [{$limit: n}]. *)
Inductive Stage (P : Page) : Type :=
| compiled (q : Compiled P)
| limit (n : Z).
Arguments compiled {P} q.
Arguments limit {P} n.

Definition LIMIT : Z := 500.

(** ** Promises *)

Inductive Settled : Type :=
| Fulfilled (docs : list Point)
| Rejected (err : string).

(** The callbacks the controller registers: the one of [thisPromise.then]
    in loadData, and the pair of [then] with its [finally] inside it, which
    closes over the documents. *)
Inductive Reaction : Type :=
| outer (thisPromise : nat)
| inner (docs : list Point).

(** A promise: settled or not, with the reactions registered while it was
    pending. *)
Record Promise : Type := mkPromise {
  settled : option Settled;
  reactions : list Reaction
}.

(** The controller: vm.isLoading and vm.gridOptions.data, undefined at
    first, the promise kept in the closure, the promises created so far,
    named by their position, the queries sent and what console.error
    printed. *)
Record Controller (P : Page) : Type := mkController {
  isLoading : bool;
  data : option (list Point);
  theMostRecentPromise : option nat;
  promises : list Promise;
  queries : list (option string * list (Stage P));
  console : list string
}.
Arguments mkController {P}.
Arguments isLoading {P}.
Arguments data {P}.
Arguments theMostRecentPromise {P}.
Arguments promises {P}.
Arguments queries {P}.
Arguments console {P}.

Section SignalProcessingCtrl.

Variable P : Page.

Definition modeToCollMap (m : string) : option string :=
  if String.eqb m "unprocessed" then Some (COLL_UNPROCESSED_POINTS P)
  else if String.eqb m "processed" then Some (COLL_PROCESSED_POINTS P)
  else None.

(** [a || 'string'] for a type that is undefined or empty. *)
Definition type_or_string (t : option string) : string :=
  match t with
  | None => "string"
  | Some t => if String.eqb t "" then "string" else t
  end.

(** Enhances the filtering state with the type of the column; a filter
    whose column is not found is left out. *)
Definition getFilteringContext (state : GridState) : list FilteringContext :=
  fold_left
    (fun m kv =>
       match getCol P (fst kv) with
       | None => m
       | Some col =>
           (m ++ [mkFilteringContext (fst kv) (snd kv) (type_or_string col)])%list
       end)
    (filtering state) [].

(** Creates the aggregation for the state. *)
Definition getAggChain (state : GridState) : list (Stage P) :=
  let chain : list (Stage P) := [] in
  let chain :=
    match filtering state with
    | [] => chain
    | _ :: _ =>
        match compileFiltering P (getFilteringContext state) with
        | Some filteringChain => (chain ++ [compiled filteringChain])%list
        | None => chain
        end
    end in
  let chain :=
    match sorting state with
    | Some s =>
        match compileSorting P s with
        | Some sortingChain => (chain ++ [compiled sortingChain])%list
        | None => chain
        end
    | None => chain
    end in
  (chain ++ [limit LIMIT])%list.

(** Generates the version id and the build id of every document. *)
Definition hydrateData (docs : list Point) : list Point :=
  map (fun doc =>
         mkPoint (suspect_revision doc) (variant doc) (createTime doc)
           (Some (generateVersionId P (project P) (suspect_revision doc)))
           (Some (generateBuildId P (project P) (suspect_revision doc)
                    (variant doc) (createTime doc))))
      docs.

(** ** Running the callbacks *)

Definition promise_at (c : Controller P) (p : nat) : option Promise :=
  nth_error (promises c) p.

Fixpoint replace_nth {A : Type} (l : list A) (n : nat) (x : A) : list A :=
  match l, n with
  | [], _ => []
  | _ :: rest, O => x :: rest
  | a :: rest, S n => a :: replace_nth rest n x
  end.

Definition set_promises (ps : list Promise) (c : Controller P)
  : Controller P :=
  mkController (isLoading c) (data c) (theMostRecentPromise c) ps (queries c)
    (console c).

(** The callbacks of [theMostRecentPromise.then(..., ...).finally(...)]:
    the first sets the data to the hydrated documents of the closure, the
    second prints the error, and both are followed by the end of the
    loading. *)
Definition run_inner (docs : list Point) (result : Settled)
    (c : Controller P) : Controller P :=
  match result with
  | Fulfilled _ =>
      mkController false (Some (hydrateData docs)) (theMostRecentPromise c)
        (promises c) (queries c) (console c)
  | Rejected err =>
      mkController false (data c) (theMostRecentPromise c) (promises c)
        (queries c) (console c ++ [err])%list
  end.

(** [then] on the promise [p] with these callbacks: they run with the
    result of a settled promise, before anything else happens to the
    controller, and wait in a pending one. *)
Definition then_inner (p : nat) (docs : list Point) (c : Controller P)
  : Controller P :=
  match promise_at c p with
  | None => c
  | Some (mkPromise (Some result) _) => run_inner docs result c
  | Some (mkPromise None rs) =>
      set_promises
        (replace_nth (promises c) p
           (mkPromise None (rs ++ [inner docs])%list)) c
  end.

(** The callback of [thisPromise.then] in loadData: only the most recent
    promise goes on; a rejection has no callback. *)
Definition run_outer (thisPromise : nat) (result : Settled)
    (c : Controller P) : Controller P :=
  match result with
  | Rejected _ => c
  | Fulfilled docs =>
      match theMostRecentPromise c with
      | None => c
      | Some recent =>
          if Nat.eqb thisPromise recent then then_inner recent docs c else c
      end
  end.

Definition run_reaction (result : Settled) (c : Controller P) (r : Reaction)
  : Controller P :=
  match r with
  | outer thisPromise => run_outer thisPromise result c
  | inner docs => run_inner docs result c
  end.

(** A pending promise settles: its reactions run in the order they were
    registered; a promise settles once. *)
Definition settle (p : nat) (result : Settled) (c : Controller P)
  : Controller P :=
  match promise_at c p with
  | Some (mkPromise None rs) =>
      fold_left (run_reaction result) rs
        (set_promises (replace_nth (promises c) p (mkPromise (Some result) [])) c)
  | _ => c
  end.

(** loadData: the query of the state is built and sent, its promise
    becomes the most recent one and waits with the callback of loadData. *)
Definition loadData (state : GridState) (c : Controller P) : Controller P :=
  let thisPromise := List.length (promises c) in
  mkController true (data c) (Some thisPromise)
    (promises c ++ [mkPromise None [outer thisPromise]])%list
    (queries c ++ [(modeToCollMap (mode state), getAggChain state)])%list
    (console c).

End SignalProcessingCtrl.

(** The controller before the grid is registered. *)
Definition new_controller (P : Page) : Controller P :=
  mkController false None None [] [] [].

(** ** A page to run the controller on *)

Module DemoPage.

Definition page : Page :=
  mkPage string
    (fun name =>
       if String.eqb name "probability" then Some (Some "number")
       else if String.eqb name "project" then Some (Some "string")
       else if String.eqb name "processed_type" then Some None
       else None)
    (fun context =>
       match context with
       | [] => None
       | _ => Some "$match"
       end)
    (fun s =>
       match s with
       | [] => None
       | _ => Some "$sort"
       end)
    (fun project revision =>
       project ++ "_" ++ match revision with
                         | Some r => r
                         | None => "undefined"
                         end)
    (fun project revision variant _ =>
       project ++ "_" ++ match variant with
                         | Some v => v
                         | None => "undefined"
                         end)
    "change_points" "processed_change_points" "sys-perf".

Definition state : GridState :=
  mkGridState
    (Some [mkSortingItem "suspect_revision" "asc"])
    [("create_time", ">2018-09-01"); ("probability", ">0.05");
     ("project", "=sys-perf")]
    "unprocessed".

Definition point (revision : string) : Point :=
  mkPoint (Some revision) (Some "linux-standalone") None None None.

End DemoPage.

Open Scope list_scope.

(** ** The vocabulary of the statements *)

(** The build variants the loop of createVersionItems does not skip. *)
Definition enabled (bv : BuildVariant.t) : bool :=
  negb (BuildVariant.Disabled bv).

(** The version after the loop appended the statuses [news], each with the
    id of its build. *)
Definition add_statuses (news : list BuildStatus.t) (v : Version.t)
  : Version.t :=
  fold_left (fun v bs => Version.add_build (BuildStatus.BuildId bs) bs v)
            news v.

(** What a run of the loop over the build variants leaves behind: builds,
    tasks and statuses, all of variants named in [names]; after a run
    without error there is one build and one status per name, in order. *)
Definition expands (names : list string) (complete : bool)
    (v : Version.t) (w : World) (v' : Version.t) (w' : World) : Prop :=
  exists newb newt news,
    builds w' = builds w ++ newb /\
    tasks w' = tasks w ++ newt /\
    v' = add_statuses news v /\
    Forall (fun b => In (Build.BuildVariant b) names
                     /\ Build.Version b = Version.Id v) newb /\
    Forall (fun t => In (Task.BuildVariant t) names
                     /\ In (Task.BuildId t) (map Build.Id newb)) newt /\
    Forall (fun bs => In (BuildStatus.BuildVariant bs) names
                      /\ BuildStatus.Activated bs = false
                      /\ In (BuildStatus.BuildId bs) (map Build.Id newb))
           news /\
    (complete = true ->
       map Build.BuildVariant newb = names /\
       map BuildStatus.BuildVariant news = names /\
       map BuildStatus.BuildId news = map Build.Id newb) /\
    versions w' = versions w /\
    repositories w' = repositories w /\
    subscriptions w' = subscriptions w.

(** The store holds no Build with this id and no Task of such a Build. *)
Definition removed (id : string) (w : World) : Prop :=
  (forall b, In b (builds w) -> Build.Id b <> id) /\
  (forall t, In t (tasks w) -> Task.BuildId t <> id).

(** Programs that leave versions and repository documents untouched. *)
Definition same_store (w w' : World) : Prop :=
  versions w' = versions w /\ repositories w' = repositories w.

(** From every store, in every outcome, panic included. *)
Definition keeps {A} (m : M A) : Prop :=
  forall w, same_store w (world_of (m w)).

(** What a run of the pipeline for project [p] may do: it never moves a
    watermark or the counter of another project, the counter of [p] only
    grows, and versions are only appended, all of project [p], each with an
    order number the counter handed out during the run, in increasing
    order. *)
Definition evolves (p : string) (w w' : World) : Prop :=
  (forall q, last_revision w' q = last_revision w q) /\
  (forall q, q <> p -> order_counter w' q = order_counter w q) /\
  order_counter w p <= order_counter w' p /\
  exists added,
    versions w' = versions w ++ added /\
    Forall (fun v => Version.Identifier v = p
                     /\ order_counter w p < Version.RevisionOrderNumber v
                        <= order_counter w' p) added /\
    StronglySorted Z.lt (map Version.RevisionOrderNumber added).

(** From every store, in every outcome, panic included. *)
Definition evolving {A} (p : string) (m : M A) : Prop :=
  forall w, evolves p w (world_of (m w)).

(** Programs that store at most one version, with the project and the
    order number of [v], and leave the repository documents alone. *)
Definition stores_at_most (v : Version.t) (w w' : World) : Prop :=
  repositories w' = repositories w /\
  (versions w' = versions w \/
   exists v', versions w' = versions w ++ [v'] /\
              Version.Identifier v' = Version.Identifier v /\
              Version.RevisionOrderNumber v' = Version.RevisionOrderNumber v).

(** No stored version conflicts with one stored before it: ids, (project,
    revision) pairs and (project, order number) pairs are unique. *)
Definition unique_versions (w : World) : Prop :=
  ForallOrdPairs (fun u v => conflicts v u = false) (versions w).

(** The stored versions of a (project, revision) pair. *)
Definition versions_of (p r : string) (vs : list Version.t)
  : list Version.t :=
  filter (fun v => String.eqb (Version.Identifier v) p
                   && String.eqb (Version.Revision v) r) vs.

(** The program keeps an invariant of the store, in every outcome. *)
Definition preserving {A} (I : World -> Prop) (m : M A) : Prop :=
  forall w, I w -> I (world_of (m w)).

(** The order numbers of the versions of a project, in insertion order. *)
Definition project_orders (p : string) (vs : list Version.t) : list Z :=
  map Version.RevisionOrderNumber
      (filter (fun v => String.eqb (Version.Identifier v) p) vs).

(** The order numbers of the stored versions of a project increase
    strictly in insertion order, and the counter of the project has
    reached each of them. *)
Definition order_invariant (p : string) (w : World) : Prop :=
  StronglySorted Z.lt (project_orders p (versions w)) /\
  Forall (fun n => n <= order_counter w p) (project_orders p (versions w)).

(** Only the log may differ. *)
Definition logs_only (w w' : World) : Prop :=
  versions w' = versions w /\ builds w' = builds w /\ tasks w' = tasks w /\
  repositories w' = repositories w /\ subscriptions w' = subscriptions w.

(** No lookup of a version fails. *)
Definition lookups_answer (env : Env) : Prop :=
  forall q w, FindOne_fault env q w = None.

(** Every value the program returns satisfies [P]. *)
Definition returns_only {A} (P : A -> Prop) (m : M A) : Prop :=
  forall w a w', m w = Ret a w' -> P a.

(** A round either continues or returns with an error. *)
Definition continues (ctl : LoopCtl) : Prop :=
  match ctl with
  | Continue _ => True
  | Return (_, err) => err <> None
  end.

(** The type assertion [err.(projectConfigError)] of StoreRevisions. *)
Definition is_projectConfigError (e : error) : bool :=
  match e with
  | projectConfigError _ _ => true
  | _ => false
  end.

(** An infrastructural error of the fetch: neither one of the errors about
    the file itself, nor a project-config error. *)
Definition infrastructural (e : error) : Prop :=
  fetch_error e = false /\ is_projectConfigError e = false.

(** The log holds an entry of this level with this message. *)
Definition logged (l : LogLevel) (m : string) (w : World) : Prop :=
  exists r, In (mkLog l m r) (log w).

(** The log entry written before the poll of FetchRevisions. *)
Definition poll_log (lastRevision : string) : LogEntry :=
  if String.eqb lastRevision ""
  then mkLog Debug "no last recorded revision, using most recent revisions" ""
  else mkLog Debug "found last recorded revision" lastRevision.

(** A project that is polled, and a poller that hands out [revisions]. *)
Definition polls (env : Env) (repoTracker : RepoTracker)
    (revisions : list Revision.t) (w0 : World) : Prop :=
  ProjectRef.Enabled (RepoTracker_ProjectRef repoTracker) = true /\
  FindRepository_fault env
    (ProjectRef.Identifier (RepoTracker_ProjectRef repoTracker)) w0 = None /\
  match ProjectRef.RepotrackerError (RepoTracker_ProjectRef repoTracker) with
  | Some re => RepotrackerError.Exists re = false
  | None => True
  end /\
  (forall n w, GetRecentRevisions (RepoTracker_RepoPoller repoTracker) n w
               = (revisions, None)) /\
  (forall s n w, GetRevisionsSince (RepoTracker_RepoPoller repoTracker) s n w
                 = (revisions, None)).

(** The project a tracker runs for. *)
Definition projectIdentifier (repoTracker : RepoTracker) : string :=
  ProjectRef.Identifier (RepoTracker_ProjectRef repoTracker).

(** A version as CreateVersionFromConfig returns it without error: it
    carries the ignore flag it was given; with errors it is a stored stub
    without builds; without errors it was expanded, with one Build and one
    status per enabled variant of the config, and it is stored unless the
    insert met a duplicate key. *)
Definition created_from (c : Project.t) (rev : Revision.t) (ignore : bool)
    (p : string) (w w' : World) (v : Version.t) : Prop :=
  Version.Ignored v = ignore /\
  Version.Revision v = Revision.Revision rev /\
  Version.Identifier v = p /\
  (Version.Errors v <> [] ->
     versions w' = versions w ++ [v] /\ Version.BuildVariants v = [] /\
     builds w' = builds w /\ tasks w' = tasks w) /\
  (Version.Errors v = [] ->
     exists newb newt,
       builds w' = builds w ++ newb /\ tasks w' = tasks w ++ newt /\
       map Build.BuildVariant newb
         = map BuildVariant.Name (filter enabled (Project.BuildVariants c)) /\
       map BuildStatus.BuildVariant (Version.BuildVariants v)
         = map BuildVariant.Name (filter enabled (Project.BuildVariants c)) /\
       map BuildStatus.BuildId (Version.BuildVariants v)
         = map Build.Id newb /\
       Forall (fun t => In (Task.BuildId t) (map Build.Id newb)) newt /\
       (versions w' = versions w ++ [v] \/ versions w' = versions w)).

(** The order-number counter of the project does not fail. *)
Definition counter_answers (env : Env) (p : string) : Prop :=
  forall w, exists skip, NewOrderNumber_result env p w = inr skip.

(** The settings of a tracker as FetchRevisions reads them: a count that is
    not positive stands for the default. *)
Definition effective_settings (s : Settings.t) : Settings.t :=
  Settings.mk
    (if Settings.NumNewRepoRevisionsToFetch s <=? 0
     then DefaultNumNewRepoRevisionsToFetch
     else Settings.NumNewRepoRevisionsToFetch s)
    (if Settings.MaxRepoRevisionsToSearch s <=? 0
     then DefaultMaxRepoRevisionsToSearch
     else Settings.MaxRepoRevisionsToSearch s).

(** The project has a recorded tracker-level error. *)
Definition sticky_error (ref : ProjectRef.t) : bool :=
  match ProjectRef.RepotrackerError ref with
  | Some re => RepotrackerError.Exists re
  | None => false
  end.

(** The errors and warnings the resolver hands to CreateVersionFromConfig;
    none when [versionErrs] is nil. *)
Definition resolver_errors (versionErrs : option VersionErrors) : list string :=
  match versionErrs with
  | Some ve => VersionErrors_Errors ve
  | None => []
  end.

Definition resolver_warnings (versionErrs : option VersionErrors)
  : list string :=
  match versionErrs with
  | Some ve => VersionErrors_Warnings ve
  | None => []
  end.

(** The subscriber a user asks for with a build-break preference of email
    or slack. *)
Definition subscriber_of (u : DBUser.t) : option Subscriber.t :=
  if String.eqb (DBUser.BuildBreak u) PreferenceEmail
  then Some (Subscriber.mk PreferenceEmail (DBUser.EmailAddress u))
  else if String.eqb (DBUser.BuildBreak u) PreferenceSlack
  then Some (Subscriber.mk PreferenceSlack (DBUser.SlackUsername u))
  else None.

(** The subscriber of an admin, as a list: none when the lookup of the user
    fails or finds nobody, or the user has no such preference. *)
Definition admin_subscriber (env : Env) (w : World) (admin : string)
  : list Subscriber.t :=
  match user_FindOne env admin w with
  | (Some u, None) =>
      match subscriber_of u with
      | Some s => [s]
      | None => []
      end
  | _ => []
  end.

(** The lookup of the admin finds a user whose build-break preference is
    empty, email or slack. *)
Definition admin_in_order (env : Env) (w : World) (admin : string) : bool :=
  match user_FindOne env admin w with
  | (Some u, None) =>
      String.eqb (DBUser.BuildBreak u) ""
      || String.eqb (DBUser.BuildBreak u) PreferenceEmail
      || String.eqb (DBUser.BuildBreak u) PreferenceSlack
  | _ => false
  end.

(** The build-break subscription of a project for a subscriber. *)
Definition build_break_subscription (projectRef : ProjectRef.t)
    (subscriber : Subscriber.t) : Subscription.t :=
  Subscription.mk ResourceTypeVersion "build-break"
    [("object", "task");
     ("project", ProjectRef.Identifier projectRef);
     ("requester", RepotrackerVersionRequester)]
    subscriber.

(** The id shellVersionFromRevision gives the version of a revision. *)
Definition version_id (env : Env) (p : string) (rev : Revision.t) : string :=
  util_CleanName env (p ++ "_" ++ Revision.Revision rev)%string.

(** Collaborators that answer: the project has no local config and its
    remote config resolves to [configs r] at every revision [r]; lookups,
    changed files, the counter, inserts, the creation of builds and the
    marshalling do not fail; the validator finds no error; commit authors
    are not registered users and the project does not notify on build
    failures. *)
Definition cooperative (env : Env) (repoTracker : RepoTracker)
    (configs : string -> Project.t) : Prop :=
  lookups_answer env /\
  ProjectRef.LocalConfig (RepoTracker_ProjectRef repoTracker) = ""%string /\
  (forall r w, GetRemoteConfig (RepoTracker_RepoPoller repoTracker) r w
               = (Some (configs r), None)) /\
  (forall r w, snd (GetChangedFiles (RepoTracker_RepoPoller repoTracker) r w)
               = None) /\
  counter_answers env (projectIdentifier repoTracker) /\
  (forall v w, Insert_fault env v w = None) /\
  (forall v name w, CreateBuild_fault env v name w = None) /\
  (forall c, snd (yaml_Marshal env c) = None) /\
  (forall c, snd (validator_CheckProjectSyntax env c) = None /\
             messages_of ValidationError.Error
               (fst (validator_CheckProjectSyntax env c)) = []) /\
  (forall uid w, fst (user_FindByGithubUID env uid w) = None) /\
  ProjectRef.NotifyOnBuildFailure (RepoTracker_ProjectRef repoTracker) = false.

(** A batch of distinct revisions none of which has a version in the
    store, whose version ids are new to the store and distinct. *)
Definition fresh_batch (env : Env) (repoTracker : RepoTracker)
    (revisions : list Revision.t) (w : World) : Prop :=
  NoDup (map Revision.Revision revisions) /\
  (forall rev, In rev revisions ->
     run_query (ByProjectIdAndRevision (projectIdentifier repoTracker)
                  (Revision.Revision rev)) (versions w) = None) /\
  (forall u rev, In u (versions w) -> In rev revisions ->
     Version.Id u <> version_id env (projectIdentifier repoTracker) rev) /\
  (forall a b, In a revisions -> In b revisions ->
     version_id env (projectIdentifier repoTracker) a
     = version_id env (projectIdentifier repoTracker) b ->
     Revision.Revision a = Revision.Revision b).

(** A version without errors that has one status per enabled variant of
    the config, in order, each with its Build in the store. *)
Definition fully_expanded (c : Project.t) (v : Version.t) (w : World) : Prop :=
  Version.Errors v = [] /\
  map BuildStatus.BuildVariant (Version.BuildVariants v)
    = map BuildVariant.Name (filter enabled (Project.BuildVariants c)) /\
  forall bs, In bs (Version.BuildVariants v) ->
    exists b, In b (builds w) /\ Build.Id b = BuildStatus.BuildId bs
              /\ Build.BuildVariant b = BuildStatus.BuildVariant bs.

(** The store answers for the project: no lookup of a version, insert of a
    version or creation of a Build fails, and the counter of the project
    hands out a number. *)
Definition store_answers (env : Env) (p : string) : Prop :=
  lookups_answer env /\
  counter_answers env p /\
  (forall v w, Insert_fault env v w = None) /\
  (forall v name w, CreateBuild_fault env v name w = None).

(** The config marshals, and the validator checks it without failing and
    without a message of level error. *)
Definition accepted (env : Env) (c : Project.t) : Prop :=
  snd (yaml_Marshal env c) = None /\
  snd (validator_CheckProjectSyntax env c) = None /\
  messages_of ValidationError.Error
    (fst (validator_CheckProjectSyntax env c)) = [].

(** The lookup of a commit author by id never answers (nil, nil): a user
    that the lookup by GitHub uid finds is found by id, or the lookup by id
    fails. *)
Definition authors_known (env : Env) : Prop :=
  forall uid w u,
    fst (user_FindByGithubUID env uid w) = Some u ->
    DBUser.Id u <> ""%string ->
    forall w', user_FindOne env (DBUser.Id u) w' <> (None, None).

(** The fetch of the remote config at revision [r] answers [res]: a config
    the validator accepts, with a fetch of the changed files that does not
    fail; or an error that is a rejected request, a file that was not found
    or malformed YAML. *)
Definition resolution_at (env : Env) (repoTracker : RepoTracker)
    (r : string) (res : Resolution) : Prop :=
  match res with
  | resolves c =>
      (forall w, GetRemoteConfig (RepoTracker_RepoPoller repoTracker) r w
                 = (Some c, None)) /\
      accepted env c /\
      (forall w, snd (GetChangedFiles (RepoTracker_RepoPoller repoTracker) r w)
                 = None)
  | unusable e =>
      fetch_error e = true /\
      (forall w, snd (GetRemoteConfig (RepoTracker_RepoPoller repoTracker) r w)
                 = Some e)
  end.

(** The run from [w] to [w'] stored the version [v], expanded from the
    config [c]: it is the last of the versions, has the given id, project,
    revision and ignore flag and no errors, and the run added one Build per
    enabled variant of the config, in order, all of this version, with one
    status each in the version, and Tasks that all belong to these
    Builds. *)
Definition stored_expanded (c : Project.t) (id p r : string) (ignore : bool)
    (w w' : World) (v : Version.t) : Prop :=
  versions w' = versions w ++ [v] /\
  Version.Id v = id /\ Version.Identifier v = p /\ Version.Revision v = r /\
  Version.Ignored v = ignore /\ Version.Errors v = [] /\
  exists newb newt,
    builds w' = builds w ++ newb /\ tasks w' = tasks w ++ newt /\
    map Build.BuildVariant newb
      = map BuildVariant.Name (filter enabled (Project.BuildVariants c)) /\
    map BuildStatus.BuildVariant (Version.BuildVariants v)
      = map BuildVariant.Name (filter enabled (Project.BuildVariants c)) /\
    map BuildStatus.BuildId (Version.BuildVariants v) = map Build.Id newb /\
    Forall (fun b => Build.Version b = Version.Id v) newb /\
    Forall (fun t => In (Task.BuildId t) (map Build.Id newb)) newt.

(** A stub version of a revision whose config could not be fetched: the
    message of the failure is its only error, and it has no warnings, no
    config and no builds. *)
Definition stub_of (env : Env) (repoTracker : RepoTracker) (v : Version.t)
  : Prop :=
  Version.Errors v
    = [Fields_String env (projectIdentifier repoTracker) (Version.Revision v)
         (ProjectRef.RemotePath (RepoTracker_ProjectRef repoTracker))] /\
  Version.Warnings v = [] /\
  Version.Config v = ""%string /\
  Version.BuildVariants v = [] /\ Version.BuildIds v = [].

(** The error of sanityCheckOrderNum for a new version of order number [n]
    and revision [r] when [latest] is the latest version of the project:
    a duplicate revision is refused first, then an order number that is not
    greater, with both numbers in the message. *)
Definition order_error (n : Z) (r : string) (latest : Version.t) : error :=
  if String.eqb (Version.Revision latest) r
  then errorString "refusing to add a new version with a duplicate revision id"
  else errorString
         ("Commit order number isn't greater than last stored version's: "
          ++ Sprint_int n ++ " <= "
          ++ Sprint_int (Version.RevisionOrderNumber latest)).

(** The store when the round of a revision has logged that it starts. *)
Definition started (rev : Revision.t) (w : World) : World :=
  add_log (mkLog Info "Processing revision" (Revision.Revision rev)) w.

(** The activation of a project leaves the watermarks alone. *)
Definition activation_keeps_watermarks (env : Env) : Prop :=
  forall p w q,
    last_revision (fst (model_DoProjectActivation env p w)) q
    = last_revision w q.

(** A slice as a conversion hands it back: an empty slice comes back nil. *)
Definition nil_if_empty {A : Type} (s : slice A) : slice A :=
  match s with
  | Some [] => None
  | _ => s
  end.

(** Converting a string to an APIString and back gives the string. *)
Definition strings_round_trip (X : Externals) : Prop :=
  forall s, FromAPIString X (ToAPIString X s) = s.

(** The issue that comes back from a round trip. *)
Definition JiraIssue_back {X : Externals} (issue : JiraIssue.t X)
  : JiraIssue.t X :=
  JiraIssue.mk (JiraIssue.IssueKey issue) (JiraIssue.Project issue)
    (JiraIssue.Summary issue) (JiraIssue.Description issue)
    (JiraIssue.Reporter issue) (JiraIssue.Assignee issue)
    (JiraIssue.Type_ issue) (nil_if_empty (JiraIssue.Components issue))
    (nil_if_empty (JiraIssue.Labels issue)) (JiraIssue.Fields issue)
    (JiraIssue.Callback issue).

(** The e-mail that comes back from a round trip. *)
Definition Email_back {X : Externals} (email : Email.t X) : Email.t X :=
  Email.mk (Email.From email) (nil_if_empty (Email.Recipients email))
    (Email.Subject email) (Email.Body email) (Email.PlainTextContents email)
    (Email.Headers email).

(** The attachment that comes back from a round trip. *)
Definition SlackAttachment_back (a : SlackAttachment.t) : SlackAttachment.t :=
  SlackAttachment.mk (SlackAttachment.Color a) (SlackAttachment.Fallback a)
    (SlackAttachment.AuthorName a) (SlackAttachment.AuthorIcon a)
    (SlackAttachment.Title a) (SlackAttachment.TitleLink a)
    (SlackAttachment.Text a) (nil_if_empty (SlackAttachment.Fields a))
    (nil_if_empty (SlackAttachment.MarkdownIn a)) (SlackAttachment.Footer a).

(** No field of the attachment is a nil pointer. *)
Definition fields_present (a : SlackAttachment.t) : Prop :=
  Forall (fun f => f <> None) (range (SlackAttachment.Fields a)).

(** The API field BuildFromService makes of a field, and the pointer to it
    for a pointer that is not nil. *)
Definition api_field (X : Externals) (field : SlackAttachmentField.t)
  : APISlackAttachmentField.t X :=
  APISlackAttachmentField.mk
    (ToAPIString X (SlackAttachmentField.Title field))
    (ToAPIString X (SlackAttachmentField.Value field))
    (SlackAttachmentField.Short field).

Definition api_field_pointer (X : Externals)
    (f : option SlackAttachmentField.t)
  : option (APISlackAttachmentField.t X) :=
  option_map (api_field X) f.

(** The API attachment BuildFromService makes of an attachment in a fresh
    receiver. *)
Definition built_from (X : Externals) (attachment : SlackAttachment.t)
    (a : APISlackAttachment.t X) : Prop :=
  APISlackAttachment_BuildFromService X (APISlackAttachment_zero X)
    (SlackAttachment_value attachment) = Value (a, None).

(** The targets of POST /rest/v2/notifications/{target_id}. *)
Definition supported_target (targetID : string) : bool :=
  existsb (String.eqb targetID) ["jira_comment"; "jira_issue"; "slack"; "email"].

(** The target a handler serves, and the key of its sender. *)
Definition target_of {X : Externals} (h : RouteHandler X) : string :=
  match h with
  | jiraCommentNotificationPostHandler _ => "jira_comment"
  | jiraIssueNotificationPostHandler _ => "jira_issue"
  | slackNotificationPostHandler _ => "slack"
  | emailNotificationPostHandler _ => "email"
  end.

Definition sender_key {X : Externals} (h : RouteHandler X) : SenderKey :=
  match h with
  | jiraCommentNotificationPostHandler _ => SenderJIRAComment
  | jiraIssueNotificationPostHandler _ => SenderJIRAIssue
  | slackNotificationPostHandler _ => SenderSlack
  | emailNotificationPostHandler _ => SenderEmail
  end.

(** The handler holds a payload. *)
Definition parsed {X : Externals} (h : RouteHandler X) : bool :=
  match h with
  | jiraCommentNotificationPostHandler t =>
      match payload t with Some _ => true | None => false end
  | jiraIssueNotificationPostHandler t =>
      match payload t with Some _ => true | None => false end
  | slackNotificationPostHandler t =>
      match payload t with Some _ => true | None => false end
  | emailNotificationPostHandler t =>
      match payload t with Some _ => true | None => false end
  end.
(** ** Vocabulary of the Docker client *)

(** The client a call of the Docker API is made on. *)
Definition call_client (c : Call) : option Client :=
  match c with
  | ImageInspectWithRaw cl _ | ImageImport cl _ _ | ImageBuild cl _
  | ContainerCreate cl _ _ | ContainerInspect cl _ | ContainerList cl _
  | ImageList cl _ | ImageRemove cl _ _ | ContainerRemove cl _ _
  | ContainerStart cl _ => Some cl
  | GetHTTPClient | NewClient _ _ | ReadAll _ | CreateSecret _ => None
  end.

(** The methods of the interface dockerClient, and a program that calls
    them one after the other, whatever they return. *)
Inductive Operation : Type :=
| CallInit (version : string)
| CallEnsureImageDownloaded (h : Host.t) (url : string)
| CallBuildImageWithAgent (h : Host.t) (baseImage : string)
| CallCreateContainer (parentHost containerHost : Host.t)
    (settings : dockerSettings)
| CallGetContainer (h : Host.t) (containerID : string)
| CallListContainers (h : Host.t)
| CallRemoveImage (h : Host.t) (imageID : string)
| CallRemoveContainer (h : Host.t) (containerID : string)
| CallStartContainer (h : Host.t) (containerID : string)
| CallListImages (h : Host.t).

Definition discard {A : Type} (m : D A) : D unit :=
  dbind m (fun _ => dret tt).

Definition run_operation (K : Daemon) (o : Operation) : D unit :=
  match o with
  | CallInit version => discard (Init K version)
  | CallEnsureImageDownloaded h url => discard (EnsureImageDownloaded K h url)
  | CallBuildImageWithAgent h baseImage =>
      discard (BuildImageWithAgent K h baseImage)
  | CallCreateContainer parentHost containerHost settings =>
      discard (CreateContainer K parentHost containerHost settings)
  | CallGetContainer h containerID => discard (GetContainer K h containerID)
  | CallListContainers h => discard (ListContainers K h)
  | CallRemoveImage h imageID => discard (RemoveImage K h imageID)
  | CallRemoveContainer h containerID =>
      discard (RemoveContainer K h containerID)
  | CallStartContainer h containerID =>
      discard (StartContainer K h containerID)
  | CallListImages h => discard (ListImages K h)
  end.

Fixpoint run_operations (K : Daemon) (os : list Operation) : D unit :=
  match os with
  | [] => dret tt
  | o :: rest => dbind (run_operation K o) (fun _ => run_operations K rest)
  end.

(** The calls of a run are added to those made before; a client the
    wrapper has is kept, the calls of the Docker API are made on the client
    the wrapper has in the end, and a client it did not have was made by
    docker.NewClient during the run. *)
Definition same_client (w w' : Cloud) : Prop :=
  exists new,
    calls w' = calls w ++ new /\
    (forall cl, client (impl w) = Some cl -> client (impl w') = Some cl) /\
    (forall t c cl,
       In (t, c) new -> call_client c = Some cl ->
       client (impl w') = Some cl) /\
    (forall cl,
       client (impl w') = Some cl ->
       client (impl w) = Some cl
       \/ In (NewClient (client_endpoint cl) (client_version cl))
             (map snd new)).

(** Programs that, run with the client [cl] in the wrapper, keep it and
    make their calls of the Docker API on it. *)
Definition uses (cl : Client) {A : Type} (m : D A) : Prop :=
  forall w a w',
    client (impl w) = Some cl -> m w = Value (a, w') ->
    client (impl w') = Some cl /\
    exists new,
      calls w' = calls w ++ new /\
      forall t c cl', In (t, c) new -> call_client c = Some cl' -> cl' = cl.

(** Programs all of whose runs are related by [same_client]. *)
Definition tracks {A : Type} (m : D A) : Prop :=
  forall w a w', m w = Value (a, w') -> same_client w w'.

(** The timeout an import of EnsureImageDownloaded is sent with, from the
    state before the call: ten minutes when the docker client is made
    during the call or shares the http client of the wrapper, and the
    timeout of the http client the docker client was left with when Init
    has replaced the http client of the wrapper since the client was
    made. *)
Definition import_timeout (w : Cloud) : option Duration :=
  match client (impl w), client_http w with
  | Some _, earlier_http None => None
  | Some _, earlier_http (Some hc) => Some (Timeout hc)
  | _, _ => Some imageImportTimeout
  end.

(** A call of ImageRemove. *)
Definition is_ImageRemove (c : option Duration * Call) : bool :=
  match snd c with
  | ImageRemove _ _ _ => true
  | _ => false
  end.

(** The path of the agent in a container of a parent host. *)
Definition pathToExecutable (K : Daemon) (parentHost : Host.t) : string :=
  (filepath_Join K ["root"; "evergreen"]
   ++ (if Distro.IsWindows (Host.Distro parentHost) then ".exe" else ""))%string.

(** What every operation returns for a host without an address. *)
Definition blank_host_error : error :=
  withMessage (errorString "HostIP must not be blank")
    "Failed to generate docker client".

(** The transport Init leaves in the http client. *)
Definition insecure_transport : RoundTripper :=
  TransportPointer (Some (mkHTTPTransport (Some (mkTLSConfig true)))).

(** ** Vocabulary of the signal-processing page *)

(** What happens to a controller: a handler of the grid changes the state
    and calls loadData, or a promise settles. *)
Inductive GridEvent : Type :=
| Load (state : GridState)
| Settle (p : nat) (result : Settled).

Definition handle (P : Page) (c : Controller P) (e : GridEvent)
  : Controller P :=
  match e with
  | Load state => loadData P state c
  | Settle p result => settle P p result c
  end.

Definition run_events (P : Page) (es : list GridEvent) (c : Controller P)
  : Controller P :=
  fold_left (handle P) es c.

(** How a promise of the controller was settled, if it was. *)
Definition result_of {P : Page} (c : Controller P) (p : nat)
  : option Settled :=
  match promise_at P c p with
  | Some promise => settled promise
  | None => None
  end.

(** The element of the filtering context of a filter, if its column is
    found. *)
Definition context_of (P : Page) (kv : string * string)
  : list FilteringContext :=
  match getCol P (fst kv) with
  | None => []
  | Some col => [mkFilteringContext (fst kv) (snd kv) (type_or_string col)]
  end.

(** The promises of a controller that only loadData and settle touched:
    a pending promise waits with the callback of loadData alone, and the
    most recent promise is the last one created. *)
Definition well_formed {P : Page} (c : Controller P) : Prop :=
  (forall p rs,
     promise_at P c p = Some (mkPromise None rs) -> rs = [outer p]) /\
  match theMostRecentPromise c with
  | None => promises c = []
  | Some p => S p = List.length (promises c)
  end.

(** The controller is loading exactly while its most recent promise is
    pending or was rejected. *)
Definition loading_iff {P : Page} (c : Controller P) : Prop :=
  isLoading c = true <->
  exists p, theMostRecentPromise c = Some p /\
            (result_of c p = None
             \/ exists err, result_of c p = Some (Rejected err)).

(** The data are the hydrated documents of the most recent promise, once
    it is fulfilled. *)
Definition shows_latest {P : Page} (c : Controller P) : Prop :=
  forall p docs,
    theMostRecentPromise c = Some p ->
    result_of c p = Some (Fulfilled docs) ->
    data c = Some (hydrateData P docs).

(** What holds of a controller after any events. *)
Definition steady {P : Page} (c : Controller P) : Prop :=
  well_formed c /\ console c = [] /\ loading_iff c /\ shows_latest c.


(** ** Reasoning about programs of the monad *)


Lemma bind_Ret {A B} (m : M A) (k : A -> M B) (w w' : World) (a : A) :
  m w = Ret a w' -> bind m k w = k a w'.
Proof. intros H. unfold bind. rewrite H. reflexivity. Qed.

Lemma bind_Panic {A B} (m : M A) (k : A -> M B) (w w' : World) (r : string) :
  m w = Panic r w' -> bind m k w = Panic r w'.
Proof. intros H. unfold bind. rewrite H. reflexivity. Qed.

Lemma bind_inv {A B} (m : M A) (k : A -> M B) (w w2 : World) (b : B) :
  bind m k w = Ret b w2 ->
  exists a w1, m w = Ret a w1 /\ k a w1 = Ret b w2.
Proof.
  unfold bind. destruct (m w) as [a w1 | r w1]; intros H.
  - exists a, w1. split; [reflexivity | exact H].
  - discriminate H.
Qed.

(** Case analysis on the scrutinee of the first [match] of the goal. *)
Ltac case_match :=
  match goal with
  | |- context [match ?x with _ => _ end] =>
      lazymatch x with
      | context [match _ with _ => _ end] => fail
      | _ => destruct x eqn:?
      end
  end.

Ltac case_match_in H :=
  match type of H with
  | context [match ?x with _ => _ end] =>
      lazymatch x with
      | context [match _ with _ => _ end] => fail
      | _ => destruct x eqn:?
      end
  end.

(** ** The expansion of a version into builds and tasks *)

Lemma add_statuses_app (a b : list BuildStatus.t) (v : Version.t) :
  add_statuses (a ++ b) v = add_statuses b (add_statuses a v).
Proof. unfold add_statuses. apply fold_left_app. Qed.

Lemma add_statuses_fields (news : list BuildStatus.t) (v : Version.t) :
  Version.Id (add_statuses news v) = Version.Id v /\
  Version.Identifier (add_statuses news v) = Version.Identifier v /\
  Version.Revision (add_statuses news v) = Version.Revision v /\
  Version.RevisionOrderNumber (add_statuses news v)
    = Version.RevisionOrderNumber v /\
  Version.Ignored (add_statuses news v) = Version.Ignored v /\
  Version.Errors (add_statuses news v) = Version.Errors v /\
  Version.Warnings (add_statuses news v) = Version.Warnings v /\
  Version.BuildVariants (add_statuses news v)
    = Version.BuildVariants v ++ news /\
  Version.BuildIds (add_statuses news v)
    = Version.BuildIds v ++ map BuildStatus.BuildId news.
Proof.
  revert v. induction news as [| bs news IH]; intros v.
  - simpl. rewrite !app_nil_r. repeat split.
  - simpl. specialize (IH (Version.add_build (BuildStatus.BuildId bs) bs v)).
    destruct IH as (H1 & H2 & H3 & H4 & H5 & H6 & H7 & H8 & H9).
    unfold add_statuses in *.
    rewrite H1, H2, H3, H4, H5, H6, H7, H8, H9. simpl.
    rewrite <- !app_assoc. repeat split.
Qed.

Lemma expands_refl (names : list string) (c : bool) (v : Version.t)
    (w : World) :
  names = [] -> expands names c v w v w.
Proof.
  intros ->. exists [], [], []. rewrite !app_nil_r.
  repeat split; constructor.
Qed.

Lemma expands_trans (n1 n2 : list string) (c1 c2 : bool)
    (v v1 v2 : Version.t) (w w1 w2 : World) :
  c1 = true ->
  expands n1 c1 v w v1 w1 -> expands n2 c2 v1 w1 v2 w2 ->
  expands (n1 ++ n2) c2 v w v2 w2.
Proof.
  intros Hc1 (b1 & t1 & s1 & Hb1 & Ht1 & Hv1 & Fb1 & Ft1 & Fs1 & C1 & V1 & R1 & S1)
         (b2 & t2 & s2 & Hb2 & Ht2 & Hv2 & Fb2 & Ft2 & Fs2 & C2 & V2 & R2 & S2).
  assert (Hid : Version.Id v1 = Version.Id v).
  { subst v1. apply add_statuses_fields. }
  exists (b1 ++ b2), (t1 ++ t2), (s1 ++ s2).
  split; [rewrite Hb2, Hb1; apply eq_sym, app_assoc |].
  split; [rewrite Ht2, Ht1; apply eq_sym, app_assoc |].
  split; [rewrite add_statuses_app; congruence |].
  split.
  { apply Forall_app. split.
    - eapply Forall_impl; [| exact Fb1]. simpl. intros b [Hn Hv].
      split; [apply in_or_app; left; exact Hn | exact Hv].
    - eapply Forall_impl; [| exact Fb2]. simpl. intros b [Hn Hv].
      split; [apply in_or_app; right; exact Hn | congruence]. }
  split.
  { rewrite map_app. apply Forall_app. split.
    - eapply Forall_impl; [| exact Ft1]. simpl. intros t [Hn Hv].
      split; apply in_or_app; left; assumption.
    - eapply Forall_impl; [| exact Ft2]. simpl. intros t [Hn Hv].
      split; apply in_or_app; right; assumption. }
  split.
  { rewrite map_app. apply Forall_app. split.
    - eapply Forall_impl; [| exact Fs1]. simpl. intros t (Hn & Ha & Hv).
      repeat split; try assumption; apply in_or_app; left; assumption.
    - eapply Forall_impl; [| exact Fs2]. simpl. intros t (Hn & Ha & Hv).
      repeat split; try assumption; apply in_or_app; right; assumption. }
  split.
  { intros Hc2. destruct (C1 Hc1) as (A1 & A2 & A3).
    destruct (C2 Hc2) as (B1 & B2 & B3).
    rewrite !map_app. repeat split; congruence. }
  repeat split; congruence.
Qed.

Section Expansion.

Variable env : Env.
Variable ref : ProjectRef.t.
Variable project : Project.t.
Variable taskIds : TaskIdTable.

Lemma variant_disabled (v : Version.t) (bv : BuildVariant.t) (w : World) :
  BuildVariant.Disabled bv = true ->
  createVersionItems_variant env ref project taskIds v bv w = Ret (v, None) w.
Proof.
  intros H. unfold createVersionItems_variant. rewrite H. reflexivity.
Qed.

Lemma builds_filter_enabled (bvs : list BuildVariant.t) :
  forall (v : Version.t) (w : World),
    createVersionItems_builds env ref project taskIds v bvs w
    = createVersionItems_builds env ref project taskIds v
        (filter enabled bvs) w.
Proof.
  induction bvs as [| bv bvs IH]; intros v w; [reflexivity |].
  simpl. unfold enabled at 1.
  destruct (BuildVariant.Disabled bv) eqn:Hd; simpl.
  - rewrite (bind_Ret _ _ w w (v, None)) by (apply variant_disabled; exact Hd).
    apply IH.
  - unfold bind.
    destruct (createVersionItems_variant env ref project taskIds v bv w)
      as [[v' [e |]] w' | r w']; try reflexivity.
    apply IH.
Qed.

(** One enabled variant: one build with its tasks; a status on the version
    when the round ends without error. *)
Lemma variant_expands (v v' : Version.t) (bv : BuildVariant.t)
    (w w' : World) (err : option error) :
  BuildVariant.Disabled bv = false ->
  createVersionItems_variant env ref project taskIds v bv w
    = Ret (v', err) w' ->
  expands [BuildVariant.Name bv]
          (match err with None => true | Some _ => false end) v w v' w'.
Proof.
  intros Hd. unfold createVersionItems_variant. rewrite Hd.
  unfold bind, model_CreateBuildFromVersion.
  destruct (CreateBuild_fault env v (BuildVariant.Name bv) w) as [e |] eqn:Hf.
  - simpl. intros H. inversion H; subst.
    exists [], [], []. rewrite !app_nil_r.
    repeat split; try constructor; discriminate.
  - unfold version_FindOne. cbn [versions set_builds].
    match goal with
    | |- context [FindOne_fault env ?q ?w1] =>
        destruct (FindOne_fault env q w1) as [[r e] |] eqn:Hq
    end.
    + intros H. inversion H; subst. clear H.
      eexists [_], _, []. cbn [builds tasks versions repositories
                                 subscriptions set_builds].
      split; [reflexivity |]. split; [reflexivity |].
      split; [reflexivity |].
      split; [constructor; [split; [left |]; reflexivity | constructor] |].
      split.
      { apply Forall_forall. intros t Ht. apply in_map_iff in Ht.
        destruct Ht as (x & <- & _). simpl. split; left; reflexivity. }
      split; [constructor |].
      split; [discriminate |].
      repeat split.
    + match goal with
      | |- context [lastActivationOf ?la ?n] =>
          destruct (lastActivationOf la n) as [t |]
      end;
        cbn; intros H; inversion H; subst; clear H;
        eexists [_], _, [BuildStatus.mk _ _ _ _];
        (split; [reflexivity |]); (split; [reflexivity |]);
        (split; [reflexivity |]);
        (split; [constructor; [split; [left |]; reflexivity | constructor] |]);
        (split; [apply Forall_forall; intros t' Ht'; apply in_map_iff in Ht';
                 destruct Ht' as (x & <- & _); simpl; split; left; reflexivity
                |]);
        (split; [constructor; [simpl; repeat split; left; reflexivity
                              | constructor] |]);
        (split; [intros _; repeat split |]);
        repeat split.
Qed.

Lemma builds_expands (bvs : list BuildVariant.t) :
  forall (v v' : Version.t) (w w' : World) (err : option error),
    createVersionItems_builds env ref project taskIds v bvs w
      = Ret (v', err) w' ->
    expands (map BuildVariant.Name (filter enabled bvs))
            (match err with None => true | Some _ => false end) v w v' w'.
Proof.
  induction bvs as [| bv bvs IH]; intros v v' w w' err H.
  - simpl in H. inversion H; subst. apply expands_refl. reflexivity.
  - simpl in H. apply bind_inv in H. destruct H as ([v1 e1] & w1 & H1 & H2).
    destruct (BuildVariant.Disabled bv) eqn:Hd;
      cbn [filter]; unfold enabled at 1; rewrite Hd; cbn [negb map].
    + rewrite variant_disabled in H1 by exact Hd. inversion H1; subst.
      apply IH. exact H2.
    + pose proof (variant_expands _ _ _ _ _ _ Hd H1) as E1.
      destruct e1 as [e |].
      * inversion H2; subst.
        destruct E1 as (b1 & t1 & s1 & Hb1 & Ht1 & Hv1 & Fb1 & Ft1 & Fs1
                        & C1 & V1 & R1 & S1).
        exists b1, t1, s1.
        repeat (split; [assumption |]).
        split.
        { eapply Forall_impl; [| exact Fb1]. simpl. intros b [Hn Hv].
          split; [| exact Hv]. destruct Hn as [<- | []]. left. reflexivity. }
        split.
        { eapply Forall_impl; [| exact Ft1]. simpl. intros b [Hn Hv].
          split; [| exact Hv]. destruct Hn as [<- | []]. left. reflexivity. }
        split.
        { eapply Forall_impl; [| exact Fs1]. simpl. intros b (Hn & Ha & Hv).
          repeat split; try assumption.
          destruct Hn as [<- | []]. left. reflexivity. }
        split; [discriminate |]. repeat split; assumption.
      * apply (expands_trans [BuildVariant.Name bv] _ true _ v v1 v' w w1 w');
          [reflexivity | exact E1 | apply IH; exact H2].
Qed.

End Expansion.

Section ExpansionTotal.

Variable env : Env.
Variable ref : ProjectRef.t.
Variable project : Project.t.
Variable taskIds : TaskIdTable.

Lemma variant_returns (v : Version.t) (bv : BuildVariant.t) (w : World) :
  exists v' err w',
    createVersionItems_variant env ref project taskIds v bv w
    = Ret (v', err) w'.
Proof.
  unfold createVersionItems_variant, bind, model_CreateBuildFromVersion,
    version_FindOne, ask, grip_log, ret.
  repeat case_match; eauto.
Qed.

Lemma builds_returns (bvs : list BuildVariant.t) :
  forall (v : Version.t) (w : World),
  exists v' err w',
    createVersionItems_builds env ref project taskIds v bvs w
    = Ret (v', err) w'.
Proof.
  induction bvs as [| bv bvs IH]; intros v w.
  - simpl. unfold ret. eauto.
  - simpl. destruct (variant_returns v bv w) as (v1 & e1 & w1 & H1).
    rewrite (bind_Ret _ _ _ _ _ H1). destruct e1 as [e |].
    + unfold ret. eauto.
    + apply IH.
Qed.

End ExpansionTotal.

(** C9 — disabled build variants are skipped entirely. The loop of
    createVersionItems over the build variants always returns, it returns
    what it returns over the enabled variants alone, and every Build, every
    Task and every build-variant status it leaves behind belongs to a
    variant that is not disabled; after a run without error there is
    exactly one Build and one status per enabled variant, in order. *)
Theorem C9_disabled_variants_are_skipped (env : Env) (ref : ProjectRef.t)
    (project : Project.t) (taskIds : TaskIdTable)
    (bvs : list BuildVariant.t) (v : Version.t) (w : World) :
  exists v' err w' newb newt news,
    createVersionItems_builds env ref project taskIds v bvs w
      = Ret (v', err) w' /\
    createVersionItems_builds env ref project taskIds v (filter enabled bvs) w
      = Ret (v', err) w' /\
    builds w' = builds w ++ newb /\
    tasks w' = tasks w ++ newt /\
    Version.BuildVariants v' = Version.BuildVariants v ++ news /\
    Version.BuildIds v' = Version.BuildIds v ++ map BuildStatus.BuildId news /\
    (forall b, In b newb ->
       exists bv, In bv bvs /\ BuildVariant.Disabled bv = false
                  /\ Build.BuildVariant b = BuildVariant.Name bv) /\
    (forall t, In t newt ->
       exists bv, In bv bvs /\ BuildVariant.Disabled bv = false
                  /\ Task.BuildVariant t = BuildVariant.Name bv) /\
    (forall bs, In bs news ->
       exists bv, In bv bvs /\ BuildVariant.Disabled bv = false
                  /\ BuildStatus.BuildVariant bs = BuildVariant.Name bv) /\
    (err = None ->
       map Build.BuildVariant newb
         = map BuildVariant.Name (filter enabled bvs) /\
       map BuildStatus.BuildVariant news
         = map BuildVariant.Name (filter enabled bvs)).
Proof.
  destruct (builds_returns env ref project taskIds bvs v w)
    as (v' & err & w' & H).
  pose proof (builds_expands env ref project taskIds bvs _ _ _ _ _ H) as E.
  destruct E as (newb & newt & news & Hb & Ht & Hv & Fb & Ft & Fs & C & _).
  exists v', err, w', newb, newt, news.
  assert (Hname : forall n,
             In n (map BuildVariant.Name (filter enabled bvs)) ->
             exists bv, In bv bvs /\ BuildVariant.Disabled bv = false
                        /\ n = BuildVariant.Name bv).
  { intros n Hn. apply in_map_iff in Hn. destruct Hn as (bv & <- & Hin).
    apply filter_In in Hin. destruct Hin as [Hin Hen].
    exists bv. repeat split; [exact Hin |].
    unfold enabled in Hen. destruct (BuildVariant.Disabled bv);
      [discriminate | reflexivity]. }
  split; [exact H |].
  split; [rewrite <- builds_filter_enabled; exact H |].
  split; [exact Hb |]. split; [exact Ht |].
  split; [subst v'; apply add_statuses_fields |].
  split; [subst v'; apply add_statuses_fields |].
  split.
  { intros b Hin. rewrite Forall_forall in Fb.
    apply Hname. apply (Fb b Hin). }
  split.
  { intros t Hin. rewrite Forall_forall in Ft.
    apply Hname. apply (Ft t Hin). }
  split.
  { intros bs Hin. rewrite Forall_forall in Fs.
    apply Hname. apply (Fs bs Hin). }
  intros ->. destruct (C eq_refl) as (A1 & A2 & _). split; assumption.
Qed.

(** ** The queries on the version collection *)

Lemma highest_order_spec (vs : list Version.t) :
  forall (best : option Version.t) (u : Version.t),
    highest_order best vs = Some u ->
    (best = Some u \/ In u vs) /\
    (forall x, best = Some x \/ In x vs ->
               Version.RevisionOrderNumber x <= Version.RevisionOrderNumber u).
Proof.
  induction vs as [| v vs IH]; intros best u H; simpl in H.
  - split; [left; exact H |].
    intros x [Hx | []]. rewrite Hx in H. inversion H. lia.
  - apply IH in H. destruct H as [Hin Hmax]. split.
    + destruct Hin as [Hb | Hin]; [| right; right; exact Hin].
      destruct best as [b |].
      * destruct (Version.RevisionOrderNumber b <? Version.RevisionOrderNumber v);
          inversion Hb; subst; [right; left | left]; reflexivity.
      * inversion Hb; subst. right. left. reflexivity.
    + intros x [Hx | [Hx | Hx]].
      * subst best.
        destruct (Version.RevisionOrderNumber x <? Version.RevisionOrderNumber v)
          eqn:Hlt.
        -- apply Z.ltb_lt in Hlt.
           specialize (Hmax v (or_introl eq_refl)). lia.
        -- apply Hmax. left. reflexivity.
      * subst x. destruct best as [b |].
        -- destruct (Version.RevisionOrderNumber b <? Version.RevisionOrderNumber v)
             eqn:Hlt.
           ++ apply Hmax. left. reflexivity.
           ++ apply Z.ltb_ge in Hlt.
              specialize (Hmax b (or_introl eq_refl)). lia.
        -- apply Hmax. left. reflexivity.
      * apply Hmax. right. exact Hx.
Qed.

Lemma highest_order_some (vs : list Version.t) :
  forall (b : Version.t), exists u, highest_order (Some b) vs = Some u.
Proof.
  induction vs as [| v vs IH]; intros b; simpl.
  - exists b. reflexivity.
  - destruct (Version.RevisionOrderNumber b <? Version.RevisionOrderNumber v);
      apply IH.
Qed.

Lemma highest_order_none (vs : list Version.t) :
  highest_order None vs = None <-> vs = [].
Proof.
  split.
  - destruct vs as [| v vs]; [reflexivity |]. simpl. intros H.
    destruct (highest_order_some vs v) as (u & Hu). congruence.
  - intros ->. reflexivity.
Qed.

Lemma filter_nil_iff {A} (f : A -> bool) (l : list A) :
  filter f l = [] <-> forall x, In x l -> f x = false.
Proof.
  induction l as [| a l IH]; simpl.
  - split; [intros _ x [] | reflexivity].
  - destruct (f a) eqn:Hfa; split.
    + discriminate.
    + intros H. specialize (H a (or_introl eq_refl)). congruence.
    + intros H x [<- | Hx]; [exact Hfa | apply IH; assumption].
    + intros H. apply IH. intros x Hx. apply H. right. exact Hx.
Qed.

(** The most recent version of a project that recorded an activation of a
    variant: none exactly when no stored version of the project did. *)
Lemma last_activation_none (p name : string) (vs : list Version.t) :
  run_query (ByLastVariantActivation p name) vs = None <->
  (forall u, In u vs -> Version.Identifier u = p ->
             records_activation name u = false).
Proof.
  simpl. rewrite highest_order_none, filter_nil_iff. split.
  - intros H u Hin Hp. specialize (H u Hin).
    apply andb_false_iff in H. destruct H as [H | H]; [| exact H].
    apply String.eqb_neq in H. contradiction.
  - intros H u Hin. destruct (String.eqb_spec (Version.Identifier u) p) as [E | E].
    + simpl. apply H; assumption.
    + reflexivity.
Qed.

Lemma last_activation_some (p name : string) (vs : list Version.t)
    (u : Version.t) :
  run_query (ByLastVariantActivation p name) vs = Some u ->
  In u vs /\ Version.Identifier u = p /\ records_activation name u = true /\
  (forall u', In u' vs -> Version.Identifier u' = p ->
              records_activation name u' = true ->
              Version.RevisionOrderNumber u' <= Version.RevisionOrderNumber u).
Proof.
  simpl. intros H. apply highest_order_spec in H. destruct H as [Hin Hmax].
  destruct Hin as [Hin | Hin]; [discriminate |].
  apply filter_In in Hin. destruct Hin as [Hin Hf].
  apply andb_true_iff in Hf. destruct Hf as [Hp Hr].
  apply String.eqb_eq in Hp.
  repeat split; try assumption.
  intros u' Hin' Hp' Hr'. apply Hmax. right. apply filter_In.
  split; [exact Hin' |]. rewrite Hr'. rewrite (proj2 (String.eqb_eq _ _) Hp').
  reflexivity.
Qed.

Lemma records_activation_find (name : string) (u : Version.t) :
  records_activation name u = true ->
  exists bs,
    find (fun bs => String.eqb (BuildStatus.BuildVariant bs) name
                    && BuildStatus.Activated bs)
         (Version.BuildVariants u) = Some bs.
Proof.
  unfold records_activation. intros H.
  destruct (find _ (Version.BuildVariants u)) as [bs |] eqn:Hf.
  - exists bs. reflexivity.
  - apply existsb_exists in H. destruct H as (x & Hin & Hx).
    pose proof (find_none _ _ Hf x Hin) as Hn. simpl in Hn. congruence.
Qed.

Lemma wrap64_small (z : Z) : - 2 ^ 63 <= z < 2 ^ 63 -> wrap64 z = z.
Proof.
  intros H. unfold wrap64. rewrite Z.mod_small; lia.
Qed.

(** C7 — the activation time of the build of an enabled variant. Once the
    Build is created and the lookup of the last activation answers, the
    round of the loop records the status [{variant, activated: false,
    activateAt, buildId}] where: when no stored Version of the project
    holds a status of this variant name that is activated ([activated:
    true]), [activateAt] is the current time; otherwise the lookup finds
    the most recent such Version (highest order number) and [activateAt] is
    the activation time of its first activated status of the variant plus
    the batch time of the variant in minutes, the batch time being the
    override of the variant or else the default of the project. A status
    that is not activated counts for nothing, whatever activation time it
    holds. The duration is an int64: the sum is the exact one whenever the
    batch time in nanoseconds fits. The creation time of the commit plays
    no part. *)
Theorem C7_activate_at (env : Env) (ref : ProjectRef.t) (project : Project.t)
    (taskIds : TaskIdTable) (v : Version.t) (bv : BuildVariant.t)
    (w w1 : World) (buildId : string) :
  BuildVariant.Disabled bv = false ->
  model_CreateBuildFromVersion env project v taskIds (BuildVariant.Name bv) w
    = Ret (buildId, None) w1 ->
  FindOne_fault env
    (ByLastVariantActivation (ProjectRef.Identifier ref) (BuildVariant.Name bv))
    w1 = None ->
  exists activateAt,
    createVersionItems_variant env ref project taskIds v bv w
      = Ret (Version.add_build buildId
               (BuildStatus.mk (BuildVariant.Name bv) false activateAt buildId)
               v, None)
            (add_log (mkLog Debug "activating build" (Version.Id v)) w1) /\
    ((forall u, In u (versions w) ->
                Version.Identifier u = ProjectRef.Identifier ref ->
                records_activation (BuildVariant.Name bv) u = false) ->
     activateAt = time_Now env w1) /\
    ((exists u, In u (versions w)
                /\ Version.Identifier u = ProjectRef.Identifier ref
                /\ records_activation (BuildVariant.Name bv) u = true) ->
     exists u bs,
       In u (versions w) /\
       Version.Identifier u = ProjectRef.Identifier ref /\
       (forall u', In u' (versions w) ->
                   Version.Identifier u' = ProjectRef.Identifier ref ->
                   records_activation (BuildVariant.Name bv) u' = true ->
                   Version.RevisionOrderNumber u'
                   <= Version.RevisionOrderNumber u) /\
       find (fun bs => String.eqb (BuildStatus.BuildVariant bs)
                                  (BuildVariant.Name bv)
                       && BuildStatus.Activated bs)
            (Version.BuildVariants u) = Some bs /\
       activateAt
         = Time_Add (BuildStatus.ActivateAt bs)
             (Duration_mul time_Minute (GetBatchTime ref bv)) /\
       (- 2 ^ 63 <= 60000000000 * GetBatchTime ref bv < 2 ^ 63 ->
        activateAt
          = BuildStatus.ActivateAt bs
            + 60000000000 * GetBatchTime ref bv)) /\
    GetBatchTime ref bv
      = match BuildVariant.BatchTime bv with
        | Some n => n
        | None => ProjectRef.BatchTime ref
        end.
Proof.
  intros Hd Hc Hq.
  assert (Hv : versions w1 = versions w).
  { unfold model_CreateBuildFromVersion in Hc.
    destruct (CreateBuild_fault env v (BuildVariant.Name bv) w);
      inversion Hc; reflexivity. }
  unfold createVersionItems_variant. rewrite Hd.
  rewrite (bind_Ret _ _ _ _ _ Hc). cbn iota beta.
  unfold version_FindOne, bind at 1. rewrite Hq, Hv. cbn iota beta.
  destruct (run_query
              (ByLastVariantActivation (ProjectRef.Identifier ref)
                 (BuildVariant.Name bv)) (versions w)) as [u |] eqn:Hr.
  - pose proof (last_activation_some _ _ _ _ Hr) as (Hin & Hp & Hrec & Hmax).
    destruct (records_activation_find _ _ Hrec) as (bs & Hbs).
    unfold lastActivationOf. rewrite Hbs. cbn [option_map].
    eexists. split; [reflexivity |]. split; [| split; [| reflexivity]].
    + intros Hnone. rewrite (Hnone u Hin Hp) in Hrec. discriminate.
    + intros _. exists u, bs. repeat split; try assumption.
      intros Hrange. unfold Time_Add, Duration_mul, time_Minute.
      rewrite wrap64_small by exact Hrange. reflexivity.
  - unfold lastActivationOf. eexists. split; [reflexivity |].
    split; [reflexivity |]. split; [| reflexivity].
    intros (u & Hin & Hp & Hrec).
    rewrite last_activation_none in Hr. rewrite (Hr u Hin Hp) in Hrec.
    discriminate.
Qed.

(** ** The compensating deletes *)

Lemma removed_incl (id : string) (w w' : World) :
  incl (builds w') (builds w) -> incl (tasks w') (tasks w) ->
  removed id w -> removed id w'.
Proof.
  intros Hb Ht [Rb Rt]. split.
  - intros b Hin. apply Rb. apply Hb. exact Hin.
  - intros t Hin. apply Rt. apply Ht. exact Hin.
Qed.

Lemma delete_builds_effect (env : Env) (versionId : string)
    (bss : list BuildStatus.t) :
  forall w : World,
  exists w',
    delete_builds env versionId bss w = Ret tt w' /\
    versions w' = versions w /\
    repositories w' = repositories w /\
    subscriptions w' = subscriptions w /\
    incl (builds w') (builds w) /\
    incl (tasks w') (tasks w) /\
    (forall bs, In bs bss ->
       (forall w0, DeleteBuild_fault env (BuildStatus.BuildId bs) w0 = None) ->
       removed (BuildStatus.BuildId bs) w').
Proof.
  induction bss as [| bs bss IH]; intros w.
  - exists w. simpl. unfold ret.
    repeat (split; [reflexivity || apply incl_refl |]). intros bs' [].
  - simpl. unfold bind at 1, model_DeleteBuild.
    destruct (DeleteBuild_fault env (BuildStatus.BuildId bs) w) as [e |] eqn:Hf.
    + cbn. destruct (IH (add_log
                         (mkLog Error "issue deleting build" versionId) w))
        as (w' & Hrun & Hv & Hr & Hs & Hb & Ht & Hrm).
      exists w'. split; [exact Hrun |].
      cbn in Hv, Hr, Hs, Hb, Ht.
      repeat (split; [assumption |]).
      intros bs' [<- | Hin'] Hnf.
      * rewrite Hnf in Hf. discriminate.
      * apply (Hrm _ Hin' Hnf).
    + cbn.
      match goal with
      | |- context [delete_builds env versionId bss ?w1] =>
          destruct (IH w1) as (w' & Hrun & Hv & Hr & Hs & Hb & Ht & Hrm)
      end.
      exists w'. split; [exact Hrun |].
      pose proof Hb as Hb'. pose proof Ht as Ht'.
      cbn in Hv, Hr, Hs, Hb', Ht'.
      split; [exact Hv |]. split; [exact Hr |]. split; [exact Hs |].
      split; [eapply incl_tran; [exact Hb' | apply incl_filter] |].
      split; [eapply incl_tran; [exact Ht' | apply incl_filter] |].
      intros bs' [<- | Hin'] Hnf.
      * eapply removed_incl; [exact Hb | exact Ht |].
        split; cbn; intros x Hx; apply filter_In in Hx;
          destruct Hx as [_ Hx]; apply negb_true_iff in Hx;
          apply String.eqb_neq in Hx; exact Hx.
      * apply (Hrm _ Hin' Hnf).
Qed.


(** ** What the pipeline does to the version collection and the repository
       documents *)

Lemma same_store_refl (w : World) : same_store w w.
Proof. split; reflexivity. Qed.

Lemma same_store_trans (w1 w2 w3 : World) :
  same_store w1 w2 -> same_store w2 w3 -> same_store w1 w3.
Proof. intros [A B] [C D]. split; congruence. Qed.

Lemma keeps_ret {A} (a : A) : keeps (ret a).
Proof. intros w. apply same_store_refl. Qed.

Lemma keeps_panic {A} (r : string) : keeps (@panic A r).
Proof. intros w. apply same_store_refl. Qed.

Lemma keeps_bind {A B} (m : M A) (k : A -> M B) :
  keeps m -> (forall a, keeps (k a)) -> keeps (bind m k).
Proof.
  intros Hm Hk w. unfold bind. specialize (Hm w).
  destruct (m w) as [a w1 | r w1]; simpl in *.
  - eapply same_store_trans; [exact Hm | apply Hk].
  - exact Hm.
Qed.

Lemma keeps_ask {A} (f : World -> A) : keeps (ask f).
Proof. intros w. apply same_store_refl. Qed.

Lemma keeps_log (l : LogLevel) (m r : string) : keeps (grip_log l m r).
Proof. intros w. split; reflexivity. Qed.

Lemma keeps_WrapError (l : LogLevel) (e : option error) (m r : string) :
  keeps (grip_WrapError l e m r).
Proof. destruct e; [apply keeps_log | apply keeps_ret]. Qed.

Lemma keeps_FindOne (env : Env) (q : Query) : keeps (version_FindOne env q).
Proof.
  intros w. unfold version_FindOne.
  destruct (FindOne_fault env q w) as [[r e] |]; apply same_store_refl.
Qed.

Lemma keeps_FindRepository (env : Env) (p : string) :
  keeps (model_FindRepository env p).
Proof.
  intros w. unfold model_FindRepository.
  destruct (FindRepository_fault env p w); apply same_store_refl.
Qed.

Lemma keeps_CreateBuild (env : Env) (project : Project.t) (v : Version.t)
    (taskIds : TaskIdTable) (name : string) :
  keeps (model_CreateBuildFromVersion env project v taskIds name).
Proof.
  intros w. unfold model_CreateBuildFromVersion.
  destruct (CreateBuild_fault env v name w); split; reflexivity.
Qed.

Lemma keeps_DeleteBuild (env : Env) (id : string) :
  keeps (model_DeleteBuild env id).
Proof.
  intros w. unfold model_DeleteBuild.
  destruct (DeleteBuild_fault env id w); split; reflexivity.
Qed.

Lemma keeps_Upsert (env : Env) (s : Subscription.t) :
  keeps (Subscription_Upsert env s).
Proof.
  intros w. unfold Subscription_Upsert.
  destruct (Upsert_fault env s w); split; reflexivity.
Qed.

Create HintDb keeps.

#[local] Hint Resolve keeps_ret keeps_panic keeps_ask keeps_log
  keeps_WrapError keeps_FindOne keeps_FindRepository keeps_CreateBuild
  keeps_DeleteBuild keeps_Upsert : keeps.

(** Structural proof of [keeps]: through binds, and by cases on whatever
    the program branches on. *)
Ltac keeps_step :=
  match goal with
  | |- keeps (bind _ _) => apply keeps_bind; [| intros]
  | |- keeps (match ?x with _ => _ end) => destruct x
  | |- keeps _ => solve [auto with keeps]
  end.

Ltac keeps_auto := repeat keeps_step.

Lemma keeps_GetProjectConfig (env : Env) (repoTracker : RepoTracker)
    (revision : string) :
  keeps (GetProjectConfig env repoTracker revision).
Proof. unfold GetProjectConfig. keeps_auto. Qed.

Lemma keeps_sanityCheckOrderNum (env : Env) (n : Z) (p r : string) :
  keeps (sanityCheckOrderNum env n p r).
Proof. unfold sanityCheckOrderNum. keeps_auto. Qed.

Lemma keeps_makeBuildBreakSubscriber (env : Env) (u : string) :
  keeps (makeBuildBreakSubscriber env u).
Proof. unfold makeBuildBreakSubscriber. keeps_auto. Qed.

Lemma keeps_admin_subscribers (env : Env) (admins : list string) :
  forall subs catcher, keeps (admin_subscribers env admins subs catcher).
Proof.
  induction admins as [| a admins IH]; intros subs catcher; simpl.
  - apply keeps_ret.
  - apply keeps_bind; [apply keeps_makeBuildBreakSubscriber |].
    intros [[s |] [e |]]; apply IH.
Qed.

Lemma keeps_upsert_all (env : Env) (base : Subscriber.t -> Subscription.t)
    (subs : list Subscriber.t) :
  forall catcher, keeps (upsert_all env base subs catcher).
Proof.
  induction subs as [| s subs IH]; intros catcher; simpl.
  - apply keeps_ret.
  - apply keeps_bind; [apply keeps_Upsert | intros; apply IH].
Qed.

#[local] Hint Resolve keeps_GetProjectConfig keeps_sanityCheckOrderNum
  keeps_makeBuildBreakSubscriber keeps_admin_subscribers keeps_upsert_all
  : keeps.

Lemma keeps_addBuildBreakSubscriptions (env : Env) (v : Version.t)
    (ref : ProjectRef.t) :
  keeps (addBuildBreakSubscriptions env v ref).
Proof. unfold addBuildBreakSubscriptions. keeps_auto. Qed.

Lemma keeps_delete_builds (env : Env) (id : string)
    (bss : list BuildStatus.t) :
  keeps (delete_builds env id bss).
Proof.
  induction bss as [| bs bss IH]; simpl; [apply keeps_ret |].
  keeps_auto.
Qed.

Lemma keeps_variant (env : Env) (ref : ProjectRef.t) (project : Project.t)
    (taskIds : TaskIdTable) (v : Version.t) (bv : BuildVariant.t) :
  keeps (createVersionItems_variant env ref project taskIds v bv).
Proof. unfold createVersionItems_variant. keeps_auto. Qed.

Lemma keeps_builds (env : Env) (ref : ProjectRef.t) (project : Project.t)
    (taskIds : TaskIdTable) (bvs : list BuildVariant.t) :
  forall v, keeps (createVersionItems_builds env ref project taskIds v bvs).
Proof.
  induction bvs as [| bv bvs IH]; intros v; simpl; [apply keeps_ret |].
  apply keeps_bind; [apply keeps_variant |].
  intros [v' [e |]]; [apply keeps_ret | apply IH].
Qed.

#[local] Hint Resolve keeps_addBuildBreakSubscriptions keeps_delete_builds
  keeps_variant keeps_builds : keeps.

Lemma same_store_evolves (p : string) (w w' : World) :
  same_store w w' -> evolves p w w'.
Proof.
  intros [Hv Hr]. unfold evolves, last_revision, order_counter.
  rewrite Hr. repeat split; try lia.
  exists []. rewrite app_nil_r. repeat split; [exact Hv | constructor ..].
Qed.

Lemma evolves_refl (p : string) (w : World) : evolves p w w.
Proof. apply same_store_evolves, same_store_refl. Qed.

Lemma StronglySorted_app_lt (l1 l2 : list Z) (c : Z) :
  StronglySorted Z.lt l1 -> StronglySorted Z.lt l2 ->
  Forall (fun n => n <= c) l1 -> Forall (fun n => c < n) l2 ->
  StronglySorted Z.lt (l1 ++ l2).
Proof.
  intros S1 S2 B1 B2. induction l1 as [| a l1 IH]; simpl; [exact S2 |].
  inversion S1; subst. inversion B1; subst. constructor.
  - apply IH; assumption.
  - apply Forall_app. split; [assumption |].
    eapply Forall_impl; [| exact B2]. simpl. intros. lia.
Qed.

Lemma evolves_trans (p : string) (w1 w2 w3 : World) :
  evolves p w1 w2 -> evolves p w2 w3 -> evolves p w1 w3.
Proof.
  intros (L1 & O1 & C1 & a1 & V1 & F1 & S1) (L2 & O2 & C2 & a2 & V2 & F2 & S2).
  split; [intros q; rewrite L2; apply L1 |].
  split; [intros q Hq; rewrite O2 by exact Hq; apply O1; exact Hq |].
  split; [lia |].
  exists (a1 ++ a2). split; [rewrite V2, V1; apply eq_sym, app_assoc |].
  split.
  - apply Forall_app. split.
    + eapply Forall_impl; [| exact F1]. simpl. intros v [Hp Hn].
      split; [exact Hp | lia].
    + eapply Forall_impl; [| exact F2]. simpl. intros v [Hp Hn].
      split; [exact Hp | lia].
  - rewrite map_app.
    apply (StronglySorted_app_lt _ _ (order_counter w2 p)); try assumption.
    + apply Forall_forall. intros n Hn. apply in_map_iff in Hn.
      destruct Hn as (v & <- & Hv). rewrite Forall_forall in F1.
      apply F1 in Hv. lia.
    + apply Forall_forall. intros n Hn. apply in_map_iff in Hn.
      destruct Hn as (v & <- & Hv). rewrite Forall_forall in F2.
      apply F2 in Hv. lia.
Qed.

Lemma keeps_evolving {A} (p : string) (m : M A) : keeps m -> evolving p m.
Proof. intros H w. apply same_store_evolves, H. Qed.

Lemma evolving_bind {A B} (p : string) (m : M A) (k : A -> M B) :
  evolving p m -> (forall a, evolving p (k a)) -> evolving p (bind m k).
Proof.
  intros Hm Hk w. unfold bind. specialize (Hm w).
  destruct (m w) as [a w1 | r w1]; simpl in *.
  - eapply evolves_trans; [exact Hm | apply Hk].
  - exact Hm.
Qed.

Lemma world_of_bind {A B} (m : M A) (k : A -> M B) (w : World) :
  world_of (bind m k w)
  = match m w with
    | Ret a w1 => world_of (k a w1)
    | Panic _ w1 => w1
    end.
Proof. unfold bind. destruct (m w); reflexivity. Qed.

(** *** The order number of a shell version *)

Lemma set_repository_counter (p q : string) (r : Repository.t) (w : World) :
  order_counter (set_repository p r w) q
  = if String.eqb q p then Repository.RevisionOrderNumber r
    else order_counter w q.
Proof.
  unfold order_counter, set_repository. cbn.
  destruct (String.eqb q p); reflexivity.
Qed.

Lemma set_repository_last (p q : string) (r : Repository.t) (w : World) :
  last_revision (set_repository p r w) q
  = if String.eqb q p then Repository.LastRevision r
    else last_revision w q.
Proof.
  unfold last_revision, set_repository. cbn.
  destruct (String.eqb q p); reflexivity.
Qed.

(** shellVersionFromRevision never panics and stores no version; the
    version it returns carries the value the counter of the project has
    just reached. *)
Lemma shell_spec (env : Env) (ref : ProjectRef.t) (rev : Revision.t)
    (w : World) :
  exists ov oe w',
    shellVersionFromRevision env ref rev w = Ret (ov, oe) w' /\
    versions w' = versions w /\
    builds w' = builds w /\ tasks w' = tasks w /\
    (forall q, last_revision w' q = last_revision w q) /\
    (forall q, q <> ProjectRef.Identifier ref ->
               order_counter w' q = order_counter w q) /\
    order_counter w (ProjectRef.Identifier ref)
      <= order_counter w' (ProjectRef.Identifier ref) /\
    match ov with
    | Some v =>
        oe = None /\
        Version.Identifier v = ProjectRef.Identifier ref /\
        Version.Revision v = Revision.Revision rev /\
        Version.RevisionOrderNumber v
          = order_counter w' (ProjectRef.Identifier ref) /\
        order_counter w (ProjectRef.Identifier ref)
          < order_counter w' (ProjectRef.Identifier ref) /\
        Version.Errors v = [] /\ Version.Warnings v = [] /\
        Version.BuildVariants v = [] /\ Version.BuildIds v = []
    | None => oe <> None
    end.
Proof.
  unfold shellVersionFromRevision, bind, ask.
  destruct (user_FindByGithubUID env (Revision.AuthorGithubUID rev) w)
    as [u uerr].
  set (w0 := world_of (grip_WrapError Error uerr
               "failed to fetch everg user with Github UID" "" w)).
  assert (Hw0 : grip_WrapError Error uerr
                  "failed to fetch everg user with Github UID" "" w
                = Ret tt w0).
  { unfold w0. destruct uerr; reflexivity. }
  assert (Hs0 : versions w0 = versions w /\ repositories w0 = repositories w
                /\ builds w0 = builds w /\ tasks w0 = tasks w).
  { unfold w0. destruct uerr; repeat split. }
  destruct Hs0 as (Hv0 & Hr0 & Hb0 & Ht0).
  rewrite Hw0. unfold model_GetNewRevisionOrderNumber.
  destruct (NewOrderNumber_result env (ProjectRef.Identifier ref) w0)
    as [e | skip].
  - exists None, (Some e), w0. unfold ret.
    split; [reflexivity |]. split; [exact Hv0 |].
    split; [exact Hb0 |]. split; [exact Ht0 |].
    unfold last_revision, order_counter. rewrite Hr0.
    repeat split; try lia. discriminate.
  - eexists (Some _), None, _. unfold ret. split; [reflexivity |].
    cbn [versions builds tasks set_repository].
    split; [exact Hv0 |]. split; [exact Hb0 |]. split; [exact Ht0 |].
    split.
    { intros q. rewrite set_repository_last.
      destruct (String.eqb_spec q (ProjectRef.Identifier ref)) as [-> | Hq];
        cbn; unfold last_revision; rewrite Hr0; reflexivity. }
    split.
    { intros q Hq. rewrite set_repository_counter.
      apply String.eqb_neq in Hq. rewrite Hq.
      unfold order_counter. rewrite Hr0. reflexivity. }
    rewrite set_repository_counter, String.eqb_refl.
    cbn [Repository.RevisionOrderNumber].
    assert (Hc : order_counter w0 (ProjectRef.Identifier ref)
                 = order_counter w (ProjectRef.Identifier ref)).
    { unfold order_counter. rewrite Hr0. reflexivity. }
    rewrite Hc. split; [lia |].
    destruct u as [u' |]; cbn; repeat split; lia.
Qed.

(** Version.Insert never panics; it appends the document or leaves the
    store as it was. *)
Lemma insert_spec (env : Env) (v : Version.t) (w : World) :
  exists oe w',
    Version_Insert env v w = Ret oe w' /\
    ((oe = None /\ w' = set_versions (versions w ++ [v]) w
      /\ existsb (conflicts v) (versions w) = false
      /\ Insert_fault env v w = None)
     \/ (oe <> None /\ w' = w)).
Proof.
  unfold Version_Insert.
  destruct (Insert_fault env v w) as [e |] eqn:Hf.
  - exists (Some e), w. split; [reflexivity |]. right.
    split; [discriminate | reflexivity].
  - destruct (existsb (conflicts v) (versions w)) eqn:Hc.
    + eexists (Some _), w. split; [reflexivity |]. right.
      split; [discriminate | reflexivity].
    + eexists None, _. split; [reflexivity |]. left. repeat split.
Qed.

Lemma insert_stores_at_most (env : Env) (v : Version.t) (w : World) :
  stores_at_most v w (world_of (Version_Insert env v w)).
Proof.
  destruct (insert_spec env v w) as (oe & w' & H & [(_ & -> & _) | (_ & ->)]);
    rewrite H; simpl; split; try reflexivity.
  - right. exists v. repeat split.
  - left. reflexivity.
Qed.

Lemma stores_at_most_frame (v : Version.t) (w w1 w2 w3 : World) :
  same_store w w1 -> stores_at_most v w1 w2 -> same_store w2 w3 ->
  stores_at_most v w w3.
Proof.
  intros [V1 R1] [R2 H] [V3 R3]. split; [congruence |].
  destruct H as [H | (v' & H & Hp & Hn)].
  - left. congruence.
  - right. exists v'. repeat split; congruence.
Qed.

Lemma createVersionItems_stores (env : Env) (v : Version.t)
    (ref : ProjectRef.t) (project : Project.t) (w : World) :
  stores_at_most v w (world_of (createVersionItems env v ref project w)).
Proof.
  unfold createVersionItems. rewrite world_of_bind.
  pose proof (keeps_builds env ref project (model_NewTaskIdTable env project v)
                (Project.BuildVariants project) v w) as K.
  destruct (createVersionItems_builds env ref project
              (model_NewTaskIdTable env project v) v
              (Project.BuildVariants project) w)
    as [[v' err] w1 | r w1] eqn:Hloop; simpl in K.
  - assert (Hf : Version.Identifier v' = Version.Identifier v
                 /\ Version.RevisionOrderNumber v'
                    = Version.RevisionOrderNumber v).
    { pose proof (builds_expands _ _ _ _ _ _ _ _ _ _ Hloop) as E.
      destruct E as (nb & nt & ns & _ & _ & -> & _).
      split; apply add_statuses_fields. }
    destruct Hf as [Hp Hn].
    destruct err as [e |].
    + simpl. destruct K as [KV KR]. split; [exact KR | left; exact KV].
    + rewrite world_of_bind.
      pose proof (insert_stores_at_most env v' w1) as I.
      destruct (Version_Insert env v' w1) as [oe w2 | r w2] eqn:Hins;
        simpl in I.
      * assert (I' : stores_at_most v w1 w2).
        { destruct I as [IR [IV | (x & IV & Ip & In')]].
          - split; [exact IR | left; exact IV].
          - split; [exact IR |]. right. exists x.
            repeat split; congruence. }
        destruct oe as [e |].
        -- destruct (db_IsDuplicateKey e); simpl.
           ++ eapply stores_at_most_frame;
                [exact K | exact I' | apply same_store_refl].
           ++ eapply stores_at_most_frame; [exact K | exact I' |].
              match goal with
              | |- same_store _ (world_of (?m _)) =>
                  assert (K2 : keeps m) by keeps_auto; apply K2
              end.
        -- simpl. eapply stores_at_most_frame;
             [exact K | exact I' | apply same_store_refl].
      * unfold Version_Insert in Hins. repeat case_match_in Hins; discriminate.
  - destruct (builds_returns env ref project
                (model_NewTaskIdTable env project v)
                (Project.BuildVariants project) v w) as (? & ? & ? & H).
    congruence.
Qed.

Lemma stores_at_most_same_key (v v' : Version.t) (w w' : World) :
  Version.Identifier v' = Version.Identifier v ->
  Version.RevisionOrderNumber v' = Version.RevisionOrderNumber v ->
  stores_at_most v' w w' -> stores_at_most v w w'.
Proof.
  intros Hp Hn [R [V | (x & V & Xp & Xn)]]; split; try assumption.
  - left. exact V.
  - right. exists x. repeat split; congruence.
Qed.

Lemma evolves_counter_only (p : string) (w w1 : World) :
  versions w1 = versions w ->
  (forall q, last_revision w1 q = last_revision w q) ->
  (forall q, q <> p -> order_counter w1 q = order_counter w q) ->
  order_counter w p <= order_counter w1 p ->
  evolves p w w1.
Proof.
  intros V L O C. repeat split; try assumption.
  exists []. rewrite app_nil_r. repeat split; [exact V | constructor ..].
Qed.

Lemma evolves_shell_store (p : string) (w w1 w2 : World) (v : Version.t) :
  versions w1 = versions w ->
  (forall q, last_revision w1 q = last_revision w q) ->
  (forall q, q <> p -> order_counter w1 q = order_counter w q) ->
  order_counter w p < order_counter w1 p ->
  Version.Identifier v = p ->
  Version.RevisionOrderNumber v = order_counter w1 p ->
  stores_at_most v w1 w2 ->
  evolves p w w2.
Proof.
  intros V L O C Hp Hn [R S].
  assert (L2 : forall q, last_revision w2 q = last_revision w q).
  { intros q. unfold last_revision. rewrite R. apply L. }
  assert (O2 : forall q, order_counter w2 q = order_counter w1 q).
  { intros q. unfold order_counter. rewrite R. reflexivity. }
  split; [exact L2 |].
  split; [intros q Hq; rewrite O2; apply O; exact Hq |].
  split; [rewrite O2; lia |].
  destruct S as [S | (x & S & Xp & Xn)].
  - exists []. rewrite app_nil_r. split; [congruence |].
    split; constructor.
  - exists [x]. split; [congruence |]. split.
    + constructor; [| constructor]. rewrite O2. split; [congruence | lia].
    + repeat constructor.
Qed.

Section Frames.

Variable env : Env.

Lemma CreateVersionFromConfig_evolves (ref : ProjectRef.t)
    (config : option Project.t) (rev : Revision.t) (ignore : bool)
    (versionErrs : option VersionErrors) :
  evolving (ProjectRef.Identifier ref)
    (CreateVersionFromConfig env ref config rev ignore versionErrs).
Proof.
  intros w. unfold CreateVersionFromConfig.
  destruct config as [config |]; [| apply evolves_refl].
  rewrite world_of_bind.
  destruct (shell_spec env ref rev w)
    as (ov & oe & w1 & Hs & V & _ & _ & L & O & C & Hov).
  rewrite Hs.
  destruct oe as [e |]; [apply evolves_counter_only; assumption |].
  destruct ov as [v |]; [| apply evolves_counter_only; assumption].
  destruct Hov as (_ & Hp & _ & Hn & Hlt & _).
  rewrite world_of_bind.
  pose proof (keeps_sanityCheckOrderNum env (Version.RevisionOrderNumber v)
                (ProjectRef.Identifier ref) (Revision.Revision rev) w1) as K.
  destruct (sanityCheckOrderNum env (Version.RevisionOrderNumber v)
              (ProjectRef.Identifier ref) (Revision.Revision rev) w1)
    as [serr w2 | r w2]; simpl in K.
  2:{ eapply evolves_trans; [apply evolves_counter_only; eassumption |].
      apply same_store_evolves. exact K. }
  assert (Hbase : evolves (ProjectRef.Identifier ref) w w2).
  { eapply evolves_trans; [apply evolves_counter_only; eassumption |].
    apply same_store_evolves. exact K. }
  destruct serr as [e |]; [exact Hbase |].
  destruct (yaml_Marshal env config) as [configYaml [e |]]; [exact Hbase |].
  destruct (validator_CheckProjectSyntax env config) as [verrs [e |]];
    [exact Hbase |].
  assert (Hstore : forall v2 (m : M (option Version.t * option error)),
             Version.Identifier v2 = Version.Identifier v ->
             Version.RevisionOrderNumber v2 = Version.RevisionOrderNumber v ->
             stores_at_most v2 w2 (world_of (m w2)) ->
             evolves (ProjectRef.Identifier ref) w (world_of (m w2))).
  { intros v2 m Hp2 Hn2 S.
    apply (evolves_shell_store _ w w1 _ v); try assumption.
    eapply stores_at_most_frame;
      [exact K | | apply same_store_refl].
    eapply stores_at_most_same_key; eassumption. }
  assert (Hexpand : forall v2,
             Version.Identifier v2 = Version.Identifier v ->
             Version.RevisionOrderNumber v2 = Version.RevisionOrderNumber v ->
             evolves (ProjectRef.Identifier ref) w
               (world_of
                  (('(v', err) <- createVersionItems env v2 ref config ;;
                    ret (Some v',
                         errors_Wrap err "error creating version items"))
                     w2))).
  { intros v2 Hp2 Hn2. apply (Hstore v2); try assumption.
    rewrite world_of_bind.
    pose proof (createVersionItems_stores env v2 ref config w2) as S.
    destruct (createVersionItems env v2 ref config w2) as [[v' err] w3 | r w3];
      exact S. }
  assert (Hinsert : forall v2,
             Version.Identifier v2 = Version.Identifier v ->
             Version.RevisionOrderNumber v2 = Version.RevisionOrderNumber v ->
             evolves (ProjectRef.Identifier ref) w
               (world_of
                  ((err <- Version_Insert env v2 ;;
                    ret (Some v2, errors_Wrap err "error inserting version"))
                     w2))).
  { intros v2 Hp2 Hn2. apply (Hstore v2); try assumption.
    rewrite world_of_bind.
    pose proof (insert_stores_at_most env v2 w2) as S.
    destruct (Version_Insert env v2 w2) as [err w3 | r w3]; exact S. }
  cbv zeta.
  destruct (Nat.ltb 0 (List.length verrs)
            || match versionErrs with Some _ => true | None => false end).
  - match goal with
    | |- context [Nat.ltb 0 (List.length (Version.Errors ?v2))] =>
        destruct (Nat.ltb 0 (List.length (Version.Errors v2)));
          [apply Hinsert | apply Hexpand];
          destruct versionErrs; reflexivity
    end.
  - apply Hexpand; reflexivity.
Qed.

End Frames.

Ltac evolving_step :=
  match goal with
  | |- evolving _ (bind _ _) => apply evolving_bind; [| intros]
  | |- evolving _ (match ?x with _ => _ end) => destruct x
  | |- evolving _ _ =>
      solve [auto with keeps | apply keeps_evolving; keeps_auto]
  end.

Ltac evolving_auto := repeat evolving_step.

Section StoreFrames.

Variable env : Env.
Variable repoTracker : RepoTracker.

Let p : string := ProjectRef.Identifier (RepoTracker_ProjectRef repoTracker).

Lemma StoreRevisions_stub_evolves (rev : Revision.t)
    (versionErrs : VersionErrors) :
  evolving p (StoreRevisions_stub env repoTracker rev versionErrs).
Proof.
  intros w. unfold StoreRevisions_stub. rewrite world_of_bind.
  destruct (shell_spec env (RepoTracker_ProjectRef repoTracker) rev w)
    as (ov & oe & w1 & Hs & V & _ & _ & L & O & C & Hov).
  rewrite Hs. rewrite world_of_bind.
  pose proof (keeps_WrapError Error oe "error creating shell version"
                (Revision.Revision rev) w1) as K.
  destruct (grip_WrapError Error oe "error creating shell version"
              (Revision.Revision rev) w1) as [[] w2 | r w2]; simpl in K.
  2:{ eapply evolves_trans; [apply evolves_counter_only; eassumption |].
      apply same_store_evolves. exact K. }
  destruct ov as [v |].
  2:{ eapply evolves_trans; [apply evolves_counter_only; eassumption |].
      apply same_store_evolves. exact K. }
  destruct Hov as (_ & Hp & _ & Hn & Hlt & _).
  apply (evolves_shell_store _ w w1 _ v); try assumption.
  eapply stores_at_most_frame; [exact K | | apply same_store_refl].
  rewrite world_of_bind.
  match goal with
  | |- context [Version_Insert env ?sv w2] =>
      pose proof (insert_stores_at_most env sv w2) as S;
      destruct (Version_Insert env sv w2) as [err w3 | r w3]; simpl in S
  end.
  - eapply stores_at_most_frame; [apply same_store_refl | |].
    + eapply stores_at_most_same_key; [| | exact S]; reflexivity.
    + match goal with
      | |- same_store _ (world_of (?m _)) =>
          assert (K2 : keeps m) by keeps_auto; apply K2
      end.
  - eapply stores_at_most_same_key; [| | exact S]; reflexivity.
Qed.

Lemma StoreRevisions_create_evolves (rev : Revision.t)
    (project : option Project.t) (ignore : bool)
    (versionErrs : option VersionErrors) (newestVersion : option Version.t) :
  evolving p (StoreRevisions_create env repoTracker rev project ignore
                versionErrs newestVersion).
Proof.
  unfold StoreRevisions_create.
  apply evolving_bind; [apply CreateVersionFromConfig_evolves |].
  intros [v err]. evolving_auto.
Qed.

Lemma StoreRevisions_ignore_evolves (rev : Revision.t)
    (project : option Project.t) (versionErrs : option VersionErrors)
    (newestVersion : option Version.t) :
  evolving p (StoreRevisions_ignore env repoTracker rev project versionErrs
                newestVersion).
Proof.
  unfold StoreRevisions_ignore.
  destruct project as [c |]; [| apply keeps_evolving, keeps_panic].
  destruct (Nat.ltb 0 (List.length (Project.Ignore c)));
    [| apply StoreRevisions_create_evolves].
  apply evolving_bind; [apply keeps_evolving, keeps_ask |].
  intros [filenames [e |]];
    [evolving_auto | apply StoreRevisions_create_evolves].
Qed.

Lemma StoreRevisions_revision_evolves (rev : Revision.t)
    (newestVersion : option Version.t) :
  evolving p (StoreRevisions_revision env repoTracker rev newestVersion).
Proof.
  unfold StoreRevisions_revision.
  apply evolving_bind; [apply keeps_evolving, keeps_log | intros _].
  apply evolving_bind; [apply keeps_evolving, keeps_FindOne |].
  intros [existingVersion err].
  apply evolving_bind; [apply keeps_evolving, keeps_WrapError | intros _].
  destruct existingVersion as [ev |]; [evolving_auto |].
  apply evolving_bind; [apply keeps_evolving, keeps_GetProjectConfig |].
  intros [project [e |]]; [| apply StoreRevisions_ignore_evolves].
  destruct e; try solve [evolving_auto].
  match goal with |- evolving _ (if ?c then _ else _) => destruct c end;
    [apply StoreRevisions_stub_evolves | apply StoreRevisions_ignore_evolves].
Qed.

Lemma StoreRevisions_loop_evolves (revs : list Revision.t) :
  forall newestVersion,
    evolving p (StoreRevisions_loop env repoTracker revs newestVersion).
Proof.
  induction revs as [| rev revs IH]; intros nv; simpl.
  - apply keeps_evolving, keeps_ret.
  - apply evolving_bind; [apply StoreRevisions_revision_evolves |].
    intros [nv' | result]; [apply IH | apply keeps_evolving, keeps_ret].
Qed.

Lemma StoreRevisions_evolves (revisions : list Revision.t) :
  evolving p (StoreRevisions env repoTracker revisions).
Proof.
  unfold StoreRevisions.
  apply evolving_bind; [apply StoreRevisions_loop_evolves |].
  intros [[nv |] err]; apply keeps_evolving; auto with keeps.
Qed.

End StoreFrames.

(** ** At most one version per revision *)

Lemma ForallOrdPairs_snoc {A} (R : A -> A -> Prop) (l : list A) (x : A) :
  ForallOrdPairs R l -> Forall (fun u => R u x) l ->
  ForallOrdPairs R (l ++ [x]).
Proof.
  induction l as [| a l IH]; intros P F; simpl.
  - constructor; constructor.
  - inversion P; subst. inversion F; subst. constructor.
    + apply Forall_app. split; [assumption | constructor; [assumption |]].
      constructor.
    + apply IH; assumption.
Qed.

Lemma unique_versions_at_most_one (p r : string) (w : World) :
  unique_versions w ->
  (List.length (versions_of p r (versions w)) <= 1)%nat.
Proof.
  unfold unique_versions. generalize (versions w). intros vs P.
  induction P as [| a l F P IH]; simpl; [lia |].
  destruct (String.eqb (Version.Identifier a) p
            && String.eqb (Version.Revision a) r) eqn:Ha; [| exact IH].
  apply andb_true_iff in Ha. destruct Ha as [Hp Hr].
  apply String.eqb_eq in Hp. apply String.eqb_eq in Hr.
  assert (Hnone : versions_of p r l = []).
  { apply filter_nil_iff. intros u Hu. rewrite Forall_forall in F.
    specialize (F u Hu). unfold conflicts in F.
    apply orb_false_iff in F. destruct F as [_ F].
    destruct (String.eqb_spec (Version.Identifier u) p) as [Eu | Eu];
      [| reflexivity].
    destruct (String.eqb_spec (Version.Revision u) r) as [Er | Er];
      [| reflexivity].
    exfalso. rewrite Hp, Hr, <- Eu, <- Er, !String.eqb_refl in F.
    discriminate F. }
  simpl. fold (versions_of p r l). rewrite Hnone. simpl. lia.
Qed.

Lemma preserving_bind {A B} (I : World -> Prop) (m : M A) (k : A -> M B) :
  preserving I m -> (forall a, preserving I (k a)) -> preserving I (bind m k).
Proof.
  intros Hm Hk w Hw. unfold bind. specialize (Hm w Hw).
  destruct (m w) as [a w1 | r w1]; simpl in *.
  - apply Hk. exact Hm.
  - exact Hm.
Qed.

Lemma keeps_unique {A} (m : M A) : keeps m -> preserving unique_versions m.
Proof.
  intros K w Hw. destruct (K w) as [V _]. unfold unique_versions.
  rewrite V. exact Hw.
Qed.

Lemma insert_unique (env : Env) (v : Version.t) :
  preserving unique_versions (Version_Insert env v).
Proof.
  intros w Hw.
  destruct (insert_spec env v w)
    as (oe & w' & H & [(_ & -> & Hc & _) | (_ & ->)]);
    rewrite H; simpl; [| exact Hw].
  unfold unique_versions. simpl. apply ForallOrdPairs_snoc; [exact Hw |].
  apply Forall_forall. intros u Hu.
  destruct (conflicts v u) eqn:E; [| reflexivity].
  assert (existsb (conflicts v) (versions w) = true)
    by (apply existsb_exists; exists u; split; assumption).
  congruence.
Qed.

Ltac unique_step :=
  match goal with
  | |- preserving _ (bind _ _) => apply preserving_bind; [| intros]
  | |- preserving _ (Version_Insert _ _) => apply insert_unique
  | |- preserving _ (match ?x with _ => _ end) => destruct x
  | |- preserving _ (let (_, _) := ?x in _) => destruct x
  | |- preserving _ _ =>
      solve [assumption | apply keeps_unique; keeps_auto]
  end.

Ltac unique_auto := repeat unique_step.

Section Unique.

Variable env : Env.
Variable repoTracker : RepoTracker.

Lemma createVersionItems_unique (v : Version.t) (ref : ProjectRef.t)
    (project : Project.t) :
  preserving unique_versions (createVersionItems env v ref project).
Proof. unfold createVersionItems. unique_auto. Qed.

Lemma shell_unique (ref : ProjectRef.t) (rev : Revision.t) :
  preserving unique_versions (shellVersionFromRevision env ref rev).
Proof.
  intros w Hw.
  destruct (shell_spec env ref rev w) as (ov & oe & w1 & Hs & V & _).
  rewrite Hs. simpl. unfold unique_versions. rewrite V. exact Hw.
Qed.

Lemma CreateVersionFromConfig_unique (ref : ProjectRef.t)
    (config : option Project.t) (rev : Revision.t) (ignore : bool)
    (versionErrs : option VersionErrors) :
  preserving unique_versions
    (CreateVersionFromConfig env ref config rev ignore versionErrs).
Proof.
  unfold CreateVersionFromConfig.
  destruct config as [c |]; [| apply keeps_unique, keeps_ret].
  apply preserving_bind; [apply shell_unique |].
  intros [ov oe].
  destruct oe; [apply keeps_unique, keeps_ret |].
  destruct ov as [v |]; [| apply keeps_unique, keeps_panic].
  apply preserving_bind;
    [apply keeps_unique, keeps_sanityCheckOrderNum |].
  intros [e |]; [apply keeps_unique, keeps_ret |].
  destruct (yaml_Marshal env c) as [configYaml [e |]];
    [apply keeps_unique, keeps_ret |].
  destruct (validator_CheckProjectSyntax env c) as [verrs [e |]];
    [apply keeps_unique, keeps_ret |].
  cbv zeta.
  assert (Hexpand : forall v2,
             preserving unique_versions
               ('(v', err) <- createVersionItems env v2 ref c ;;
                ret (Some v', errors_Wrap err "error creating version items"))).
  { intros v2. apply preserving_bind; [apply createVersionItems_unique |].
    intros [v' err]. apply keeps_unique, keeps_ret. }
  destruct (Nat.ltb 0 (List.length verrs)
            || match versionErrs with Some _ => true | None => false end);
    [| apply Hexpand].
  match goal with
  | |- preserving _ (if ?b then _ else _) => destruct b
  end; [| apply Hexpand].
  apply preserving_bind; [apply insert_unique |].
  intros err. apply keeps_unique, keeps_ret.
Qed.

Lemma StoreRevisions_stub_unique (rev : Revision.t)
    (versionErrs : VersionErrors) :
  preserving unique_versions
    (StoreRevisions_stub env repoTracker rev versionErrs).
Proof.
  unfold StoreRevisions_stub.
  apply preserving_bind; [apply shell_unique |].
  intros [ov oe]. unique_auto.
Qed.

Lemma StoreRevisions_create_unique (rev : Revision.t)
    (project : option Project.t) (ignore : bool)
    (versionErrs : option VersionErrors) (nv : option Version.t) :
  preserving unique_versions
    (StoreRevisions_create env repoTracker rev project ignore versionErrs nv).
Proof.
  unfold StoreRevisions_create.
  apply preserving_bind; [apply CreateVersionFromConfig_unique |].
  intros [v err]. unique_auto.
Qed.

Lemma StoreRevisions_ignore_unique (rev : Revision.t)
    (project : option Project.t) (versionErrs : option VersionErrors)
    (nv : option Version.t) :
  preserving unique_versions
    (StoreRevisions_ignore env repoTracker rev project versionErrs nv).
Proof.
  unfold StoreRevisions_ignore.
  destruct project as [c |]; [| apply keeps_unique, keeps_panic].
  destruct (Nat.ltb 0 (List.length (Project.Ignore c)));
    [| apply StoreRevisions_create_unique].
  apply preserving_bind; [apply keeps_unique, keeps_ask |].
  intros [filenames [e |]];
    [unique_auto | apply StoreRevisions_create_unique].
Qed.

Lemma StoreRevisions_revision_unique (rev : Revision.t)
    (nv : option Version.t) :
  preserving unique_versions
    (StoreRevisions_revision env repoTracker rev nv).
Proof.
  unfold StoreRevisions_revision.
  apply preserving_bind; [apply keeps_unique, keeps_log | intros _].
  apply preserving_bind; [apply keeps_unique, keeps_FindOne |].
  intros [existingVersion err].
  apply preserving_bind; [apply keeps_unique, keeps_WrapError | intros _].
  destruct existingVersion as [ev |]; [unique_auto |].
  apply preserving_bind; [apply keeps_unique, keeps_GetProjectConfig |].
  intros [project [e |]]; [| apply StoreRevisions_ignore_unique].
  destruct e; try solve [unique_auto].
  match goal with |- preserving _ (if ?c then _ else _) => destruct c end;
    [apply StoreRevisions_stub_unique | apply StoreRevisions_ignore_unique].
Qed.

Lemma StoreRevisions_loop_unique (revs : list Revision.t) :
  forall nv,
    preserving unique_versions (StoreRevisions_loop env repoTracker revs nv).
Proof.
  induction revs as [| rev revs IH]; intros nv; simpl.
  - apply keeps_unique, keeps_ret.
  - apply preserving_bind; [apply StoreRevisions_revision_unique |].
    intros [nv' | result]; [apply IH | apply keeps_unique, keeps_ret].
Qed.

Lemma StoreRevisions_unique (revisions : list Revision.t) :
  preserving unique_versions (StoreRevisions env repoTracker revisions).
Proof.
  unfold StoreRevisions.
  apply preserving_bind; [apply StoreRevisions_loop_unique |].
  intros [[nv |] err]; apply keeps_unique; auto with keeps.
Qed.

End Unique.

(** ** The order invariant *)

Lemma project_orders_app (p : string) (a b : list Version.t) :
  project_orders p (a ++ b) = project_orders p a ++ project_orders p b.
Proof. unfold project_orders. rewrite filter_app, map_app. reflexivity. Qed.

Lemma project_orders_same (p : string) (l : list Version.t) :
  Forall (fun v => Version.Identifier v = p) l ->
  project_orders p l = map Version.RevisionOrderNumber l.
Proof.
  intros F. unfold project_orders. f_equal.
  induction l as [| v l IH]; [reflexivity |].
  inversion F; subst. simpl. rewrite String.eqb_refl. f_equal. apply IH.
  assumption.
Qed.

Lemma project_orders_other (p q : string) (l : list Version.t) :
  q <> p -> Forall (fun v => Version.Identifier v = p) l ->
  project_orders q l = [].
Proof.
  intros Hq F. unfold project_orders.
  induction l as [| v l IH]; [reflexivity |].
  inversion F; subst. simpl.
  destruct (String.eqb_spec (Version.Identifier v) q) as [E | E];
    [congruence | apply IH; assumption].
Qed.

Lemma evolves_order_invariant (p : string) (w w' : World) :
  evolves p w w' ->
  forall q, order_invariant q w -> order_invariant q w'.
Proof.
  intros (L & O & C & added & V & F & S) q [IS IB].
  assert (Fp : Forall (fun v => Version.Identifier v = p) added).
  { eapply Forall_impl; [| exact F]. simpl. intros v [H _]. exact H. }
  unfold order_invariant. rewrite V, project_orders_app.
  destruct (String.eqb_spec q p) as [-> | Hq].
  - rewrite (project_orders_same p added Fp). split.
    + apply (StronglySorted_app_lt _ _ (order_counter w p)); try assumption.
      apply Forall_forall. intros n Hn. apply in_map_iff in Hn.
      destruct Hn as (v & <- & Hv). rewrite Forall_forall in F.
      apply F in Hv. lia.
    + apply Forall_app. split.
      * eapply Forall_impl; [| exact IB]. simpl. intros. lia.
      * apply Forall_forall. intros n Hn. apply in_map_iff in Hn.
        destruct Hn as (v & <- & Hv). rewrite Forall_forall in F.
        apply F in Hv. lia.
  - rewrite (project_orders_other p q added Hq Fp), app_nil_r.
    rewrite (O q Hq). split; assumption.
Qed.

Lemma StronglySorted_before (l1 l2 : list Z) (a : Z) :
  StronglySorted Z.lt (l1 ++ a :: l2) -> forall x, In x l1 -> x < a.
Proof.
  induction l1 as [| b l1 IH]; intros S x Hx; [destruct Hx |].
  simpl in S. inversion S; subst. destruct Hx as [<- | Hx].
  - rewrite Forall_forall in H2. apply H2. apply in_or_app. right. left.
    reflexivity.
  - apply IH; assumption.
Qed.

(** C6 — the order invariant. Started on a store in which, for every
    project, the order numbers of the versions increase strictly in
    insertion order and do not exceed the counter of the project (a
    counter that never repeats or goes backward), StoreRevisions ends on
    such a store again, whatever the collaborators answer; it only appends
    versions, all of the project of the tracker, and every version it
    appends (stub or expanded) has an order number greater than that of
    every version of its project stored before it. *)
Theorem C6_order_numbers_increase (env : Env) (repoTracker : RepoTracker)
    (revisions : list Revision.t) (w : World) :
  (forall q, order_invariant q w) ->
  (forall q,
     order_invariant q (world_of (StoreRevisions env repoTracker revisions w)))
  /\ exists added,
       versions (world_of (StoreRevisions env repoTracker revisions w))
       = versions w ++ added /\
       Forall (fun v => Version.Identifier v
                        = ProjectRef.Identifier
                            (RepoTracker_ProjectRef repoTracker)) added /\
       forall pre v post,
         added = pre ++ v :: post ->
         forall u, In u (versions w ++ pre) ->
                   Version.Identifier u = Version.Identifier v ->
                   Version.RevisionOrderNumber u
                   < Version.RevisionOrderNumber v.
Proof.
  intros Hinv.
  pose proof (StoreRevisions_evolves env repoTracker revisions w) as E.
  assert (Hinv' : forall q,
             order_invariant q
               (world_of (StoreRevisions env repoTracker revisions w))).
  { intros q. apply (evolves_order_invariant _ _ _ E). apply Hinv. }
  split; [exact Hinv' |].
  destruct E as (_ & _ & _ & added & V & F & _).
  exists added. split; [exact V |]. split.
  { eapply Forall_impl; [| exact F]. simpl. intros v [H _]. exact H. }
  intros pre v post -> u Hu Hp.
  destruct (Hinv' (Version.Identifier v)) as [S _].
  rewrite V, app_assoc, project_orders_app in S.
  unfold project_orders at 2 in S. simpl in S.
  rewrite String.eqb_refl in S. simpl in S.
  apply (StronglySorted_before _ _ _ S).
  unfold project_orders. apply in_map. apply filter_In.
  split; [exact Hu | apply String.eqb_eq; exact Hp].
Qed.

(** ** Revisions that already have a version *)

Lemma logs_only_refl (w : World) : logs_only w w.
Proof. repeat split. Qed.

Lemma logs_only_trans (w1 w2 w3 : World) :
  logs_only w1 w2 -> logs_only w2 w3 -> logs_only w1 w3.
Proof.
  intros (A & B & C & D & E) (A' & B' & C' & D' & E').
  repeat split; congruence.
Qed.

Lemma logs_only_add_log (e : LogEntry) (w : World) : logs_only w (add_log e w).
Proof. repeat split. Qed.

Lemma FindOne_answers (env : Env) (q : Query) (w : World) :
  lookups_answer env ->
  version_FindOne env q w = Ret (run_query q (versions w), None) w.
Proof. intros H. unfold version_FindOne. rewrite H. reflexivity. Qed.

Section Existing.

Variable env : Env.
Variable repoTracker : RepoTracker.

Let p : string := ProjectRef.Identifier (RepoTracker_ProjectRef repoTracker).

Lemma revision_existing (rev : Revision.t) (nv : option Version.t)
    (w : World) (ev : Version.t) :
  lookups_answer env ->
  run_query (ByProjectIdAndRevision p (Revision.Revision rev)) (versions w)
    = Some ev ->
  exists w',
    StoreRevisions_revision env repoTracker rev nv w
      = Ret (Continue (Some ev)) w' /\
    logs_only w w'.
Proof.
  intros Hl Hq. unfold StoreRevisions_revision.
  eexists. split.
  - erewrite (bind_Ret (grip_log _ _ _)) by reflexivity.
    erewrite (bind_Ret (version_FindOne _ _))
      by (apply FindOne_answers; exact Hl).
    cbn iota beta.
    erewrite (bind_Ret (grip_WrapError _ _ _ _)) by reflexivity.
    cbn [versions add_log]. unfold p in Hq. rewrite Hq. reflexivity.
  - repeat split.
Qed.

(** The newest version after the loop went over revisions that all have a
    version: the stored version of the last revision visited. *)
Lemma loop_existing (revs : list Revision.t) :
  forall (nv : option Version.t) (w : World),
    lookups_answer env ->
    (forall rev, In rev revs ->
       run_query (ByProjectIdAndRevision p (Revision.Revision rev))
                 (versions w) <> None) ->
    exists w',
      StoreRevisions_loop env repoTracker revs nv w
        = Ret (match List.rev revs with
               | [] => nv
               | newest :: _ =>
                   run_query
                     (ByProjectIdAndRevision p (Revision.Revision newest))
                     (versions w)
               end, None) w' /\
      logs_only w w'.
Proof.
  induction revs as [| rev revs IH]; intros nv w Hl Hall.
  - exists w. split; [reflexivity | apply logs_only_refl].
  - destruct (run_query (ByProjectIdAndRevision p (Revision.Revision rev))
                (versions w)) as [ev |] eqn:Hq.
    2:{ exfalso. apply (Hall rev (or_introl eq_refl)). exact Hq. }
    destruct (revision_existing rev nv w ev Hl Hq) as (w1 & H1 & L1).
    simpl StoreRevisions_loop. rewrite (bind_Ret _ _ _ _ _ H1).
    assert (Hv : versions w1 = versions w) by apply L1.
    destruct (IH (Some ev) w1 Hl) as (w' & H' & L').
    { intros r Hr. rewrite Hv. apply Hall. right. exact Hr. }
    exists w'. split; [| eapply logs_only_trans; eassumption].
    rewrite H'. rewrite Hv. simpl List.rev.
    destruct (List.rev revs) as [| newest rest] eqn:Hrev; cbn [app].
    + rewrite Hq. reflexivity.
    + reflexivity.
Qed.

End Existing.

Lemma find_some_id (vs : list Version.t) (ev : Version.t) :
  In ev vs ->
  exists r, find (fun v => String.eqb (Version.Id v) (Version.Id ev)) vs
            = Some r
            /\ In r vs /\ Version.Id r = Version.Id ev.
Proof.
  intros Hin.
  destruct (find (fun v => String.eqb (Version.Id v) (Version.Id ev)) vs)
    as [r |] eqn:Hf.
  - exists r. split; [reflexivity |]. apply find_some in Hf.
    destruct Hf as [Hr Hid]. split; [exact Hr |].
    apply String.eqb_eq. exact Hid.
  - pose proof (find_none _ _ Hf ev Hin) as Hn. simpl in Hn.
    rewrite String.eqb_refl in Hn. discriminate.
Qed.

Lemma find_unique_id (vs : list Version.t) (ev r : Version.t) :
  NoDup (map Version.Id vs) -> In ev vs -> In r vs ->
  Version.Id r = Version.Id ev -> r = ev.
Proof.
  induction vs as [| v vs IH]; intros N He Hr Hid; [destruct He |].
  simpl in N. inversion N; subst.
  destruct He as [-> | He]; destruct Hr as [-> | Hr]; try reflexivity.
  - exfalso. apply H1. rewrite <- Hid. apply in_map. exact Hr.
  - exfalso. apply H1. rewrite Hid. apply in_map. exact He.
  - apply IH; assumption.
Qed.


(** ** Early returns of the loop *)

Lemma returns_only_ret {A} (P : A -> Prop) (a : A) :
  P a -> returns_only P (ret a).
Proof. intros H w a' w' E. inversion E; subst. exact H. Qed.

Lemma returns_only_panic {A} (P : A -> Prop) (r : string) :
  returns_only P (panic r).
Proof. intros w a w' E. discriminate E. Qed.

Lemma returns_only_bind {A B} (P : B -> Prop) (m : M A) (k : A -> M B) :
  (forall a, returns_only P (k a)) -> returns_only P (bind m k).
Proof.
  intros Hk w b w' E. apply bind_inv in E.
  destruct E as (a & w1 & _ & E). exact (Hk a w1 b w' E).
Qed.

Ltac returns_step :=
  match goal with
  | |- returns_only _ (bind _ _) => apply returns_only_bind; intros
  | |- returns_only _ (match ?x with _ => _ end) => destruct x
  | |- returns_only _ (ret _) =>
      apply returns_only_ret; simpl; solve [exact I | discriminate]
  | |- returns_only _ (panic _) => apply returns_only_panic
  end.

Section Returns.

Variable env : Env.
Variable repoTracker : RepoTracker.

Lemma StoreRevisions_create_continues rev project ignore versionErrs nv :
  returns_only continues
    (StoreRevisions_create env repoTracker rev project ignore versionErrs nv).
Proof. unfold StoreRevisions_create. repeat returns_step. Qed.

Lemma StoreRevisions_ignore_continues rev project versionErrs nv :
  returns_only continues
    (StoreRevisions_ignore env repoTracker rev project versionErrs nv).
Proof.
  unfold StoreRevisions_ignore.
  repeat first [apply StoreRevisions_create_continues | returns_step].
Qed.

Lemma StoreRevisions_stub_continues rev versionErrs :
  returns_only continues
    (StoreRevisions_stub env repoTracker rev versionErrs).
Proof. unfold StoreRevisions_stub. repeat returns_step. Qed.

Lemma StoreRevisions_revision_continues rev nv :
  returns_only continues (StoreRevisions_revision env repoTracker rev nv).
Proof.
  unfold StoreRevisions_revision.
  repeat first [apply StoreRevisions_ignore_continues
               | apply StoreRevisions_stub_continues
               | returns_step].
Qed.

(** The loop over [a ++ b] is the loop over [a], followed by the loop over
    [b] unless a round returned. *)
Lemma StoreRevisions_loop_app (a b : list Revision.t) :
  forall (nv : option Version.t) (w : World),
    StoreRevisions_loop env repoTracker (a ++ b) nv w
    = match StoreRevisions_loop env repoTracker a nv w with
      | Ret (nv1, None) w1 => StoreRevisions_loop env repoTracker b nv1 w1
      | o => o
      end.
Proof.
  induction a as [| x a IH]; intros nv w; [reflexivity |].
  simpl. unfold bind.
  destruct (StoreRevisions_revision env repoTracker x nv w)
    as [[nv' | [r oe]] w' | r w'] eqn:Hx.
  - apply IH.
  - pose proof (StoreRevisions_revision_continues x nv _ _ _ Hx) as C.
    simpl in C. unfold ret. destruct oe; [reflexivity | contradiction].
  - reflexivity.
Qed.

End Returns.

(** ** Failures of the config resolution *)

Lemma logged_add_log (l : LogLevel) (m r : string) (w : World) :
  logged l m (add_log (mkLog l m r) w).
Proof. exists r. simpl. apply in_or_app. right. left. reflexivity. Qed.

Lemma logged_mono (l : LogLevel) (m : string) (e : LogEntry) (w : World) :
  logged l m w -> logged l m (add_log e w).
Proof.
  intros (r & H). exists r. simpl. apply in_or_app. left. exact H.
Qed.

Section ConfigFailures.

Variable env : Env.
Variable repoTracker : RepoTracker.

Let ref : ProjectRef.t := RepoTracker_ProjectRef repoTracker.
Let p : string := ProjectRef.Identifier ref.
Let poller : RepoPoller := RepoTracker_RepoPoller repoTracker.

Lemma GetProjectConfig_fatal (revision : string) (w : World)
    (x : option Project.t) (e : error) :
  ProjectRef.LocalConfig ref = "" ->
  GetRemoteConfig poller revision w = (x, Some e) ->
  fetch_error e = false ->
  exists w',
    GetProjectConfig env repoTracker revision w = Ret (None, Some e) w' /\
    logs_only w w' /\
    logged Critical "repotracker configuration problem" w'.
Proof.
  intros Hlocal Hremote Hfetch. unfold GetProjectConfig.
  fold ref. rewrite Hlocal. cbn [String.eqb negb].
  unfold ask at 1. unfold bind at 1. fold poller. rewrite Hremote.
  cbn iota beta. rewrite Hfetch.
  unfold bind at 1, model_FindRepository.
  destruct (FindRepository_fault env (ProjectRef.Identifier ref) w) as [fe |].
  - eexists. split; [reflexivity |]. split; [repeat split |].
    apply logged_add_log.
  - destruct (repositories w (ProjectRef.Identifier ref)) as [r |].
    + eexists. split; [reflexivity |]. split; [repeat split |].
      apply logged_add_log.
    + eexists. split; [reflexivity |]. split; [repeat split |].
      apply logged_add_log.
Qed.

Lemma GetProjectConfig_recoverable (revision : string) (w : World)
    (x : option Project.t) (e : error) :
  ProjectRef.LocalConfig ref = "" ->
  GetRemoteConfig poller revision w = (x, Some e) ->
  fetch_error e = true ->
  GetProjectConfig env repoTracker revision w
  = Ret (None,
         Some (projectConfigError
                 [Fields_String env p revision (ProjectRef.RemotePath ref)]
                 []))
        (add_log (mkLog Error "problem finding project configuration"
                    revision) w).
Proof.
  intros Hlocal Hremote Hfetch. unfold GetProjectConfig.
  fold ref. rewrite Hlocal. cbn [String.eqb negb].
  unfold ask at 1. unfold bind at 1. fold poller. rewrite Hremote.
  cbn iota beta. rewrite Hfetch. reflexivity.
Qed.

(** The round of a revision without a version whose config resolution
    fails with an infrastructural error: [return nil, err]. *)
Lemma revision_fatal (rev : Revision.t) (nv : option Version.t) (w : World)
    (e : error) :
  (forall w0, FindOne_fault env
                (ByProjectIdAndRevision p (Revision.Revision rev)) w0 = None) ->
  run_query (ByProjectIdAndRevision p (Revision.Revision rev)) (versions w)
    = None ->
  ProjectRef.LocalConfig ref = "" ->
  (forall w0, exists x,
      GetRemoteConfig poller (Revision.Revision rev) w0 = (x, Some e)) ->
  infrastructural e ->
  exists w',
    StoreRevisions_revision env repoTracker rev nv w
      = Ret (Return (None, Some e)) w' /\
    logs_only w w' /\
    logged Critical "repotracker configuration problem" w' /\
    logged Error "error getting project config" w'.
Proof.
  intros Hf Hq Hlocal Hremote [Hfetch Hpce].
  unfold StoreRevisions_revision.
  set (w0 := add_log (mkLog Info "Processing revision" (Revision.Revision rev))
                     w).
  destruct (Hremote w0) as (x & Hx).
  destruct (GetProjectConfig_fatal (Revision.Revision rev) w0 x e
              Hlocal Hx Hfetch) as (w1 & Hg & L1 & C1).
  exists (add_log (mkLog Error "error getting project config"
                     (Revision.Revision rev)) w1).
  split.
  - erewrite (bind_Ret (grip_log _ _ _)) by reflexivity. fold w0.
    erewrite (bind_Ret (version_FindOne _ _));
      [| unfold version_FindOne; fold ref; fold p; rewrite Hf; reflexivity].
    cbn iota beta.
    erewrite (bind_Ret (grip_WrapError _ _ _ _)) by reflexivity.
    change (versions w0) with (versions w). rewrite Hq.
    rewrite (bind_Ret _ _ _ _ _ Hg). cbn iota beta.
    destruct e; try discriminate Hpce; reflexivity.
  - split.
    + eapply logs_only_trans; [| apply logs_only_add_log].
      apply (logs_only_trans w w0 w1); [apply logs_only_add_log | exact L1].
    + split; [apply logged_mono; exact C1 | apply logged_add_log].
Qed.

End ConfigFailures.

(** FetchRevisions up to the call of StoreRevisions. *)
Lemma FetchRevisions_polls (env : Env) (repoTracker : RepoTracker)
    (revisions : list Revision.t) (w0 : World)
    (k : list Revision.t * option error -> M (option error)) :
  polls env repoTracker revisions w0 ->
  let p := ProjectRef.Identifier (RepoTracker_ProjectRef repoTracker) in
  let w := add_log (poll_log (last_revision w0 p)) w0 in
  exists polled : M (option (list Revision.t * option error)),
    polled w0 = Ret (Some (revisions, None)) w /\
    FetchRevisions env repoTracker w0
    = bind polled
        (fun r =>
           match r with
           | None => ret None
           | Some (_, Some _) =>
               grip_log Error "problem fetching revisions for repository" "" ;;;
               ret None
           | Some (revisions, None) =>
               stored <-
                 (if Nat.ltb 0 (List.length revisions) then
                    '(lastVersion, err) <-
                       StoreRevisions env repoTracker revisions ;;
                    match err with
                    | Some e =>
                        grip_log Error
                          "problem sorting revisions for repository" "" ;;;
                        ret (Some (withStack e))
                    | None =>
                        match lastVersion with
                        | None =>
                            panic
                              "nil pointer dereference: lastVersion.Identifier"
                        | Some lv =>
                            err <- model_UpdateLastRevision env
                                     (Version.Identifier lv)
                                     (Version.Revision lv) ;;
                            match err with
                            | Some e =>
                                grip_log Error
                                  "problem updating last revision for repository"
                                  "" ;;;
                                ret (Some (withStack e))
                            | None => ret None
                            end
                        end
                    end
                  else ret None) ;;
               match stored with
               | Some e => ret (Some e)
               | None =>
                   err <- (fun w =>
                             let '(w', e) :=
                               model_DoProjectActivation env p w in
                             Ret e w') ;;
                   match err with
                   | Some e =>
                       grip_log Error
                         "problem activating recent commit for project" "" ;;;
                       ret (Some (withStack e))
                   | None => ret None
                   end
               end
           end) w0.
Proof.
  intros (Hen & Hrepo & Hflag & Hrecent & Hsince). cbv zeta.
  unfold FetchRevisions. rewrite Hen. cbn [negb].
  unfold bind at 1, model_FindRepository. rewrite Hrepo.
  cbn iota beta.
  match goal with
  | |- context [bind ?m _ w0] => exists m
  end.
  split; [| reflexivity].
  unfold poll_log, last_revision.
  destruct (repositories w0
              (ProjectRef.Identifier (RepoTracker_ProjectRef repoTracker)))
    as [r |]; [| cbn [String.eqb]].
  - destruct (String.eqb (Repository.LastRevision r) "") eqn:Hlast.
    + unfold bind, grip_log, ask, ret. rewrite Hrecent. reflexivity.
    + destruct (ProjectRef.RepotrackerError
                  (RepoTracker_ProjectRef repoTracker)) as [re |].
      * rewrite Hflag. unfold bind, grip_log, ask, ret. rewrite Hsince.
        reflexivity.
      * unfold bind, grip_log, ask, ret. rewrite Hsince. reflexivity.
  - unfold bind, grip_log, ask, ret. rewrite Hrecent. reflexivity.
Qed.

(** C3 — a fatal failure of the config resolution. FetchRevisions polls
    the batch [newer ++ rev :: older] (newest first) and hands it to
    StoreRevisions on the store [w]; the rounds of the older revisions end
    on the store [w1]; [rev] has no version yet and the fetch of its remote
    config fails with an infrastructural error [e]. Then StoreRevisions
    returns [(nil, e)] without touching anything but the log after [w1]:
    no Version is stored for [rev] or for any newer revision of the batch;
    the failure is logged as critical; FetchRevisions returns the error to
    its caller and leaves the watermark of every project where it was. *)
Theorem C3_fatal_resolution_aborts_batch (env : Env)
    (repoTracker : RepoTracker) (newer older : list Revision.t)
    (rev : Revision.t) (e : error) (w0 w1 : World) (nv : option Version.t) :
  polls env repoTracker (newer ++ rev :: older) w0 ->
  StoreRevisions_loop env repoTracker (List.rev older) None
    (add_log (poll_log (last_revision w0 (projectIdentifier repoTracker))) w0)
    = Ret (nv, None) w1 ->
  (forall w', FindOne_fault env
                (ByProjectIdAndRevision (projectIdentifier repoTracker)
                   (Revision.Revision rev)) w' = None) ->
  run_query (ByProjectIdAndRevision (projectIdentifier repoTracker)
               (Revision.Revision rev)) (versions w1) = None ->
  ProjectRef.LocalConfig (RepoTracker_ProjectRef repoTracker) = "" ->
  (forall w', exists x,
      GetRemoteConfig (RepoTracker_RepoPoller repoTracker)
        (Revision.Revision rev) w' = (x, Some e)) ->
  infrastructural e ->
  exists w2 w3,
    StoreRevisions env repoTracker (newer ++ rev :: older)
      (add_log (poll_log (last_revision w0 (projectIdentifier repoTracker)))
               w0)
      = Ret (None, Some e) w2 /\
    logs_only w1 w2 /\
    logged Critical "repotracker configuration problem" w2 /\
    FetchRevisions env repoTracker w0 = Ret (Some (withStack e)) w3 /\
    logs_only w2 w3 /\
    (forall q, last_revision w3 q = last_revision w0 q).
Proof.
  intros Hpolls Hloop Hf Hq Hlocal Hremote Hinfra.
  set (w := add_log (poll_log (last_revision w0 (projectIdentifier repoTracker)))
                    w0) in *.
  destruct (revision_fatal env repoTracker rev nv w1 e Hf Hq Hlocal Hremote
              Hinfra) as (w2 & Hrev & L2 & C2 & _).
  assert (Hstore : StoreRevisions env repoTracker (newer ++ rev :: older) w
                   = Ret (None, Some e) w2).
  { unfold StoreRevisions.
    rewrite rev_app_distr. cbn [List.rev]. rewrite <- app_assoc.
    assert (Hl2 : StoreRevisions_loop env repoTracker
                    (List.rev older ++ [rev] ++ List.rev newer) None w
                  = Ret (None, Some e) w2).
    { rewrite StoreRevisions_loop_app, Hloop.
      cbn [app StoreRevisions_loop].
      rewrite (bind_Ret _ _ _ _ _ Hrev). reflexivity. }
    rewrite (bind_Ret _ _ _ _ _ Hl2). reflexivity. }
  exists w2, (add_log (mkLog Error "problem sorting revisions for repository"
                         "") w2).
  split; [exact Hstore |]. split; [exact L2 |]. split; [exact C2 |].
  split.
  { destruct (FetchRevisions_polls env repoTracker _ w0 (fun _ => ret None)
                Hpolls) as (polled & Hp & ->).
    fold (projectIdentifier repoTracker) in Hp. fold w in Hp.
    rewrite (bind_Ret _ _ _ _ _ Hp). cbn iota beta.
    rewrite length_app. cbn [List.length].
    replace (Nat.ltb 0 (List.length newer + S (List.length older))) with true
      by (symmetry; apply Nat.ltb_lt; lia).
    erewrite bind_Ret;
      [| rewrite (bind_Ret _ _ _ _ _ Hstore); reflexivity].
    reflexivity. }
  split; [repeat split |].
  intros q.
  pose proof (StoreRevisions_loop_evolves env repoTracker (List.rev older)
                None w) as E.
  rewrite Hloop in E. simpl in E. destruct E as (L & _).
  destruct L2 as (_ & _ & _ & R2 & _).
  unfold last_revision at 1. cbn [repositories add_log]. rewrite R2.
  fold (last_revision w1 q). rewrite L. reflexivity.
Qed.

(** ** Versions created from a config *)

Lemma createVersionItems_success (env : Env) (v v' : Version.t)
    (ref : ProjectRef.t) (project : Project.t) (w w' : World) :
  createVersionItems env v ref project w = Ret (v', None) w' ->
  exists w1,
    expands (map BuildVariant.Name
               (filter enabled (Project.BuildVariants project)))
            true v w v' w1 /\
    builds w' = builds w1 /\ tasks w' = tasks w1 /\
    (versions w' = versions w ++ [v'] \/ versions w' = versions w).
Proof.
  intros H. unfold createVersionItems in H.
  apply bind_inv in H. destruct H as ([v1 e1] & w1 & Hloop & H).
  destruct e1 as [e |]; [inversion H |].
  apply bind_inv in H. destruct H as (oe & w2 & Hins & H).
  pose proof (builds_expands _ _ _ _ _ _ _ _ _ _ Hloop) as E.
  assert (Hv : versions w1 = versions w).
  { destruct E as (? & ? & ? & _ & _ & _ & _ & _ & _ & _ & Hv & _).
    exact Hv. }
  destruct (insert_spec env v1 w1) as (oe' & w2' & Hins' & Hcase).
  rewrite Hins in Hins'. inversion Hins'; subst oe' w2'. clear Hins'.
  destruct Hcase as [(-> & -> & _) | (Hne & ->)].
  - inversion H; subst. exists w1. split; [exact E |].
    cbn. split; [reflexivity |]. split; [reflexivity |].
    left. rewrite Hv. reflexivity.
  - destruct oe as [e |]; [| contradiction].
    destruct (db_IsDuplicateKey e); cbn [negb] in H.
    + inversion H; subst. exists w'. split; [exact E |].
      split; [reflexivity |]. split; [reflexivity |]. right. exact Hv.
    + apply bind_inv in H. destruct H as (? & ? & _ & H).
      apply bind_inv in H. destruct H as (? & ? & _ & H).
      inversion H.
Qed.

Lemma sanity_logs_only (env : Env) (n : Z) (p r : string) (w w' : World)
    (oe : option error) :
  sanityCheckOrderNum env n p r w = Ret oe w' -> logs_only w w'.
Proof.
  unfold sanityCheckOrderNum, bind, version_FindOne, grip_log, ret.
  intros H. repeat case_match_in H; inversion H; subst; repeat split.
Qed.

Lemma CreateVersionFromConfig_success (env : Env) (ref : ProjectRef.t)
    (c : Project.t) (rev : Revision.t) (ignore : bool)
    (versionErrs : option VersionErrors) (w w' : World) (v : Version.t) :
  CreateVersionFromConfig env ref (Some c) rev ignore versionErrs w
    = Ret (Some v, None) w' ->
  created_from c rev ignore (ProjectRef.Identifier ref) w w' v.
Proof.
  intros H. unfold CreateVersionFromConfig in H.
  apply bind_inv in H. destruct H as ([ov oe] & w1 & Hs & H).
  destruct (shell_spec env ref rev w)
    as (ov' & oe' & w1' & Hs' & V1 & B1 & T1 & _ & _ & _ & Hov).
  rewrite Hs in Hs'. inversion Hs'; subst ov' oe' w1'. clear Hs'.
  destruct oe as [e |]; [inversion H |].
  destruct ov as [v0 |]; [| discriminate H].
  destruct Hov as (_ & Hp & Hr & _ & _ & He0 & _ & Hbv0 & _).
  apply bind_inv in H. destruct H as (se & w2 & Hsan & H).
  apply sanity_logs_only in Hsan. destruct Hsan as (V2 & B2 & T2 & _).
  destruct se as [e |]; [inversion H |].
  destruct (yaml_Marshal env c) as [configYaml [e |]]; [inversion H |].
  destruct (validator_CheckProjectSyntax env c) as [verrs [e |]];
    [inversion H |].
  cbv zeta in H.
  set (v1 := Version.set_Ignored ignore (Version.set_Config configYaml v0))
    in *.
  assert (Hexpand : forall v2,
             Version.Ignored v2 = ignore ->
             Version.Revision v2 = Version.Revision v0 ->
             Version.Identifier v2 = Version.Identifier v0 ->
             Version.BuildVariants v2 = [] ->
             Version.Errors v2 = [] ->
             ('(v', err) <- createVersionItems env v2 ref c ;;
              ret (Some v', errors_Wrap err "error creating version items"))
               w2 = Ret (Some v, None) w' ->
             created_from c rev ignore (ProjectRef.Identifier ref) w w' v).
  { intros v2 Hi2 Hr2 Hp2 Hb2 He2 Hrun.
    apply bind_inv in Hrun. destruct Hrun as ([v' err] & w3 & Hcvi & Hrun).
    destruct err as [e |]; [inversion Hrun |].
    inversion Hrun; subst v' w3. clear Hrun.
    destruct (createVersionItems_success _ _ _ _ _ _ _ Hcvi)
      as (w3 & E & B3 & T3 & V3).
    destruct E as (newb & newt & news & Hb & Ht & Hv & _ & Ft & _ & C & _).
    destruct (C eq_refl) as (C1 & C2 & C3).
    pose proof (add_statuses_fields news v2)
      as (_ & F2 & F3 & _ & F5 & F6 & _ & F8 & _).
    rewrite <- Hv in F2, F3, F5, F6, F8.
    assert (Hbvs : Version.BuildVariants v = news).
    { rewrite F8, Hb2. reflexivity. }
    split; [congruence |]. split; [congruence |]. split; [congruence |].
    split.
    - intros Hne. exfalso. apply Hne. congruence.
    - intros _. exists newb, newt.
      split; [rewrite B3, Hb; congruence |].
      split; [rewrite T3, Ht; congruence |].
      split; [exact C1 |]. split; [rewrite Hbvs; exact C2 |].
      split; [rewrite Hbvs; exact C3 |].
      split.
      { eapply Forall_impl; [| exact Ft]. simpl. intros t [_ Hin]. exact Hin. }
      destruct V3 as [V3 | V3]; [left | right]; congruence. }
  assert (Hinsert : forall v2,
             Version.Ignored v2 = ignore ->
             Version.Revision v2 = Version.Revision v0 ->
             Version.Identifier v2 = Version.Identifier v0 ->
             Version.BuildVariants v2 = [] ->
             Version.Errors v2 <> [] ->
             (err <- Version_Insert env v2 ;;
              ret (Some v2, errors_Wrap err "error inserting version"))
               w2 = Ret (Some v, None) w' ->
             created_from c rev ignore (ProjectRef.Identifier ref) w w' v).
  { intros v2 Hi2 Hr2 Hp2 Hb2 He2 Hrun.
    apply bind_inv in Hrun. destruct Hrun as (err & w3 & Hins & Hrun).
    destruct err as [e |]; [inversion Hrun |].
    inversion Hrun; subst v2 w3. clear Hrun.
    destruct (insert_spec env v w2) as (oe' & w2' & Hins' & Hcase).
    rewrite Hins in Hins'. inversion Hins'; subst oe' w2'. clear Hins'.
    destruct Hcase as [(_ & -> & _) | (Hne & _)]; [| contradiction].
    split; [exact Hi2 |]. split; [congruence |]. split; [congruence |].
    split.
    - intros _. cbn. repeat split; congruence.
    - intros Hnil. contradiction. }
  assert (Hnat : forall l : list string,
             Nat.ltb 0 (List.length l) = false -> l = []).
  { intros [| x l] Hl; [reflexivity | discriminate Hl]. }
  assert (Hnat' : forall l : list string,
             Nat.ltb 0 (List.length l) = true -> l <> []).
  { intros [| x l] Hl; [discriminate Hl | discriminate]. }
  destruct (Nat.ltb 0 (List.length verrs)
            || match versionErrs with Some _ => true | None => false end).
  - match type of H with
    | context [Nat.ltb 0 (List.length (Version.Errors ?v2))] =>
        destruct (Nat.ltb 0 (List.length (Version.Errors v2))) eqn:Hlen;
          [apply (Hinsert v2) | apply (Hexpand v2)];
          try exact H;
          try (apply Hnat'; exact Hlen);
          try (apply Hnat; exact Hlen);
          destruct versionErrs; try reflexivity; try exact Hbv0
    end.
  - apply (Hexpand v1); try exact H; try reflexivity;
      [exact Hbv0 | exact He0].
Qed.

(** ** The stub version of a revision without a usable config *)

Lemma shell_some (env : Env) (ref : ProjectRef.t) (rev : Revision.t)
    (w : World) :
  counter_answers env (ProjectRef.Identifier ref) ->
  exists v w1,
    shellVersionFromRevision env ref rev w = Ret (Some v, None) w1 /\
    versions w1 = versions w /\ builds w1 = builds w /\ tasks w1 = tasks w /\
    (forall q, last_revision w1 q = last_revision w q) /\
    order_counter w (ProjectRef.Identifier ref)
      < order_counter w1 (ProjectRef.Identifier ref) /\
    Version.RevisionOrderNumber v
      = order_counter w1 (ProjectRef.Identifier ref) /\
    Version.Id v
      = util_CleanName env
          (ProjectRef.Identifier ref ++ "_" ++ Revision.Revision rev)%string /\
    Version.Identifier v = ProjectRef.Identifier ref /\
    Version.Revision v = Revision.Revision rev /\
    Version.Config v = "" /\ Version.Ignored v = false /\
    Version.Errors v = [] /\ Version.Warnings v = [] /\
    Version.BuildVariants v = [] /\ Version.BuildIds v = [].
Proof.
  intros Hc.
  destruct (shell_spec env ref rev w)
    as (ov & oe & w1 & Hs & V & B & T & L & O & C & Hov).
  assert (Hsome : exists v, ov = Some v
                            /\ Version.Id v
                               = util_CleanName env
                                   (ProjectRef.Identifier ref ++ "_"
                                    ++ Revision.Revision rev)%string
                            /\ Version.Config v = ""
                            /\ Version.Ignored v = false).
  { revert Hs. unfold shellVersionFromRevision, bind, ask.
    destruct (user_FindByGithubUID env (Revision.AuthorGithubUID rev) w)
      as [u uerr].
    destruct (grip_WrapError Error uerr
                "failed to fetch everg user with Github UID" "" w)
      as [[] wl | r wl] eqn:Hl; [| destruct uerr; discriminate Hl].
    unfold model_GetNewRevisionOrderNumber.
    destruct (Hc wl) as (skip & ->). unfold ret. intros Hs.
    inversion Hs; subst. eexists. split; [reflexivity |].
    destruct u; repeat split. }
  destruct Hsome as (v & -> & Hid & Hcfg & Hign).
  destruct Hov as (-> & Hp & Hr & Hn & Hlt & He & Hw & Hbv & Hbi).
  exists v, w1. repeat split; assumption.
Qed.

Section Stub.

Variable env : Env.
Variable repoTracker : RepoTracker.

(** The round of a revision without a version whose remote config cannot
    be found or parsed goes to the stub. *)
Lemma revision_recoverable (rev : Revision.t) (nv : option Version.t)
    (w : World) (e : error) :
  (forall w0, FindOne_fault env
                (ByProjectIdAndRevision (projectIdentifier repoTracker)
                   (Revision.Revision rev)) w0 = None) ->
  run_query (ByProjectIdAndRevision (projectIdentifier repoTracker)
               (Revision.Revision rev)) (versions w) = None ->
  ProjectRef.LocalConfig (RepoTracker_ProjectRef repoTracker) = "" ->
  (forall w0, exists x,
      GetRemoteConfig (RepoTracker_RepoPoller repoTracker)
        (Revision.Revision rev) w0 = (x, Some e)) ->
  fetch_error e = true ->
  StoreRevisions_revision env repoTracker rev nv w
  = StoreRevisions_stub env repoTracker rev
      (mkVersionErrors
         [Fields_String env (projectIdentifier repoTracker)
            (Revision.Revision rev)
            (ProjectRef.RemotePath (RepoTracker_ProjectRef repoTracker))]
         [])
      (add_log (mkLog Error "problem finding project configuration"
                  (Revision.Revision rev))
         (add_log (mkLog Info "Processing revision" (Revision.Revision rev))
            w)).
Proof.
  intros Hf Hq Hlocal Hremote Hfetch. unfold StoreRevisions_revision.
  set (w0 := add_log (mkLog Info "Processing revision" (Revision.Revision rev))
                     w).
  destruct (Hremote w0) as (x & Hx).
  erewrite (bind_Ret (grip_log _ _ _)) by reflexivity. fold w0.
  erewrite (bind_Ret (version_FindOne _ _));
    [| unfold version_FindOne; unfold projectIdentifier in Hf; rewrite Hf;
       reflexivity].
  cbn iota beta.
  erewrite (bind_Ret (grip_WrapError _ _ _ _)) by reflexivity.
  change (versions w0) with (versions w).
  unfold projectIdentifier in Hq. rewrite Hq.
  rewrite (bind_Ret _ _ _ _ _
             (GetProjectConfig_recoverable env repoTracker _ w0 x e
                Hlocal Hx Hfetch)).
  reflexivity.
Qed.

(** The stub round once the counter answers: the shell version, with the
    errors attached, goes to the insert, whose error is only logged. *)
Lemma stub_round (rev : Revision.t) (versionErrs : VersionErrors)
    (w : World) :
  counter_answers env (projectIdentifier repoTracker) ->
  exists v w1 oe w2,
    shellVersionFromRevision env (RepoTracker_ProjectRef repoTracker) rev w
      = Ret (Some v, None) w1 /\
    Version_Insert env
      (Version.set_Warnings (VersionErrors_Warnings versionErrs)
         (Version.set_Errors (VersionErrors_Errors versionErrs) v)) w1
      = Ret oe w2 /\
    StoreRevisions_stub env repoTracker rev versionErrs w
      = Ret (Continue
               (Some (Version.set_Warnings (VersionErrors_Warnings versionErrs)
                        (Version.set_Errors (VersionErrors_Errors versionErrs)
                           v))))
            (world_of (grip_WrapError Error oe "error inserting shell version"
                         (Revision.Revision rev) w2)).
Proof.
  intros Hc.
  destruct (shell_some env (RepoTracker_ProjectRef repoTracker) rev w Hc)
    as (v & w1 & Hs & _).
  destruct (insert_spec env
              (Version.set_Warnings (VersionErrors_Warnings versionErrs)
                 (Version.set_Errors (VersionErrors_Errors versionErrs) v)) w1)
    as (oe & w2 & Hi & _).
  exists v, w1, oe, w2. split; [exact Hs |]. split; [exact Hi |].
  unfold StoreRevisions_stub. rewrite (bind_Ret _ _ _ _ _ Hs).
  cbn iota beta.
  erewrite (bind_Ret (grip_WrapError _ _ _ _)) by reflexivity.
  rewrite (bind_Ret _ _ _ _ _ Hi).
  destruct oe; reflexivity.
Qed.

End Stub.

Lemma no_conflict (v : Version.t) (vs : list Version.t) :
  (forall u, In u vs -> Version.Id u <> Version.Id v) ->
  (forall u, In u vs -> Version.Identifier u = Version.Identifier v ->
             Version.Revision u <> Version.Revision v
             /\ Version.RevisionOrderNumber u < Version.RevisionOrderNumber v) ->
  existsb (conflicts v) vs = false.
Proof.
  intros Hid Hkey. apply not_true_is_false. intros H.
  apply existsb_exists in H. destruct H as (u & Hin & Hc).
  unfold conflicts in Hc. apply orb_true_iff in Hc. destruct Hc as [Hc | Hc].
  - apply String.eqb_eq in Hc. exact (Hid u Hin Hc).
  - apply andb_true_iff in Hc. destruct Hc as [Hp Hc].
    apply String.eqb_eq in Hp. destruct (Hkey u Hin Hp) as [Hr Hn].
    apply orb_true_iff in Hc. destruct Hc as [Hc | Hc].
    + apply String.eqb_eq in Hc. contradiction.
    + apply Z.eqb_eq in Hc. lia.
Qed.

Lemma no_version_of_revision (p r : string) (vs : list Version.t) :
  run_query (ByProjectIdAndRevision p r) vs = None ->
  forall u, In u vs -> Version.Identifier u = p -> Version.Revision u <> r.
Proof.
  simpl. intros Hq u Hin Hp Hr.
  pose proof (find_none _ _ Hq u Hin) as Hn. simpl in Hn.
  rewrite Hp, Hr, !String.eqb_refl in Hn. discriminate.
Qed.

Lemma order_invariant_bound (p : string) (w : World) (u : Version.t) :
  order_invariant p w -> In u (versions w) -> Version.Identifier u = p ->
  Version.RevisionOrderNumber u <= order_counter w p.
Proof.
  intros [_ B] Hin Hp. rewrite Forall_forall in B. apply B.
  unfold project_orders. apply in_map. apply filter_In.
  split; [exact Hin | apply String.eqb_eq; exact Hp].
Qed.

(** The round of a revision without a version whose remote config cannot
    be fetched or parsed, when the counter and the insert answer on a store
    that is consistent with the counter and has no document with the id of
    the new version: the stub is stored and the loop goes on. *)
Lemma recoverable_round (env : Env)
    (repoTracker : RepoTracker) (rev : Revision.t) (nv : option Version.t)
    (w : World) (e : error) :
  (forall w0, FindOne_fault env
                (ByProjectIdAndRevision (projectIdentifier repoTracker)
                   (Revision.Revision rev)) w0 = None) ->
  run_query (ByProjectIdAndRevision (projectIdentifier repoTracker)
               (Revision.Revision rev)) (versions w) = None ->
  ProjectRef.LocalConfig (RepoTracker_ProjectRef repoTracker) = "" ->
  (forall w0, exists x,
      GetRemoteConfig (RepoTracker_RepoPoller repoTracker)
        (Revision.Revision rev) w0 = (x, Some e)) ->
  fetch_error e = true ->
  counter_answers env (projectIdentifier repoTracker) ->
  (forall v w0, Insert_fault env v w0 = None) ->
  order_invariant (projectIdentifier repoTracker) w ->
  (forall u, In u (versions w) ->
     Version.Id u
     <> util_CleanName env
          (projectIdentifier repoTracker ++ "_" ++ Revision.Revision rev)%string)
  ->
  exists stub w',
    StoreRevisions_revision env repoTracker rev nv w
      = Ret (Continue (Some stub)) w' /\
    versions w' = versions w ++ [stub] /\
    builds w' = builds w /\ tasks w' = tasks w /\
    Version.Identifier stub = projectIdentifier repoTracker /\
    Version.Revision stub = Revision.Revision rev /\
    Version.Errors stub
      = [Fields_String env (projectIdentifier repoTracker)
           (Revision.Revision rev)
           (ProjectRef.RemotePath (RepoTracker_ProjectRef repoTracker))] /\
    Version.Warnings stub = [] /\
    Version.Config stub = "" /\
    Version.BuildVariants stub = [] /\ Version.BuildIds stub = [] /\
    (forall rest,
       StoreRevisions_loop env repoTracker (rev :: rest) nv w
       = StoreRevisions_loop env repoTracker rest (Some stub) w') /\
    Version.Id stub
      = util_CleanName env
          (projectIdentifier repoTracker ++ "_" ++ Revision.Revision rev)%string.
Proof.
  intros Hf Hq Hlocal Hremote Hfetch Hc Hins Hinv Hid.
  pose proof (revision_recoverable env repoTracker rev nv w e Hf Hq Hlocal
                Hremote Hfetch) as Hrr.
  match type of Hrr with
  | _ = StoreRevisions_stub env repoTracker rev ?ve ?w0 =>
      destruct (stub_round env repoTracker rev ve w0 Hc)
        as (v & w1 & oe & w2 & Hs & Hi & Hstub);
      destruct (shell_some env (RepoTracker_ProjectRef repoTracker) rev w0 Hc)
        as (v' & w1' & Hs' & V1 & B1 & T1 & _ & Hlt & Hn & Hvid & Hp & Hr
            & Hcfg & _ & _ & _ & Hbv & Hbi)
  end.
  rewrite Hs in Hs'. inversion Hs'; subst v' w1'. clear Hs'.
  cbn [versions builds tasks add_log] in V1, B1, T1.
  cbn [VersionErrors_Errors VersionErrors_Warnings] in Hi, Hstub.
  set (stub := Version.set_Warnings []
                 (Version.set_Errors
                    [Fields_String env (projectIdentifier repoTracker)
                       (Revision.Revision rev)
                       (ProjectRef.RemotePath
                          (RepoTracker_ProjectRef repoTracker))] v)) in *.
  assert (Hnc : existsb (conflicts stub) (versions w1) = false).
  { apply no_conflict; rewrite V1.
    - intros u Hu. cbn. rewrite Hvid. apply Hid. exact Hu.
    - intros u Hu Hpu. cbn in Hpu. cbn [stub Version.set_Warnings
        Version.set_Errors Version.Revision Version.RevisionOrderNumber].
      rewrite Hp in Hpu. split.
      + rewrite Hr. eapply no_version_of_revision; eassumption.
      + pose proof (order_invariant_bound _ _ _ Hinv Hu Hpu) as Hb.
        rewrite Hn. unfold order_counter in Hlt at 1.
        cbn [repositories add_log] in Hlt.
        fold (order_counter w (ProjectRef.Identifier
                                 (RepoTracker_ProjectRef repoTracker))) in Hlt.
        unfold projectIdentifier in Hb. lia. }
  assert (Hoe : oe = None /\ w2 = set_versions (versions w1 ++ [stub]) w1).
  { unfold Version_Insert in Hi. rewrite Hins, Hnc in Hi.
    inversion Hi; subst. split; reflexivity. }
  destruct Hoe as [-> ->]. cbn [grip_WrapError ret world_of] in Hstub.
  exists stub, (set_versions (versions w1 ++ [stub]) w1).
  split; [rewrite Hrr; exact Hstub |].
  cbn [versions builds tasks set_versions].
  split; [rewrite V1; reflexivity |]. split; [exact B1 |]. split; [exact T1 |].
  split; [exact Hp |]. split; [exact Hr |].
  split; [reflexivity |]. split; [reflexivity |]. split; [exact Hcfg |].
  split; [exact Hbv |]. split; [exact Hbi |].
  split.
  - intros rest. cbn [StoreRevisions_loop].
    rewrite (bind_Ret _ _ _ _ _ (eq_trans Hrr Hstub)). reflexivity.
  - exact Hvid.
Qed.

(** C10 — a stub whose insert fails. The revision has no version yet, the
    fetch of its remote config fails with an error about the file itself,
    the counter answers, and the insert of the stub fails. Then the round
    of the loop stores nothing, logs the failure of the insert as an error,
    and still ends with [continue] with the stub as the newest version so
    far: the loop goes on with the next revision and StoreRevisions does
    not return the failure. And there is a run of FetchRevisions over two
    revisions in which the insert of the stub of the older one fails, the
    run ends without error, the watermark is the newer revision, and the
    older revision has no version in the store. *)
Theorem C10_failed_stub_insert_is_only_logged (env : Env)
    (repoTracker : RepoTracker) (rev : Revision.t) (nv : option Version.t)
    (w : World) (e : error) :
  (forall w0, FindOne_fault env
                (ByProjectIdAndRevision (projectIdentifier repoTracker)
                   (Revision.Revision rev)) w0 = None) ->
  run_query (ByProjectIdAndRevision (projectIdentifier repoTracker)
               (Revision.Revision rev)) (versions w) = None ->
  ProjectRef.LocalConfig (RepoTracker_ProjectRef repoTracker) = "" ->
  (forall w0, exists x,
      GetRemoteConfig (RepoTracker_RepoPoller repoTracker)
        (Revision.Revision rev) w0 = (x, Some e)) ->
  fetch_error e = true ->
  counter_answers env (projectIdentifier repoTracker) ->
  (forall v w0, Version.Revision v = Revision.Revision rev ->
     exists ie, Version_Insert env v w0 = Ret (Some ie) w0) ->
  (exists stub w',
     StoreRevisions_revision env repoTracker rev nv w
       = Ret (Continue (Some stub)) w' /\
     versions w' = versions w /\ builds w' = builds w /\ tasks w' = tasks w /\
     Version.Revision stub = Revision.Revision rev /\
     In (mkLog Error "error inserting shell version" (Revision.Revision rev))
        (log w') /\
     forall rest,
       StoreRevisions_loop env repoTracker (rev :: rest) nv w
       = StoreRevisions_loop env repoTracker rest (Some stub) w') /\
  (exists env0 tracker0 older newer w0 w',
     GetRecentRevisions (RepoTracker_RepoPoller tracker0)
       DefaultNumNewRepoRevisionsToFetch
       (add_log (poll_log "") w0) = ([newer; older], None) /\
     FetchRevisions env0 tracker0 w0 = Ret None w' /\
     In (mkLog Error "error inserting shell version" (Revision.Revision older))
        (log w') /\
     last_revision w' (projectIdentifier tracker0) = Revision.Revision newer /\
     forall v, In v (versions w') ->
               Version.Revision v <> Revision.Revision older).
Proof.
  intros Hf Hq Hlocal Hremote Hfetch Hc Hins. split.
  - pose proof (revision_recoverable env repoTracker rev nv w e Hf Hq Hlocal
                  Hremote Hfetch) as Hrr.
    match type of Hrr with
    | _ = StoreRevisions_stub env repoTracker rev ?ve ?w0 =>
        destruct (stub_round env repoTracker rev ve w0 Hc)
          as (v & w1 & oe & w2 & Hs & Hi & Hstub);
        destruct (shell_some env (RepoTracker_ProjectRef repoTracker) rev w0 Hc)
          as (v' & w1' & Hs' & V1 & B1 & T1 & _ & _ & _ & _ & _ & Hr & _)
    end.
    rewrite Hs in Hs'. inversion Hs'; subst v' w1'. clear Hs'.
    cbn [versions builds tasks add_log] in V1, B1, T1.
    match type of Hi with
    | Version_Insert env ?stub w1 = _ =>
        destruct (Hins stub w1) as (ie & Hie); [exact Hr |]
    end.
    rewrite Hie in Hi. inversion Hi; subst oe w2. clear Hi.
    cbn [grip_WrapError grip_log world_of] in Hstub.
    eexists _, _. split; [exact (eq_trans Hrr Hstub) |].
    cbn [versions builds tasks log add_log].
    split; [exact V1 |]. split; [exact B1 |]. split; [exact T1 |].
    split; [exact Hr |].
    split; [apply in_or_app; right; left; reflexivity |].
    intros rest. cbn [StoreRevisions_loop].
    rewrite (bind_Ret _ _ _ _ _ (eq_trans Hrr Hstub)). reflexivity.
  - exists (Sample.env_insert_fails "r1"), Sample.tracker_r1_missing,
      Sample.r1, Sample.r2, Sample.empty_world.
    eexists. split; [reflexivity |].
    split; [vm_compute; reflexivity |].
    split; [vm_compute; tauto |].
    split; [vm_compute; reflexivity |].
    vm_compute. intros v [<- | []]. discriminate.
Qed.

(** ** The pipeline on concrete batches *)


(** C2 as stated fails: the counter of the project is at 2 while the
    latest stored version has order number 3, so the version of r1 gets
    the number 3, which does not exceed 3; yet StoreRevisions returns no
    error, and it goes on to store the version of r2. *)
Lemma C2_counterexample :
  exists latest v w',
    run_query (ByMostRecentSystemRequester "proj")
              (versions Sample.stale_world) = Some latest /\
    Version.RevisionOrderNumber latest = 3 /\
    order_counter Sample.stale_world "proj" + 1 = 3 /\
    StoreRevisions Sample.env Sample.tracker_plain [Sample.r2; Sample.r1]
      Sample.stale_world = Ret (Some v, None) w' /\
    Version.Revision v = "r2" /\
    map Version.Revision (versions w') = ["r0"; "r2"] /\
    In (mkLog Error "error creating version" "r1") (log w').
Proof.
  eexists _, _, _.
  split; [vm_compute; reflexivity |].
  split; [reflexivity |]. split; [reflexivity |].
  split; [vm_compute; reflexivity |].
  split; [reflexivity |]. split; [reflexivity |].
  vm_compute. tauto.
Qed.

(** C3 on a batch of three revisions: the fetch of the config of r2 fails
    on a malformed API response; only r1 is stored, the error comes back
    from FetchRevisions, and there is still no watermark. *)
Lemma C3_fatal_resolution_aborts_batch_witness :
  exists w2 w3,
    StoreRevisions Sample.env Sample.tracker_r2_unreadable
      [Sample.r3; Sample.r2; Sample.r1]
      (add_log (poll_log "") Sample.empty_world)
      = Ret (None, Some (APIUnmarshalError "unexpected JSON")) w2 /\
    map Version.Revision (versions w2) = ["r1"] /\
    FetchRevisions Sample.env Sample.tracker_r2_unreadable Sample.empty_world
      = Ret (Some (withStack (APIUnmarshalError "unexpected JSON"))) w3 /\
    map Version.Revision (versions w3) = ["r1"] /\
    last_revision w3 "proj" = "".
Proof.
  destruct (C3_fatal_resolution_aborts_batch Sample.env
              Sample.tracker_r2_unreadable [Sample.r3] [Sample.r1] Sample.r2
              (APIUnmarshalError "unexpected JSON") Sample.empty_world
              (world_of
                 (StoreRevisions_loop Sample.env Sample.tracker_r2_unreadable
                    [Sample.r1] None
                    (add_log (poll_log "") Sample.empty_world)))
              (match StoreRevisions_loop Sample.env
                       Sample.tracker_r2_unreadable [Sample.r1] None
                       (add_log (poll_log "") Sample.empty_world) with
               | Ret (nv, _) _ => nv
               | Panic _ _ => None
               end))
    as (w2 & w3 & H1 & L1 & _ & H2 & L2 & Hlast).
  - repeat split; intros; reflexivity.
  - vm_compute. reflexivity.
  - intros w'. reflexivity.
  - vm_compute. reflexivity.
  - reflexivity.
  - intros w'. eexists. reflexivity.
  - split; reflexivity.
  - exists w2, w3. split; [exact H1 |].
    destruct L1 as (V1 & _). destruct L2 as (V2 & _).
    split; [rewrite V1; vm_compute; reflexivity |].
    split; [exact H2 |].
    split; [rewrite V2, V1; vm_compute; reflexivity |].
    rewrite Hlast. reflexivity.
Defined.


(** C6 on a first run from the empty store. *)
Lemma C6_order_numbers_increase_witness :
  (forall q, order_invariant q Sample.after_first_run) /\
  map Version.RevisionOrderNumber (versions Sample.after_first_run)
    = [1; 2; 3].
Proof.
  split; [| vm_compute; reflexivity].
  apply (C6_order_numbers_increase Sample.env Sample.tracker_r2_missing
           [Sample.r3; Sample.r2; Sample.r1] Sample.empty_world).
  intros q. split; constructor.
Defined.

(** C7 on the scenario of the spec: the batch time of linux-64 is 60
    minutes and the build of linux-64 of the prior version was activated at
    1000; the build of the new version is to be activated 60 minutes after
    that, whatever the clock says (5000 here). *)
Lemma C7_activate_at_witness :
  exists activateAt w',
    createVersionItems_variant Sample.env Sample.ref (Sample.config []) []
      (Sample.version_of "r1" 2 []) Sample.linux Sample.activated_world
      = Ret (Version.add_build "proj_r1_linux-64"
               (BuildStatus.mk "linux-64" false activateAt "proj_r1_linux-64")
               (Sample.version_of "r1" 2 []), None) w' /\
    activateAt = 1000 + 60 * 60000000000.
Proof.
  destruct (C7_activate_at Sample.env Sample.ref (Sample.config []) []
              (Sample.version_of "r1" 2 []) Sample.linux
              Sample.activated_world _ "proj_r1_linux-64" eq_refl eq_refl
              eq_refl)
    as (activateAt & Hrun & _ & Hprior & _).
  exists activateAt. eexists. split; [exact Hrun |].
  destruct Hprior as (u & bs & Hin & _ & _ & Hfind & _ & Hsum).
  - eexists. split; [left; reflexivity |]. split; reflexivity.
  - destruct Hin as [<- | []]. vm_compute in Hfind. inversion Hfind; subst bs.
    rewrite Hsum; [reflexivity | vm_compute; split; [discriminate | reflexivity]].
Defined.


(** C9 on a config with a disabled variant between two enabled ones. *)
Example C9_disabled_variants_are_skipped_example :
  exists v' w',
    createVersionItems_builds Sample.env Sample.ref Sample.config2
      (model_NewTaskIdTable Sample.env Sample.config2
         (Sample.version_of "r1" 1 []))
      (Sample.version_of "r1" 1 []) (Project.BuildVariants Sample.config2)
      Sample.empty_world = Ret (v', None) w' /\
    map Build.BuildVariant (builds w') = ["linux-64"; "windows"] /\
    map Task.BuildVariant (tasks w') = ["linux-64"; "linux-64"; "windows"] /\
    map BuildStatus.BuildVariant (Version.BuildVariants v')
      = ["linux-64"; "windows"].
Proof.
  eexists _, _. split; [vm_compute; reflexivity |]. repeat split.
Qed.

(** C10 on the store that holds the version of r1: the config of r2 is
    missing and the inserts of the versions of r2 fail. *)
Lemma C10_failed_stub_insert_is_only_logged_witness :
  exists stub w',
    StoreRevisions_revision (Sample.env_insert_fails "r2")
      Sample.tracker_r2_missing Sample.r2 None
      (world_of (StoreRevisions Sample.env Sample.tracker_r2_missing
                   [Sample.r1] Sample.empty_world))
      = Ret (Continue (Some stub)) w' /\
    map Version.Revision (versions w') = ["r1"] /\
    Version.Revision stub = "r2".
Proof.
  destruct (C10_failed_stub_insert_is_only_logged
              (Sample.env_insert_fails "r2") Sample.tracker_r2_missing
              Sample.r2 None
              (world_of (StoreRevisions Sample.env Sample.tracker_r2_missing
                           [Sample.r1] Sample.empty_world))
              (FileNotFoundError "evergreen.yml not found"))
    as ((stub & w' & Hrun & V & _ & _ & Hr & _) & _).
  - intros w0. reflexivity.
  - vm_compute. reflexivity.
  - reflexivity.
  - intros w0. eexists. reflexivity.
  - reflexivity.
  - intros w0. exists 0%nat. reflexivity.
  - intros v w0 Hv. unfold Version_Insert. cbn [Insert_fault
      Sample.env_insert_fails Sample.env_with]. unfold Sample.insert_fails_for.
    rewrite Hv. eexists. reflexivity.
  - exists stub, w'. split; [exact Hrun |].
    split; [rewrite V; vm_compute; reflexivity | exact Hr].
Defined.

(** ** The orchestrator: settings, early exits and project activation *)

Lemma bind_ext {A B} (m m' : M A) (k k' : A -> M B) (w : World) :
  m w = m' w -> (forall a w1, k a w1 = k' a w1) -> bind m k w = bind m' k' w.
Proof.
  intros Hm Hk. unfold bind. rewrite Hm.
  destruct (m' w); [apply Hk | reflexivity].
Qed.

Lemma StoreRevisions_loop_settings (env : Env) (s s' : Settings.t)
    (ref : ProjectRef.t) (poller : RepoPoller) (revs : list Revision.t) :
  forall (nv : option Version.t) (w : World),
    StoreRevisions_loop env (mkRepoTracker s ref poller) revs nv w
    = StoreRevisions_loop env (mkRepoTracker s' ref poller) revs nv w.
Proof.
  induction revs as [| rev rest IH]; intros nv w; [reflexivity |].
  cbn [StoreRevisions_loop]. apply bind_ext; [reflexivity |].
  intros [nv' | result] w1; [apply IH | reflexivity].
Qed.

Lemma StoreRevisions_settings (env : Env) (s s' : Settings.t)
    (ref : ProjectRef.t) (poller : RepoPoller) (revs : list Revision.t)
    (w : World) :
  StoreRevisions env (mkRepoTracker s ref poller) revs w
  = StoreRevisions env (mkRepoTracker s' ref poller) revs w.
Proof.
  unfold StoreRevisions. apply bind_ext; [| reflexivity].
  apply StoreRevisions_loop_settings.
Qed.

(** X1: FetchRevisions reads a count of the settings that is not positive
    as its default: a tracker whose NumNewRepoRevisionsToFetch or
    MaxRepoRevisionsToSearch is zero or negative runs exactly as the tracker
    with 200 and 50 in their place, from every store and for every
    collaborator. *)
Theorem FetchRevisions_settings_defaults (env : Env) (s : Settings.t)
    (ref : ProjectRef.t) (poller : RepoPoller) (w : World) :
  FetchRevisions env (mkRepoTracker s ref poller) w
  = FetchRevisions env (mkRepoTracker (effective_settings s) ref poller) w.
Proof.
  unfold FetchRevisions.
  cbn [RepoTracker_Settings RepoTracker_ProjectRef RepoTracker_RepoPoller].
  destruct (negb (ProjectRef.Enabled ref)); [reflexivity |].
  apply bind_ext; [reflexivity |].
  intros [repository err] w1. destruct err as [e |]; [reflexivity |].
  apply bind_ext.
  - unfold effective_settings.
    cbn [Settings.NumNewRepoRevisionsToFetch Settings.MaxRepoRevisionsToSearch].
    destruct (String.eqb _ "").
    + destruct (Settings.NumNewRepoRevisionsToFetch s <=? 0) eqn:E.
      * reflexivity.
      * rewrite E. reflexivity.
    + destruct (Settings.MaxRepoRevisionsToSearch s <=? 0) eqn:E.
      * reflexivity.
      * rewrite E. reflexivity.
  - intros polled w2.
    destruct polled as [[revisions [e |]] |]; try reflexivity.
    apply bind_ext; [| reflexivity].
    destruct (Nat.ltb 0 (List.length revisions)); [| reflexivity].
    apply bind_ext; [apply StoreRevisions_settings | reflexivity].
Qed.


(** X3: a poll that finds nothing new. FetchRevisions stores nothing and
    leaves the watermark where it is, and it still runs the activation of
    the project on that store; the result of the run is the result of the
    activation, its error logged and returned. *)
Theorem FetchRevisions_nothing_new (env : Env) (repoTracker : RepoTracker)
    (w0 : World) :
  polls env repoTracker [] w0 ->
  FetchRevisions env repoTracker w0
  = match model_DoProjectActivation env (projectIdentifier repoTracker)
            (add_log (poll_log (last_revision w0 (projectIdentifier repoTracker)))
                     w0) with
    | (w2, None) => Ret None w2
    | (w2, Some e) =>
        Ret (Some (withStack e))
            (add_log (mkLog Error
                        "problem activating recent commit for project" "") w2)
    end.
Proof.
  intros Hpolls.
  destruct (FetchRevisions_polls env repoTracker [] w0 (fun _ => ret None)
              Hpolls) as (polled & Hp & HF).
  rewrite HF. rewrite (bind_Ret _ _ _ _ _ Hp).
  unfold projectIdentifier. cbn [List.length Nat.ltb Nat.leb].
  unfold bind, ret.
  destruct (model_DoProjectActivation env _ _) as [w2 [e |]]; reflexivity.
Qed.

(** ** The order check of a new version *)

(** X4: what sanityCheckOrderNum accepts. When the lookup of the latest
    version of the project answers, the check returns without changing the
    store, and it returns nil exactly when the project has no version yet
    (the check is moot) or the latest version, the one with the highest
    order number, is of another revision and has a smaller order number
    than the new one. *)
Theorem sanityCheckOrderNum_accepts_iff (env : Env) (n : Z) (p r : string)
    (w : World) :
  FindOne_fault env (ByMostRecentSystemRequester p) w = None ->
  exists oe w',
    sanityCheckOrderNum env n p r w = Ret oe w' /\ logs_only w w' /\
    (run_query (ByMostRecentSystemRequester p) (versions w) = None <->
     forall u, In u (versions w) -> Version.Identifier u <> p) /\
    (forall latest,
       run_query (ByMostRecentSystemRequester p) (versions w) = Some latest ->
       In latest (versions w) /\ Version.Identifier latest = p /\
       forall u, In u (versions w) -> Version.Identifier u = p ->
                 Version.RevisionOrderNumber u
                 <= Version.RevisionOrderNumber latest) /\
    (oe = None <->
     match run_query (ByMostRecentSystemRequester p) (versions w) with
     | None => True
     | Some latest =>
         Version.Revision latest <> r /\
         Version.RevisionOrderNumber latest < n
     end).
Proof.
  intros Hf.
  assert (Hnone : run_query (ByMostRecentSystemRequester p) (versions w) = None
                  <-> forall u, In u (versions w) -> Version.Identifier u <> p).
  { cbn [run_query]. rewrite highest_order_none. split.
    - intros Hnil u Hin Hp.
      assert (Hu : In u (filter (fun v => String.eqb (Version.Identifier v) p)
                                (versions w))).
      { apply filter_In. split; [exact Hin | apply String.eqb_eq; exact Hp]. }
      rewrite Hnil in Hu. exact Hu.
    - intros Hall.
      destruct (filter (fun v => String.eqb (Version.Identifier v) p)
                       (versions w)) as [| u l] eqn:E; [reflexivity |].
      assert (Hu : In u (u :: l)) by (left; reflexivity).
      rewrite <- E in Hu. apply filter_In in Hu. destruct Hu as [Hin Hp].
      apply String.eqb_eq in Hp. exfalso. exact (Hall u Hin Hp). }
  assert (Hsome : forall latest,
             run_query (ByMostRecentSystemRequester p) (versions w)
               = Some latest ->
             In latest (versions w) /\ Version.Identifier latest = p /\
             forall u, In u (versions w) -> Version.Identifier u = p ->
                       Version.RevisionOrderNumber u
                       <= Version.RevisionOrderNumber latest).
  { intros latest Hq. cbn [run_query] in Hq.
    destruct (highest_order_spec _ _ _ Hq) as [Hin Hmax].
    destruct Hin as [Hin | Hin]; [discriminate Hin |].
    apply filter_In in Hin. destruct Hin as [Hin Hp].
    apply String.eqb_eq in Hp.
    split; [exact Hin |]. split; [exact Hp |].
    intros u Hu Hpu. apply Hmax. right. apply filter_In.
    split; [exact Hu | apply String.eqb_eq; exact Hpu]. }
  unfold sanityCheckOrderNum.
  rewrite (bind_Ret (version_FindOne env _) _ w w
             (run_query (ByMostRecentSystemRequester p) (versions w), None));
    [| unfold version_FindOne; rewrite Hf; reflexivity].
  destruct (run_query (ByMostRecentSystemRequester p) (versions w))
    as [latest |] eqn:Hq.
  - destruct (String.eqb (Version.Revision latest) r) eqn:Hr.
    + eexists. eexists. split; [reflexivity |].
      split; [repeat split |]. split; [exact Hnone |].
      split; [exact Hsome |].
      apply String.eqb_eq in Hr. split; [discriminate |].
      intros [Hne _]. contradiction.
    + destruct (n <=? Version.RevisionOrderNumber latest) eqn:Hn.
      * eexists. eexists. split; [reflexivity |].
        split; [repeat split |]. split; [exact Hnone |].
        split; [exact Hsome |].
        apply Z.leb_le in Hn. split; [discriminate |]. intros [_ Hlt]. lia.
      * eexists. eexists. split; [reflexivity |].
        split; [repeat split |]. split; [exact Hnone |].
        split; [exact Hsome |].
        apply Z.leb_gt in Hn. apply String.eqb_neq in Hr.
        split; [intros _; split; assumption | reflexivity].
  - eexists. eexists. split; [reflexivity |].
    split; [repeat split |]. split; [exact Hnone |].
    split; [exact Hsome |]. split; [intros _; exact I | reflexivity].
Qed.

(** ** A project with a local configuration *)

(** X5: a project with a local config. GetProjectConfig answers what
    model.FindProject answers and never asks the poller for the remote
    file. An error of the local config that is not a project-config error
    ends the batch, also one that would give a stub version had it come
    from the remote file (file not found, malformed YAML, request
    rejected): the round logs it and StoreRevisions returns it, with
    nothing stored. *)
Theorem local_config_errors_abort (env : Env) (repoTracker : RepoTracker)
    (rev : Revision.t) (nv : option Version.t) (w : World)
    (x : option Project.t) (e : error) :
  ProjectRef.LocalConfig (RepoTracker_ProjectRef repoTracker) <> "" ->
  (forall w0, FindOne_fault env
                (ByProjectIdAndRevision (projectIdentifier repoTracker)
                   (Revision.Revision rev)) w0 = None) ->
  run_query (ByProjectIdAndRevision (projectIdentifier repoTracker)
               (Revision.Revision rev)) (versions w) = None ->
  (forall w0, model_FindProject env (RepoTracker_ProjectRef repoTracker) w0
              = (x, Some e)) ->
  is_projectConfigError e = false ->
  (forall poller' revision w0,
     GetProjectConfig env
       (mkRepoTracker (RepoTracker_Settings repoTracker)
          (RepoTracker_ProjectRef repoTracker) poller') revision w0
     = Ret (x, Some e) w0) /\
  exists w',
    StoreRevisions_revision env repoTracker rev nv w
      = Ret (Return (None, Some e)) w' /\
    logs_only w w' /\
    log w' = log w ++ [mkLog Info "Processing revision" (Revision.Revision rev);
                       mkLog Error "error getting project config"
                         (Revision.Revision rev)] /\
    forall rest,
      StoreRevisions_loop env repoTracker (rev :: rest) nv w
      = Ret (None, Some e) w'.
Proof.
  intros Hlocal Hf Hq Hfind Hpce.
  apply String.eqb_neq in Hlocal.
  assert (Hcfg : forall poller' revision w0,
             GetProjectConfig env
               (mkRepoTracker (RepoTracker_Settings repoTracker)
                  (RepoTracker_ProjectRef repoTracker) poller') revision w0
             = Ret (x, Some e) w0).
  { intros poller' revision w0. unfold GetProjectConfig.
    cbn [RepoTracker_ProjectRef]. rewrite Hlocal. cbn [negb].
    unfold ask. rewrite Hfind. reflexivity. }
  split; [exact Hcfg |].
  assert (Hround :
            StoreRevisions_revision env repoTracker rev nv w
            = Ret (Return (None, Some e))
                (add_log (mkLog Error "error getting project config"
                            (Revision.Revision rev))
                   (add_log (mkLog Info "Processing revision"
                               (Revision.Revision rev)) w))).
  { unfold StoreRevisions_revision.
    erewrite (bind_Ret (grip_log _ _ _)) by reflexivity.
    erewrite (bind_Ret (version_FindOne _ _));
      [| unfold version_FindOne; unfold projectIdentifier in Hf; rewrite Hf;
         reflexivity].
    cbn iota beta.
    erewrite (bind_Ret (grip_WrapError _ _ _ _)) by reflexivity.
    cbn [versions add_log]. unfold projectIdentifier in Hq. rewrite Hq.
    erewrite (bind_Ret (GetProjectConfig _ _ _));
      [| destruct repoTracker as [s ref poller]; apply Hcfg].
    destruct e; try discriminate Hpce; reflexivity. }
  eexists. split; [exact Hround |].
  split; [repeat split |]. split.
  - cbn [log add_log]. rewrite <- app_assoc. reflexivity.
  - intros rest. cbn [StoreRevisions_loop].
    rewrite (bind_Ret _ _ _ _ _ Hround). reflexivity.
Qed.

(** ** Diagnostics of a config and versions with errors *)

Lemma add_statuses_Config (news : list BuildStatus.t) :
  forall v : Version.t,
    Version.Config (add_statuses news v) = Version.Config v.
Proof.
  unfold add_statuses.
  induction news as [| bs news IH]; intros v; [reflexivity |].
  cbn [fold_left]. rewrite IH. reflexivity.
Qed.

Lemma createVersionItems_version (env : Env) (v v' : Version.t)
    (ref : ProjectRef.t) (project : Project.t) (w w' : World)
    (err : option error) :
  createVersionItems env v ref project w = Ret (v', err) w' ->
  exists news, v' = add_statuses news v.
Proof.
  intros H. unfold createVersionItems in H.
  apply bind_inv in H. destruct H as ([v1 e1] & w1 & Hloop & H).
  pose proof (builds_expands _ _ _ _ _ _ _ _ _ _ Hloop) as E.
  destruct E as (newb & newt & news & _ & _ & Hv & _).
  exists news.
  destruct e1 as [e |]; [inversion H; subst; reflexivity |].
  apply bind_inv in H. destruct H as (oe & w2 & _ & H).
  destruct oe as [e |]; [| inversion H; subst; reflexivity].
  destruct (negb (db_IsDuplicateKey e)); [| inversion H; subst; reflexivity].
  apply bind_inv in H. destruct H as (? & ? & _ & H).
  apply bind_inv in H. destruct H as (? & ? & _ & H).
  inversion H; subst; reflexivity.
Qed.

(** X6: the diagnostics of a config are never lost. Whenever
    CreateVersionFromConfig returns a version, with or without an error,
    the version carries the marshalled config and the ignore flag, its
    errors are the error-level messages of the validator followed by the
    errors of the resolver, and its warnings the warning-level messages
    followed by the warnings of the resolver. A version with an error is
    never expanded: it has no build-variant status, no Build or Task is
    created for it, and it is stored exactly when no error is returned. *)
Theorem CreateVersionFromConfig_keeps_diagnostics (env : Env)
    (ref : ProjectRef.t) (c : Project.t) (rev : Revision.t) (ignore : bool)
    (versionErrs : option VersionErrors) (w w' : World) (v : Version.t)
    (oe : option error) :
  CreateVersionFromConfig env ref (Some c) rev ignore versionErrs w
    = Ret (Some v, oe) w' ->
  exists verrs,
    validator_CheckProjectSyntax env c = (verrs, None) /\
    Version.Config v = fst (yaml_Marshal env c) /\
    Version.Ignored v = ignore /\
    Version.Errors v
      = messages_of ValidationError.Error verrs ++ resolver_errors versionErrs /\
    Version.Warnings v
      = messages_of ValidationError.Warning verrs
        ++ resolver_warnings versionErrs /\
    (Version.Errors v <> [] ->
       Version.BuildVariants v = [] /\
       builds w' = builds w /\ tasks w' = tasks w /\
       (oe = None -> versions w' = versions w ++ [v]) /\
       (oe <> None -> versions w' = versions w)).
Proof.
  intros H. unfold CreateVersionFromConfig in H.
  apply bind_inv in H. destruct H as ([ov se] & w1 & Hs & H).
  destruct (shell_spec env ref rev w)
    as (ov' & oe' & w1' & Hs' & V1 & B1 & T1 & _ & _ & _ & Hov).
  rewrite Hs in Hs'. inversion Hs'; subst ov' oe' w1'. clear Hs'.
  destruct se as [e |]; [inversion H |].
  destruct ov as [v0 |]; [| discriminate H].
  destruct Hov as (_ & _ & _ & _ & _ & He0 & Hw0 & Hbv0 & _).
  apply bind_inv in H. destruct H as (se & w2 & Hsan & H).
  apply sanity_logs_only in Hsan. destruct Hsan as (V2 & B2 & T2 & _).
  destruct se as [e |]; [inversion H |].
  destruct (yaml_Marshal env c) as [configYaml [e |]]; [inversion H |].
  destruct (validator_CheckProjectSyntax env c) as [verrs [e |]];
    [inversion H |].
  cbv zeta in H. exists verrs. split; [reflexivity |]. cbn [fst].
  assert (Hexpand : forall v2,
             Version.Errors v2 = [] ->
             ('(v', err) <- createVersionItems env v2 ref c ;;
              ret (Some v', errors_Wrap err "error creating version items"))
               w2 = Ret (Some v, oe) w' ->
             Version.Config v = Version.Config v2 /\
             Version.Ignored v = Version.Ignored v2 /\
             Version.Errors v = Version.Errors v2 /\
             Version.Warnings v = Version.Warnings v2 /\
             Version.Errors v = []).
  { intros v2 He2 Hrun.
    apply bind_inv in Hrun. destruct Hrun as ([v' err] & w3 & Hcvi & Hrun).
    inversion Hrun; subst v' w3. clear Hrun.
    destruct (createVersionItems_version _ _ _ _ _ _ _ _ Hcvi) as (news & ->).
    pose proof (add_statuses_fields news v2)
      as (_ & _ & _ & _ & F5 & F6 & F7 & _).
    rewrite add_statuses_Config, F5, F6, F7.
    repeat split; try reflexivity. exact He2. }
  assert (Hinsert : forall v2,
             Version.BuildVariants v2 = [] ->
             (err <- Version_Insert env v2 ;;
              ret (Some v2, errors_Wrap err "error inserting version"))
               w2 = Ret (Some v, oe) w' ->
             v = v2 /\
             builds w' = builds w /\ tasks w' = tasks w /\
             (oe = None -> versions w' = versions w ++ [v]) /\
             (oe <> None -> versions w' = versions w)).
  { intros v2 Hb2 Hrun.
    apply bind_inv in Hrun. destruct Hrun as (err & w3 & Hins & Hrun).
    inversion Hrun; subst v2 w3. clear Hrun.
    split; [reflexivity |].
    destruct (insert_spec env v w2) as (oe' & w2' & Hins' & Hcase).
    rewrite Hins in Hins'. inversion Hins'; subst oe' w2'. clear Hins'.
    destruct Hcase as [(-> & -> & _) | (Hne & ->)].
    - cbn. split; [congruence |]. split; [congruence |].
      split; [intros _; congruence | intros Hc; contradiction].
    - split; [congruence |]. split; [congruence |].
      split; [| intros _; congruence].
      destruct err; [discriminate | contradiction]. }
  assert (Hnat : forall l : list string,
             Nat.ltb 0 (List.length l) = false -> l = []).
  { intros [| a l] Hl; [reflexivity | discriminate Hl]. }
  assert (Hverrs : Nat.ltb 0 (List.length verrs) = false -> verrs = []).
  { destruct verrs; [reflexivity | discriminate]. }
  destruct (Nat.ltb 0 (List.length verrs)
            || match versionErrs with Some _ => true | None => false end)
    eqn:Hcond.
  - match type of H with
    | context [Nat.ltb 0 (List.length (Version.Errors ?v2))] =>
        assert (Hfields :
                  Version.Config v2 = configYaml /\
                  Version.Ignored v2 = ignore /\
                  Version.Errors v2
                    = messages_of ValidationError.Error verrs
                      ++ resolver_errors versionErrs /\
                  Version.Warnings v2
                    = messages_of ValidationError.Warning verrs
                      ++ resolver_warnings versionErrs /\
                  Version.BuildVariants v2 = []);
          [destruct versionErrs; cbn; rewrite ?app_nil_r; repeat split;
           exact Hbv0 |];
          destruct Hfields as (F1 & F2 & F3 & F4 & F5);
          destruct (Nat.ltb 0 (List.length (Version.Errors v2))) eqn:Hlen;
          [destruct (Hinsert v2 F5 H) as (-> & R) |
           destruct (Hexpand v2 (Hnat _ Hlen) H) as (E1 & E2 & E3 & E4 & E5)]
    end.
    + split; [exact F1 |]. split; [exact F2 |]. split; [exact F3 |].
      split; [exact F4 |]. intros _. split; [exact F5 | exact R].
    + split; [congruence |]. split; [congruence |]. split; [congruence |].
      split; [congruence |]. intros Hne. contradiction.
  - apply orb_false_iff in Hcond. destruct Hcond as [Hl Hve].
    rewrite (Hverrs Hl). destruct versionErrs; [discriminate Hve |].
    destruct (Hexpand (Version.set_Ignored ignore
                         (Version.set_Config configYaml v0)) He0 H)
      as (E1 & E2 & E3 & E4 & E5).
    cbn in E1, E2, E3, E4. cbn.
    split; [exact E1 |]. split; [exact E2 |].
    split; [rewrite E3; exact He0 |]. split; [rewrite E4; exact Hw0 |].
    intros Hne. contradiction.
Qed.

(** ** Failures in the middle of an expansion *)

Lemma createVersionItems_builds_app (env : Env) (ref : ProjectRef.t)
    (project : Project.t) (taskIds : TaskIdTable)
    (a b : list BuildVariant.t) :
  forall (v : Version.t) (w : World),
    createVersionItems_builds env ref project taskIds v (a ++ b) w
    = match createVersionItems_builds env ref project taskIds v a w with
      | Ret (v1, None) w1 =>
          createVersionItems_builds env ref project taskIds v1 b w1
      | o => o
      end.
Proof.
  induction a as [| bv a IH]; intros v w; [reflexivity |].
  cbn [app createVersionItems_builds]. unfold bind.
  destruct (createVersionItems_variant env ref project taskIds v bv w)
    as [[v1 [e |]] w1 | r w1]; [reflexivity | apply IH | reflexivity].
Qed.

(** X7: a failure in the middle of the expansion. When the builds of the
    first variants of the config were created and the creation of the build
    of the next enabled variant fails, createVersionItems returns that
    error and leaves the store as it was at the failure: the version is not
    stored, and the builds already created, one per enabled variant before
    the failing one, stay in the store; nothing is deleted. When instead the
    lookup of the last activation of that variant fails, its own build,
    created just before, stays as well. The compensating deletes only
    follow a failed insert of the version. *)
Theorem createVersionItems_failed_build_keeps_builds (env : Env)
    (v v1 : Version.t) (ref : ProjectRef.t) (project : Project.t)
    (pre post : list BuildVariant.t) (bv : BuildVariant.t) (w w1 : World) :
  Project.BuildVariants project = pre ++ bv :: post ->
  BuildVariant.Disabled bv = false ->
  createVersionItems_builds env ref project (model_NewTaskIdTable env project v)
    v pre w = Ret (v1, None) w1 ->
  (exists newb,
     builds w1 = builds w ++ newb /\
     map Build.BuildVariant newb
       = map BuildVariant.Name (filter enabled pre) /\
     versions w1 = versions w) /\
  (forall e,
     CreateBuild_fault env v1 (BuildVariant.Name bv) w1 = Some e ->
     createVersionItems env v ref project w = Ret (v1, Some (withStack e)) w1) /\
  (forall r e,
     CreateBuild_fault env v1 (BuildVariant.Name bv) w1 = None ->
     (forall w0, FindOne_fault env
                   (ByLastVariantActivation (ProjectRef.Identifier ref)
                      (BuildVariant.Name bv)) w0 = Some (r, e)) ->
     exists b w2,
       createVersionItems env v ref project w
         = Ret (v1, Some (withMessage e
                            "problem getting activatation time for variant"))
               w2 /\
       builds w2 = builds w1 ++ [b] /\
       Build.BuildVariant b = BuildVariant.Name bv /\
       Build.Id b = BuildId_of env v1 (BuildVariant.Name bv) /\
       versions w2 = versions w).
Proof.
  intros Hbvs Hen Hpre.
  pose proof (builds_expands _ _ _ _ _ _ _ _ _ _ Hpre) as E.
  destruct E as (newb & newt & news & Hb & _ & _ & _ & _ & _ & C & Hv & _).
  destruct (C eq_refl) as (C1 & _).
  split; [exists newb; repeat split; assumption |].
  split.
  - intros e Hfault. unfold createVersionItems. rewrite Hbvs.
    unfold bind at 1. rewrite createVersionItems_builds_app, Hpre.
    cbn [createVersionItems_builds]. unfold bind at 1.
    unfold createVersionItems_variant. rewrite Hen.
    unfold bind at 1. unfold model_CreateBuildFromVersion.
    rewrite Hfault. reflexivity.
  - intros r e Hok Hfind. unfold createVersionItems. rewrite Hbvs.
    unfold bind at 1. rewrite createVersionItems_builds_app, Hpre.
    cbn [createVersionItems_builds]. unfold bind at 1.
    unfold createVersionItems_variant. rewrite Hen.
    unfold bind at 1. unfold model_CreateBuildFromVersion.
    rewrite Hok. cbv zeta. unfold bind at 1. unfold version_FindOne.
    rewrite Hfind. cbn [ret].
    eexists. eexists. split; [reflexivity |].
    cbn [builds versions set_builds Build.BuildVariant Build.Id].
    repeat split. exact Hv.
Qed.

(** ** Nil pointers the pipeline dereferences *)

(** X8: a stub version without an order number. When the remote config of
    a revision cannot be found or parsed and the order-number counter fails,
    shellVersionFromRevision returns a nil version with the error; the
    round logs the error and then assigns the errors to the nil stub: the
    round panics, and so does StoreRevisions on every batch whose oldest
    revision this is. Nothing is stored. *)
Theorem stub_without_order_number_panics (env : Env)
    (repoTracker : RepoTracker) (rev : Revision.t) (w : World)
    (e ce : error) :
  (forall w0, FindOne_fault env
                (ByProjectIdAndRevision (projectIdentifier repoTracker)
                   (Revision.Revision rev)) w0 = None) ->
  run_query (ByProjectIdAndRevision (projectIdentifier repoTracker)
               (Revision.Revision rev)) (versions w) = None ->
  ProjectRef.LocalConfig (RepoTracker_ProjectRef repoTracker) = "" ->
  (forall w0, exists x,
      GetRemoteConfig (RepoTracker_RepoPoller repoTracker)
        (Revision.Revision rev) w0 = (x, Some e)) ->
  fetch_error e = true ->
  (forall w0, NewOrderNumber_result env (projectIdentifier repoTracker) w0
              = inl ce) ->
  exists w',
    logs_only w w' /\
    In (mkLog Error "error creating shell version" (Revision.Revision rev))
       (log w') /\
    (forall nv,
       StoreRevisions_revision env repoTracker rev nv w
       = Panic "nil pointer dereference: stubVersion.Errors" w') /\
    (forall newer,
       StoreRevisions env repoTracker (newer ++ [rev]) w
       = Panic "nil pointer dereference: stubVersion.Errors" w').
Proof.
  intros Hf Hq Hlocal Hremote Hfetch Hcounter.
  pose proof (fun nv => revision_recoverable env repoTracker rev nv w e Hf Hq
                          Hlocal Hremote Hfetch) as Hrr.
  match type of Hrr with
  | forall nv, _ = StoreRevisions_stub env repoTracker rev ?ve ?w0 =>
      assert (Hstub : exists w',
                 StoreRevisions_stub env repoTracker rev ve w0
                 = Panic "nil pointer dereference: stubVersion.Errors" w' /\
                 logs_only w w' /\
                 In (mkLog Error "error creating shell version"
                       (Revision.Revision rev)) (log w'))
  end.
  { unfold StoreRevisions_stub, shellVersionFromRevision, bind, ask,
      model_GetNewRevisionOrderNumber.
    unfold projectIdentifier in Hcounter.
    destruct (user_FindByGithubUID env _ _) as [u [ue |]];
      cbn [grip_WrapError grip_log ret]; rewrite Hcounter;
      cbn [grip_WrapError grip_log ret];
      (eexists; split; [reflexivity |]; split; [repeat split |];
       cbn [log add_log]; apply in_or_app; right; left; reflexivity). }
  destruct Hstub as (w' & Hstub & Hlogs & Hin).
  exists w'. split; [exact Hlogs |]. split; [exact Hin |]. split.
  - intros nv. rewrite Hrr. exact Hstub.
  - intros newer. unfold StoreRevisions. rewrite rev_app_distr.
    cbn [List.rev app StoreRevisions_loop].
    unfold bind at 1. unfold bind at 1. rewrite Hrr, Hstub. reflexivity.
Qed.

Lemma stub_without_order_number_panics_witness :
  StoreRevisions Demo.env_counter_fails Sample.tracker_r2_missing
    [Sample.r3; Sample.r2] Sample.empty_world
  = Panic "nil pointer dereference: stubVersion.Errors"
      (mkWorld [] [] [] (fun _ => None) []
         [mkLog Info "Processing revision" "r2";
          mkLog Error "problem finding project configuration" "r2";
          mkLog Error "error creating shell version" "r2"]).
Proof.
  destruct (stub_without_order_number_panics Demo.env_counter_fails
              Sample.tracker_r2_missing Sample.r2 Sample.empty_world
              (FileNotFoundError "evergreen.yml not found")
              (errorString "no reachable servers")) as (w' & _ & _ & Hr & Hs).
  - intros w0. reflexivity.
  - reflexivity.
  - reflexivity.
  - intros w0. eexists. reflexivity.
  - reflexivity.
  - intros w0. reflexivity.
  - specialize (Hr None). specialize (Hs [Sample.r3]).
    vm_compute in Hr. injection Hr as <-. exact Hs.
Defined.

(** X9: a batch that yields no version. When the poll returns revisions
    and StoreRevisions returns neither a version nor an error (every
    revision was skipped with a logged error), FetchRevisions reads the
    project of the nil version to advance the watermark: the run panics,
    after the rounds of StoreRevisions, and the watermark is not moved. *)
Theorem FetchRevisions_panics_without_version (env : Env)
    (repoTracker : RepoTracker) (revisions : list Revision.t)
    (w0 w1 : World) :
  polls env repoTracker revisions w0 ->
  revisions <> [] ->
  StoreRevisions env repoTracker revisions
    (add_log (poll_log (last_revision w0 (projectIdentifier repoTracker))) w0)
    = Ret (None, None) w1 ->
  FetchRevisions env repoTracker w0
    = Panic "nil pointer dereference: lastVersion.Identifier" w1 /\
  forall q, last_revision w1 q = last_revision w0 q.
Proof.
  intros Hpolls Hne Hstore.
  destruct (FetchRevisions_polls env repoTracker revisions w0
              (fun _ => ret None) Hpolls) as (polled & Hp & HF).
  split.
  - rewrite HF. rewrite (bind_Ret _ _ _ _ _ Hp).
    destruct revisions as [| r rs]; [contradiction |].
    cbn [List.length Nat.ltb Nat.leb].
    unfold bind at 1. unfold bind at 1.
    unfold projectIdentifier in Hstore. rewrite Hstore. reflexivity.
  - intros q.
    pose proof (StoreRevisions_evolves env repoTracker revisions
                  (add_log (poll_log
                              (last_revision w0 (projectIdentifier repoTracker)))
                           w0)) as E.
    rewrite Hstore in E. destruct E as (L & _). exact (L q).
Qed.

Lemma FetchRevisions_panics_without_version_witness :
  FetchRevisions Sample.env Demo.tracker_changes_fail Sample.empty_world
  = Panic "nil pointer dereference: lastVersion.Identifier"
      (mkWorld [] [] [] (fun _ => None) []
         [mkLog Debug "no last recorded revision, using most recent revisions" "";
          mkLog Info "Processing revision" "r1";
          mkLog Error "error checking GitHub for ignored files" "r1";
          mkLog Info "Processing revision" "r2";
          mkLog Error "error checking GitHub for ignored files" "r2"]).
Proof.
  apply (FetchRevisions_panics_without_version Sample.env
           Demo.tracker_changes_fail [Sample.r2; Sample.r1] Sample.empty_world).
  - repeat split.
  - discriminate.
  - vm_compute. reflexivity.
Defined.

(** ** Build-break subscriptions *)

(** X10: when addBuildBreakSubscriptions subscribes nobody. If the author
    of the version has a build-break subscription of their own, or the
    project does not notify on build failures, it returns nil and writes
    nothing, whoever the admins are; in the second case also when the lookup
    of the author failed, whose error is dropped. If the version names an
    author and the lookup finds no such user, without an error, the
    settings of the nil user are read and the call panics. *)
Theorem addBuildBreakSubscriptions_opt_outs (env : Env) (v : Version.t)
    (projectRef : ProjectRef.t) (w : World) :
  (forall a,
     Version.AuthorID v <> "" ->
     user_FindOne env (Version.AuthorID v) w = (Some a, None) ->
     DBUser.BuildBreakID a <> "" ->
     addBuildBreakSubscriptions env v projectRef w = Ret None w) /\
  (ProjectRef.NotifyOnBuildFailure projectRef = false ->
   Version.AuthorID v = ""
   \/ user_FindOne env (Version.AuthorID v) w <> (None, None) ->
   addBuildBreakSubscriptions env v projectRef w = Ret None w) /\
  (Version.AuthorID v <> "" ->
   user_FindOne env (Version.AuthorID v) w = (None, None) ->
   addBuildBreakSubscriptions env v projectRef w
   = Panic "nil pointer dereference: author.Settings" w).
Proof.
  unfold addBuildBreakSubscriptions. split; [| split].
  - intros a Hid Hfind Hown.
    apply String.eqb_neq in Hid. apply String.eqb_neq in Hown.
    rewrite Hid. cbn [negb]. unfold bind, ask. rewrite Hfind, Hown.
    reflexivity.
  - intros Hnotify Hauthor. rewrite Hnotify. cbn [negb].
    destruct (String.eqb (Version.AuthorID v) "") eqn:Hid.
    + reflexivity.
    + destruct Hauthor as [Hempty | Hfound].
      * apply String.eqb_neq in Hid. contradiction.
      * cbn [negb]. unfold bind, ask.
        destruct (user_FindOne env (Version.AuthorID v) w) as [[a |] [e |]];
          try reflexivity.
        -- destruct (String.eqb (DBUser.BuildBreakID a) ""); reflexivity.
        -- exfalso. apply Hfound. reflexivity.
  - intros Hid Hfind. apply String.eqb_neq in Hid. rewrite Hid. cbn [negb].
    unfold bind, ask. rewrite Hfind. reflexivity.
Qed.

Lemma admin_subscribers_spec (env : Env) (w : World) (admins : list string) :
  forall (subscribers : list Subscriber.t) (catcher : list error),
  exists errs,
    admin_subscribers env admins subscribers catcher w
    = Ret (subscribers ++ flat_map (admin_subscriber env w) admins,
           catcher ++ errs) w /\
    (errs = [] <-> forallb (admin_in_order env w) admins = true).
Proof.
  induction admins as [| admin rest IH]; intros subscribers catcher.
  - exists []. cbn. rewrite !app_nil_r. split; [reflexivity |].
    split; reflexivity.
  - cbn [admin_subscribers flat_map forallb].
    unfold bind at 1. unfold makeBuildBreakSubscriber at 1.
    unfold bind at 1. unfold ask at 1.
    unfold admin_subscriber at 1. unfold admin_in_order at 1.
    destruct (user_FindOne env admin w) as [[u |] [e |]].
    + destruct (IH subscribers (catcher ++ [withMessage e "unable to find user"]))
        as (errs & Hrun & _).
      eexists. cbn [ret]. rewrite Hrun, <- app_assoc. cbn [app andb].
      split; [reflexivity |]. split; discriminate.
    + unfold subscriber_of.
      destruct (String.eqb (DBUser.BuildBreak u) "") eqn:E0.
      * apply String.eqb_eq in E0. rewrite E0. cbn.
        destruct (IH subscribers catcher) as (errs & Hrun & Hiff).
        exists errs. rewrite Hrun. split; [reflexivity | exact Hiff].
      * cbn [negb orb].
        destruct (String.eqb (DBUser.BuildBreak u) PreferenceEmail) eqn:E1.
        -- apply String.eqb_eq in E1. cbn [ret app orb andb].
           destruct (IH (subscribers
                         ++ [Subscriber.mk (DBUser.BuildBreak u)
                               (DBUser.EmailAddress u)]) catcher)
             as (errs & Hrun & Hiff).
           exists errs. rewrite Hrun, <- app_assoc, E1.
           split; [reflexivity | exact Hiff].
        -- destruct (String.eqb (DBUser.BuildBreak u) PreferenceSlack) eqn:E2.
           ++ apply String.eqb_eq in E2. cbn [ret app orb andb].
              destruct (IH (subscribers
                            ++ [Subscriber.mk (DBUser.BuildBreak u)
                                  (DBUser.SlackUsername u)]) catcher)
                as (errs & Hrun & Hiff).
              exists errs. rewrite Hrun, <- app_assoc, E2.
              split; [reflexivity | exact Hiff].
           ++ cbn [ret app orb andb].
              destruct (IH subscribers
                          (catcher
                           ++ [errorString
                                 ("invalid subscription preference for build break: "
                                  ++ DBUser.BuildBreak u)]))
                as (errs & Hrun & _).
              eexists. rewrite Hrun, <- app_assoc.
              split; [reflexivity |]. split; discriminate.
    + destruct (IH subscribers (catcher ++ [withMessage e "unable to find user"]))
        as (errs & Hrun & _).
      eexists. cbn [ret]. rewrite Hrun, <- app_assoc. cbn [app andb].
      split; [reflexivity |]. split; discriminate.
    + destruct (IH subscribers (catcher
                                     ++ [errorString
                                           ("user " ++ admin
                                            ++ " does not exist")]))
        as (errs & Hrun & _).
      eexists. cbn [ret]. rewrite Hrun, <- app_assoc. cbn [app andb].
      split; [reflexivity |]. split; discriminate.
Qed.

Lemma upsert_all_spec (env : Env) (base : Subscriber.t -> Subscription.t)
    (subscribers : list Subscriber.t) :
  (forall s w0, Upsert_fault env s w0 = None) ->
  forall (catcher : list error) (w : World),
  exists w',
    upsert_all env base subscribers catcher w = Ret catcher w' /\
    subscriptions w' = subscriptions w ++ map base subscribers /\
    versions w' = versions w /\ builds w' = builds w /\ tasks w' = tasks w /\
    repositories w' = repositories w /\ log w' = log w.
Proof.
  intros Hup. induction subscribers as [| s rest IH]; intros catcher w.
  - exists w. cbn. rewrite app_nil_r. repeat split.
  - cbn [upsert_all map]. unfold bind at 1. unfold Subscription_Upsert.
    rewrite Hup. cbn [catcher_Add].
    destruct (IH catcher (set_subscriptions (subscriptions w ++ [base s]) w))
      as (w' & Hrun & S & V & B & T & R & L).
    exists w'. split; [exact Hrun |].
    cbn in S, V, B, T, R, L. rewrite <- app_assoc in S.
    repeat split; assumption.
Qed.

(** X11: whom addBuildBreakSubscriptions subscribes. When the project
    notifies on build failures, the author of the version has no
    build-break subscription of their own and the upserts succeed, the call
    adds one build-break subscription of the project per admin that has a
    preference of email or slack, in the order of the admins, addressed to
    the e-mail address or the Slack user name, and changes nothing else. An
    admin that cannot be looked up, does not exist or has another
    preference is left out without stopping the others, and the call
    returns an error exactly when there is such an admin. *)
Theorem addBuildBreakSubscriptions_subscribes_admins (env : Env)
    (v : Version.t) (projectRef : ProjectRef.t) (w : World) :
  ProjectRef.NotifyOnBuildFailure projectRef = true ->
  Version.AuthorID v = ""
  \/ (exists a, user_FindOne env (Version.AuthorID v) w = (Some a, None)
                /\ DBUser.BuildBreakID a = "") ->
  (forall s w0, Upsert_fault env s w0 = None) ->
  exists oe w',
    addBuildBreakSubscriptions env v projectRef w = Ret oe w' /\
    subscriptions w'
      = subscriptions w
        ++ map (build_break_subscription projectRef)
             (flat_map (admin_subscriber env w) (ProjectRef.Admins projectRef)) /\
    versions w' = versions w /\ builds w' = builds w /\ tasks w' = tasks w /\
    repositories w' = repositories w /\ log w' = log w /\
    (oe = None
     <-> forallb (admin_in_order env w) (ProjectRef.Admins projectRef) = true).
Proof.
  intros Hnotify Hauthor Hup.
  destruct (admin_subscribers_spec env w (ProjectRef.Admins projectRef) [] [])
    as (errs & Hadmins & Hiff).
  cbn [app] in Hadmins.
  destruct (upsert_all_spec env (build_break_subscription projectRef)
              (flat_map (admin_subscriber env w)
                 (ProjectRef.Admins projectRef)) Hup errs w)
    as (w' & Hupsert & S & V & B & T & R & L).
  exists (catcher_Resolve errs), w'.
  split.
  - unfold addBuildBreakSubscriptions.
    rewrite (bind_Ret _ _ w w (Some [])).
    + rewrite Hnotify. cbn [negb].
      rewrite (bind_Ret _ _ _ _ _ Hadmins).
      fold (build_break_subscription projectRef).
      change (fun subscriber : Subscriber.t =>
                build_break_subscription projectRef subscriber)
        with (build_break_subscription projectRef).
      rewrite (bind_Ret _ _ _ _ _ Hupsert). reflexivity.
    + destruct Hauthor as [Hempty | (a & Hfind & Hown)].
      * rewrite Hempty. reflexivity.
      * destruct (String.eqb (Version.AuthorID v) ""); [reflexivity |].
        cbn [negb]. unfold bind, ask. rewrite Hfind, Hown. reflexivity.
  - split; [exact S |]. repeat (split; [assumption |]).
    rewrite <- Hiff. destruct errs; cbn; split; congruence.
Qed.

(** ** A batch of new revisions *)

Lemma last_revision_set_repository (p q revision : string) (n : Z)
    (w : World) :
  last_revision (set_repository p (Repository.mk p revision n) w) q
  = if String.eqb q p then revision else last_revision w q.
Proof.
  unfold last_revision, set_repository. cbn [repositories].
  destruct (String.eqb q p); reflexivity.
Qed.

Lemma sanity_accepts (env : Env) (n : Z) (p r : string) (w : World) :
  FindOne_fault env (ByMostRecentSystemRequester p) w = None ->
  (forall u, In u (versions w) -> Version.Identifier u = p ->
             Version.Revision u <> r /\ Version.RevisionOrderNumber u < n) ->
  sanityCheckOrderNum env n p r w = Ret None w.
Proof.
  intros Hf Hall. unfold sanityCheckOrderNum.
  rewrite (bind_Ret (version_FindOne env _) _ w w
             (run_query (ByMostRecentSystemRequester p) (versions w), None));
    [| unfold version_FindOne; rewrite Hf; reflexivity].
  destruct (run_query (ByMostRecentSystemRequester p) (versions w))
    as [latest |] eqn:Hq; [| reflexivity].
  cbn [run_query] in Hq.
  destruct (highest_order_spec _ _ _ Hq) as [[Hin | Hin] _];
    [discriminate Hin |].
  apply filter_In in Hin. destruct Hin as [Hin Hp].
  apply String.eqb_eq in Hp. destruct (Hall latest Hin Hp) as [Hr Hn].
  apply String.eqb_neq in Hr. rewrite Hr.
  apply Z.leb_gt in Hn. rewrite Hn. reflexivity.
Qed.

Lemma builds_succeed (env : Env) (ref : ProjectRef.t) (project : Project.t)
    (taskIds : TaskIdTable) (bvs : list BuildVariant.t) :
  lookups_answer env ->
  (forall v name w, CreateBuild_fault env v name w = None) ->
  forall (v : Version.t) (w : World),
  exists v' w',
    createVersionItems_builds env ref project taskIds v bvs w
    = Ret (v', None) w'.
Proof.
  intros Hlook Hbuild.
  induction bvs as [| bv rest IH]; intros v w.
  - exists v, w. reflexivity.
  - cbn [createVersionItems_builds]. unfold bind at 1.
    unfold createVersionItems_variant.
    destruct (BuildVariant.Disabled bv).
    + cbn [ret]. apply IH.
    + unfold bind at 1. unfold model_CreateBuildFromVersion.
      rewrite Hbuild. cbv zeta. unfold bind at 1.
      unfold version_FindOne. rewrite Hlook.
      unfold bind at 1.
      destruct (lastActivationOf _ _); cbn [ask ret]; unfold bind at 1;
        cbn [grip_log ret]; apply IH.
Qed.

Lemma add_statuses_AuthorID (news : list BuildStatus.t) :
  forall v : Version.t,
    Version.AuthorID (add_statuses news v) = Version.AuthorID v.
Proof.
  unfold add_statuses.
  induction news as [| bs news IH]; intros v; [reflexivity |].
  cbn [fold_left]. rewrite IH. reflexivity.
Qed.

Lemma createVersionItems_succeeds (env : Env) (v : Version.t)
    (ref : ProjectRef.t) (project : Project.t) (w : World) :
  lookups_answer env ->
  (forall v name w, CreateBuild_fault env v name w = None) ->
  (forall v w, Insert_fault env v w = None) ->
  (forall u, In u (versions w) -> Version.Id u <> Version.Id v) ->
  (forall u, In u (versions w) ->
     Version.Identifier u = Version.Identifier v ->
     Version.Revision u <> Version.Revision v
     /\ Version.RevisionOrderNumber u < Version.RevisionOrderNumber v) ->
  exists news w',
    createVersionItems env v ref project w
      = Ret (add_statuses news v, None) w' /\
    versions w' = versions w ++ [add_statuses news v].
Proof.
  intros Hlook Hbuild Hinsert Hid Hkey.
  destruct (builds_succeed env ref project (model_NewTaskIdTable env project v)
              (Project.BuildVariants project) Hlook Hbuild v w)
    as (v1 & w1 & Hloop).
  pose proof (builds_expands _ _ _ _ _ _ _ _ _ _ Hloop) as E.
  destruct E as (newb & newt & news & _ & _ & -> & _ & _ & _ & _ & Hv & _).
  pose proof (add_statuses_fields news v) as (F1 & F2 & F3 & F4 & _).
  assert (Hnc : existsb (conflicts (add_statuses news v)) (versions w1) = false).
  { apply no_conflict; rewrite Hv.
    - intros u Hu. rewrite F1. apply Hid. exact Hu.
    - intros u Hu Hp. rewrite F2 in Hp. rewrite F3, F4. apply Hkey; assumption. }
  exists news. eexists. split.
  - unfold createVersionItems. rewrite (bind_Ret _ _ _ _ _ Hloop).
    cbn iota beta. unfold bind at 1. unfold Version_Insert.
    rewrite Hinsert, Hnc. reflexivity.
  - cbn [versions set_versions]. rewrite Hv. reflexivity.
Qed.

Lemma shell_author (env : Env) (ref : ProjectRef.t) (rev : Revision.t)
    (w w1 : World) (v : Version.t) (oe : option error) :
  shellVersionFromRevision env ref rev w = Ret (Some v, oe) w1 ->
  fst (user_FindByGithubUID env (Revision.AuthorGithubUID rev) w) = None ->
  Version.AuthorID v = ""%string.
Proof.
  unfold shellVersionFromRevision, bind, ask.
  destruct (user_FindByGithubUID env (Revision.AuthorGithubUID rev) w)
    as [u ue].
  intros H Hu. cbn [fst] in Hu. subst u.
  destruct ue; cbn [grip_WrapError grip_log ret] in H;
    unfold model_GetNewRevisionOrderNumber in H;
    destruct (NewOrderNumber_result env _ _); inversion H; reflexivity.
Qed.

Lemma subscriptions_quiet (env : Env) (v : Version.t) (ref : ProjectRef.t)
    (w : World) :
  Version.AuthorID v = ""%string ->
  ProjectRef.NotifyOnBuildFailure ref = false ->
  addBuildBreakSubscriptions env v ref w = Ret None w.
Proof.
  intros Ha Hn. unfold addBuildBreakSubscriptions. rewrite Ha, Hn.
  reflexivity.
Qed.


(** ** Versions that are stored *)

Lemma createVersionItems_expands (env : Env) (v : Version.t)
    (ref : ProjectRef.t) (project : Project.t) (w : World) :
  lookups_answer env ->
  (forall v name w, CreateBuild_fault env v name w = None) ->
  (forall v w, Insert_fault env v w = None) ->
  (forall u, In u (versions w) -> Version.Id u <> Version.Id v) ->
  (forall u, In u (versions w) ->
     Version.Identifier u = Version.Identifier v ->
     Version.Revision u <> Version.Revision v
     /\ Version.RevisionOrderNumber u < Version.RevisionOrderNumber v) ->
  exists news w' w1,
    createVersionItems env v ref project w
      = Ret (add_statuses news v, None) w' /\
    versions w' = versions w ++ [add_statuses news v] /\
    expands (map BuildVariant.Name
               (filter enabled (Project.BuildVariants project)))
            true v w (add_statuses news v) w1 /\
    builds w' = builds w1 /\ tasks w' = tasks w1.
Proof.
  intros Hlook Hbuild Hinsert Hid Hkey.
  destruct (createVersionItems_succeeds env v ref project w Hlook Hbuild
              Hinsert Hid Hkey) as (news & w' & Hrun & Hvs).
  destruct (createVersionItems_success _ _ _ _ _ _ _ Hrun)
    as (w1 & E & B & T & _).
  exists news, w', w1. repeat split; assumption.
Qed.

Lemma shell_author_known (env : Env) (ref : ProjectRef.t) (rev : Revision.t)
    (w w1 : World) (v : Version.t) (oe : option error) :
  authors_known env ->
  shellVersionFromRevision env ref rev w = Ret (Some v, oe) w1 ->
  Version.AuthorID v = ""
  \/ forall w', user_FindOne env (Version.AuthorID v) w' <> (None, None).
Proof.
  intros Hknown. unfold shellVersionFromRevision, bind, ask.
  pose proof (Hknown (Revision.AuthorGithubUID rev) w) as Hu.
  destruct (user_FindByGithubUID env (Revision.AuthorGithubUID rev) w)
    as [u ue].
  cbn [fst] in Hu. intros H.
  destruct ue; cbn [grip_WrapError grip_log ret] in H;
    unfold model_GetNewRevisionOrderNumber in H;
    destruct (NewOrderNumber_result env _ _); inversion H;
    (destruct u as [u' |]; [| left; reflexivity]);
    cbn [Version.AuthorID Version.set_AuthorID];
    (destruct (String.eqb_spec (DBUser.Id u') "") as [E | E];
     [left; exact E | right; exact (Hu u' eq_refl E)]).
Qed.

(** CreateVersionFromConfig for a revision that is new to a store
    consistent with the counter, with a config the validator accepts and no
    errors from the resolver: the version is expanded and stored. *)
Lemma CreateVersionFromConfig_stores (env : Env) (ref : ProjectRef.t)
    (c : Project.t) (rev : Revision.t) (ignore : bool)
    (versionErrs : option VersionErrors) (w : World) :
  store_answers env (ProjectRef.Identifier ref) ->
  accepted env c ->
  resolver_errors versionErrs = [] ->
  order_invariant (ProjectRef.Identifier ref) w ->
  run_query (ByProjectIdAndRevision (ProjectRef.Identifier ref)
               (Revision.Revision rev)) (versions w) = None ->
  (forall u, In u (versions w) ->
     Version.Id u <> version_id env (ProjectRef.Identifier ref) rev) ->
  exists v0 w0 v w',
    shellVersionFromRevision env ref rev w = Ret (Some v0, None) w0 /\
    Version.AuthorID v = Version.AuthorID v0 /\
    CreateVersionFromConfig env ref (Some c) rev ignore versionErrs w
      = Ret (Some v, None) w' /\
    stored_expanded c (version_id env (ProjectRef.Identifier ref) rev)
      (ProjectRef.Identifier ref) (Revision.Revision rev) ignore w w' v.
Proof.
  intros (Hlook & Hcounter & Hinsert & Hbuild) (Hy & Hv1 & Hv2) Hres Hinv Hq
         Hid.
  set (p := ProjectRef.Identifier ref) in *.
  destruct (shell_some env ref rev w Hcounter)
    as (v0 & w1 & Hs & V1 & B1 & T1 & _ & Hlt & Hn & Hvid & Hp & Hr & _ & Hig0
        & He0 & _ & Hbv0 & _).
  assert (Hkey : forall u, In u (versions w1) ->
                   Version.Identifier u = Version.Identifier v0 ->
                   Version.Revision u <> Version.Revision v0
                   /\ Version.RevisionOrderNumber u
                      < Version.RevisionOrderNumber v0).
  { rewrite V1. intros u Hu Hpu. rewrite Hp in Hpu. split.
    - rewrite Hr. eapply no_version_of_revision; eassumption.
    - pose proof (order_invariant_bound _ _ _ Hinv Hu Hpu) as Hb.
      rewrite Hn. unfold p in *. lia. }
  assert (Hsan : sanityCheckOrderNum env (Version.RevisionOrderNumber v0)
                   (ProjectRef.Identifier ref) (Revision.Revision rev) w1
                 = Ret None w1).
  { apply sanity_accepts; [apply Hlook |].
    intros u Hu Hpu. rewrite <- Hr. apply Hkey; [exact Hu |].
    rewrite Hp. exact Hpu. }
  exists v0, w1.
  assert (Hexp : forall vk,
             Version.Id vk = Version.Id v0 ->
             Version.Identifier vk = Version.Identifier v0 ->
             Version.Revision vk = Version.Revision v0 ->
             Version.RevisionOrderNumber vk = Version.RevisionOrderNumber v0 ->
             Version.AuthorID vk = Version.AuthorID v0 ->
             Version.Ignored vk = ignore ->
             Version.Errors vk = [] ->
             Version.BuildVariants vk = [] ->
             exists v w',
               Version.AuthorID v = Version.AuthorID v0 /\
               ('(v', err) <- createVersionItems env vk ref c ;;
                ret (Some v', errors_Wrap err "error creating version items"))
                 w1 = Ret (Some v, None) w' /\
               stored_expanded c (version_id env p rev) p
                 (Revision.Revision rev) ignore w w' v).
  { intros vk K1 K2 K3 K4 K5 K6 K7 K8.
    destruct (createVersionItems_expands env vk ref c w1 Hlook Hbuild Hinsert)
      as (news & w' & w2 & Hcvi & Hvs & E & B & T).
    - rewrite V1, K1, Hvid. exact Hid.
    - rewrite K2, K3, K4. exact Hkey.
    - exists (add_statuses news vk), w'.
      pose proof (add_statuses_fields news vk)
        as (F1 & F2 & F3 & _ & F5 & F6 & _ & F8 & _).
      split; [rewrite add_statuses_AuthorID; exact K5 |].
      split; [rewrite (bind_Ret _ _ _ _ _ Hcvi); reflexivity |].
      destruct E as (newb & newt & news' & Hb & Ht & Hv & Fb & Ft & _ & C & _).
      destruct (C eq_refl) as (C1 & C2 & C3).
      assert (Hnews : Version.BuildVariants (add_statuses news vk) = news').
      { rewrite Hv.
        pose proof (add_statuses_fields news' vk) as (_ & _ & _ & _ & _ & _ & _
                                                       & G8 & _).
        rewrite G8, K8. reflexivity. }
      split; [rewrite Hvs, V1; reflexivity |].
      split; [rewrite F1, K1; exact Hvid |].
      split; [rewrite F2, K2; exact Hp |].
      split; [rewrite F3, K3; exact Hr |].
      split; [rewrite F5; exact K6 |].
      split; [rewrite F6; exact K7 |].
      exists newb, newt.
      split; [rewrite B, Hb, B1; reflexivity |].
      split; [rewrite T, Ht, T1; reflexivity |].
      split; [exact C1 |]. split; [rewrite Hnews; exact C2 |].
      split; [rewrite Hnews; exact C3 |].
      split.
      + eapply Forall_impl; [| exact Fb]. cbn beta. intros b [_ Hbv].
        rewrite F1. exact Hbv.
      + eapply Forall_impl; [| exact Ft]. cbn beta. intros t [_ Hin].
        exact Hin. }
  unfold CreateVersionFromConfig.
  rewrite (bind_Ret _ _ _ _ _ Hs). cbn iota beta.
  rewrite (bind_Ret _ _ _ _ _ Hsan). cbn iota beta.
  destruct (yaml_Marshal env c) as [configYaml [e |]]; [discriminate Hy |].
  destruct (validator_CheckProjectSyntax env c) as [verrs [e |]];
    [discriminate Hv1 |].
  cbn [fst] in Hv2. cbv zeta.
  assert (Hgoal : forall m : M (option Version.t * option error),
             (exists v w',
                Version.AuthorID v = Version.AuthorID v0 /\
                m w1 = Ret (Some v, None) w' /\
                stored_expanded c (version_id env p rev) p
                  (Revision.Revision rev) ignore w w' v) ->
             exists v w',
               shellVersionFromRevision env ref rev w = Ret (Some v0, None) w1 /\
               Version.AuthorID v = Version.AuthorID v0 /\
               m w1 = Ret (Some v, None) w' /\
               stored_expanded c (version_id env p rev) p
                 (Revision.Revision rev) ignore w w' v).
  { intros m (v & w' & A & R & S). exists v, w'.
    split; [exact Hs |]. split; [exact A |]. split; [exact R | exact S]. }
  apply Hgoal.
  destruct (Nat.ltb 0 (List.length verrs)
            || match versionErrs with Some _ => true | None => false end).
  - destruct versionErrs as [ve |]; cbn [resolver_errors] in Hres;
      cbn [Version.Errors Version.set_Errors]; rewrite Hv2, ?Hres;
      cbn [app List.length Nat.ltb Nat.leb];
      apply Hexp; try reflexivity; assumption.
  - apply Hexp; try reflexivity; assumption.
Qed.

Lemma admin_subscribers_returns (env : Env) (w : World)
    (admins : list string) :
  forall (subscribers : list Subscriber.t) (catcher : list error),
  exists r, admin_subscribers env admins subscribers catcher w = Ret r w.
Proof.
  intros subscribers catcher.
  destruct (admin_subscribers_spec env w admins subscribers catcher)
    as (errs & H & _).
  eexists. exact H.
Qed.

Lemma upsert_all_returns (env : Env) (base : Subscriber.t -> Subscription.t)
    (subscribers : list Subscriber.t) :
  forall (catcher : list error) (w : World),
  exists catcher' w',
    upsert_all env base subscribers catcher w = Ret catcher' w' /\
    versions w' = versions w /\ builds w' = builds w /\ tasks w' = tasks w /\
    repositories w' = repositories w /\ log w' = log w.
Proof.
  induction subscribers as [| s rest IH]; intros catcher w.
  - exists catcher, w. repeat split.
  - cbn [upsert_all]. unfold bind at 1. unfold Subscription_Upsert.
    destruct (Upsert_fault env (base s) w) as [e |].
    + destruct (IH (catcher_Add catcher (Some e)) w)
        as (c' & w' & H & F).
      exists c', w'. split; [exact H | exact F].
    + destruct (IH (catcher_Add catcher None)
                  (set_subscriptions (subscriptions w ++ [base s]) w))
        as (c' & w' & H & F).
      exists c', w'. split; [exact H | exact F].
Qed.

(** addBuildBreakSubscriptions returns when the author of the version is
    not looked up or the lookup does not answer (nil, nil); it writes
    subscriptions only. *)
Lemma addBuildBreakSubscriptions_returns (env : Env) (v : Version.t)
    (ref : ProjectRef.t) (w : World) :
  Version.AuthorID v = ""
  \/ (forall w', user_FindOne env (Version.AuthorID v) w' <> (None, None)) ->
  exists oe w',
    addBuildBreakSubscriptions env v ref w = Ret oe w' /\
    versions w' = versions w /\ builds w' = builds w /\ tasks w' = tasks w /\
    repositories w' = repositories w /\ log w' = log w.
Proof.
  intros Hauthor. unfold addBuildBreakSubscriptions.
  assert (Hrest : forall catcher,
             exists oe w',
               (if negb (ProjectRef.NotifyOnBuildFailure ref) then ret None
                else
                  '(subscribers, catcher) <-
                     admin_subscribers env (ProjectRef.Admins ref) [] catcher ;;
                  catcher <- upsert_all env
                               (fun subscriber =>
                                  Subscription.mk ResourceTypeVersion
                                    "build-break"
                                    [("object", "task");
                                     ("project", ProjectRef.Identifier ref);
                                     ("requester", RepotrackerVersionRequester)]
                                    subscriber) subscribers catcher ;;
                  ret (catcher_Resolve catcher)) w = Ret oe w' /\
               versions w' = versions w /\ builds w' = builds w /\
               tasks w' = tasks w /\ repositories w' = repositories w /\
               log w' = log w).
  { intros catcher.
    destruct (negb (ProjectRef.NotifyOnBuildFailure ref)).
    - exists None, w. repeat split.
    - destruct (admin_subscribers_returns env w (ProjectRef.Admins ref) []
                  catcher) as ([subs errs] & Ha).
      rewrite (bind_Ret _ _ _ _ _ Ha). cbn iota beta.
      match goal with
      | |- context [upsert_all env ?base subs errs] =>
          destruct (upsert_all_returns env base subs errs w)
            as (c' & w' & Hu & F)
      end.
      rewrite (bind_Ret _ _ _ _ _ Hu).
      eexists _, w'. split; [reflexivity | exact F]. }
  destruct (String.eqb (Version.AuthorID v) "") eqn:Ha.
  - cbn [negb]. rewrite (bind_Ret _ _ w w (Some [])) by reflexivity.
    apply Hrest.
  - cbn [negb]. unfold bind at 1. unfold bind at 1. unfold ask.
    destruct Hauthor as [Hempty | Hfound];
      [rewrite Hempty in Ha; discriminate Ha |].
    specialize (Hfound w).
    destruct (user_FindOne env (Version.AuthorID v) w) as [[a |] [e |]].
    + cbn [ret]. apply Hrest.
    + destruct (negb (String.eqb (DBUser.BuildBreakID a) "")).
      * exists None, w. repeat split.
      * cbn [ret]. apply Hrest.
    + cbn [ret]. apply Hrest.
    + contradiction Hfound. reflexivity.
Qed.

(** The end of the round of a revision whose version was created: the
    subscriptions decide only which version is the newest so far. *)
Lemma StoreRevisions_create_stores (env : Env) (repoTracker : RepoTracker)
    (rev : Revision.t) (c : Project.t) (ignore : bool)
    (versionErrs : option VersionErrors) (nv : option Version.t)
    (w : World) :
  let p := projectIdentifier repoTracker in
  store_answers env p ->
  authors_known env ->
  accepted env c ->
  resolver_errors versionErrs = [] ->
  order_invariant p w ->
  run_query (ByProjectIdAndRevision p (Revision.Revision rev)) (versions w)
    = None ->
  (forall u, In u (versions w) -> Version.Id u <> version_id env p rev) ->
  exists v nv' w',
    StoreRevisions_create env repoTracker rev (Some c) ignore versionErrs nv w
      = Ret (Continue nv') w' /\
    (nv' = Some v \/ nv' = nv) /\
    stored_expanded c (version_id env p rev) p (Revision.Revision rev) ignore
      w w' v.
Proof.
  intros p Hstore Hknown Hacc Hres Hinv Hq Hid.
  destruct (CreateVersionFromConfig_stores env
              (RepoTracker_ProjectRef repoTracker) c rev ignore versionErrs w
              Hstore Hacc Hres Hinv Hq Hid)
    as (v0 & w0 & v & w1 & Hs & Ha & Hrun & S).
  pose proof (shell_author_known _ _ _ _ _ _ _ Hknown Hs) as Hauthor.
  rewrite <- Ha in Hauthor.
  destruct (addBuildBreakSubscriptions_returns env v
              (RepoTracker_ProjectRef repoTracker) w1 Hauthor)
    as (oe & w2 & Hsub & V2 & B2 & T2 & _).
  assert (S2 : forall w3,
             versions w3 = versions w2 -> builds w3 = builds w2 ->
             tasks w3 = tasks w2 ->
             stored_expanded c (version_id env p rev) p
               (Revision.Revision rev) ignore w w3 v).
  { intros w3 V3 B3 T3.
    destruct S as (Sv & S1 & S2 & S3 & S4 & S5 & newb & newt & Sb & St & S').
    split; [congruence |]. repeat (split; [assumption |]).
    exists newb, newt. split; [congruence |]. split; [congruence |].
    exact S'. }
  unfold StoreRevisions_create. rewrite (bind_Ret _ _ _ _ _ Hrun).
  cbn iota beta. rewrite (bind_Ret _ _ _ _ _ Hsub).
  destruct oe as [e |].
  - exists v, nv. eexists. split; [reflexivity |].
    split; [right; reflexivity |]. apply S2; reflexivity.
  - exists v, (Some v), w2. split; [reflexivity |].
    split; [left; reflexivity |]. apply S2; reflexivity.
Qed.

(** The round of a revision up to the creation of its version, when the
    revision has no version and its config resolves. *)
Lemma revision_reaches_create (env : Env) (repoTracker : RepoTracker)
    (rev : Revision.t) (c : Project.t) (nv : option Version.t) (w : World) :
  let p := projectIdentifier repoTracker in
  lookups_answer env ->
  ProjectRef.LocalConfig (RepoTracker_ProjectRef repoTracker) = "" ->
  (forall w0, GetRemoteConfig (RepoTracker_RepoPoller repoTracker)
                (Revision.Revision rev) w0 = (Some c, None)) ->
  (forall w0, snd (GetChangedFiles (RepoTracker_RepoPoller repoTracker)
                     (Revision.Revision rev) w0) = None) ->
  run_query (ByProjectIdAndRevision p (Revision.Revision rev)) (versions w)
    = None ->
  exists ignore,
    StoreRevisions_revision env repoTracker rev nv w
    = StoreRevisions_create env repoTracker rev (Some c) ignore None nv
        (started rev w).
Proof.
  intros p Hlook Hlocal Hremote Hchanged Hq.
  unfold StoreRevisions_revision.
  erewrite (bind_Ret (grip_log _ _ _)) by reflexivity. fold (started rev w).
  erewrite (bind_Ret (version_FindOne _ _));
    [| unfold version_FindOne; rewrite Hlook; reflexivity].
  cbn iota beta.
  erewrite (bind_Ret (grip_WrapError _ _ _ _)) by reflexivity.
  change (versions (started rev w)) with (versions w).
  unfold p, projectIdentifier in Hq. rewrite Hq.
  erewrite (bind_Ret (GetProjectConfig _ _ _));
    [| unfold GetProjectConfig; rewrite Hlocal; cbn [String.eqb negb];
       unfold bind, ask; rewrite Hremote; reflexivity].
  cbn iota beta. unfold StoreRevisions_ignore.
  destruct (Nat.ltb 0 (List.length (Project.Ignore c))).
  - unfold bind at 1. unfold ask.
    pose proof (Hchanged (started rev w)) as Hc.
    destruct (GetChangedFiles _ _ _) as [filenames [e |]];
      [discriminate Hc |].
    eexists. reflexivity.
  - eexists. reflexivity.
Qed.
Section FreshBatch.

Variable env : Env.
Variable repoTracker : RepoTracker.
Variable configs : string -> Project.t.
Hypothesis Hcoop : cooperative env repoTracker configs.

Let p : string := projectIdentifier repoTracker.
Let ref : ProjectRef.t := RepoTracker_ProjectRef repoTracker.

Lemma CreateVersionFromConfig_succeeds (c : Project.t) (rev : Revision.t)
    (ignore : bool) (w : World) :
  order_invariant p w ->
  run_query (ByProjectIdAndRevision p (Revision.Revision rev)) (versions w)
    = None ->
  (forall u, In u (versions w) -> Version.Id u <> version_id env p rev) ->
  exists v w',
    CreateVersionFromConfig env ref (Some c) rev ignore None w
      = Ret (Some v, None) w' /\
    versions w' = versions w ++ [v] /\
    Version.Id v = version_id env p rev /\
    Version.AuthorID v = ""%string /\
    Version.Errors v = [].
Proof.
  destruct Hcoop as (Hlook & Hlocal & Hremote & Hchanged & Hcounter & Hinsert
                     & Hbuild & Hyaml & Hvalid & Husers & Hnotify).
  intros Hinv Hq Hid.
  destruct (CreateVersionFromConfig_stores env ref c rev ignore None w)
    as (v0 & w0 & v & w' & Hs & Ha & Hrun & S); try assumption.
  - repeat split; assumption.
  - split; [apply Hyaml | apply Hvalid].
  - reflexivity.
  - exists v, w'. split; [exact Hrun |].
    destruct S as (Sv & Sid & _ & _ & _ & Serr & _).
    split; [exact Sv |]. split; [exact Sid |].
    split; [| exact Serr].
    rewrite Ha. exact (shell_author _ _ _ _ _ _ _ Hs (Husers _ _)).
Qed.


Lemma find_app_skip {A} (f : A -> bool) (l1 l2 : list A) :
  (forall u, In u l1 -> f u = false) -> find f (l1 ++ l2) = find f l2.
Proof.
  induction l1 as [| a l1 IH]; intros H; [reflexivity |].
  cbn [app find]. rewrite (H a (or_introl eq_refl)).
  apply IH. intros u Hu. apply H. right. exact Hu.
Qed.

Lemma find_app_none {A} (f : A -> bool) (l1 l2 : list A) :
  find f l1 = None -> find f l2 = None -> find f (l1 ++ l2) = None.
Proof.
  intros H1 H2. rewrite find_app_skip; [exact H2 |].
  intros u Hu. exact (find_none f l1 H1 u Hu).
Qed.

Lemma NoDup_map_injective_on {A B C} (f : A -> B) (g : A -> C) (l : list A) :
  (forall a b, In a l -> In b l -> g a = g b -> f a = f b) ->
  NoDup (map f l) -> NoDup (map g l).
Proof.
  induction l as [| a l IH]; intros Hinj Hnd; [constructor |].
  cbn [map] in *. inversion Hnd as [| x xs Hnotin Hnd']; subst.
  constructor.
  - intros Hin. apply in_map_iff in Hin. destruct Hin as (b & Hb & Hin).
    apply Hnotin. apply in_map_iff. exists b. split; [| exact Hin].
    symmetry. apply Hinj; [left; reflexivity | right; exact Hin |].
    symmetry. exact Hb.
  - apply IH; [| exact Hnd'].
    intros x y Hx Hy. apply Hinj; right; assumption.
Qed.

Lemma fold_left_newest {A} (l : list A) :
  forall d : option A,
    fold_left (fun _ v => Some v) l d
    = match List.rev l with
      | [] => d
      | v :: _ => Some v
      end.
Proof.
  induction l as [| a l IH]; intros d; [reflexivity |].
  cbn [fold_left List.rev]. rewrite IH.
  destruct (List.rev l); reflexivity.
Qed.

Lemma paired_maps {A B C D} (f : A -> C) (g : B -> C) (f' : A -> D)
    (g' : B -> D) (l1 : list A) :
  forall l2 : list B,
    map f l1 = map g l2 -> map f' l1 = map g' l2 ->
    forall x, In x l1 -> exists y, In y l2 /\ g y = f x /\ g' y = f' x.
Proof.
  induction l1 as [| a l1 IH]; intros [| b l2] H1 H2 x Hx;
    try contradiction; try discriminate.
  cbn in H1, H2. injection H1 as H1 H1'. injection H2 as H2 H2'.
  destruct Hx as [<- | Hx].
  - exists b. split; [left; reflexivity |]. split; congruence.
  - destruct (IH l2 H1' H2' x Hx) as (y & Hy & E).
    exists y. split; [right; exact Hy | exact E].
Qed.

Lemma fresh_round (rev : Revision.t) (nv : option Version.t) (w : World) :
  order_invariant p w ->
  run_query (ByProjectIdAndRevision p (Revision.Revision rev)) (versions w)
    = None ->
  (forall u, In u (versions w) -> Version.Id u <> version_id env p rev) ->
  exists v w',
    StoreRevisions_revision env repoTracker rev nv w
      = Ret (Continue (Some v)) w' /\
    versions w' = versions w ++ [v] /\
    Version.Id v = version_id env p rev /\
    Version.Revision v = Revision.Revision rev /\
    Version.Identifier v = p /\
    fully_expanded (configs (Revision.Revision rev)) v w' /\
    (forall b, In b (builds w) -> In b (builds w')).
Proof.
  intros Hinv Hq Hid.
  pose proof Hcoop as (Hlook & Hlocal & Hremote & Hchanged & Hcounter
                       & Hinsert & Hbuild & Hyaml & Hvalid & Husers & Hnotify).
  set (c := configs (Revision.Revision rev)).
  set (w0 := add_log (mkLog Info "Processing revision" (Revision.Revision rev))
                     w).
  assert (Hcreate : forall ignore,
             exists v w',
               StoreRevisions_create env repoTracker rev (Some c) ignore None
                 nv w0 = Ret (Continue (Some v)) w' /\
               versions w' = versions w ++ [v] /\
               Version.Id v = version_id env p rev /\
               created_from c rev ignore p w0 w' v /\ Version.Errors v = []).
  { intros ignore.
    destruct (CreateVersionFromConfig_succeeds c rev ignore w0 Hinv Hq Hid)
      as (v & w' & Hrun & Hvs & Hvid & Hauthor & Herr).
    exists v, w'. split.
    - unfold StoreRevisions_create. fold ref.
      rewrite (bind_Ret _ _ _ _ _ Hrun). cbn iota beta.
      rewrite (bind_Ret _ _ _ _ _
                 (subscriptions_quiet env v ref w' Hauthor Hnotify)).
      reflexivity.
    - split; [exact Hvs |]. split; [exact Hvid |]. split; [| exact Herr].
      apply (CreateVersionFromConfig_success env ref c rev ignore None w0 w' v
               Hrun). }
  assert (Hround : exists ignore,
             StoreRevisions_revision env repoTracker rev nv w
             = StoreRevisions_create env repoTracker rev (Some c) ignore None
                 nv w0).
  { unfold StoreRevisions_revision.
    erewrite (bind_Ret (grip_log _ _ _)) by reflexivity. fold w0.
    erewrite (bind_Ret (version_FindOne _ _));
      [| unfold version_FindOne; rewrite Hlook; reflexivity].
    cbn iota beta.
    erewrite (bind_Ret (grip_WrapError _ _ _ _)) by reflexivity.
    change (versions w0) with (versions w).
    unfold p, projectIdentifier in Hq. rewrite Hq.
    erewrite (bind_Ret (GetProjectConfig _ _ _));
      [| unfold GetProjectConfig; rewrite Hlocal; cbn [String.eqb negb];
         unfold bind, ask; rewrite Hremote; reflexivity].
    cbn iota beta. unfold StoreRevisions_ignore. fold c.
    destruct (Nat.ltb 0 (List.length (Project.Ignore c))).
    - unfold bind at 1. unfold ask.
      pose proof (Hchanged (Revision.Revision rev) w0) as Hc.
      destruct (GetChangedFiles _ _ _) as [filenames [e |]];
        [discriminate Hc |].
      eexists. reflexivity.
    - eexists. reflexivity. }
  destruct Hround as (ignore & ->).
  destruct (Hcreate ignore) as (v & w' & Hrun & Hvs & Hvid & Hcf & Herr).
  exists v, w'. split; [exact Hrun |]. split; [exact Hvs |].
  split; [exact Hvid |].
  destruct Hcf as (_ & Hr & Hp & _ & Hexp).
  split; [exact Hr |]. split; [exact Hp |].
  destruct (Hexp Herr) as (newb & newt & Hb & _ & N1 & N2 & N3 & _).
  cbn [builds add_log w0] in Hb.
  split.
  - split; [exact Herr |]. split; [exact N2 |].
    intros bs Hbs.
    destruct (paired_maps BuildStatus.BuildId Build.Id
                BuildStatus.BuildVariant Build.BuildVariant
                (Version.BuildVariants v) newb N3
                (eq_trans N2 (eq_sym N1)) bs Hbs) as (b & Hin & E1 & E2).
    exists b. split; [rewrite Hb; apply in_or_app; right; exact Hin |].
    split; assumption.
  - intros b Hin. rewrite Hb. apply in_or_app. left. exact Hin.
Qed.


Lemma fresh_loop (todo : list Revision.t) :
  forall (nv : option Version.t) (w : World),
    order_invariant p w ->
    fresh_batch env repoTracker todo w ->
    exists added w',
      StoreRevisions_loop env repoTracker todo nv w
        = Ret (fold_left (fun _ v => Some v) added nv, None) w' /\
      versions w' = versions w ++ added /\
      map Version.Revision added = map Revision.Revision todo /\
      map Version.Id added = map (version_id env p) todo /\
      Forall (fun v => Version.Identifier v = p
                       /\ fully_expanded (configs (Version.Revision v)) v w')
             added /\
      (forall b, In b (builds w) -> In b (builds w')).
Proof.
  induction todo as [| rev rest IH]; intros nv w Hinv Hfresh.
  - exists [], w. cbn. rewrite app_nil_r. repeat split; [constructor |].
    intros b Hb. exact Hb.
  - destruct Hfresh as (Hnd & Hnone & Hids & Hinj).
    cbn [map] in Hnd. inversion Hnd as [| x xs Hnotin Hnd']; subst.
    destruct (fresh_round rev nv w Hinv (Hnone rev (or_introl eq_refl))
                (fun u Hu => Hids u rev Hu (or_introl eq_refl)))
      as (v & w1 & Hround & Hvs & Hvid & Hr & Hp & Hfull & Hb).
    assert (Hinv1 : order_invariant p w1).
    { pose proof (StoreRevisions_revision_evolves env repoTracker rev nv w)
        as E.
      rewrite Hround in E. cbn [world_of] in E.
      exact (evolves_order_invariant _ _ _ E p Hinv). }
    assert (Hdiff : forall r, In r rest ->
                      Revision.Revision rev <> Revision.Revision r).
    { intros r Hin Heq. apply Hnotin. rewrite Heq. apply in_map. exact Hin. }
    assert (Hfresh1 : fresh_batch env repoTracker rest w1).
    { split; [exact Hnd' |]. split; [| split].
      - intros r Hin. rewrite Hvs. cbn [run_query]. apply find_app_none.
        + exact (Hnone r (or_intror Hin)).
        + cbn [find]. rewrite Hr.
          destruct (String.eqb (Revision.Revision rev) (Revision.Revision r))
            eqn:E; [| rewrite andb_false_r; reflexivity].
          apply String.eqb_eq in E. exfalso. exact (Hdiff r Hin E).
      - intros u r Hu Hin. rewrite Hvs in Hu. apply in_app_or in Hu.
        destruct Hu as [Hu | [<- | []]].
        + exact (Hids u r Hu (or_intror Hin)).
        + rewrite Hvid. intros Heq. apply (Hdiff r Hin).
          apply Hinj; [left; reflexivity | right; exact Hin | exact Heq].
      - intros a b Ha Hb'. apply Hinj; right; assumption. }
    destruct (IH (Some v) w1 Hinv1 Hfresh1)
      as (added & w' & Hloop & Hvs' & Hrs & Hidsa & Hall & Hb').
    exists (v :: added), w'. split.
    + cbn [StoreRevisions_loop fold_left].
      rewrite (bind_Ret _ _ _ _ _ Hround). exact Hloop.
    + split; [rewrite Hvs', Hvs, <- app_assoc; reflexivity |].
      split; [cbn [map]; rewrite Hr, Hrs; reflexivity |].
      split; [cbn [map]; rewrite Hvid, Hidsa; reflexivity |].
      split.
      * constructor; [| exact Hall].
        split; [exact Hp |]. rewrite Hr.
        destruct Hfull as (F1 & F2 & F3).
        split; [exact F1 |]. split; [exact F2 |].
        intros bs Hbs. destruct (F3 bs Hbs) as (b & Hin & E).
        exists b. split; [apply Hb'; exact Hin | exact E].
      * intros b Hin. apply Hb', Hb, Hin.
Qed.

Lemma fresh_batch_stored (revisions : list Revision.t) (w : World) :
  order_invariant p w ->
  fresh_batch env repoTracker revisions w ->
  exists added w',
    StoreRevisions env repoTracker revisions w
      = Ret (hd_error (List.rev added), None) w' /\
    versions w' = versions w ++ added /\
    map Version.Revision added = List.rev (map Revision.Revision revisions) /\
    Forall (fun v => Version.Identifier v = p
                     /\ fully_expanded (configs (Version.Revision v)) v w')
           added.
Proof.
  intros Hinv Hfresh.
  pose proof Hcoop as (Hlook & _).
  assert (Hfresh' : fresh_batch env repoTracker (List.rev revisions) w).
  { destruct Hfresh as (Hnd & Hnone & Hids & Hinj).
    split; [rewrite map_rev; apply NoDup_rev; exact Hnd |].
    split; [intros r Hin; apply Hnone, in_rev, Hin |].
    split; [intros u r Hu Hin; apply Hids; [exact Hu | apply in_rev, Hin] |].
    intros a b Ha Hb. apply Hinj; apply in_rev; assumption. }
  destruct (fresh_loop (List.rev revisions) None w Hinv Hfresh')
    as (added & w' & Hloop & Hvs & Hrs & Hidsa & Hall & _).
  assert (Hnd : NoDup (map Version.Id added)).
  { rewrite Hidsa.
    destruct Hfresh' as (Hnd & _ & _ & Hinj).
    apply (NoDup_map_injective_on Revision.Revision); [| exact Hnd].
    intros a b Ha Hb. apply Hinj; assumption. }
  exists added, w'. split.
  - unfold StoreRevisions. rewrite (bind_Ret _ _ _ _ _ Hloop).
    rewrite fold_left_newest.
    destruct (List.rev added) as [| nv l] eqn:Hrev; [reflexivity |].
    cbn [hd_error].
    assert (Hin : In nv added).
    { apply in_rev. rewrite Hrev. left. reflexivity. }
    unfold version_FindOne. rewrite Hlook. cbn [run_query].
    rewrite Hvs, find_app_skip.
    + destruct (find_some_id added nv Hin) as (r & Hfind & Hr & Hid).
      rewrite Hfind.
      rewrite (find_unique_id added nv r Hnd Hin Hr Hid). reflexivity.
    + intros u Hu. apply String.eqb_neq.
      assert (Hnv : In (Version.Id nv) (map (version_id env p)
                                           (List.rev revisions))).
      { rewrite <- Hidsa. apply in_map. exact Hin. }
      apply in_map_iff in Hnv. destruct Hnv as (r & Hr & Hinr).
      rewrite <- Hr.
      destruct Hfresh' as (_ & _ & Hids & _). exact (Hids u r Hu Hinr).
  - split; [exact Hvs |].
    split; [rewrite Hrs, map_rev; reflexivity |]. exact Hall.
Qed.

(** X12: a batch of new revisions with collaborators that answer.
    Assume that the project has no local config and its remote config
    resolves at every revision; that lookups of versions, the listing of
    changed files, the order counter, inserts, the creation of builds and
    the marshalling of a config never fail; that the validator fails on no
    config and finds no error in it; that no commit author is a registered
    user (the lookup by GitHub uid finds nobody); and that the project does
    not notify on build failures. Assume also that the store is consistent
    with the counter and that none of the (distinct) revisions of the batch
    has a version yet, their version ids being distinct and new to the
    store. Then StoreRevisions returns without error and stores exactly one
    version per revision, oldest revision first, so that the stored order
    follows the commits and the order numbers increase along it. Every
    stored version is fully expanded from the config of its revision: no
    errors, one status per enabled variant, each with its Build in the
    store. The result is the version of the newest revision, as read back
    from the store. *)
Theorem StoreRevisions_stores_fresh_batch (revisions : list Revision.t)
    (w : World) :
  order_invariant p w ->
  fresh_batch env repoTracker revisions w ->
  exists added w',
    StoreRevisions env repoTracker revisions w
      = Ret (hd_error (List.rev added), None) w' /\
    versions w' = versions w ++ added /\
    map Version.Revision added = List.rev (map Revision.Revision revisions) /\
    Forall (fun v => Version.Identifier v = p
                     /\ fully_expanded (configs (Version.Revision v)) v w')
           added /\
    StronglySorted Z.lt (map Version.RevisionOrderNumber added) /\
    order_invariant p w'.
Proof.
  intros Hinv Hfresh.
  destruct (fresh_batch_stored revisions w Hinv Hfresh)
    as (added & w' & Hstore & Hvs & Hrs & Hall).
  pose proof (StoreRevisions_evolves env repoTracker revisions w) as E.
  rewrite Hstore in E. cbn [world_of] in E.
  exists added, w'.
  split; [exact Hstore |]. split; [exact Hvs |]. split; [exact Hrs |].
  split; [exact Hall |]. split.
  - destruct E as (_ & _ & _ & added0 & Hvs0 & _ & S).
    rewrite Hvs in Hvs0. apply app_inv_head in Hvs0. subst added0. exact S.
  - exact (evolves_order_invariant _ _ _ E p Hinv).
Qed.

(** X13: a successful run of FetchRevisions. Assume the collaborators of
    X12: no local config, a remote config that resolves at every revision,
    lookups, changed files, the counter, inserts, the creation of builds
    and the marshalling never fail, the validator finds no error, no commit
    author is a registered user (the lookup by GitHub uid finds nobody) and
    the project does not notify on build failures; a store consistent with
    the counter and a batch of distinct revisions without versions, with
    distinct new version ids. When the project is enabled, its repository
    is found, it has no repotracker error on record, the poll returns these
    revisions, the newest first, no update of a watermark fails and the
    activation leaves the watermarks alone, the run returns (it does not
    panic), the watermark of the project is the newest polled revision,
    the watermarks of the other projects are left alone, and an error can
    only come from the activation of the project. *)
Theorem FetchRevisions_advances_watermark (newest : Revision.t)
    (older : list Revision.t) (w0 : World) :
  polls env repoTracker (newest :: older) w0 ->
  order_invariant p w0 ->
  fresh_batch env repoTracker (newest :: older) w0 ->
  (forall q r w, UpdateLastRevision_fault env q r w = None) ->
  activation_keeps_watermarks env ->
  exists oe w',
    FetchRevisions env repoTracker w0 = Ret oe w' /\
    last_revision w' p = Revision.Revision newest /\
    (forall q, q <> p -> last_revision w' q = last_revision w0 q) /\
    ((forall w, snd (model_DoProjectActivation env p w) = None) -> oe = None).
Proof.
  intros Hpolls Hinv Hfresh Hup Hact.
  destruct (FetchRevisions_polls env repoTracker (newest :: older) w0
              (fun _ => ret None) Hpolls) as (polled & Hp & HF).
  set (w := add_log (poll_log (last_revision w0 p)) w0).
  destruct (fresh_batch_stored (newest :: older) w Hinv Hfresh)
    as (added & w1 & Hstore & Hvs & Hrs & Hall).
  assert (Hlast : exists lv l, List.rev added = lv :: l
                               /\ Version.Revision lv = Revision.Revision newest).
  { assert (H : map Version.Revision (List.rev added)
                = Revision.Revision newest :: map Revision.Revision older).
    { rewrite map_rev, Hrs, rev_involutive. reflexivity. }
    destruct (List.rev added) as [| lv l]; [discriminate H |].
    exists lv, l. split; [reflexivity |]. injection H as H _. exact H. }
  destruct Hlast as (lv & l & Hrev & Hr).
  assert (Hlv : Version.Identifier lv = p).
  { rewrite Forall_forall in Hall. apply Hall. apply in_rev. rewrite Hrev.
    left. reflexivity. }
  rewrite Hrev in Hstore. cbn [hd_error] in Hstore.
  assert (L1 : forall q, last_revision w1 q = last_revision w0 q).
  { intros q.
    pose proof (StoreRevisions_evolves env repoTracker (newest :: older) w) as E.
    rewrite Hstore in E. destruct E as (L & _). exact (L q). }
  rewrite HF, (bind_Ret _ _ _ _ _ Hp).
  cbn [List.length Nat.ltb Nat.leb].
  unfold bind at 1. unfold bind at 1.
  pose proof Hstore as Hstore'.
  unfold w, p, projectIdentifier in Hstore'. rewrite Hstore'.
  unfold bind at 1. unfold model_UpdateLastRevision. rewrite Hup.
  cbn [ret]. unfold bind at 1.
  rewrite Hlv, Hr.
  set (w2 := set_repository p _ w1).
  pose proof (Hact p w2) as Ha.
  change (ProjectRef.Identifier (RepoTracker_ProjectRef repoTracker)) with p.
  destruct (model_DoProjectActivation env p w2) as [w3 oe] eqn:Hrun.
  cbn [fst] in Ha.
  assert (L3 : forall q, last_revision w3 q
                         = if String.eqb q p then Revision.Revision newest
                           else last_revision w0 q).
  { intros q. rewrite Ha. unfold w2.
    rewrite last_revision_set_repository, L1. reflexivity. }
  assert (Hres : forall w4 : World,
             (forall q, last_revision w4 q = last_revision w3 q) ->
             last_revision w4 p = Revision.Revision newest /\
             (forall q, q <> p -> last_revision w4 q = last_revision w0 q)).
  { intros w4 L4. split.
    - rewrite L4, L3, String.eqb_refl. reflexivity.
    - intros q Hq. rewrite L4, L3. apply String.eqb_neq in Hq. rewrite Hq.
      reflexivity. }
  destruct oe as [e |].
  - eexists. eexists. split; [reflexivity |].
    destruct (Hres (add_log (mkLog Error
                               "problem activating recent commit for project" "")
                      w3)) as [R1 R2]; [intros q; reflexivity |].
    split; [exact R1 |]. split; [exact R2 |].
    intros Hok. specialize (Hok w2). rewrite Hrun in Hok. discriminate Hok.
  - eexists. eexists. split; [reflexivity |].
    destruct (Hres w3) as [R1 R2]; [intros q; reflexivity |].
    split; [exact R1 |]. split; [exact R2 |]. intros _. reflexivity.
Qed.

End FreshBatch.

(** ** The watermark *)

(** X14: the watermark only moves after a successful store. Whatever
    the collaborators answer, as long as the activation of a project leaves
    the watermarks alone, a run of FetchRevisions either leaves every
    watermark where it was (also when it fails or panics), or
    StoreRevisions returned a version without error for a batch that is not
    empty and the update succeeded: then the watermark of the project of
    that version is its revision, and no other watermark moved. *)
Theorem FetchRevisions_moves_watermark_only_after_store (env : Env)
    (repoTracker : RepoTracker) (w0 : World) :
  activation_keeps_watermarks env ->
  (forall q, last_revision (world_of (FetchRevisions env repoTracker w0)) q
             = last_revision w0 q) \/
  exists revisions w1 lv w2,
    revisions <> [] /\
    StoreRevisions env repoTracker revisions w1 = Ret (Some lv, None) w2 /\
    (forall q, last_revision w1 q = last_revision w0 q) /\
    UpdateLastRevision_fault env (Version.Identifier lv) (Version.Revision lv) w2
      = None /\
    forall q,
      last_revision (world_of (FetchRevisions env repoTracker w0)) q
      = if String.eqb q (Version.Identifier lv) then Version.Revision lv
        else last_revision w0 q.
Proof.
  intros Hact.
  set (P := fun wf : World =>
    (forall q, last_revision wf q = last_revision w0 q) \/
    exists revisions w1 lv w2,
      revisions <> [] /\
      StoreRevisions env repoTracker revisions w1 = Ret (Some lv, None) w2 /\
      (forall q, last_revision w1 q = last_revision w0 q) /\
      UpdateLastRevision_fault env (Version.Identifier lv)
        (Version.Revision lv) w2 = None /\
      forall q,
        last_revision wf q
        = if String.eqb q (Version.Identifier lv) then Version.Revision lv
          else last_revision w0 q).
  change (P (world_of (FetchRevisions env repoTracker w0))).
  assert (Hleft : forall wf,
             (forall q, last_revision wf q = last_revision w0 q) -> P wf).
  { intros wf H. left. exact H. }
  unfold FetchRevisions.
  destruct (negb (ProjectRef.Enabled _));
    [apply Hleft; intros q; reflexivity |].
  rewrite world_of_bind. unfold model_FindRepository at 1.
  destruct (FindRepository_fault env _ w0) as [e |];
    [apply Hleft; intros; reflexivity |].
  cbn iota beta. rewrite world_of_bind.
  match goal with
  | |- context [match ?m w0 with Ret _ _ => _ | Panic _ _ => _ end] =>
      assert (Hpolled : exists a w1,
                 m w0 = Ret a w1 /\ repositories w1 = repositories w0)
  end.
  { destruct (String.eqb _ "");
      [| destruct (match ProjectRef.RepotrackerError _ with
                   | Some re => RepotrackerError.Exists re
                   | None => false
                   end)];
      eexists; eexists; (split; [reflexivity | reflexivity]). }
  destruct Hpolled as (a & w1 & -> & R1).
  assert (L1 : forall q, last_revision w1 q = last_revision w0 q).
  { intros q. unfold last_revision. rewrite R1. reflexivity. }
  assert (Hactivate : forall w q,
               last_revision
                 (world_of
                    ((err <-
                      (fun w : World =>
                       let '(w', e) :=
                         model_DoProjectActivation env
                           (ProjectRef.Identifier
                              (RepoTracker_ProjectRef repoTracker)) w in
                       Ret e w') ;;
                      match err with
                      | Some e =>
                          grip_log Error
                            "problem activating recent commit for project" "" ;;;
                          ret (Some (withStack e))
                      | None => ret None
                      end) w)) q
               = last_revision w q).
  { intros w q. unfold bind.
    pose proof (Hact (ProjectRef.Identifier (RepoTracker_ProjectRef repoTracker))
                  w q) as Ha.
    destruct (model_DoProjectActivation env _ w) as [w' [e |]];
      cbn in Ha |- *; exact Ha. }
  destruct a as [[revisions [e |]] |];
    [apply Hleft; exact L1 | | apply Hleft; exact L1].
  rewrite world_of_bind.
  destruct (Nat.ltb 0 (List.length revisions)) eqn:Hlen;
    [| apply Hleft; intros q; exact (eq_trans (Hactivate w1 q) (L1 q))].
  unfold bind at 1.
  pose proof (StoreRevisions_evolves env repoTracker revisions w1) as E.
  destruct (StoreRevisions env repoTracker revisions w1)
    as [[lastVersion err] w2 | r w2] eqn:Hstore;
    destruct E as (L2 & _); cbn [world_of] in L2;
    [| apply Hleft; intros q; rewrite L2; apply L1].
  assert (L2' : forall q, last_revision w2 q = last_revision w0 q).
  { intros q. rewrite L2. apply L1. }
  destruct err as [e |]; [apply Hleft; exact L2' |].
  destruct lastVersion as [lv |]; [| apply Hleft; exact L2'].
  unfold bind at 1. unfold model_UpdateLastRevision.
  destruct (UpdateLastRevision_fault env (Version.Identifier lv)
              (Version.Revision lv) w2) as [e |] eqn:Hup;
    [apply Hleft; exact L2' |].
  right. exists revisions, w1, lv, w2.
  split; [destruct revisions; [discriminate Hlen | discriminate] |].
  split; [exact Hstore |]. split; [exact L1 |]. split; [exact Hup |].
  intros q.
  refine (eq_trans
            (Hactivate
               (set_repository (Version.Identifier lv)
                  (Repository.mk (Version.Identifier lv) (Version.Revision lv)
                     (order_counter w2 (Version.Identifier lv))) w2) q) _).
  rewrite last_revision_set_repository, L2'. reflexivity.
Qed.

(** ** A batch with revisions whose config cannot be fetched *)

Lemma stored_expanded_full (c : Project.t) (id p r : string) (ignore : bool)
    (w w' : World) (v : Version.t) :
  stored_expanded c id p r ignore w w' v -> fully_expanded c v w'.
Proof.
  intros (_ & _ & _ & _ & _ & Herr & newb & newt & Hb & _ & N1 & N2 & N3 & _).
  split; [exact Herr |]. split; [exact N2 |].
  intros bs Hbs.
  destruct (paired_maps BuildStatus.BuildId Build.Id
              BuildStatus.BuildVariant Build.BuildVariant
              (Version.BuildVariants v) newb N3
              (eq_trans N2 (eq_sym N1)) bs Hbs) as (b & Hin & E1 & E2).
  exists b. split; [rewrite Hb; apply in_or_app; right; exact Hin |].
  split; assumption.
Qed.

Lemma fully_expanded_mono (c : Project.t) (v : Version.t) (w w' : World) :
  (forall b, In b (builds w) -> In b (builds w')) ->
  fully_expanded c v w -> fully_expanded c v w'.
Proof.
  intros Hb (F1 & F2 & F3). split; [exact F1 |]. split; [exact F2 |].
  intros bs Hbs. destruct (F3 bs Hbs) as (b & Hin & E).
  exists b. split; [apply Hb; exact Hin | exact E].
Qed.

Section Batch.

Variable env : Env.
Variable repoTracker : RepoTracker.
Variable res : string -> Resolution.

Let p : string := projectIdentifier repoTracker.
Let ref : ProjectRef.t := RepoTracker_ProjectRef repoTracker.

Hypothesis Hstore : store_answers env p.
Hypothesis Hknown : authors_known env.
Hypothesis Hlocal : ProjectRef.LocalConfig ref = "".

(** The round of a new revision: its version is stored, expanded when the
    config resolves and as a stub when the fetch of the config fails. *)
Lemma batch_round (rev : Revision.t) (nv : option Version.t) (w : World) :
  resolution_at env repoTracker (Revision.Revision rev)
    (res (Revision.Revision rev)) ->
  order_invariant p w ->
  run_query (ByProjectIdAndRevision p (Revision.Revision rev)) (versions w)
    = None ->
  (forall u, In u (versions w) -> Version.Id u <> version_id env p rev) ->
  exists v nv' newb w',
    StoreRevisions_revision env repoTracker rev nv w
      = Ret (Continue nv') w' /\
    (nv' = Some v \/ nv' = nv) /\
    versions w' = versions w ++ [v] /\
    builds w' = builds w ++ newb /\
    Version.Id v = version_id env p rev /\
    Version.Revision v = Revision.Revision rev /\
    Version.Identifier v = p /\
    match res (Revision.Revision rev) with
    | resolves c =>
        fully_expanded c v w' /\
        Forall (fun b => Build.Version b = Version.Id v) newb
    | unusable _ => stub_of env repoTracker v /\ newb = []
    end.
Proof.
  intros Hres Hinv Hq Hid.
  pose proof Hstore as (Hlook & Hcounter & Hinsert & Hbuild).
  destruct (res (Revision.Revision rev)) as [c | e].
  - destruct Hres as (Hremote & Hacc & Hchanged).
    destruct (revision_reaches_create env repoTracker rev c nv w Hlook Hlocal
                Hremote Hchanged Hq) as (ignore & Hround).
    destruct (StoreRevisions_create_stores env repoTracker rev c ignore None
                nv (started rev w) Hstore Hknown Hacc eq_refl Hinv Hq Hid)
      as (v & nv' & w' & Hrun & Hnv & S).
    pose proof (stored_expanded_full _ _ _ _ _ _ _ _ S) as Hfull.
    destruct S as (Sv & S1 & S2 & S3 & _ & _ & newb & newt & Sb & _ & _ & _ & _
                   & Fb & _).
    exists v, nv', newb, w'.
    split; [rewrite Hround; exact Hrun |]. split; [exact Hnv |].
    split; [exact Sv |]. split; [exact Sb |]. split; [exact S1 |].
    split; [exact S3 |]. split; [exact S2 |]. split; [exact Hfull | exact Fb].
  - destruct Hres as (Hfetch & Hremote).
    destruct (recoverable_round env repoTracker rev nv w e)
      as (stub & w' & Hrun & V & B & _ & Hp & Hr & He & Hw & Hc & Hbv & Hbi & _
          & Hvid); try assumption.
    + intros w0. apply Hlook.
    + intros w0. specialize (Hremote w0).
      destruct (GetRemoteConfig _ _ w0) as [x oe]. cbn [snd] in Hremote.
      subst oe. exists x. reflexivity.
    + exists stub, (Some stub), [], w'.
      split; [exact Hrun |]. split; [left; reflexivity |].
      split; [exact V |]. split; [rewrite app_nil_r; exact B |].
      split; [exact Hvid |]. split; [exact Hr |]. split; [exact Hp |].
      split; [| reflexivity].
      unfold stub_of. rewrite Hr.
      split; [exact He |]. split; [exact Hw |]. split; [exact Hc |].
      split; [exact Hbv | exact Hbi].
Qed.

Lemma batch_loop (todo : list Revision.t) :
  forall (nv : option Version.t) (w : World),
    (forall rev, In rev todo ->
       resolution_at env repoTracker (Revision.Revision rev)
         (res (Revision.Revision rev))) ->
    order_invariant p w ->
    fresh_batch env repoTracker todo w ->
    exists added newb nv' w',
      StoreRevisions_loop env repoTracker todo nv w = Ret (nv', None) w' /\
      (nv' = nv \/ exists v, In v added /\ nv' = Some v) /\
      versions w' = versions w ++ added /\
      builds w' = builds w ++ newb /\
      map Version.Revision added = map Revision.Revision todo /\
      map Version.Id added = map (version_id env p) todo /\
      Forall (fun v => Version.Identifier v = p /\
                match res (Version.Revision v) with
                | resolves c => fully_expanded c v w'
                | unusable _ => stub_of env repoTracker v
                end) added /\
      Forall (fun b => exists v c,
                In v added /\ Build.Version b = Version.Id v /\
                res (Version.Revision v) = resolves c) newb.
Proof.
  induction todo as [| rev rest IH]; intros nv w Hres Hinv Hfresh.
  - exists [], [], nv, w. cbn. rewrite !app_nil_r.
    split; [reflexivity |]. split; [left; reflexivity |].
    repeat split; constructor.
  - destruct Hfresh as (Hnd & Hnone & Hids & Hinj).
    cbn [map] in Hnd. inversion Hnd as [| x xs Hnotin Hnd']; subst.
    destruct (batch_round rev nv w (Hres rev (or_introl eq_refl)) Hinv
                (Hnone rev (or_introl eq_refl))
                (fun u Hu => Hids u rev Hu (or_introl eq_refl)))
      as (v & nv1 & nb1 & w1 & Hround & Hnv1 & Hvs & Hb1 & Hvid & Hr & Hp
          & Hkind).
    assert (Hinv1 : order_invariant p w1).
    { pose proof (StoreRevisions_revision_evolves env repoTracker rev nv w)
        as E.
      rewrite Hround in E. cbn [world_of] in E.
      exact (evolves_order_invariant _ _ _ E p Hinv). }
    assert (Hdiff : forall r, In r rest ->
                      Revision.Revision rev <> Revision.Revision r).
    { intros r Hin Heq. apply Hnotin. rewrite Heq. apply in_map. exact Hin. }
    assert (Hfresh1 : fresh_batch env repoTracker rest w1).
    { split; [exact Hnd' |]. split; [| split].
      - intros r Hin. rewrite Hvs. cbn [run_query]. apply find_app_none.
        + exact (Hnone r (or_intror Hin)).
        + cbn [find]. rewrite Hr.
          destruct (String.eqb (Revision.Revision rev) (Revision.Revision r))
            eqn:E; [| rewrite andb_false_r; reflexivity].
          apply String.eqb_eq in E. exfalso. exact (Hdiff r Hin E).
      - intros u r Hu Hin. rewrite Hvs in Hu. apply in_app_or in Hu.
        destruct Hu as [Hu | [<- | []]].
        + exact (Hids u r Hu (or_intror Hin)).
        + rewrite Hvid. intros Heq. apply (Hdiff r Hin).
          apply Hinj; [left; reflexivity | right; exact Hin | exact Heq].
      - intros a b Ha Hb'. apply Hinj; right; assumption. }
    destruct (IH nv1 w1 (fun r Hr' => Hres r (or_intror Hr')) Hinv1 Hfresh1)
      as (added & nb2 & nv2 & w' & Hloop & Hnv2 & Hvs' & Hb2 & Hrs & Hidsa
          & Hall & Hown).
    assert (Hmono : forall b, In b (builds w1) -> In b (builds w')).
    { intros b Hin. rewrite Hb2. apply in_or_app. left. exact Hin. }
    exists (v :: added), (nb1 ++ nb2), nv2, w'. split.
    { cbn [StoreRevisions_loop]. rewrite (bind_Ret _ _ _ _ _ Hround).
      exact Hloop. }
    split.
    { destruct Hnv2 as [-> | (u & Hu & ->)].
      - destruct Hnv1 as [-> | ->]; [right | left; reflexivity].
        exists v. split; [left; reflexivity | reflexivity].
      - right. exists u. split; [right; exact Hu | reflexivity]. }
    split; [rewrite Hvs', Hvs, <- app_assoc; reflexivity |].
    split; [rewrite Hb2, Hb1, <- app_assoc; reflexivity |].
    split; [cbn [map]; rewrite Hr, Hrs; reflexivity |].
    split; [cbn [map]; rewrite Hvid, Hidsa; reflexivity |].
    split.
    + constructor; [| exact Hall].
      split; [exact Hp |]. rewrite Hr.
      destruct (res (Revision.Revision rev)) as [c | e].
      * destruct Hkind as (Hfull & _).
        exact (fully_expanded_mono _ _ _ _ Hmono Hfull).
      * exact (proj1 Hkind).
    + apply Forall_app. split.
      * destruct (res (Revision.Revision rev)) as [c | e] eqn:Hk.
        -- destruct Hkind as (_ & Fb).
           eapply Forall_impl; [| exact Fb]. cbn beta. intros b Hb.
           exists v, c. split; [left; reflexivity |].
           split; [exact Hb |]. rewrite Hr. exact Hk.
        -- destruct Hkind as (_ & ->). constructor.
      * eapply Forall_impl; [| exact Hown]. cbn beta.
        intros b (u & c & Hu & Hb & Hk).
        exists u, c. split; [right; exact Hu |]. split; assumption.
Qed.

(** The whole batch: every revision gets its version, oldest first, and
    StoreRevisions returns without error. *)
Lemma batch_stored (revisions : list Revision.t) (w : World) :
  (forall rev, In rev revisions ->
     resolution_at env repoTracker (Revision.Revision rev)
       (res (Revision.Revision rev))) ->
  order_invariant p w ->
  fresh_batch env repoTracker revisions w ->
  exists result added w',
    StoreRevisions env repoTracker revisions w = Ret (result, None) w' /\
    versions w' = versions w ++ added /\
    map Version.Revision added = List.rev (map Revision.Revision revisions) /\
    Forall (fun v =>
              Version.Identifier v = p /\
              match res (Version.Revision v) with
              | resolves c => fully_expanded c v w'
              | unusable _ =>
                  stub_of env repoTracker v /\
                  forall b, In b (builds w') ->
                            Build.Version b = Version.Id v -> In b (builds w)
              end) added.
Proof.
  intros Hres Hinv Hfresh.
  pose proof Hstore as (Hlook & _).
  assert (Hfresh' : fresh_batch env repoTracker (List.rev revisions) w).
  { destruct Hfresh as (Hnd & Hnone & Hids & Hinj).
    split; [rewrite map_rev; apply NoDup_rev; exact Hnd |].
    split; [intros r Hin; apply Hnone, in_rev, Hin |].
    split; [intros u r Hu Hin; apply Hids; [exact Hu | apply in_rev, Hin] |].
    intros a b Ha Hb. apply Hinj; apply in_rev; assumption. }
  destruct (batch_loop (List.rev revisions) None w
              (fun r Hr => Hres r (proj2 (in_rev _ _) Hr)) Hinv Hfresh')
    as (added & newb & nv' & w' & Hloop & _ & Hvs & Hb & Hrs & Hidsa & Hall
        & Hown).
  assert (Hresult : exists result,
             StoreRevisions env repoTracker revisions w
             = Ret (result, None) w').
  { unfold StoreRevisions. rewrite (bind_Ret _ _ _ _ _ Hloop).
    destruct nv' as [nv |]; [| eexists; reflexivity].
    unfold version_FindOne. rewrite Hlook. eexists. reflexivity. }
  destruct Hresult as (result & Hrun).
  exists result, added, w'. split; [exact Hrun |]. split; [exact Hvs |].
  split; [rewrite Hrs, map_rev; reflexivity |].
  rewrite Forall_forall in Hall, Hown. apply Forall_forall.
  intros s Hs. destruct (Hall s Hs) as (Hp & Hkind).
  split; [exact Hp |].
  destruct (res (Version.Revision s)) as [c | e] eqn:Hk; [exact Hkind |].
  split; [exact Hkind |].
  intros b Hin Hbv. rewrite Hb in Hin. apply in_app_or in Hin.
  destruct Hin as [Hin | Hin]; [exact Hin | exfalso].
  destruct (Hown b Hin) as (u & c & Hu & Hbu & Hku).
  destruct (paired_maps Version.Id (version_id env p) Version.Revision
              Revision.Revision added (List.rev revisions) Hidsa Hrs s Hs)
    as (rs & Hrs_in & Hs_id & Hs_r).
  destruct (paired_maps Version.Id (version_id env p) Version.Revision
              Revision.Revision added (List.rev revisions) Hidsa Hrs u Hu)
    as (ru & Hru_in & Hu_id & Hu_r).
  destruct Hfresh' as (_ & _ & _ & Hinj).
  assert (E : Revision.Revision rs = Revision.Revision ru).
  { apply Hinj; [exact Hrs_in | exact Hru_in |].
    fold p. rewrite Hs_id, Hu_id, <- Hbv, <- Hbu. reflexivity. }
  rewrite Hs_r, Hu_r in E. rewrite E in Hk. rewrite Hk in Hku.
  discriminate Hku.
Qed.

End Batch.


(** ** The ignore check *)


(** ** The sanity check of the order number, in the loop *)

Lemma sanity_rejects_with (env : Env) (n : Z) (p r : string) (w : World)
    (latest : Version.t) :
  FindOne_fault env (ByMostRecentSystemRequester p) w = None ->
  run_query (ByMostRecentSystemRequester p) (versions w) = Some latest ->
  n <= Version.RevisionOrderNumber latest \/ Version.Revision latest = r ->
  exists w',
    sanityCheckOrderNum env n p r w = Ret (Some (order_error n r latest)) w' /\
    logs_only w w'.
Proof.
  intros Hf Hq Hbad. unfold sanityCheckOrderNum, order_error.
  erewrite bind_Ret;
    [| unfold version_FindOne; rewrite Hf, Hq; reflexivity].
  cbn iota beta.
  destruct (String.eqb_spec (Version.Revision latest) r) as [E | E].
  - eexists. split; [reflexivity | repeat split].
  - destruct Hbad as [Hle | Heq]; [| contradiction].
    apply Z.leb_le in Hle. rewrite Hle.
    eexists. split; [reflexivity | repeat split].
Qed.

Lemma inconsistent_order_rejected (env : Env) (repoTracker : RepoTracker)
    (rev : Revision.t) (c : Project.t) (latest : Version.t) (ignore : bool)
    (versionErrs : option VersionErrors) (nv : option Version.t)
    (w w1 : World) (v : Version.t) :
  (forall w0, FindOne_fault env
                (ByMostRecentSystemRequester (projectIdentifier repoTracker))
                w0 = None) ->
  shellVersionFromRevision env (RepoTracker_ProjectRef repoTracker) rev w
    = Ret (Some v, None) w1 ->
  run_query (ByMostRecentSystemRequester (projectIdentifier repoTracker))
            (versions w) = Some latest ->
  Version.RevisionOrderNumber v <= Version.RevisionOrderNumber latest
  \/ Version.Revision latest = Revision.Revision rev ->
  exists w2 w3,
    CreateVersionFromConfig env (RepoTracker_ProjectRef repoTracker) (Some c)
      rev ignore versionErrs w
      = Ret (None,
             Some (withMessage
                     (order_error (Version.RevisionOrderNumber v)
                        (Revision.Revision rev) latest)
                     "inconsistent version order")) w2 /\
    versions w2 = versions w /\ builds w2 = builds w /\ tasks w2 = tasks w /\
    StoreRevisions_create env repoTracker rev (Some c) ignore versionErrs nv w
      = Ret (Continue nv) w3 /\
    logs_only w2 w3 /\
    In (mkLog Error "error creating version" (Revision.Revision rev)) (log w3).
Proof.
  intros Hf Hs Hq Hbad.
  destruct (shell_spec env (RepoTracker_ProjectRef repoTracker) rev w)
    as (ov & oe & w1' & Hs' & V1 & B1 & T1 & _).
  rewrite Hs in Hs'. inversion Hs'; subst ov oe w1'. clear Hs'.
  destruct (sanity_rejects_with env (Version.RevisionOrderNumber v)
              (projectIdentifier repoTracker) (Revision.Revision rev) w1
              latest (Hf w1)) as (w2 & Hsan & L2).
  { rewrite V1. exact Hq. }
  { exact Hbad. }
  assert (Hc : CreateVersionFromConfig env (RepoTracker_ProjectRef repoTracker)
                 (Some c) rev ignore versionErrs w
               = Ret (None,
                      Some (withMessage
                              (order_error (Version.RevisionOrderNumber v)
                                 (Revision.Revision rev) latest)
                              "inconsistent version order")) w2).
  { unfold CreateVersionFromConfig. rewrite (bind_Ret _ _ _ _ _ Hs).
    cbn iota beta. unfold projectIdentifier in Hsan.
    rewrite (bind_Ret _ _ _ _ _ Hsan). reflexivity. }
  exists w2,
    (add_log (mkLog Error "error creating version" (Revision.Revision rev)) w2).
  split; [exact Hc |].
  destruct L2 as (V2 & B2 & T2 & _).
  split; [congruence |]. split; [congruence |]. split; [congruence |].
  split.
  { unfold StoreRevisions_create. rewrite (bind_Ret _ _ _ _ _ Hc).
    reflexivity. }
  split; [repeat split |].
  cbn. apply in_or_app. right. left. reflexivity.
Qed.

(** C2, as the code has it — an order number that does not exceed the
    latest stored one, or a revision equal to that of the latest stored
    version, when the lookup of the latest version answers. First, the
    creation of the version: when the shell version of the revision
    carries such a number or revision, CreateVersionFromConfig fails with
    the error of the check (a duplicate revision is refused, else the
    order number is reported with the latest one), wrapped as
    "inconsistent version order", and stores nothing: no Version, no
    Build, no Task; the end of the round logs "error creating version" and
    ends with [continue], the newest version being the one of the rounds
    before. Second, the round: for a revision for which the lookup of an
    existing Version returns none, whose config resolves and whose changed
    files can be fetched, the round ends with [continue], has stored
    nothing and logged the error, and the loop goes on with the next
    revision: the error is not returned and the rest of the batch is not
    aborted. Third, the check is part of the creation from a config only:
    there is a run in which the config of the revision is missing and the
    stub gets an order number below that of the latest stored Version, and
    the stub is stored. *)
Theorem C2_inconsistent_order_skips_revision (env : Env)
    (repoTracker : RepoTracker) (rev : Revision.t) (c : Project.t)
    (latest : Version.t) :
  (forall w0, FindOne_fault env
                (ByMostRecentSystemRequester (projectIdentifier repoTracker))
                w0 = None) ->
  (forall (ignore : bool) (versionErrs : option VersionErrors)
          (nv : option Version.t) (w w1 : World) (v : Version.t),
     shellVersionFromRevision env (RepoTracker_ProjectRef repoTracker) rev w
       = Ret (Some v, None) w1 ->
     run_query (ByMostRecentSystemRequester (projectIdentifier repoTracker))
               (versions w) = Some latest ->
     Version.RevisionOrderNumber v <= Version.RevisionOrderNumber latest
     \/ Version.Revision latest = Revision.Revision rev ->
     exists w2 w3,
       CreateVersionFromConfig env (RepoTracker_ProjectRef repoTracker)
         (Some c) rev ignore versionErrs w
         = Ret (None,
                Some (withMessage
                        (order_error (Version.RevisionOrderNumber v)
                           (Revision.Revision rev) latest)
                        "inconsistent version order")) w2 /\
       versions w2 = versions w /\ builds w2 = builds w /\
       tasks w2 = tasks w /\
       StoreRevisions_create env repoTracker rev (Some c) ignore versionErrs
         nv w = Ret (Continue nv) w3 /\
       logs_only w2 w3 /\
       In (mkLog Error "error creating version" (Revision.Revision rev))
          (log w3)) /\
  (forall (nv : option Version.t) (w : World),
     (exists oe,
        version_FindOne env
          (ByProjectIdAndRevision (projectIdentifier repoTracker)
             (Revision.Revision rev)) (started rev w)
        = Ret (None, oe) (started rev w)) ->
     (forall w0, GetProjectConfig env repoTracker (Revision.Revision rev) w0
                 = Ret (Some c, None) w0) ->
     (forall w0, snd (GetChangedFiles (RepoTracker_RepoPoller repoTracker)
                        (Revision.Revision rev) w0) = None) ->
     run_query (ByMostRecentSystemRequester (projectIdentifier repoTracker))
               (versions w) = Some latest ->
     (forall w0, logs_only w w0 ->
        exists v w1,
          shellVersionFromRevision env (RepoTracker_ProjectRef repoTracker)
            rev w0 = Ret (Some v, None) w1 /\
          (Version.RevisionOrderNumber v <= Version.RevisionOrderNumber latest
           \/ Version.Revision latest = Revision.Revision rev)) ->
     exists w',
       StoreRevisions_revision env repoTracker rev nv w
         = Ret (Continue nv) w' /\
       versions w' = versions w /\ builds w' = builds w /\
       tasks w' = tasks w /\
       In (mkLog Error "error creating version" (Revision.Revision rev))
          (log w') /\
       forall rest,
         StoreRevisions_loop env repoTracker (rev :: rest) nv w
         = StoreRevisions_loop env repoTracker rest nv w') /\
  (exists env0 tracker0 rev0 w0 latest0 stub w',
     run_query (ByMostRecentSystemRequester (projectIdentifier tracker0))
               (versions w0) = Some latest0 /\
     StoreRevisions_revision env0 tracker0 rev0 None w0
       = Ret (Continue (Some stub)) w' /\
     Version.RevisionOrderNumber stub < Version.RevisionOrderNumber latest0 /\
     Version.Errors stub <> [] /\
     versions w' = versions w0 ++ [stub]).
Proof.
  intros Hf. split; [| split].
  - intros ignore versionErrs nv w w1 v Hs Hq Hbad.
    exact (inconsistent_order_rejected env repoTracker rev c latest ignore
             versionErrs nv w w1 v Hf Hs Hq Hbad).
  - intros nv w (oe & Hfind) Hconfig Hchanged Hq Hshell.
    set (wl := world_of (grip_WrapError Error oe
                           "problem looking up version for project"
                           (Revision.Revision rev) (started rev w))).
    assert (Hwl : grip_WrapError Error oe
                    "problem looking up version for project"
                    (Revision.Revision rev) (started rev w) = Ret tt wl).
    { unfold wl. destruct oe; reflexivity. }
    assert (Ll : logs_only w wl).
    { unfold wl. destruct oe; repeat split. }
    destruct (Hshell wl Ll) as (v & w1 & Hs & Hbad).
    assert (Hcreate : forall ignore,
               exists w',
                 StoreRevisions_create env repoTracker rev (Some c) ignore
                   None nv wl = Ret (Continue nv) w' /\
                 versions w' = versions w /\ builds w' = builds w /\
                 tasks w' = tasks w /\
                 In (mkLog Error "error creating version"
                       (Revision.Revision rev)) (log w')).
    { intros ignore.
      destruct (inconsistent_order_rejected env repoTracker rev c latest
                  ignore None nv wl w1 v Hf Hs)
        as (w2 & w3 & _ & V2 & B2 & T2 & Hrun & (V3 & B3 & T3 & _) & Hlog).
      - destruct Ll as (V & _). rewrite V. exact Hq.
      - exact Hbad.
      - exists w3. split; [exact Hrun |].
        destruct Ll as (V & B & T & _).
        split; [congruence |]. split; [congruence |]. split; [congruence |].
        exact Hlog. }
    assert (Hround : exists ignore,
               StoreRevisions_revision env repoTracker rev nv w
               = StoreRevisions_create env repoTracker rev (Some c) ignore
                   None nv wl).
    { unfold StoreRevisions_revision.
      erewrite (bind_Ret (grip_log _ _ _)) by reflexivity.
      fold (started rev w).
      unfold projectIdentifier in Hfind.
      rewrite (bind_Ret _ _ _ _ _ Hfind). cbn iota beta.
      rewrite (bind_Ret _ _ _ _ _ Hwl).
      rewrite (bind_Ret _ _ _ _ _ (Hconfig wl)). cbn iota beta.
      unfold StoreRevisions_ignore.
      destruct (Nat.ltb 0 (List.length (Project.Ignore c))).
      - unfold bind at 1. unfold ask.
        pose proof (Hchanged wl) as Hc.
        destruct (GetChangedFiles _ _ _) as [filenames [e |]];
          [discriminate Hc |].
        eexists. reflexivity.
      - eexists. reflexivity. }
    destruct Hround as (ignore & Hround).
    destruct (Hcreate ignore) as (w' & Hrun & V & B & T & Hlog).
    exists w'. split; [rewrite Hround; exact Hrun |].
    split; [exact V |]. split; [exact B |]. split; [exact T |].
    split; [exact Hlog |].
    intros rest. cbn [StoreRevisions_loop].
    rewrite (bind_Ret _ _ _ _ _ (eq_trans Hround Hrun)). reflexivity.
  - exists Sample.env, Sample.tracker_r1_missing, Sample.r1,
      Sample.ahead_world.
    eexists _, _, _.
    split; [vm_compute; reflexivity |].
    split; [vm_compute; reflexivity |].
    split; [vm_compute; reflexivity |].
    split; [discriminate | reflexivity].
Qed.

(** ** The claims on concrete batches *)


(** C7 as stated fails for a prior Version that recorded an activation
    time without being activated: the prior Version of the project has,
    for linux-64, the status of a build that is to be activated at 1000
    and is not activated yet. The build of the new Version is not
    staggered after it: its activation time is the current time, 5000,
    not 1000 plus the batch time of 60 minutes. The scan of
    createVersionItems skips a status that is not activated, whatever
    Version the lookup returns. *)
Lemma C7_counterexample :
  map (fun v => (Version.Identifier v,
                 map (fun bs => (BuildStatus.BuildVariant bs,
                                 BuildStatus.Activated bs,
                                 BuildStatus.ActivateAt bs))
                     (Version.BuildVariants v)))
      (versions Sample.pending_world)
    = [("proj", [("linux-64", false, 1000)])] /\
  GetBatchTime Sample.ref Sample.linux = 60 /\
  lastActivationOf (hd_error (versions Sample.pending_world)) "linux-64"
    = None /\
  (exists w',
     createVersionItems_variant Sample.env Sample.ref (Sample.config []) []
       (Sample.version_of "r1" 2 []) Sample.linux Sample.pending_world
     = Ret (Version.add_build "proj_r1_linux-64"
              (BuildStatus.mk "linux-64" false 5000 "proj_r1_linux-64")
              (Sample.version_of "r1" 2 []), None) w') /\
  (exists result w',
     StoreRevisions Sample.env Sample.tracker_plain [Sample.r1]
       Sample.pending_world = Ret (result, None) w' /\
     map (fun v => (Version.Revision v,
                    map BuildStatus.ActivateAt (Version.BuildVariants v)))
         (versions w')
       = [("r0", [1000]); ("r1", [5000])]) /\
  5000 <> 1000 + 60 * 60000000000.
Proof.
  split; [reflexivity |]. split; [reflexivity |]. split; [reflexivity |].
  split; [eexists; vm_compute; reflexivity |].
  split; [eexists _, _; split; vm_compute; reflexivity |].
  discriminate.
Qed.

(** C2 on the store whose counter is at 2 while the latest stored version
    has order number 3: the version of r1 gets the number 3; its creation
    fails with the two numbers in the message and stores nothing, and the
    round of r1 ends with [continue]. *)
Lemma C2_inconsistent_order_skips_revision_witness :
  (exists w2 w3,
     CreateVersionFromConfig Sample.env Sample.ref (Some (Sample.config []))
       Sample.r1 false None Sample.stale_world
       = Ret (None,
              Some (withMessage
                      (errorString
                         "Commit order number isn't greater than last stored version's: 3 <= 3")
                      "inconsistent version order")) w2 /\
     versions w2 = versions Sample.stale_world /\
     StoreRevisions_create Sample.env Sample.tracker_plain Sample.r1
       (Some (Sample.config [])) false None None Sample.stale_world
       = Ret (Continue None) w3) /\
  (exists w',
     StoreRevisions_revision Sample.env Sample.tracker_plain Sample.r1 None
       Sample.stale_world = Ret (Continue None) w' /\
     versions w' = versions Sample.stale_world /\
     builds w' = [] /\
     In (mkLog Error "error creating version" "r1") (log w')).
Proof.
  destruct (C2_inconsistent_order_skips_revision Sample.env
              Sample.tracker_plain Sample.r1 (Sample.config [])
              (Sample.version_of "r0" 3 []))
    as (Hcreate & Hround & _).
  { intros w0. reflexivity. }
  split.
  - edestruct (Hcreate false None None Sample.stale_world)
      as (w2 & w3 & H1 & H2 & _ & _ & H3 & _).
    + vm_compute. reflexivity.
    + vm_compute. reflexivity.
    + left. vm_compute. discriminate.
    + exists w2, w3. split; [exact H1 |]. split; [exact H2 | exact H3].
  - destruct (Hround None Sample.stale_world)
      as (w' & H1 & H2 & H3 & _ & H4 & _).
    + eexists. vm_compute. reflexivity.
    + intros w0. reflexivity.
    + intros w0. reflexivity.
    + vm_compute. reflexivity.
    + intros [vs bs ts rs ss lg] (V & B & T & R & S).
      cbn [versions builds tasks repositories subscriptions] in V, B, T, R, S.
      subst vs bs ts rs ss.
      eexists _, _. split; [reflexivity |].
      left. vm_compute. discriminate.
    + exists w'. split; [exact H1 |]. split; [exact H2 |].
      split; [rewrite H3; reflexivity | exact H4].
Defined.



(** * The REST models of the notifications *)

Lemma append_all_spec {A B : Type} (f : A -> B) (xs : list A) :
  forall out : slice B,
    append_all f xs out
    = match xs with
      | [] => out
      | _ => Some (range out ++ map f xs)
      end.
Proof.
  unfold append_all.
  induction xs as [| x xs IH]; intros out; [reflexivity |].
  cbn [fold_left]. rewrite IH.
  destruct xs as [| y ys]; destruct out as [l |]; cbn [append range map app];
    rewrite <- ?app_assoc; reflexivity.
Qed.

Lemma append_all_back {A B : Type} (f : A -> B) (g : B -> A) (s : slice A) :
  (forall a, g (f a) = a) ->
  append_all g
    (range (match s with
            | Some xs => append_all f xs (Some [])
            | None => None
            end)) None
  = nil_if_empty s.
Proof.
  intros Hgf. destruct s as [xs |]; [| reflexivity].
  rewrite !append_all_spec. destruct xs as [| x xs]; [reflexivity |].
  cbn [range app map nil_if_empty]. rewrite Hgf, map_map.
  rewrite (map_ext _ (fun a => a)) by exact Hgf. rewrite map_id. reflexivity.
Qed.

Lemma append_all_fresh_back {A B : Type} (f : A -> B) (g : B -> A)
    (s : slice A) :
  (forall a, g (f a) = a) ->
  append_all g (range (append_all f (range s) None)) None = nil_if_empty s.
Proof.
  intros Hgf. rewrite !append_all_spec.
  destruct s as [[| x xs] |]; try reflexivity.
  cbn [range app map nil_if_empty]. rewrite Hgf, map_map.
  rewrite (map_ext _ (fun a => a)) by exact Hgf. rewrite map_id. reflexivity.
Qed.

(** X15: the round trip of a JIRA comment, a JIRA issue and an e-mail.
    When converting a string to an APIString and back gives the string,
    BuildFromService followed by ToService returns a pointer to the message
    it was given, by value or by pointer: exactly for a JIRA comment,
    whatever the receiver held; for a JIRA issue and an e-mail built into a
    receiver without components, labels or recipients, up to slices that
    were empty and come back nil. The fields map, the callback and the
    headers come back as they were. *)
Theorem notification_round_trips (X : Externals) :
  strings_round_trip X ->
  (forall (c0 : APIJiraComment.t X) (comment : JIRAComment.t),
     exists c,
       APIJiraComment_BuildFromService X c0 (JIRAComment_value comment)
         = Value (c, None) /\
       APIJiraComment_BuildFromService X c0
         (JIRAComment_pointer (Some comment)) = Value (c, None) /\
       APIJiraComment_ToService X c
         = (JIRAComment_pointer (Some comment), None)) /\
  (forall (i0 : APIJiraIssue.t X) (issue : JiraIssue.t X),
     APIJiraIssue.Components i0 = None ->
     APIJiraIssue.Labels i0 = None ->
     exists i,
       APIJiraIssue_BuildFromService X i0 (JiraIssue_value issue)
         = Value (i, None) /\
       APIJiraIssue_BuildFromService X i0 (JiraIssue_pointer (Some issue))
         = Value (i, None) /\
       APIJiraIssue_ToService X i
         = (JiraIssue_pointer (Some (JiraIssue_back issue)), None)) /\
  (forall (n0 : APIEmail.t X) (email : Email.t X),
     APIEmail.Recipients n0 = None ->
     exists n,
       APIEmail_BuildFromService X n0 (Email_value email) = Value (n, None) /\
       APIEmail_BuildFromService X n0 (Email_pointer (Some email))
         = Value (n, None) /\
       APIEmail_ToService X n = (Email_pointer (Some (Email_back email)), None)).
Proof.
  intros Hrt. split; [| split].
  - intros c0 [issueID body]. eexists. split; [reflexivity |].
    split; [reflexivity |].
    unfold APIJiraComment_ToService. cbn. rewrite !Hrt. reflexivity.
  - intros i0 issue Hc Hl. eexists. split; [reflexivity |].
    split; [reflexivity |].
    unfold APIJiraIssue_ToService, JiraIssue_back.
    cbn [APIJiraIssue.IssueKey APIJiraIssue.Project APIJiraIssue.Summary
         APIJiraIssue.Description APIJiraIssue.Reporter APIJiraIssue.Assignee
         APIJiraIssue.Type_ APIJiraIssue.Components APIJiraIssue.Labels
         APIJiraIssue.Fields APIJiraIssue.Callback].
    rewrite !Hrt, Hc, Hl.
    rewrite (append_all_back (ToAPIString X) (FromAPIString X)
               (JiraIssue.Components issue) Hrt).
    rewrite (append_all_back (ToAPIString X) (FromAPIString X)
               (JiraIssue.Labels issue) Hrt).
    reflexivity.
  - intros n0 email Hr. eexists. split; [reflexivity |].
    split; [reflexivity |].
    unfold APIEmail_ToService, Email_back.
    cbn [APIEmail.From APIEmail.Recipients APIEmail.Subject APIEmail.Body
         APIEmail.PlainTextContents APIEmail.Headers].
    rewrite !Hrt, Hr.
    rewrite (append_all_fresh_back (ToAPIString X) (FromAPIString X)
               (Email.Recipients email) Hrt).
    reflexivity.
Qed.

(** ** Slack attachments *)

Lemma APISlackAttachment_fields_present (X : Externals)
    (fields : list (option SlackAttachmentField.t)) :
  Forall (fun f => f <> None) fields ->
  forall out,
    APISlackAttachment_fields X fields out
    = Value (match fields with
             | [] => out
             | _ => Some (range out ++ map (api_field_pointer X) fields)
             end, None).
Proof.
  induction 1 as [| f fields Hf _ IH]; intros out; [reflexivity |].
  destruct f as [field |]; [| contradiction].
  cbn [APISlackAttachment_fields APISlackAttachmentField_BuildFromService].
  rewrite IH.
  destruct fields as [| g gs]; destruct out as [l |];
    cbn [append range map app api_field_pointer option_map];
    rewrite <- ?app_assoc; reflexivity.
Qed.

Lemma APISlackAttachment_fields_nil_pointer (X : Externals)
    (fields : list (option SlackAttachmentField.t)) :
  ~ Forall (fun f => f <> None) fields ->
  forall out,
    APISlackAttachment_fields X fields out
    = Panics "nil pointer dereference: *v".
Proof.
  induction fields as [| f fields IH]; intros Hn out.
  - exfalso. apply Hn. constructor.
  - destruct f as [field |]; [| reflexivity].
    cbn [APISlackAttachment_fields APISlackAttachmentField_BuildFromService].
    apply IH. intros Hall. apply Hn. constructor; [discriminate | exact Hall].
Qed.

Lemma APISlackAttachment_service_fields_back (X : Externals)
    (fields : list (option SlackAttachmentField.t)) :
  strings_round_trip X ->
  Forall (fun f => f <> None) fields ->
  forall out,
    APISlackAttachment_service_fields X (map (api_field_pointer X) fields) out
    = Value (match fields with
             | [] => out
             | _ => Some (range out ++ fields)
             end, None).
Proof.
  intros Hrt. induction 1 as [| f fields Hf _ IH]; intros out; [reflexivity |].
  destruct f as [[title value short] |]; [| contradiction].
  cbn [map api_field_pointer option_map APISlackAttachment_service_fields
       APISlackAttachmentField_ToService api_field
       APISlackAttachmentField.Title APISlackAttachmentField.Value
       APISlackAttachmentField.Short SlackAttachmentField.Title
       SlackAttachmentField.Value SlackAttachmentField.Short].
  rewrite !Hrt.
  change (map (option_map (api_field X)) fields)
    with (map (api_field_pointer X) fields).
  rewrite IH.
  destruct fields as [| g gs]; destruct out as [l |];
    cbn [append range app]; rewrite <- ?app_assoc; reflexivity.
Qed.

(** X16: the round trip of a Slack attachment and of its fields. A field
    comes back exactly. An attachment none of whose fields is a nil pointer,
    built into a receiver without fields and markdown entries, comes back
    from ToService with its fields and markdown entries in order, up to
    slices that were empty and come back nil. An attachment with a nil
    field pointer makes BuildFromService panic. *)
Theorem SlackAttachment_round_trip (X : Externals)
    (a0 : APISlackAttachment.t X) (attachment : SlackAttachment.t) :
  strings_round_trip X ->
  APISlackAttachment.Fields a0 = None ->
  APISlackAttachment.MarkdownIn a0 = None ->
  (forall (f0 : APISlackAttachmentField.t X) (field : SlackAttachmentField.t),
     APISlackAttachmentField_BuildFromService X f0
       (SlackAttachmentField_value field) = Value (api_field X field, None) /\
     APISlackAttachmentField_BuildFromService X f0
       (SlackAttachmentField_pointer (Some field))
       = Value (api_field X field, None) /\
     APISlackAttachmentField_ToService X (api_field X field)
       = (SlackAttachmentField_pointer (Some field), None)) /\
  (fields_present attachment ->
   exists a,
     APISlackAttachment_BuildFromService X a0 (SlackAttachment_value attachment)
       = Value (a, None) /\
     APISlackAttachment_BuildFromService X a0
       (SlackAttachment_pointer (Some attachment)) = Value (a, None) /\
     APISlackAttachment_ToService X a
       = Value (SlackAttachment_pointer
                  (Some (SlackAttachment_back attachment)), None)) /\
  (~ fields_present attachment ->
   APISlackAttachment_BuildFromService X a0 (SlackAttachment_value attachment)
   = Panics "nil pointer dereference: *v").
Proof.
  intros Hrt Hf0 Hm0. split; [| split].
  - intros f0 [title value short]. split; [reflexivity |].
    split; [reflexivity |].
    unfold APISlackAttachmentField_ToService. cbn. rewrite !Hrt. reflexivity.
  - intros Hpresent. unfold fields_present in Hpresent.
    destruct attachment as [color fallback an ai title tl text fields md footer].
    cbn [SlackAttachment.Fields] in Hpresent.
    unfold APISlackAttachment_BuildFromService.
    cbn [SlackAttachment.Fields SlackAttachment.MarkdownIn
         SlackAttachment.Color SlackAttachment.Fallback
         SlackAttachment.AuthorName SlackAttachment.AuthorIcon
         SlackAttachment.Title SlackAttachment.TitleLink SlackAttachment.Text
         SlackAttachment.Footer].
    destruct fields as [fields |].
    + cbn [range] in Hpresent.
      rewrite (APISlackAttachment_fields_present X fields Hpresent).
      eexists. split; [reflexivity |]. split; [reflexivity |].
      unfold APISlackAttachment_ToService, SlackAttachment_back.
      assert (Hfields :
                APISlackAttachment_service_fields X
                  (range (match fields with
                          | [] => Some []
                          | _ :: _ =>
                              Some (range (Some [])
                                    ++ map (api_field_pointer X) fields)
                          end)) None
                = Value (nil_if_empty (Some fields), None)).
      { destruct fields as [| f fs]; [reflexivity |].
        cbn [range app].
        rewrite (APISlackAttachment_service_fields_back X (f :: fs) Hrt
                   Hpresent).
        reflexivity. }
      destruct md as [ms |];
        cbn [APISlackAttachment.Fields APISlackAttachment.MarkdownIn
             APISlackAttachment.Color APISlackAttachment.Fallback
             APISlackAttachment.AuthorName APISlackAttachment.AuthorIcon
             APISlackAttachment.Title APISlackAttachment.TitleLink
             APISlackAttachment.Text APISlackAttachment.Footer
             SlackAttachment.Fields SlackAttachment.MarkdownIn
             SlackAttachment.Color SlackAttachment.Fallback
             SlackAttachment.AuthorName SlackAttachment.AuthorIcon
             SlackAttachment.Title SlackAttachment.TitleLink
             SlackAttachment.Text SlackAttachment.Footer];
        rewrite Hfields, !Hrt.
      * rewrite (append_all_back (ToAPIString X) (FromAPIString X) (Some ms)
                   Hrt).
        reflexivity.
      * rewrite Hm0. reflexivity.
    + eexists. split; [reflexivity |]. split; [reflexivity |].
      unfold APISlackAttachment_ToService, SlackAttachment_back.
      destruct md as [ms |];
        cbn [APISlackAttachment.Fields APISlackAttachment.MarkdownIn
             APISlackAttachment.Color APISlackAttachment.Fallback
             APISlackAttachment.AuthorName APISlackAttachment.AuthorIcon
             APISlackAttachment.Title APISlackAttachment.TitleLink
             APISlackAttachment.Text APISlackAttachment.Footer
             SlackAttachment.Fields SlackAttachment.MarkdownIn
             SlackAttachment.Color SlackAttachment.Fallback
             SlackAttachment.AuthorName SlackAttachment.AuthorIcon
             SlackAttachment.Title SlackAttachment.TitleLink
             SlackAttachment.Text SlackAttachment.Footer];
        rewrite Hf0; cbn [range APISlackAttachment_service_fields];
        rewrite !Hrt.
      * rewrite (append_all_back (ToAPIString X) (FromAPIString X) (Some ms)
                   Hrt).
        reflexivity.
      * rewrite Hm0. reflexivity.
  - intros Habsent. unfold fields_present in Habsent.
    unfold APISlackAttachment_BuildFromService.
    destruct (SlackAttachment.Fields attachment) as [fields |].
    + cbn [range] in Habsent.
      rewrite (APISlackAttachment_fields_nil_pointer X fields Habsent).
      reflexivity.
    + exfalso. apply Habsent. constructor.
Qed.

Lemma fields_present_dec (attachment : SlackAttachment.t) :
  {fields_present attachment} + {~ fields_present attachment}.
Proof.
  unfold fields_present. apply Forall_dec.
  intros [f |]; [left; discriminate | right; intros H; apply H; reflexivity].
Qed.

Lemma attachment_builds (X : Externals) (a0 : APISlackAttachment.t X)
    (attachment : SlackAttachment.t) :
  (fields_present attachment ->
   exists a,
     APISlackAttachment_BuildFromService X a0 (SlackAttachment_value attachment)
     = Value (a, None)) /\
  (~ fields_present attachment ->
   APISlackAttachment_BuildFromService X a0 (SlackAttachment_value attachment)
   = Panics "nil pointer dereference: *v").
Proof.
  unfold fields_present, APISlackAttachment_BuildFromService.
  destruct (SlackAttachment.Fields attachment) as [fields |]; cbn [range].
  - split; intros H.
    + rewrite (APISlackAttachment_fields_present X fields H).
      eexists. reflexivity.
    + rewrite (APISlackAttachment_fields_nil_pointer X fields H). reflexivity.
  - split; intros H.
    + eexists. reflexivity.
    + exfalso. apply H. constructor.
Qed.

Lemma APISlack_attachments_cases (X : Externals)
    (attachments : list SlackAttachment.t) :
  forall out,
    (Forall fields_present attachments ->
     exists apis,
       Forall2 (built_from X) attachments apis /\
       APISlack_attachments X attachments out
       = Value (match attachments with
                | [] => out
                | _ => Some (range out ++ apis)
                end, None)) /\
    (~ Forall fields_present attachments ->
     APISlack_attachments X attachments out
     = Panics "nil pointer dereference: *v").
Proof.
  induction attachments as [| a rest IH]; intros out.
  - split.
    + intros _. exists []. split; [constructor | reflexivity].
    + intros H. exfalso. apply H. constructor.
  - cbn [APISlack_attachments].
    destruct (attachment_builds X (APISlackAttachment_zero X) a)
      as [Hok Hpanic].
    destruct (fields_present_dec a) as [Hp | Hp].
    + destruct (Hok Hp) as (api & Hbuild). rewrite Hbuild.
      destruct (IH (append out api)) as [IHok IHpanic]. split.
      * intros Hall. inversion Hall as [| x xs _ Hrest]; subst.
        destruct (IHok Hrest) as (apis & Hf2 & Hrun).
        exists (api :: apis). split; [constructor; assumption |].
        rewrite Hrun.
        destruct rest as [| b bs]; destruct out as [l |];
          inversion Hf2; subst; cbn [append range app];
          rewrite <- ?app_assoc; reflexivity.
      * intros Hn. apply IHpanic. intros Hrest. apply Hn.
        constructor; assumption.
    + rewrite (Hpanic Hp). split; [| reflexivity].
      intros Hall. inversion Hall; subst. contradiction.
Qed.

(** X17: the conversion of a Slack message. BuildFromService of APISlack
    never returns an error for a message.Slack: when no field of its
    attachments is a nil pointer it converts the target, the text and every
    attachment, in order, each as it is built in a fresh receiver, and a
    message without attachments leaves the attachments of the receiver as
    they were; otherwise it panics. The way back does not exist: ToService
    always returns an error and no value. *)
Theorem APISlack_BuildFromService_total (X : Externals) (n0 : APISlack.t X)
    (slack : Slack.t) :
  (forall n e,
     APISlack_BuildFromService X n0 (Slack_value slack) <> Value (n, Some e)) /\
  (Forall fields_present (range (Slack.Attachments slack)) ->
   exists n,
     APISlack_BuildFromService X n0 (Slack_value slack) = Value (n, None) /\
     APISlack_BuildFromService X n0 (Slack_pointer (Some slack))
       = Value (n, None) /\
     APISlack.Target n = ToAPIString X (Slack.Target slack) /\
     APISlack.Msg n = ToAPIString X (Slack.Msg slack) /\
     (Slack.Attachments slack = None ->
      APISlack.Attachments n = APISlack.Attachments n0) /\
     (Slack.Attachments slack <> None ->
      APISlack.Attachments n <> None /\
      Forall2 (built_from X) (range (Slack.Attachments slack))
              (range (APISlack.Attachments n)))) /\
  (~ Forall fields_present (range (Slack.Attachments slack)) ->
   APISlack_BuildFromService X n0 (Slack_value slack)
   = Panics "nil pointer dereference: *v") /\
  (forall n, fst (APISlack_ToService X n) = nil_interface
             /\ snd (APISlack_ToService X n) <> None).
Proof.
  unfold APISlack_BuildFromService.
  destruct (Slack.Attachments slack) as [attachments |] eqn:Ha; cbn [range].
  - destruct (APISlack_attachments_cases X attachments (Some []))
      as [Hok Hpanic].
    split; [| split; [| split]].
    + intros n e Hrun.
      destruct (Forall_dec fields_present fields_present_dec attachments)
        as [Hall | Hall].
      * destruct (Hok Hall) as (apis & _ & Heq). rewrite Heq in Hrun.
        discriminate Hrun.
      * rewrite (Hpanic Hall) in Hrun. discriminate Hrun.
    + intros Hall. destruct (Hok Hall) as (apis & Hf2 & Heq). rewrite Heq.
      eexists. split; [reflexivity |]. split; [reflexivity |].
      split; [reflexivity |]. split; [reflexivity |].
      split; [discriminate |]. intros _. cbn [APISlack.Attachments].
      destruct attachments as [| a rest].
      * inversion Hf2; subst. split; [discriminate | constructor].
      * split; [discriminate | exact Hf2].
    + intros Hall. rewrite (Hpanic Hall). reflexivity.
    + intros n. split; [reflexivity | discriminate].
  - split; [| split; [| split]].
    + intros n e Hrun. discriminate Hrun.
    + intros _. eexists. split; [reflexivity |]. split; [reflexivity |].
      split; [reflexivity |]. split; [reflexivity |].
      split; [reflexivity |]. intros Hne. contradiction.
    + intros Hn. exfalso. apply Hn. constructor.
    + intros n. split; [reflexivity | discriminate].
Qed.

(** X18: conversions into a receiver that was used before. A JIRA issue
    without components (or labels) leaves the components (or labels) of the
    receiver as they were, so the receiver keeps those of the issue built
    before; and the recipients of an e-mail are appended to the recipients
    the receiver already has, so building the same e-mail twice into one
    receiver doubles its recipients. *)
Theorem BuildFromService_reuses_receiver_slices (X : Externals) :
  (forall (i0 i : APIJiraIssue.t X) (issue : JiraIssue.t X),
     APIJiraIssue_BuildFromService X i0 (JiraIssue_value issue)
       = Value (i, None) ->
     (JiraIssue.Components issue = None ->
      APIJiraIssue.Components i = APIJiraIssue.Components i0) /\
     (JiraIssue.Labels issue = None ->
      APIJiraIssue.Labels i = APIJiraIssue.Labels i0)) /\
  (forall (n0 n : APIEmail.t X) (email : Email.t X),
     APIEmail_BuildFromService X n0 (Email_value email) = Value (n, None) ->
     range (APIEmail.Recipients n)
     = range (APIEmail.Recipients n0)
       ++ map (ToAPIString X) (range (Email.Recipients email))) /\
  (forall (n0 n1 n2 : APIEmail.t X) (email : Email.t X),
     APIEmail_BuildFromService X n0 (Email_value email) = Value (n1, None) ->
     APIEmail_BuildFromService X n1 (Email_value email) = Value (n2, None) ->
     range (APIEmail.Recipients n2)
     = range (APIEmail.Recipients n0)
       ++ map (ToAPIString X) (range (Email.Recipients email))
       ++ map (ToAPIString X) (range (Email.Recipients email))).
Proof.
  assert (Hemail : forall (n0 n : APIEmail.t X) (email : Email.t X),
             APIEmail_BuildFromService X n0 (Email_value email)
               = Value (n, None) ->
             range (APIEmail.Recipients n)
             = range (APIEmail.Recipients n0)
               ++ map (ToAPIString X) (range (Email.Recipients email))).
  { intros n0 n email H. cbn in H. injection H as <-.
    cbn [APIEmail.Recipients]. rewrite append_all_spec.
    destruct (range (Email.Recipients email)) as [| r rs];
      [cbn [map]; rewrite app_nil_r; reflexivity | reflexivity]. }
  split; [| split].
  - intros i0 i issue H. cbn in H. injection H as <-. split.
    + intros ->. reflexivity.
    + intros ->. reflexivity.
  - exact Hemail.
  - intros n0 n1 n2 email H1 H2.
    rewrite (Hemail n1 n2 email H2), (Hemail n0 n1 email H1), <- app_assoc.
    reflexivity.
Qed.

(** * The notification routes *)

Lemma supported_target_cases (t : string) :
  supported_target t = true ->
  t = "jira_comment"%string \/ t = "jira_issue"%string \/ t = "slack"%string
  \/ t = "email"%string.
Proof.
  unfold supported_target. cbn [existsb]. intros H.
  repeat (apply orb_true_iff in H; destruct H as [H | H];
          [apply String.eqb_eq in H; tauto |]).
  discriminate H.
Qed.

(** X19: how Parse chooses the handler. The route returns an error exactly
    when the target of the request is none of jira_comment, jira_issue,
    slack and email (a request without the variable included), and then
    leaves its handler as it was. For one of the four it takes a fresh
    handler of that target and returns nil, whatever the parse of the
    payload returned: the handler holds a payload exactly when the body
    could be read. *)
Theorem notificationPostHandler_Parse_dispatch (X : Externals)
    (environment : Route X) (h : notificationPostHandler X) (r : Request) :
  (supported_target (GetVars (Vars r) "target_id") = false ->
   notificationPostHandler_Parse X environment h r
   = (h, Some (errorString
                 ("'" ++ GetVars (Vars r) "target_id"
                  ++ "' is not a supported {target_id}")%string))) /\
  (supported_target (GetVars (Vars r) "target_id") = true ->
   exists handler,
     notificationPostHandler_Parse X environment h r = (Some handler, None) /\
     target_of handler = GetVars (Vars r) "target_id" /\
     (parsed handler = true <-> snd (Body r) = None)).
Proof.
  unfold notificationPostHandler_Parse, supported_target.
  cbn [existsb]. rewrite orb_false_r.
  set (t := GetVars (Vars r) "target_id").
  assert (Hbody : forall (API : Type) (zero : API)
                    (unmarshal : string -> API -> API * option error),
             match payload (fst (target_Parse X zero unmarshal
                                   (makeTargetHandler X) r)) with
             | Some _ => true
             | None => false
             end = true <-> snd (Body r) = None).
  { intros API zero unmarshal. unfold target_Parse.
    destruct (Body r) as [b [e |]]; cbn; split; congruence. }
  destruct (String.eqb t "jira_comment") eqn:E1;
    [| destruct (String.eqb t "jira_issue") eqn:E2;
       [| destruct (String.eqb t "slack") eqn:E3;
          [| destruct (String.eqb t "email") eqn:E4]]];
    cbn [orb]; (split; [intros H; try discriminate H; try reflexivity |
                        intros H; try discriminate H]).
  - apply String.eqb_eq in E1. cbn [RouteHandler_Parse].
    unfold jiraCommentNotificationPostHandler_Parse.
    pose proof (Hbody _ (APIJiraComment_zero X) (Unmarshal_APIJiraComment environment)) as Hb.
    destruct (target_Parse X _ _ (makeTargetHandler X) r) as [t' err].
    cbn [fst] in Hb |- *. eexists. split; [reflexivity |].
    split; [symmetry; exact E1 | exact Hb].
  - apply String.eqb_eq in E2. cbn [RouteHandler_Parse].
    unfold jiraIssueNotificationPostHandler_Parse.
    pose proof (Hbody _ (APIJiraIssue_zero X) (Unmarshal_APIJiraIssue environment)) as Hb.
    destruct (target_Parse X _ _ (makeTargetHandler X) r) as [t' err].
    cbn [fst] in Hb |- *. eexists. split; [reflexivity |].
    split; [symmetry; exact E2 | exact Hb].
  - apply String.eqb_eq in E3. cbn [RouteHandler_Parse].
    unfold slackNotificationPostHandler_Parse.
    pose proof (Hbody _ (APISlack_zero X) (Unmarshal_APISlack environment)) as Hb.
    destruct (target_Parse X _ _ (makeTargetHandler X) r) as [t' err].
    cbn [fst] in Hb |- *. eexists. split; [reflexivity |].
    split; [symmetry; exact E3 | exact Hb].
  - apply String.eqb_eq in E4. cbn [RouteHandler_Parse].
    unfold emailNotificationPostHandler_Parse.
    pose proof (Hbody _ (APIEmail_zero X) (Unmarshal_APIEmail environment)) as Hb.
    destruct (target_Parse X _ _ (makeTargetHandler X) r) as [t' err].
    cbn [fst] in Hb |- *. eexists. split; [reflexivity |].
    split; [symmetry; exact E4 | exact Hb].
Qed.

Lemma slack_attachments_error_response (X : Externals)
    (as_ : list (APISlackAttachment.t X)) :
  forall (attachments : slice SlackAttachment.t) (response : Responder),
    slack_attachments X as_ attachments = Value (inr response) ->
    response <> NewJSONResponse.
Proof.
  induction as_ as [| a rest IH]; intros attachments response H.
  - discriminate H.
  - cbn [slack_attachments] in H.
    destruct (APISlackAttachment_ToService X a) as [[i err] | reason];
      [| discriminate H].
    destruct err as [e |].
    + destruct i as [| | | | | | | | [attachment |] | | | | |];
        injection H as <-; discriminate.
    + destruct i as [| | | | | | | | [attachment |] | | | | |];
        try (injection H as <-; discriminate); try discriminate H.
      exact (IH _ _ H).
Qed.

Ltac ran_facts :=
  cbn [ran_handler ran_response ran_sent wrap_ran target_of sender_key fst snd];
  repeat split;
  try (intros; discriminate);
  try (intros; exfalso; congruence);
  try (intros; eexists; eexists; split; reflexivity).

(** X20: a notification is sent exactly when the route answers 200.
    Whenever the Run of a target handler returns, the handler is still of
    its target, and either the response is the empty JSON response and
    exactly one message was handed to the sender the environment has for
    the key of the target, or the response is an error and nothing was
    sent. In particular nothing is sent when the sender cannot be
    fetched. *)
Theorem RouteHandler_Run_sends_iff_ok (X : Externals) (environment : Route X)
    (h : RouteHandler X) (ran : Ran X (RouteHandler X)) :
  RouteHandler_Run X environment h = Value ran ->
  target_of (ran_handler ran) = target_of h /\
  (ran_response ran = NewJSONResponse ->
   exists s c,
     ran_sent ran = [(s, c)] /\
     GetSender environment (sender_key h) = (Some s, None)) /\
  (ran_response ran <> NewJSONResponse -> ran_sent ran = []) /\
  (snd (GetSender environment (sender_key h)) <> None ->
   ran_response ran <> NewJSONResponse).
Proof.
  intros H. destruct h as [t | t | t | t]; cbn [RouteHandler_Run] in H.
  - unfold jiraCommentNotificationPostHandler_Run in H.
    destruct (payload t) as [api |]; [| discriminate H].
    unfold APIJiraComment_ToService, send_with in H. cbn iota beta in H.
    cbn [sender_key].
    destruct (GetSender environment SenderJIRAComment) as [[s |] [e |]];
      cbn [Go_map] in H; try discriminate H; injection H as <-; ran_facts.
  - unfold jiraIssueNotificationPostHandler_Run in H.
    destruct (payload t) as [api |]; [| discriminate H].
    unfold APIJiraIssue_ToService, send_with in H. cbn iota beta in H.
    cbn [sender_key].
    destruct (GetSender environment SenderJIRAIssue) as [[s |] [e |]];
      cbn [Go_map] in H; try discriminate H; injection H as <-; ran_facts.
  - unfold slackNotificationPostHandler_Run in H.
    destruct (payload t) as [api |]; [| discriminate H].
    destruct (slack_attachments X _ _) as [[attachments | response] | reason]
      eqn:Hloop; [| | discriminate H].
    + cbv zeta in H. cbn [sender_key].
      destruct (GetSender environment SenderSlack) as [[s |] [e |]];
        cbn [Go_map] in H; try discriminate H; injection H as <-; ran_facts.
    + pose proof (slack_attachments_error_response X _ _ _ Hloop) as Hne.
      cbn [Go_map] in H. injection H as <-.
      cbn [ran_handler ran_response ran_sent wrap_ran target_of].
      split; [reflexivity |]. split; [intros Hok; contradiction |].
      split; [reflexivity |]. intros _. exact Hne.
  - unfold emailNotificationPostHandler_Run in H.
    destruct (payload t) as [api |]; [| discriminate H].
    unfold APIEmail_ToService, send_with in H. cbn iota beta in H.
    cbn [sender_key].
    destruct (GetSender environment SenderEmail) as [[s |] [e |]];
      cbn [Go_map] in H; try discriminate H; injection H as <-; ran_facts.
Qed.

(** X21: what becomes of the errors of the parse. The route does not look
    at the error of the handler of the target, and that handler drops the
    error of json.Unmarshal. So when the body of a request for one of the
    four targets cannot be read, Parse still returns nil, the handler holds
    no payload, and Run dereferences the nil payload: it panics. And when
    the body of a jira_comment request is read but is not valid JSON, the
    request is served all the same: Run sends the comment with whatever
    json.Unmarshal left in the struct and answers 200. *)
Theorem parse_errors_are_dropped (X : Externals) (environment : Route X)
    (h : notificationPostHandler X) (r : Request) :
  (forall b e,
     supported_target (GetVars (Vars r) "target_id") = true ->
     Body r = (b, Some e) ->
     exists handler reason,
       notificationPostHandler_Parse X environment h r = (Some handler, None) /\
       parsed handler = false /\
       notificationPostHandler_Run X environment (Some handler)
       = Panics reason) /\
  (forall b api e s,
     GetVars (Vars r) "target_id" = "jira_comment"%string ->
     Body r = (b, None) ->
     Unmarshal_APIJiraComment environment b (APIJiraComment_zero X)
       = (api, Some e) ->
     GetSender environment SenderJIRAComment = (Some s, None) ->
     exists handler ran,
       notificationPostHandler_Parse X environment h r = (Some handler, None) /\
       notificationPostHandler_Run X environment (Some handler) = Value ran /\
       ran_response ran = NewJSONResponse /\
       ran_sent ran
       = [(s, JIRACommentMessage
                (FromAPIString X (APIJiraComment.IssueID api))
                (FromAPIString X (APIJiraComment.Body api)))]).
Proof.
  split.
  - intros b e Hsup Hbody.
    unfold notificationPostHandler_Parse.
    destruct (supported_target_cases _ Hsup) as [Ht | [Ht | [Ht | Ht]]];
      rewrite Ht; cbn [String.eqb Ascii.eqb Bool.eqb andb RouteHandler_Parse];
      unfold jiraCommentNotificationPostHandler_Parse,
        jiraIssueNotificationPostHandler_Parse,
        slackNotificationPostHandler_Parse,
        emailNotificationPostHandler_Parse, target_Parse;
      rewrite Hbody; cbn [fst makeTargetHandler];
      eexists; eexists; (split; [reflexivity |]); split; reflexivity.
  - intros b api e s Ht Hbody Hjson Hsender.
    unfold notificationPostHandler_Parse.
    rewrite Ht. cbn [String.eqb Ascii.eqb Bool.eqb andb RouteHandler_Parse].
    unfold jiraCommentNotificationPostHandler_Parse, target_Parse.
    rewrite Hbody, Hjson. cbn [fst].
    eexists. eexists. split; [reflexivity |].
    cbn [notificationPostHandler_Run RouteHandler_Run].
    unfold jiraCommentNotificationPostHandler_Run.
    cbn [payload APIJiraComment_ToService]. unfold send_with.
    rewrite Hsender. cbn [Go_map wrap_ran ran_handler ran_response ran_sent].
    split; [reflexivity |]. split; reflexivity.
Qed.
(** * The Docker client *)

Lemma generateClient_cases (K : Daemon) (h : Host.t) (w : Cloud) :
  (Host.Host h = "" /\
   generateClient K h w
   = Value ((None, Some (errorString "HostIP must not be blank")), w)) \/
  (Host.Host h <> "" /\
   exists cl, client (impl w) = Some cl /\
              generateClient K h w = Value ((Some cl, None), w)) \/
  (Host.Host h <> "" /\ client (impl w) = None /\
   let endpoint := ("tcp://" ++ Host.Host h ++ ":" ++ Sprint_uint (Host.Port h))%string in
   let call := (client_timeout w, NewClient endpoint (apiVersion (impl w))) in
   (exists e,
      NewClient_fault K endpoint (apiVersion (impl w)) w = Some e /\
      generateClient K h w
      = Value ((None,
                Some (withMessage e
                        ("Docker initialize client API call failed at endpoint '"
                         ++ endpoint ++ "'")%string)),
               mkCloud (impl w) (client_http w) (calls w ++ [call])
                 (cloud_log w
                  ++ [(Error, InitializeFailed e endpoint (apiVersion (impl w)))]))) \/
   (NewClient_fault K endpoint (apiVersion (impl w)) w = None /\
    generateClient K h w
    = Value ((Some (mkClient endpoint (apiVersion (impl w))), None),
             mkCloud (set_client (Some (mkClient endpoint (apiVersion (impl w))))
                        (impl w))
               wrapper_http (calls w ++ [call]) (cloud_log w)))).
Proof.
  unfold generateClient.
  destruct (String.eqb (Host.Host h) "") eqn:Hh.
  - left. apply String.eqb_eq in Hh. split; [exact Hh | reflexivity].
  - right. apply String.eqb_neq in Hh.
    unfold dbind, the_impl.
    destruct (client (impl w)) as [cl |] eqn:Hc.
    + left. split; [exact Hh |]. exists cl. split; reflexivity.
    + right. split; [exact Hh |]. split; [reflexivity |].
      cbv zeta. unfold perform.
      destruct (NewClient_fault K _ _ w) as [e |] eqn:He.
      * left. exists e. split; [reflexivity |].
        unfold update, grip, dret. cbn.
        destruct w as [[v hc c s] ch cs l]. cbn in *. subst c. reflexivity.
      * right. split; [reflexivity |]. reflexivity.
Qed.

Lemma same_client_refl (w : Cloud) : same_client w w.
Proof.
  exists []. rewrite app_nil_r. repeat split; auto.
  intros t c cl [].
Qed.

Lemma same_client_trans (w1 w2 w3 : Cloud) :
  same_client w1 w2 -> same_client w2 w3 -> same_client w1 w3.
Proof.
  intros (n1 & E1 & K1 & U1 & N1) (n2 & E2 & K2 & U2 & N2).
  exists (n1 ++ n2). repeat split.
  - rewrite E2, E1, app_assoc. reflexivity.
  - auto.
  - intros t c cl Hin Hc. apply in_app_or in Hin. destruct Hin as [Hin | Hin].
    + apply K2. eapply U1; eauto.
    + eapply U2; eauto.
  - intros cl Hcl. rewrite map_app.
    destruct (N2 cl Hcl) as [H2 | H2].
    + destruct (N1 cl H2) as [H1 | H1]; [left; exact H1 |].
      right. apply in_or_app. left. exact H1.
    + right. apply in_or_app. right. exact H2.
Qed.

Lemma uses_same_client (cl : Client) {A : Type} (m : D A) (w : Cloud) (a : A)
    (w' : Cloud) :
  uses cl m -> client (impl w) = Some cl -> m w = Value (a, w') ->
  same_client w w'.
Proof.
  intros Hu Hc Hm. destruct (Hu w a w' Hc Hm) as (Hc' & new & E & Hn).
  exists new. repeat split.
  - exact E.
  - intros cl0 H0. rewrite Hc in H0. injection H0 as <-. exact Hc'.
  - intros t c cl0 Hin Hcc. rewrite (Hn t c cl0 Hin Hcc). exact Hc'.
  - intros cl0 H0. left. rewrite Hc' in H0. injection H0 as <-. exact Hc.
Qed.

Lemma uses_ret (cl : Client) {A : Type} (a : A) : uses cl (dret a).
Proof.
  intros w a' w' Hc H. injection H as <- <-. split; [exact Hc |].
  exists []. rewrite app_nil_r. split; [reflexivity |]. intros t c cl' [].
Qed.

Lemma uses_panic (cl : Client) {A : Type} (r : string) :
  uses cl (@dpanic A r).
Proof. intros w a w' _ H. discriminate H. Qed.

Lemma uses_bind (cl : Client) {A B : Type} (m : D A) (k : A -> D B) :
  uses cl m -> (forall a, uses cl (k a)) -> uses cl (dbind m k).
Proof.
  intros Hm Hk w b w' Hc H. unfold dbind in H.
  destruct (m w) as [[a w1] | r] eqn:Em; [| discriminate H].
  destruct (Hm w a w1 Hc Em) as (Hc1 & n1 & E1 & U1).
  destruct (Hk a w1 b w' Hc1 H) as (Hc2 & n2 & E2 & U2).
  split; [exact Hc2 |]. exists (n1 ++ n2). split.
  - rewrite E2, E1, app_assoc. reflexivity.
  - intros t c cl' Hin Hcc. apply in_app_or in Hin.
    destruct Hin as [Hin | Hin]; eauto.
Qed.

Lemma uses_the_impl (cl : Client) : uses cl the_impl.
Proof.
  intros w a w' Hc H. injection H as <- <-. split; [exact Hc |].
  exists []. rewrite app_nil_r. split; [reflexivity |]. intros t c cl' [].
Qed.

Lemma uses_grip (cl : Client) (l : LogLevel) (m : DockerMessage) :
  uses cl (grip l m).
Proof.
  intros w a w' Hc H. injection H as <- <-. split; [exact Hc |].
  exists []. cbn. rewrite app_nil_r. split; [reflexivity |].
  intros t c cl' [].
Qed.

Lemma uses_update (cl : Client) (f : dockerClientImpl -> dockerClientImpl) :
  (forall c, client (f c) = client c) -> uses cl (update f).
Proof.
  intros Hf w a w' Hc H. injection H as <- <-. cbn. rewrite Hf.
  split; [exact Hc |].
  exists []. rewrite app_nil_r. split; [reflexivity |]. intros t c cl' [].
Qed.

Lemma uses_perform (cl : Client) {A : Type} (c : Call) (answer : Cloud -> A) :
  (forall cl', call_client c = Some cl' -> cl' = cl) ->
  uses cl (perform c answer).
Proof.
  intros Hcall w a w' Hc H. injection H as <- <-. cbn.
  split; [exact Hc |].
  eexists. split; [reflexivity |].
  intros t c0 cl' [Hin | []] Hcc. injection Hin as <- <-. auto.
Qed.

Lemma uses_generateClient (K : Daemon) (cl : Client) (h : Host.t) :
  uses cl (generateClient K h).
Proof.
  intros w a w' Hc H.
  destruct (generateClient_cases K h w)
    as [(_ & E) | [(_ & cl0 & _ & E) | (_ & Hnone & _)]].
  - rewrite E in H. injection H as <- <-. split; [exact Hc |].
    exists []. rewrite app_nil_r. split; [reflexivity |]. intros t c cl' [].
  - rewrite E in H. injection H as <- <-. split; [exact Hc |].
    exists []. rewrite app_nil_r. split; [reflexivity |]. intros t c cl' [].
  - rewrite Hc in Hnone. discriminate Hnone.
Qed.

Lemma generateClient_cached (K : Daemon) (cl : Client) (h : Host.t)
    (w : Cloud) :
  Host.Host h <> "" -> client (impl w) = Some cl ->
  generateClient K h w = Value ((Some cl, None), w).
Proof.
  intros Hh Hc.
  destruct (generateClient_cases K h w)
    as [(Hb & _) | [(_ & cl0 & Hc0 & E) | (_ & Hnone & _)]].
  - contradiction.
  - rewrite Hc in Hc0. injection Hc0 as <-. exact E.
  - rewrite Hc in Hnone. discriminate Hnone.
Qed.

Lemma changeTimeout_cached (K : Daemon) (cl : Client) (h : Host.t)
    (t : Duration) (w : Cloud) (hc : HTTPClient) :
  Host.Host h <> "" -> client (impl w) = Some cl ->
  httpClient (impl w) = Some hc ->
  changeTimeout K h t w
  = Value ((Some cl, None),
           mkCloud (set_httpClient (Some (mkHTTPClient t (Transport hc)))
                      (impl w))
             (client_http w) (calls w) (cloud_log w)).
Proof.
  intros Hh Hc Hhc. unfold changeTimeout, dbind, the_impl. rewrite Hhc.
  cbn [update].
  rewrite (generateClient_cached K cl h); [| exact Hh | exact Hc].
  cbn. unfold set_client, set_httpClient. cbn. rewrite Hc. reflexivity.
Qed.

Lemma uses_changeTimeout (K : Daemon) (cl : Client) (h : Host.t)
    (t : Duration) :
  Host.Host h <> "" -> uses cl (changeTimeout K h t).
Proof.
  intros Hh w a w' Hc H.
  destruct (httpClient (impl w)) as [hc |] eqn:Hhc.
  - rewrite (changeTimeout_cached K cl h t w hc Hh Hc Hhc) in H.
    injection H as <- <-. cbn. split; [exact Hc |].
    exists []. rewrite app_nil_r. split; [reflexivity |]. intros t0 c cl' [].
  - unfold changeTimeout, dbind, the_impl in H. rewrite Hhc in H.
    discriminate H.
Qed.

Lemma uses_bind_changeTimeout (K : Daemon) (cl : Client) {A : Type}
    (h : Host.t) (t : Duration) (k : option Client * option error -> D A) :
  Host.Host h <> "" -> uses cl (k (Some cl, None)) ->
  uses cl (dbind (changeTimeout K h t) k).
Proof.
  intros Hh Hk w a w' Hc H. unfold dbind in H.
  destruct (httpClient (impl w)) as [hc |] eqn:Hhc.
  - rewrite (changeTimeout_cached K cl h t w hc Hh Hc Hhc) in H.
    assert (Hc1 : client (impl (mkCloud
                     (set_httpClient
                        (Some (mkHTTPClient t (Transport hc))) (impl w))
                     (client_http w) (calls w) (cloud_log w))) = Some cl)
      by exact Hc.
    destruct (Hk _ a w' Hc1 H) as (Hc' & new & E & U).
    split; [exact Hc' |]. exists new. split; [exact E | exact U].
  - unfold changeTimeout, dbind, the_impl in H. rewrite Hhc in H.
    discriminate H.
Qed.

Lemma uses_ioutil_ReadAll (K : Daemon) (cl : Client) (r : option Response) :
  uses cl (ioutil_ReadAll K r).
Proof.
  destruct r as [r |]; [| apply uses_panic].
  apply uses_perform. intros cl' H. discriminate H.
Qed.

#[local] Ltac uses_step :=
  first
    [ apply uses_ret
    | apply uses_panic
    | apply uses_grip
    | apply uses_the_impl
    | apply uses_ioutil_ReadAll
    | apply uses_generateClient
    | apply uses_changeTimeout; assumption
    | apply uses_update; intros; reflexivity
    | apply uses_perform;
      let H := fresh in
      intros ? H; cbn in H; first [discriminate H | injection H as <-; reflexivity]
    | apply uses_bind_changeTimeout; [assumption | cbv beta iota]
    | apply uses_bind; [| intros]
    | match goal with
      | |- uses _ (match ?x with _ => _ end) => destruct x
      | |- uses _ (if ?x then _ else _) => destruct x
      end
    | progress cbv zeta ].

Lemma same_client_generateClient (K : Daemon) (h : Host.t) (w w' : Cloud)
    (cl : option Client) (err : option error) :
  generateClient K h w = Value ((cl, err), w') ->
  same_client w w' /\
  (err = None -> Host.Host h <> "" /\ cl <> None /\ client (impl w') = cl).
Proof.
  intros H.
  destruct (generateClient_cases K h w)
    as [(_ & E) | [(Hh & cl0 & Hc & E) | (Hh & Hnone & [(e & _ & E) | (_ & E)])]];
    rewrite E in H; injection H as <- <- <-.
  - split; [apply same_client_refl | discriminate].
  - split; [apply same_client_refl |]. intros _. repeat split; try assumption.
    discriminate.
  - split; [| discriminate].
    eexists. split; [reflexivity |]. cbn. repeat split.
    + auto.
    + intros t c cl [Hin | []] Hcc. injection Hin as <- <-. discriminate Hcc.
    + intros cl Hcl. left. exact Hcl.
  - split.
    + eexists. split; [reflexivity |]. cbn. repeat split.
      * intros cl Hcl. rewrite Hnone in Hcl. discriminate Hcl.
      * intros t c cl [Hin | []] Hcc. injection Hin as <- <-. discriminate Hcc.
      * intros cl Hcl. injection Hcl as <-. right. left. reflexivity.
    + intros _. repeat split; try assumption. discriminate.
Qed.

Lemma tracks_generateClient (K : Daemon) {A : Type} (h : Host.t)
    (k : option Client * option error -> D A) :
  (forall cl, Host.Host h <> "" -> uses cl (k (Some cl, None))) ->
  (forall cl e w, exists a, k (cl, Some e) w = Value (a, w)) ->
  tracks (dbind (generateClient K h) k).
Proof.
  intros Hok Herr w a w' H. unfold dbind in H.
  destruct (generateClient K h w) as [[[cl err] w1] | r] eqn:E;
    [| discriminate H].
  destruct (same_client_generateClient K h w w1 cl err E) as (Hs & Hnil).
  apply (same_client_trans _ w1); [exact Hs |].
  destruct err as [e |].
  - destruct (Herr cl e w1) as (a0 & E0). rewrite E0 in H.
    injection H as <- <-. apply same_client_refl.
  - destruct (Hnil eq_refl) as (Hh & Hcl & Hc).
    destruct cl as [cl |]; [| contradiction].
    exact (uses_same_client cl _ w1 a w' (Hok cl Hh) Hc H).
Qed.

#[local] Ltac tracks_op :=
  apply tracks_generateClient;
  [ intros cl Hh; cbv beta iota; repeat uses_step
  | intros cl e w; cbv beta iota; eexists; reflexivity ].

Lemma tracks_EnsureImageDownloaded K h url :
  tracks (EnsureImageDownloaded K h url).
Proof. unfold EnsureImageDownloaded. tracks_op. Qed.

Lemma tracks_BuildImageWithAgent K h baseImage :
  tracks (BuildImageWithAgent K h baseImage).
Proof. unfold BuildImageWithAgent. cbv zeta. tracks_op. Qed.

Lemma tracks_CreateContainer K p c s : tracks (CreateContainer K p c s).
Proof. unfold CreateContainer. tracks_op. Qed.

Lemma tracks_GetContainer K h i : tracks (GetContainer K h i).
Proof. unfold GetContainer. tracks_op. Qed.
Lemma tracks_ListContainers K h : tracks (ListContainers K h).
Proof. unfold ListContainers. tracks_op. Qed.
Lemma tracks_ListImages K h : tracks (ListImages K h).
Proof. unfold ListImages. tracks_op. Qed.
Lemma tracks_RemoveImage K h i : tracks (RemoveImage K h i).
Proof. unfold RemoveImage. tracks_op. Qed.
Lemma tracks_RemoveContainer K h i : tracks (RemoveContainer K h i).
Proof. unfold RemoveContainer. tracks_op. Qed.
Lemma tracks_StartContainer K h i : tracks (StartContainer K h i).
Proof. unfold StartContainer. tracks_op. Qed.

Lemma tracks_Init (K : Daemon) (version : string) : tracks (Init K version).
Proof.
  intros w a w' H. unfold Init in H.
  destruct (String.eqb version "").
  - injection H as <- <-. apply same_client_refl.
  - unfold dbind, update, perform, replace_httpClient in H. cbn in H.
    assert (Hs : forall c l hc ch,
               same_client w
                 (mkCloud
                    (set_httpClient hc (set_apiVersion version (impl w)))
                    ch (calls w ++ [(c, GetHTTPClient)]) l)).
    { intros c l hc ch. eexists. split; [reflexivity |]. cbn. repeat split.
      - auto.
      - intros t c0 cl [Hin | []] Hcc. injection Hin as <- <-.
        discriminate Hcc.
      - intros cl Hcl. left. exact Hcl. }
    destruct (GetHTTPClient_result K _) as [hc |]; [| discriminate H].
    destruct (Transport hc) as [| [tr |] | n]; try discriminate H.
    + injection H as <- <-. apply Hs.
    + destruct (TLSClientConfig tr); [| discriminate H].
      injection H as <- <-. apply (Hs _ _ (Some _)).
    + injection H as <- <-. apply Hs.
Qed.

Lemma tracks_discard {A : Type} (m : D A) : tracks m -> tracks (discard m).
Proof.
  intros Hm w a w' H. unfold discard, dbind in H.
  destruct (m w) as [[x w1] | r] eqn:E; [| discriminate H].
  injection H as <- <-. exact (Hm w x w1 E).
Qed.

Lemma tracks_run_operation (K : Daemon) (o : Operation) :
  tracks (run_operation K o).
Proof.
  destruct o; cbn [run_operation]; apply tracks_discard.
  - apply tracks_Init.
  - apply tracks_EnsureImageDownloaded.
  - apply tracks_BuildImageWithAgent.
  - apply tracks_CreateContainer.
  - apply tracks_GetContainer.
  - apply tracks_ListContainers.
  - apply tracks_RemoveImage.
  - apply tracks_RemoveContainer.
  - apply tracks_StartContainer.
  - apply tracks_ListImages.
Qed.

Lemma tracks_run_operations (K : Daemon) (os : list Operation) :
  tracks (run_operations K os).
Proof.
  induction os as [| o rest IH]; intros w a w' H.
  - injection H as <- <-. apply same_client_refl.
  - cbn [run_operations] in H. unfold dbind in H.
    destruct (run_operation K o w) as [[x w1] | r] eqn:E; [| discriminate H].
    apply (same_client_trans _ w1).
    + exact (tracks_run_operation K o w x w1 E).
    + exact (IH w1 a w' H).
Qed.

(** X22: a wrapper talks to one Docker daemon. Whatever methods of the
    interface are called on a wrapper, on whatever hosts and in whatever
    order, a client the wrapper has is kept, every call of the Docker API
    is made on the client the wrapper has in the end, so any two of them
    are made on the same client, and a client it did not have before was
    made by docker.NewClient during the run. The host of a later call
    does not choose the daemon: the client cached for the first host
    does. *)
Theorem operations_share_one_client (K : Daemon) (os : list Operation)
    (w w' : Cloud) :
  run_operations K os w = Value (tt, w') ->
  exists new,
    calls w' = calls w ++ new /\
    (forall cl, client (impl w) = Some cl -> client (impl w') = Some cl) /\
    (forall t c cl,
       In (t, c) new -> call_client c = Some cl ->
       client (impl w') = Some cl) /\
    (forall t1 c1 cl1 t2 c2 cl2,
       In (t1, c1) new -> In (t2, c2) new ->
       call_client c1 = Some cl1 -> call_client c2 = Some cl2 -> cl1 = cl2) /\
    (forall cl,
       client (impl w') = Some cl ->
       client (impl w) = Some cl
       \/ In (NewClient (client_endpoint cl) (client_version cl))
             (map snd new)).
Proof.
  intros H.
  destruct (tracks_run_operations K os w tt w' H) as (new & E & Hk & Hu & Hn).
  exists new. repeat split; try assumption.
  intros t1 c1 cl1 t2 c2 cl2 H1 H2 Hc1 Hc2.
  pose proof (Hu t1 c1 cl1 H1 Hc1) as E1.
  pose proof (Hu t2 c2 cl2 H2 Hc2) as E2.
  rewrite E1 in E2. injection E2 as <-. reflexivity.
Qed.

(** What generateClient leaves alone. *)
Lemma generateClient_frame (K : Daemon) (h : Host.t) (w w' : Cloud)
    (cl : option Client) (err : option error) :
  generateClient K h w = Value ((cl, err), w') ->
  apiVersion (impl w') = apiVersion (impl w) /\
  httpClient (impl w') = httpClient (impl w) /\
  evergreenSettings (impl w') = evergreenSettings (impl w) /\
  (exists new,
     calls w' = calls w ++ new /\
     forall t c, In (t, c) new -> exists e v, c = NewClient e v) /\
  match err with
  | None => Host.Host h <> "" /\ exists c, cl = Some c /\ client (impl w') = Some c
  | Some _ => cl = None
  end.
Proof.
  intros H.
  assert (Hnil : forall l : list (option Duration * Call),
             exists new, l = l ++ new
                         /\ forall t c, In (t, c) new
                                        -> exists e v, c = NewClient e v).
  { intros l. exists []. rewrite app_nil_r. split; [reflexivity |].
    intros t c []. }
  assert (Hone : forall (l : list (option Duration * Call)) t e v,
             exists new, l ++ [(t, NewClient e v)] = l ++ new
                         /\ forall t c, In (t, c) new
                                        -> exists e v, c = NewClient e v).
  { intros l t e v. eexists. split; [reflexivity |].
    intros t0 c [Hin | []]. injection Hin as <- <-. eauto. }
  destruct (generateClient_cases K h w)
    as [(_ & E) | [(Hh & cl0 & Hc & E) | (Hh & Hnone & [(e & _ & E) | (_ & E)])]];
    rewrite E in H; injection H as <- <- <-; cbn.
  - repeat split; auto.
  - repeat split; eauto.
  - repeat split; auto.
  - repeat split; eauto.
Qed.

(** The calls of a run that started with generateClient. *)
#[local] Ltac new_calls E1 :=
  cbn [impl calls]; rewrite E1, <- ?app_assoc;
  eexists; split; [reflexivity |].

#[local] Ltac in_new Hn1 Hin :=
  apply in_app_or in Hin;
  destruct Hin as [Hin | Hin];
  [ let Hx := fresh in
    destruct (Hn1 _ _ Hin) as (? & ? & Hx); discriminate Hx
  | cbn [In app] in Hin ].

Lemma BuildImageWithAgent_runs (K : Daemon) (h : Host.t) (baseImage : string)
    (image : string) (oe : option error) (w w' : Cloud) :
  BuildImageWithAgent K h baseImage w = Value ((image, oe), w') ->
  exists new,
    calls w' = calls w ++ new /\
    (forall t cl options,
       In (t, ImageBuild cl options) new ->
       client (impl w') = Some cl /\
       Tags options = [provisionedImageTag baseImage] /\
       Remove options = true /\
       exists settings,
         evergreenSettings (impl w) = Some settings /\
         BuildArgs options
         = [("BASE_IMAGE", baseImage);
            ("EXECUTABLE_SUB_PATH", Distro.ExecutableSubPath (Host.Distro h));
            ("BINARY_NAME", Distro.BinaryName (Host.Distro h));
            ("URL", CloudSettings.UiUrl settings)] /\
         RemoteContext options
         = strings_Join [CloudSettings.ApiUrl settings; APIRoutePrefix K;
                         "dockerfile"] "/") /\
    (oe = None ->
     image = provisionedImageTag baseImage /\
     exists t cl options, In (t, ImageBuild cl options) new) /\
    (oe <> None -> image = "").
Proof.
  intros H. unfold BuildImageWithAgent in H. cbv zeta in H.
  unfold dbind at 1 in H.
  destruct (generateClient K h w) as [[[cl err] w1] | r] eqn:G;
    [| discriminate H].
  destruct (generateClient_frame K h w w1 cl err G)
    as (_ & _ & Hset & (n1 & E1 & Hn1) & Hres).
  destruct err as [e0 |].
  - injection H as <- <- <-. exists n1. split; [exact E1 |]. split; [| split].
    + intros t c o Hin.
      destruct (Hn1 _ _ Hin) as (e & v & Hx). discriminate Hx.
    + discriminate.
    + reflexivity.
  - destruct Hres as (Hh & c & -> & Hc).
    unfold dbind, grip, perform, the_impl in H. cbn beta iota in H.
    cbn [impl httpClient calls cloud_log] in H.
    destruct (evergreenSettings (impl w1)) as [settings |] eqn:Hs;
      [| discriminate H].
    cbn beta iota in H.
    assert (Hcall : forall (t t' : option Duration) cl options,
               (t, ImageBuild c
                     (mkImageBuildOptions
                        [("BASE_IMAGE", baseImage);
                         ("EXECUTABLE_SUB_PATH",
                          Distro.ExecutableSubPath (Host.Distro h));
                         ("BINARY_NAME", Distro.BinaryName (Host.Distro h));
                         ("URL", CloudSettings.UiUrl settings)]
                        true
                        (strings_Join [CloudSettings.ApiUrl settings;
                                       APIRoutePrefix K; "dockerfile"] "/")
                        [provisionedImageTag baseImage]))
               = (t', ImageBuild cl options) ->
               client (impl w1) = Some cl /\
               Tags options = [provisionedImageTag baseImage] /\
               Remove options = true /\
               exists settings,
                 evergreenSettings (impl w) = Some settings /\
                 BuildArgs options
                 = [("BASE_IMAGE", baseImage);
                    ("EXECUTABLE_SUB_PATH",
                     Distro.ExecutableSubPath (Host.Distro h));
                    ("BINARY_NAME", Distro.BinaryName (Host.Distro h));
                    ("URL", CloudSettings.UiUrl settings)] /\
                 RemoteContext options
                 = strings_Join [CloudSettings.ApiUrl settings;
                                 APIRoutePrefix K; "dockerfile"] "/").
    { intros t t' cl o Hx. injection Hx as _ <- <-. split; [exact Hc |].
      split; [reflexivity |]. split; [reflexivity |].
      exists settings. split; [symmetry; exact Hset |]. split; reflexivity. }
    match type of H with context [ImageBuild_result K c ?o ?w] =>
      destruct (ImageBuild_result K c o w) as [resp [e1 |]] eqn:Hbuild end.
    + injection H as <- <- <-. new_calls E1. split; [| split].
      * intros t cl o Hin. in_new Hn1 Hin.
        destruct Hin as [Hx | []]. exact (Hcall _ _ _ _ Hx).
      * discriminate.
      * reflexivity.
    + cbn beta iota in H. cbn [impl httpClient calls cloud_log] in H.
      destruct resp as [resp |]; [| discriminate H].
      cbn [ioutil_ReadAll] in H. unfold perform in H.
      cbn [impl httpClient calls cloud_log] in H.
      match type of H with context [ReadAll_fault K resp ?w] =>
        destruct (ReadAll_fault K resp w) as [e2 |] eqn:Hread end.
      * injection H as <- <- <-. new_calls E1. split; [| split].
        -- intros t cl o Hin. in_new Hn1 Hin.
           destruct Hin as [Hx | [Hx | []]]; [| discriminate Hx].
           exact (Hcall _ _ _ _ Hx).
        -- discriminate.
        -- reflexivity.
      * injection H as <- <- <-. new_calls E1. split; [| split].
        -- intros t cl o Hin. in_new Hn1 Hin.
           destruct Hin as [Hx | [Hx | []]]; [| discriminate Hx].
           exact (Hcall _ _ _ _ Hx).
        -- intros _. split; [reflexivity |].
           do 3 eexists. apply in_or_app. right. left. reflexivity.
        -- intros Hne. contradiction.
Qed.

Lemma generateClient_http (K : Daemon) (h : Host.t) (w w' : Cloud)
    (cl : option Client) (err : option error) :
  generateClient K h w = Value ((cl, err), w') ->
  (client_http w' = client_http w /\ (err = None -> client (impl w) = cl))
  \/ (client (impl w) = None /\ client_http w' = wrapper_http).
Proof.
  intros H.
  destruct (generateClient_cases K h w)
    as [(_ & E) | [(Hh & cl0 & Hc & E) | (Hh & Hnone & [(e & _ & E) | (_ & E)])]];
    rewrite E in H; injection H as <- <- <-; cbn.
  - left. split; [reflexivity | discriminate].
  - left. split; [reflexivity | intros _; exact Hc].
  - left. split; [reflexivity | discriminate].
  - right. split; [exact Hnone | reflexivity].
Qed.

Lemma EnsureImageDownloaded_runs (K : Daemon) (h : Host.t)
    (url name : string) (oe : option error) (w w' : Cloud) :
  EnsureImageDownloaded K h url w = Value ((name, oe), w') ->
  (forall e, oe <> Some (withMessage e "Error changing http client timeout")) /\
  (oe = None ->
   name = image_name K url /\ timeout_of (impl w') = timeout_of (impl w)) /\
  (oe <> None -> name = "") /\
  (exists new,
     calls w' = calls w ++ new /\
     forall t cl source imageName,
       In (t, ImageImport cl source imageName) new ->
       t = import_timeout w /\ source = url
       /\ imageName = image_name K url) /\
  (forall e,
     oe = Some (withMessage e ("Error importing image from " ++ url)%string)
     \/ oe = Some (withMessage e "Error reading ImageImport response") ->
     timeout_of (impl w') = Some imageImportTimeout).
Proof.
  intros H. unfold EnsureImageDownloaded in H. unfold dbind at 1 in H.
  destruct (generateClient K h w) as [[[cl err] w1] | r] eqn:G;
    [| discriminate H].
  destruct (generateClient_frame K h w w1 cl err G)
    as (_ & Hhttp & _ & (n1 & E1 & Hn1) & Hres).
  pose proof (generateClient_http K h w w1 cl err G) as Hshare.
  assert (Ht1 : timeout_of (impl w1) = timeout_of (impl w))
    by (unfold timeout_of; rewrite Hhttp; reflexivity).
  assert (Hcalls : forall tail,
             exists new,
               calls w1 ++ tail = calls w ++ new /\
               forall t cl source imageName,
                 In (t, ImageImport cl source imageName) new ->
                 In (t, ImageImport cl source imageName) tail).
  { intros tail. exists (n1 ++ tail). rewrite E1, app_assoc.
    split; [reflexivity |]. intros t cl0 s i Hin.
    apply in_app_or in Hin. destruct Hin as [Hin | Hin]; [| exact Hin].
    destruct (Hn1 _ _ Hin) as (e & v & Hcall). discriminate Hcall. }
  destruct err as [e0 |].
  - injection H as <- <- <-.
    split; [| split; [| split; [| split]]].
    + discriminate.
    + discriminate.
    + reflexivity.
    + destruct (Hcalls []) as (new & E & Hnew). rewrite app_nil_r in E.
      exists new. split; [exact E |]. intros t c s i Hin.
      destruct (Hnew _ _ _ _ Hin).
    + intros e [Hc | Hc]; discriminate Hc.
  - destruct Hres as (Hh & c & -> & Hc).
    assert (Htag : forall tr cs l,
               client_timeout
                 (mkCloud
                    (set_httpClient (Some (mkHTTPClient imageImportTimeout tr))
                       (impl w1))
                    (client_http w1) cs l)
               = import_timeout w).
    { intros tr cs l. unfold client_timeout, import_timeout.
      cbn [client_http impl].
      destruct Hshare as [(Hsame & Hcached) | (Hnone & Hnew)].
      - rewrite Hsame, (Hcached eq_refl).
        destruct (client_http w) as [| [hc0 |]]; reflexivity.
      - rewrite Hnew, Hnone. reflexivity. }
    unfold dbind, grip, perform, the_impl in H. cbn beta iota in H.
    match type of H with context [ImageInspectWithRaw_fault K c ?i ?w] =>
      destruct (ImageInspectWithRaw_fault K c i w) as [e |] eqn:Hinspect end.
    2:{ injection H as <- <- <-. cbn [impl calls].
        split; [| split; [| split; [| split]]].
        - discriminate.
        - intros _. split; [reflexivity | exact Ht1].
        - intros Hne. contradiction.
        - match goal with
          | |- exists new, calls w1 ++ ?tail = _ /\ _ =>
              destruct (Hcalls tail) as (new & E & Hnew)
          end.
          exists new. split; [exact E |]. intros t cl0 s i Hin.
          destruct (Hnew _ _ _ _ Hin) as [Hx | []]. discriminate Hx.
        - intros e [Hx | Hx]; discriminate Hx. }
    destruct (strings_Contains (error_message e) "No such image") eqn:Hno.
    2:{ injection H as <- <- <-. cbn [impl calls].
        split; [| split; [| split; [| split]]].
        - intros e1 Hx. discriminate Hx.
        - discriminate.
        - reflexivity.
        - match goal with
          | |- exists new, calls w1 ++ ?tail = _ /\ _ =>
              destruct (Hcalls tail) as (new & E & Hnew)
          end.
          exists new. split; [exact E |]. intros t cl0 s i Hin.
          destruct (Hnew _ _ _ _ Hin) as [Hx | []]. discriminate Hx.
        - intros e1 [Hx | Hx]; discriminate Hx. }
    cbn [impl httpClient client_http calls cloud_log] in H.
    destruct (httpClient (impl w1)) as [hc |] eqn:Hhc; [| discriminate H].
    erewrite (changeTimeout_cached K c h) in H; [| exact Hh | exact Hc | exact Hhc].
    cbn [impl httpClient client_http calls cloud_log] in H.
    rewrite Htag in H.
    assert (Himport : forall t0 tail,
               (forall t cl source imageName,
                  In (t, ImageImport cl source imageName) tail -> False) ->
               exists new,
                 ((calls w1
                   ++ [(t0, ImageInspectWithRaw c (image_name K url))])
                  ++ [(import_timeout w,
                       ImageImport c url (image_name K url))]) ++ tail
                 = calls w ++ new /\
                 forall t cl source imageName,
                   In (t, ImageImport cl source imageName) new ->
                   t = import_timeout w /\ source = url
                   /\ imageName = image_name K url).
    { intros t0 tail Htail.
      destruct (Hcalls ([(t0, ImageInspectWithRaw c (image_name K url))]
                        ++ [(import_timeout w,
                             ImageImport c url (image_name K url))] ++ tail))
        as (new & E & Hnew).
      exists new. split.
      - rewrite <- E, <- !app_assoc. reflexivity.
      - intros t cl0 s i Hin. apply Hnew in Hin.
        cbn [In app] in Hin. destruct Hin as [Hx | [Hx | Hx]].
        + discriminate Hx.
        + injection Hx as <- <- <- <-. repeat split; reflexivity.
        + destruct (Htail _ _ _ _ Hx). }
    match type of H with context [ImageImport_result K c ?u ?i ?w] =>
      destruct (ImageImport_result K c u i w) as [resp [e1 |]] eqn:Himp end.
    { injection H as <- <- <-. cbn [impl calls].
      split; [| split; [| split; [| split]]].
      - intros e2 Hx. discriminate Hx.
      - discriminate.
      - reflexivity.
      - destruct (Himport (client_timeout w1) [])
          as (new & E & Hnew); [intros t cl0 s i [] |].
        rewrite app_nil_r in E. exists new. split; [exact E | exact Hnew].
      - intros _ _. reflexivity. }
    cbn beta iota in H. cbn [impl httpClient client_http calls cloud_log] in H.
    destruct resp as [resp |]; [| discriminate H].
    cbn [ioutil_ReadAll] in H. unfold perform in H.
    cbn [impl httpClient client_http calls cloud_log] in H.
    match type of H with context [ReadAll_fault K resp ?w] =>
      destruct (ReadAll_fault K resp w) as [e2 |] eqn:Hread end.
    { injection H as <- <- <-. cbn [impl calls].
      split; [| split; [| split; [| split]]].
      - intros e3 Hx. discriminate Hx.
      - discriminate.
      - reflexivity.
      - apply Himport. intros t cl0 s i [Hx | []]. discriminate Hx.
      - intros _ _. reflexivity. }
    cbn beta iota in H. cbn [impl httpClient client_http calls cloud_log] in H.
    erewrite (changeTimeout_cached K c h) in H;
      [| exact Hh | exact Hc | reflexivity].
    cbn beta iota in H. injection H as <- <- <-.
    cbn [impl calls].
    split; [| split; [| split; [| split]]].
    + discriminate.
    + intros _. split; [reflexivity |].
      unfold timeout_of. cbn. rewrite <- Hhttp. reflexivity.
    + intros Hne. contradiction.
    + apply Himport. intros t cl0 s i [Hx | []]. discriminate Hx.
    + intros e3 [Hx | Hx]; discriminate Hx.
Qed.

Lemma CreateContainer_runs (K : Daemon) (parentHost containerHost : Host.t)
    (settings : dockerSettings) (created : Host.t) (oe : option error)
    (w w' : Cloud) :
  CreateContainer K parentHost containerHost settings w
    = Value ((created, oe), w') ->
  exists new,
    calls w' = calls w ++ new /\
    (forall t i,
       In (t, CreateSecret i) new ->
       Host.Secret containerHost = "" /\ i = Host.Id containerHost /\
       exists w0 err, CreateSecret_result K containerHost w0 = (created, err)) /\
    (Host.Secret containerHost <> "" -> created = containerHost) /\
    (forall t cl config name,
       In (t, ContainerCreate cl config name) new ->
       client (impl w') = Some cl /\
       name = Host.Id created /\
       Image config = provisionedImageTag (image_name K (ImageURL settings)) /\
       ContainerUser config = Distro.User (Host.Distro created) /\
       (exists s,
          evergreenSettings (impl w) = Some s /\
          Cmd config
          = agentCmdParts K (pathToExecutable K parentHost)
              (CloudSettings.ApiUrl s) created) /\
       (Host.Secret containerHost = "" ->
        exists w0, CreateSecret_result K containerHost w0 = (created, None)) /\
       (oe = None
        \/ exists e,
            oe = Some (withMessage e
                         ("Docker create API call failed for container '"
                          ++ Host.Id created ++ "'")%string))) /\
    (oe = None ->
     exists t cl config,
       In (t, ContainerCreate cl config (Host.Id created)) new).
Proof.
  intros H. unfold CreateContainer in H. unfold dbind at 1 in H.
  destruct (generateClient K parentHost w) as [[[cl err] w1] | r] eqn:G;
    [| discriminate H].
  destruct (generateClient_frame K parentHost w w1 cl err G)
    as (_ & _ & Hset & (n1 & E1 & Hn1) & Hres).
  destruct err as [e0 |].
  - injection H as <- <- <-. exists n1. split; [exact E1 |].
    split; [| split; [| split]].
    + intros t i Hin. destruct (Hn1 _ _ Hin) as (e & v & Hx). discriminate Hx.
    + reflexivity.
    + intros t c cf n Hin.
      destruct (Hn1 _ _ Hin) as (e & v & Hx). discriminate Hx.
    + discriminate.
  - destruct Hres as (Hh & c & -> & Hc).
    cbv zeta in H. fold (pathToExecutable K parentHost) in H.
    unfold dbind at 1 in H.
    destruct (String.eqb (Host.Secret containerHost) "") eqn:Hsec.
    + apply String.eqb_eq in Hsec.
      unfold perform in H. cbn beta iota in H.
      destruct (CreateSecret_result K containerHost w1) as [ch [e1 |]] eqn:Hcs.
      * injection H as <- <- <-. new_calls E1.
        split; [| split; [| split]].
        -- intros t i Hin. in_new Hn1 Hin. destruct Hin as [Hx | []].
           injection Hx as _ <-. split; [exact Hsec |].
           split; [reflexivity |]. eauto.
        -- intros Hne. contradiction.
        -- intros t cl cf n Hin. in_new Hn1 Hin. destruct Hin as [Hx | []].
           discriminate Hx.
        -- discriminate.
      * unfold dbind, the_impl, perform, grip in H. cbn beta iota in H.
        cbn [impl calls cloud_log] in H.
        destruct (evergreenSettings (impl w1)) as [s |] eqn:Hs;
          [| discriminate H].
        cbn beta iota in H. cbn [impl calls cloud_log] in H.
        match type of H with context [ContainerCreate_fault K c ?cf ?n ?w] =>
          destruct (ContainerCreate_fault K c cf n w) as [e2 |] eqn:Hcreate end;
          injection H as <- <- <-; new_calls E1;
          (split; [| split; [| split]]).
        -- intros t i Hin. in_new Hn1 Hin.
           destruct Hin as [Hx | [Hx | []]]; [| discriminate Hx].
           injection Hx as _ <-. split; [exact Hsec |].
           split; [reflexivity |]. eauto.
        -- intros Hne. contradiction.
        -- intros t cl cf n Hin. in_new Hn1 Hin.
           destruct Hin as [Hx | [Hx | []]]; [discriminate Hx |].
           injection Hx as _ <- <- <-. split; [exact Hc |].
           split; [reflexivity |]. split; [reflexivity |].
           split; [reflexivity |]. split; [| split].
           ++ exists s. split; [symmetry; exact Hset | reflexivity].
           ++ intros _. eauto.
           ++ right. eauto.
        -- discriminate.
        -- intros t i Hin. in_new Hn1 Hin.
           destruct Hin as [Hx | [Hx | []]]; [| discriminate Hx].
           injection Hx as _ <-. split; [exact Hsec |].
           split; [reflexivity |]. eauto.
        -- intros Hne. contradiction.
        -- intros t cl cf n Hin. in_new Hn1 Hin.
           destruct Hin as [Hx | [Hx | []]]; [discriminate Hx |].
           injection Hx as _ <- <- <-. split; [exact Hc |].
           split; [reflexivity |]. split; [reflexivity |].
           split; [reflexivity |]. split; [| split].
           ++ exists s. split; [symmetry; exact Hset | reflexivity].
           ++ intros _. eauto.
           ++ left. reflexivity.
        -- intros _. do 3 eexists. apply in_or_app. right. right. left.
           reflexivity.
    + apply String.eqb_neq in Hsec.
      unfold dret at 1 in H. cbn beta iota in H.
      unfold dbind, the_impl, perform, grip in H. cbn beta iota in H.
      cbn [impl calls cloud_log] in H.
      destruct (evergreenSettings (impl w1)) as [s |] eqn:Hs;
        [| discriminate H].
      cbn beta iota in H. cbn [impl calls cloud_log] in H.
      match type of H with context [ContainerCreate_fault K c ?cf ?n ?w] =>
        destruct (ContainerCreate_fault K c cf n w) as [e2 |] eqn:Hcreate end;
        injection H as <- <- <-; new_calls E1;
        (split; [| split; [| split]]).
      * intros t i Hin. in_new Hn1 Hin.
        destruct Hin as [Hx | []]. discriminate Hx.
      * reflexivity.
      * intros t cl cf n Hin. in_new Hn1 Hin.
        destruct Hin as [Hx | []].
        injection Hx as _ <- <- <-. split; [exact Hc |].
        split; [reflexivity |]. split; [reflexivity |].
        split; [reflexivity |]. split; [| split].
        -- exists s. split; [symmetry; exact Hset | reflexivity].
        -- intros Hempty. contradiction.
        -- right. eauto.
      * discriminate.
      * intros t i Hin. in_new Hn1 Hin.
        destruct Hin as [Hx | []]. discriminate Hx.
      * reflexivity.
      * intros t cl cf n Hin. in_new Hn1 Hin.
        destruct Hin as [Hx | []].
        injection Hx as _ <- <- <-. split; [exact Hc |].
        split; [reflexivity |]. split; [reflexivity |].
        split; [reflexivity |]. split; [| split].
        -- exists s. split; [symmetry; exact Hset | reflexivity].
        -- intros Hempty. contradiction.
        -- left. reflexivity.
      * intros _. do 3 eexists. apply in_or_app. right. left. reflexivity.
Qed.

Lemma generateClient_blank (K : Daemon) (h : Host.t) (w : Cloud) :
  Host.Host h = "" ->
  generateClient K h w
  = Value ((None, Some (errorString "HostIP must not be blank")), w).
Proof.
  intros Hh. unfold generateClient. rewrite Hh. reflexivity.
Qed.

(** X23: a host without an address. Every operation on a host whose Host
    is empty returns the error "HostIP must not be blank", wrapped, with
    the zero value, and leaves the wrapper, the calls and the log as they
    were: the daemon is not contacted, also when the wrapper has a client
    cached. For CreateContainer it is the parent host that counts. *)
Theorem blank_host_is_rejected (K : Daemon) (h : Host.t) (w : Cloud) :
  Host.Host h = "" ->
  (forall url,
     EnsureImageDownloaded K h url w = Value (("", Some blank_host_error), w)) /\
  (forall baseImage,
     BuildImageWithAgent K h baseImage w
     = Value (("", Some blank_host_error), w)) /\
  (forall containerHost settings,
     CreateContainer K h containerHost settings w
     = Value ((containerHost, Some blank_host_error), w)) /\
  (forall containerID,
     GetContainer K h containerID w = Value ((None, Some blank_host_error), w)) /\
  ListContainers K h w = Value ((None, Some blank_host_error), w) /\
  ListImages K h w = Value ((None, Some blank_host_error), w) /\
  (forall imageID,
     RemoveImage K h imageID w = Value (Some blank_host_error, w)) /\
  (forall containerID,
     RemoveContainer K h containerID w = Value (Some blank_host_error, w)) /\
  (forall containerID,
     StartContainer K h containerID w = Value (Some blank_host_error, w)).
Proof.
  intros Hh. pose proof (generateClient_blank K h w Hh) as G.
  repeat split; intros;
    [ unfold EnsureImageDownloaded | unfold BuildImageWithAgent
    | unfold CreateContainer | unfold GetContainer | unfold ListContainers
    | unfold ListImages | unfold RemoveImage | unfold RemoveContainer
    | unfold StartContainer ];
    cbv zeta; unfold dbind at 1; rewrite G; reflexivity.
Qed.

(** X24: the timeouts around an import. EnsureImageDownloaded writes
    ten minutes into the http client of the wrapper before an import and
    the earlier timeout back after it: when it returns without error the
    timeout of the http client of the wrapper is what it was before the
    call; when the import or the reading of its response fails it stays at
    ten minutes; and the error of changing the timeout is never returned,
    since the client is cached by then. The import itself is sent by the
    docker client, with the http client that docker.NewClient was given:
    it runs with the ten minutes when the docker client is made during the
    call or still shares the http client of the wrapper; when Init has
    replaced the http client of the wrapper since the docker client was
    made, the import runs with the timeout the docker client was left
    with, and the ten minutes do not reach it. *)
Theorem EnsureImageDownloaded_restores_timeout (K : Daemon) (h : Host.t)
    (url name : string) (oe : option error) (w w' : Cloud) :
  EnsureImageDownloaded K h url w = Value ((name, oe), w') ->
  (oe = None -> timeout_of (impl w') = timeout_of (impl w)) /\
  (exists new,
     calls w' = calls w ++ new /\
     forall t cl source imageName,
       In (t, ImageImport cl source imageName) new ->
       t = import_timeout w /\
       (client (impl w) = None \/ client_http w = wrapper_http ->
        t = Some imageImportTimeout) /\
       (forall hc,
          client (impl w) <> None ->
          client_http w = earlier_http (Some hc) ->
          t = Some (Timeout hc))) /\
  (forall e,
     oe = Some (withMessage e ("Error importing image from " ++ url)%string)
     \/ oe = Some (withMessage e "Error reading ImageImport response") ->
     timeout_of (impl w') = Some imageImportTimeout) /\
  (forall e, oe <> Some (withMessage e "Error changing http client timeout")).
Proof.
  intros H.
  destruct (EnsureImageDownloaded_runs K h url name oe w w' H)
    as (Hnever & Hok & _ & (new & E & Himport) & Hleft).
  split; [| split; [| split]].
  - intros Hnone. exact (proj2 (Hok Hnone)).
  - exists new. split; [exact E |]. intros t cl s i Hin.
    destruct (Himport t cl s i Hin) as (-> & _).
    split; [reflexivity |]. unfold import_timeout. split.
    + intros [Hnone | Hshared].
      * rewrite Hnone. reflexivity.
      * rewrite Hshared. destruct (client (impl w)); reflexivity.
    + intros hc Hsome Hleft'. rewrite Hleft'.
      destruct (client (impl w)); [reflexivity | contradiction].
  - exact Hleft.
  - exact Hnever.
Qed.

(** X25: the three steps of provisioning agree on the image. When
    EnsureImageDownloaded returns a name for the image URL of the
    settings, BuildImageWithAgent builds from that name and CreateContainer
    creates a container for the same settings, all without error, then the
    name is the last element of the URL without its extension, the image
    BuildImageWithAgent returns and tags is that name with the suffix
    :provisioned, and the container is created, under the id of the
    container host, from that image. *)
Theorem container_runs_the_built_image (K : Daemon) (h parentHost : Host.t)
    (containerHost created : Host.t) (settings : dockerSettings)
    (name image : string) (w1 w1' w2 w2' w3 w3' : Cloud) :
  EnsureImageDownloaded K h (ImageURL settings) w1
    = Value ((name, None), w1') ->
  BuildImageWithAgent K h name w2 = Value ((image, None), w2') ->
  CreateContainer K parentHost containerHost settings w3
    = Value ((created, None), w3') ->
  name = image_name K (ImageURL settings) /\
  image = provisionedImageTag name /\
  (exists t cl options built,
     calls w2' = calls w2 ++ built /\
     In (t, ImageBuild cl options) built /\
     Tags options = [image] /\
     In ("BASE_IMAGE", name) (BuildArgs options)) /\
  (exists t cl config made,
     calls w3' = calls w3 ++ made /\
     In (t, ContainerCreate cl config (Host.Id created)) made /\
     Image config = image).
Proof.
  intros H1 H2 H3.
  destruct (EnsureImageDownloaded_runs K h _ name None w1 w1' H1)
    as (_ & Hname & _).
  destruct (Hname eq_refl) as (-> & _).
  destruct (BuildImageWithAgent_runs K h _ image None w2 w2' H2)
    as (built & E2 & Hbuild & Himage & _).
  destruct (Himage eq_refl) as (-> & t & cl & options & Hin).
  destruct (CreateContainer_runs K parentHost containerHost settings created
              None w3 w3' H3) as (made & E3 & _ & _ & Hcreate & Hmade).
  destruct (Hmade eq_refl) as (t' & cl' & config & Hin').
  split; [reflexivity |]. split; [reflexivity |]. split.
  - exists t, cl, options, built. split; [exact E2 |]. split; [exact Hin |].
    destruct (Hbuild t cl options Hin) as (_ & Htags & _ & s & _ & Hargs & _).
    split; [exact Htags |]. rewrite Hargs. left. reflexivity.
  - exists t', cl', config, made. split; [exact E3 |]. split; [exact Hin' |].
    destruct (Hcreate t' cl' config _ Hin') as (_ & _ & Himg & _).
    exact Himg.
Qed.

(** X26: the secret of a container. When host.CreateSecret leaves a secret
    in the host whenever it returns no error, every container that
    CreateContainer creates is named by the id of the container host and
    its command carries that id and a secret that is not empty, the path
    of the agent of the parent host first. A host that has a secret keeps
    it and host.CreateSecret is not called; and when creating the secret
    fails no container is created. *)
Theorem container_gets_a_secret (K : Daemon) (parentHost containerHost : Host.t)
    (settings : dockerSettings) (created : Host.t) (oe : option error)
    (w w' : Cloud) :
  (forall h w0 h', CreateSecret_result K h w0 = (h', None) ->
                   Host.Secret h' <> "") ->
  CreateContainer K parentHost containerHost settings w
    = Value ((created, oe), w') ->
  exists new,
    calls w' = calls w ++ new /\
    (Host.Secret containerHost <> "" ->
     created = containerHost /\ forall t i, ~ In (t, CreateSecret i) new) /\
    (forall t cl config name,
       In (t, ContainerCreate cl config name) new ->
       Host.Secret created <> "" /\
       name = Host.Id created /\
       In ("--host_id=" ++ Host.Id created)%string (Cmd config) /\
       In ("--host_secret=" ++ Host.Secret created)%string (Cmd config) /\
       hd_error (Cmd config) = Some (pathToExecutable K parentHost) /\
       ContainerUser config = Distro.User (Host.Distro created)) /\
    (forall e,
       oe = Some (withMessage e ("creating secret for " ++ Host.Id created)%string) ->
       forall t cl config name, ~ In (t, ContainerCreate cl config name) new).
Proof.
  intros Hsecret H.
  destruct (CreateContainer_runs K parentHost containerHost settings created
              oe w w' H) as (new & E & Hcs & Hkeep & Hcreate & _).
  exists new. split; [exact E |]. split; [| split].
  - intros Hne. split; [exact (Hkeep Hne) |].
    intros t i Hin. destruct (Hcs t i Hin) as (Hempty & _). contradiction.
  - intros t cl config name Hin.
    destruct (Hcreate t cl config name Hin)
      as (_ & Hname & _ & Huser & (s & _ & Hcmd) & Hmade & _).
    split.
    + destruct (String.eqb (Host.Secret containerHost) "") eqn:Hs.
      * apply String.eqb_eq in Hs. destruct (Hmade Hs) as (w0 & Hw0).
        exact (Hsecret _ _ _ Hw0).
      * apply String.eqb_neq in Hs. rewrite (Hkeep Hs). exact Hs.
    + split; [exact Hname |]. rewrite Hcmd. unfold agentCmdParts.
      split; [cbn; auto 6 |]. split; [cbn; auto 6 |].
      split; [reflexivity | exact Huser].
  - intros e Hoe t cl config name Hin.
    destruct (Hcreate t cl config name Hin) as (_ & _ & _ & _ & _ & _ & Hres).
    rewrite Hoe in Hres. destruct Hres as [Hx | (e' & Hx)]; discriminate Hx.
Qed.

(** X27: what Init changes. Init with an empty version returns an error
    and changes nothing. With a version it sets the version and takes an
    http client from the pool, also when it then returns the error of the
    type assertion; without an error the transport of the http client
    skips the verification of certificates. Init never drops the client
    of the wrapper: after an Init with another version, generateClient
    still returns the client made before. *)
Theorem Init_keeps_cached_client (K : Daemon) (version : string) (w : Cloud) :
  Init K "" w
  = Value (Some (errorString "Docker API version '' is invalid"), w) /\
  (forall oe w',
     version <> "" ->
     Init K version w = Value (oe, w') ->
     apiVersion (impl w') = version /\
     client (impl w') = client (impl w) /\
     evergreenSettings (impl w') = evergreenSettings (impl w) /\
     (oe = None ->
      exists t, httpClient (impl w')
                = Some (mkHTTPClient t insecure_transport)) /\
     (forall e, oe = Some e ->
        exists hc, httpClient (impl w') = Some hc /\
                   Transport hc <> insecure_transport /\
                   e = errorString
                         ("Type assertion failed: type "
                          ++ transport_type (Transport hc)
                          ++ " does not hold a *http.Transport")%string) /\
     forall cl h,
       client (impl w) = Some cl -> Host.Host h <> "" ->
       generateClient K h w' = Value ((Some cl, None), w')).
Proof.
  split; [reflexivity |].
  intros oe w' Hv H. unfold Init in H.
  apply String.eqb_neq in Hv. rewrite Hv in H.
  unfold dbind, update, perform, replace_httpClient in H. cbn beta iota in H.
  cbn [impl client_http calls cloud_log] in H.
  destruct (GetHTTPClient_result K _) as [hc |] eqn:Hpool; [| discriminate H].
  assert (Hgen : forall w1,
             client (impl w1) = client (impl w) ->
             forall cl h,
               client (impl w) = Some cl -> Host.Host h <> "" ->
               generateClient K h w1 = Value ((Some cl, None), w1)).
  { intros w1 Hc1 cl h Hc Hh. apply generateClient_cached; [exact Hh |].
    rewrite Hc1. exact Hc. }
  destruct (Transport hc) as [| [tr |] | n] eqn:Htr; try discriminate H.
  - injection H as <- <-. cbn.
    split; [reflexivity |]. split; [reflexivity |]. split; [reflexivity |].
    split; [discriminate |]. split.
    + intros e He. injection He as <-. exists hc. split; [reflexivity |].
      rewrite Htr. split; [discriminate | reflexivity].
    + apply Hgen. reflexivity.
  - destruct (TLSClientConfig tr); [| discriminate H].
    injection H as <- <-. cbn.
    split; [reflexivity |]. split; [reflexivity |]. split; [reflexivity |].
    split; [intros _; eexists; reflexivity |]. split.
    + discriminate.
    + apply Hgen. reflexivity.
  - injection H as <- <-. cbn.
    split; [reflexivity |]. split; [reflexivity |]. split; [reflexivity |].
    split; [discriminate |]. split.
    + intros e He. injection He as <-. exists hc. split; [reflexivity |].
      rewrite Htr. split; [discriminate | reflexivity].
    + apply Hgen. reflexivity.
Qed.

(** X28: RemoveImage and an image that is not there. RemoveImage asks the
    daemon at most once, with force, for the image it was given, on the
    client of the wrapper. It returns nil only when the daemon answered
    without error and removed at least one item; and when the daemon
    answers without error and has removed nothing, RemoveImage returns an
    error of its own, not wrapped, which it returns in no other case. *)
Theorem RemoveImage_reports_nothing_removed (K : Daemon) (h : Host.t)
    (imageID : string) (oe : option error) (w w' : Cloud) :
  RemoveImage K h imageID w = Value (oe, w') ->
  exists new,
    calls w' = calls w ++ new /\
    (forall t cl i force,
       In (t, ImageRemove cl i force) new ->
       client (impl w') = Some cl /\ i = imageID /\ force = true) /\
    (List.length (filter is_ImageRemove new) <= 1)%nat /\
    (oe = None ->
     exists t cl w1 removed,
       generateClient K h w = Value ((Some cl, None), w1) /\
       In (t, ImageRemove cl imageID true) new /\
       ImageRemove_result K cl imageID w1 = (removed, None) /\
       range removed <> []) /\
    (forall cl w1 removed,
       generateClient K h w = Value ((Some cl, None), w1) ->
       ImageRemove_result K cl imageID w1 = (removed, None) ->
       range removed = [] ->
       oe = Some (errorString
                    ("Failed to remove image '" ++ imageID ++ "'")%string)) /\
    (oe = Some (errorString ("Failed to remove image '" ++ imageID ++ "'")%string) ->
     exists t cl w1 removed,
       generateClient K h w = Value ((Some cl, None), w1) /\
       In (t, ImageRemove cl imageID true) new /\
       ImageRemove_result K cl imageID w1 = (removed, None) /\
       range removed = []).
Proof.
  intros H. unfold RemoveImage in H. unfold dbind at 1 in H.
  destruct (generateClient K h w) as [[[cl err] w1] | r] eqn:G;
    [| discriminate H].
  destruct (generateClient_frame K h w w1 cl err G)
    as (_ & _ & _ & (n1 & E1 & Hn1) & Hres).
  assert (Hcount : forall tail,
             (List.length (filter is_ImageRemove tail) <= 1)%nat ->
             (List.length (filter is_ImageRemove (n1 ++ tail)) <= 1)%nat).
  { intros tail Htail. rewrite filter_app, length_app.
    assert (Hnone : filter is_ImageRemove n1 = []).
    { apply filter_nil_iff. intros [t c] Hin.
      destruct (Hn1 _ _ Hin) as (e & v & ->). reflexivity. }
    rewrite Hnone. exact Htail. }
  destruct err as [e0 |].
  - injection H as <- <-. exists n1. split; [exact E1 |].
    split; [| split; [| split; [| split]]].
    + intros t c i f Hin. destruct (Hn1 _ _ Hin) as (e & v & Hx).
      discriminate Hx.
    + specialize (Hcount [] (Nat.le_0_l 1)). rewrite app_nil_r in Hcount.
      exact Hcount.
    + discriminate.
    + intros cl' w1' removed Hx. discriminate Hx.
    + discriminate.
  - destruct Hres as (Hh & c & -> & Hc).
    unfold dbind, perform in H. cbn beta iota in H.
    destruct (ImageRemove_result K c imageID w1) as [removed [e1 |]] eqn:Hrm.
    + injection H as <- <-. new_calls E1.
      split; [| split; [| split; [| split]]].
      * intros t cl i f Hin. in_new Hn1 Hin. destruct Hin as [Hx | []].
        injection Hx as _ <- <- <-. auto.
      * apply Hcount. cbn. apply Nat.le_refl.
      * discriminate.
      * intros cl' w1' removed' Hx Hy. injection Hx as <- <-.
        rewrite Hrm in Hy. discriminate Hy.
      * discriminate.
    + destruct (Z.of_nat (List.length (range removed)) <=? 0) eqn:Hlen;
        injection H as <- <-; new_calls E1;
        (split; [| split; [| split; [| split]]]).
      * intros t cl i f Hin. in_new Hn1 Hin. destruct Hin as [Hx | []].
        injection Hx as _ <- <- <-. auto.
      * apply Hcount. cbn. apply Nat.le_refl.
      * discriminate.
      * intros cl' w1' removed' Hx Hy Hz. reflexivity.
      * intros _. exists (client_timeout w1), c, w1, removed.
        split; [reflexivity |].
        split; [apply in_or_app; right; left; reflexivity |].
        split; [exact Hrm |].
        apply Z.leb_le in Hlen. destruct (range removed); [reflexivity |].
        cbn [List.length] in Hlen. lia.
      * intros t cl i f Hin. in_new Hn1 Hin. destruct Hin as [Hx | []].
        injection Hx as _ <- <- <-. auto.
      * apply Hcount. cbn. apply Nat.le_refl.
      * intros _. exists (client_timeout w1), c, w1, removed.
        split; [reflexivity |].
        split; [apply in_or_app; right; left; reflexivity |].
        split; [exact Hrm |].
        apply Z.leb_gt in Hlen. intros Hnil. rewrite Hnil in Hlen.
        cbn in Hlen. lia.
      * intros cl' w1' removed' Hx Hy Hz. injection Hx as <- <-.
        rewrite Hrm in Hy. injection Hy as <-.
        apply Z.leb_gt in Hlen. rewrite Hz in Hlen. cbn in Hlen. lia.
      * discriminate.
Qed.
(** * The signal-processing page *)

Lemma getFilteringContext_fold (P : Page) (l : list (string * string))
    (m : list FilteringContext) :
  fold_left
    (fun m kv =>
       match getCol P (fst kv) with
       | None => m
       | Some col =>
           m ++ [mkFilteringContext (fst kv) (snd kv) (type_or_string col)]
       end) l m
  = m ++ flat_map (context_of P) l.
Proof.
  revert m. induction l as [| kv l IH]; intros m; cbn [fold_left flat_map].
  - rewrite app_nil_r. reflexivity.
  - rewrite IH. unfold context_of at 2.
    destruct (getCol P (fst kv)) as [col |].
    + rewrite <- app_assoc. reflexivity.
    + reflexivity.
Qed.

Lemma getAggChain_stages (P : Page) (state : GridState) :
  exists stages,
    getAggChain P state = stages ++ [limit LIMIT] /\
    (List.length stages <= 2)%nat /\
    forall s, In s stages -> exists q, s = compiled q.
Proof.
  unfold getAggChain. cbv zeta.
  destruct (filtering state) as [| kv l];
    [| destruct (compileFiltering P _) as [f |]];
    (destruct (sorting state) as [s |];
     [destruct (compileSorting P s) as [o |] |]);
    eexists; (split; [reflexivity |]); cbn;
    (split; [lia |]); intros x Hx;
    repeat (destruct Hx as [<- | Hx]; [eexists; reflexivity |]);
    destruct Hx.
Qed.

Lemma queries_settle (P : Page) (p : nat) (result : Settled)
    (c : Controller P) :
  queries (settle P p result c) = queries c.
Proof.
  unfold settle. destruct (promise_at P c p) as [[[r |] rs] |]; try reflexivity.
  assert (H : forall rs c0, queries (fold_left (run_reaction P result) rs c0)
                            = queries c0).
  { clear. intros rs. induction rs as [| r rs IH]; intros c0; [reflexivity |].
    cbn [fold_left]. rewrite IH. destruct r as [q | docs]; cbn [run_reaction].
    - unfold run_outer. destruct result as [docs | e]; [| reflexivity].
      destruct (theMostRecentPromise c0) as [recent |]; [| reflexivity].
      destruct (Nat.eqb q recent); [| reflexivity].
      unfold then_inner.
      destruct (promise_at P c0 recent) as [[[r |] rs0] |]; try reflexivity.
      destruct r; reflexivity.
    - destruct result; reflexivity. }
  rewrite H. reflexivity.
Qed.

(** X29: every aggregation is capped. The filtering context lists the
    filters whose column is found, in the order of the filters, each with
    the type of its column or string, and leaves the others out. The
    aggregation of a state is at most a compiled filter and a compiled
    sorting followed by the limit of 500 as its last stage, and so is every
    query a controller has sent, whatever happened to it. *)
Theorem aggregation_is_capped (P : Page) (state : GridState) :
  getFilteringContext P state = flat_map (context_of P) (filtering state) /\
  (exists stages,
     getAggChain P state = stages ++ [limit LIMIT] /\
     (List.length stages <= 2)%nat /\
     forall s, In s stages -> exists q, s = compiled q) /\
  (forall es coll chain,
     In (coll, chain) (queries (run_events P es (new_controller P))) ->
     exists stages, chain = stages ++ [limit LIMIT]).
Proof.
  split; [| split].
  - unfold getFilteringContext. rewrite getFilteringContext_fold. reflexivity.
  - apply getAggChain_stages.
  - intros es.
    assert (H : forall c : Controller P,
               (forall coll chain, In (coll, chain) (queries c) ->
                                   exists stages, chain = stages ++ [limit LIMIT]) ->
               forall coll chain,
                 In (coll, chain) (queries (run_events P es c)) ->
                 exists stages, chain = stages ++ [limit LIMIT]).
    { induction es as [| e es IH]; intros c Hc; [exact Hc |].
      cbn [run_events fold_left]. apply IH.
      destruct e as [s | p r]; cbn [handle].
      - intros coll chain Hin. cbn [loadData queries] in Hin.
        apply in_app_or in Hin. destruct Hin as [Hin | [Hin | []]].
        + exact (Hc coll chain Hin).
        + injection Hin as _ <-.
          destruct (getAggChain_stages P s) as (stages & E & _).
          exists stages. exact E.
      - rewrite queries_settle. exact Hc. }
    apply H. intros coll chain [].
Qed.

Lemma length_replace_nth {A : Type} (l : list A) (n : nat) (x : A) :
  List.length (replace_nth l n x) = List.length l.
Proof.
  revert n. induction l as [| a l IH]; intros [| n]; cbn; try reflexivity.
  rewrite IH. reflexivity.
Qed.

Lemma nth_error_replace_nth {A : Type} (l : list A) (n m : nat) (x a : A) :
  nth_error l n = Some a ->
  nth_error (replace_nth l n x) m
  = if Nat.eqb m n then Some x else nth_error l m.
Proof.
  revert n m. induction l as [| b l IH]; intros [| n] [| m] H; cbn in *;
    try discriminate; try reflexivity.
  apply IH. exact H.
Qed.

Lemma steady_new (P : Page) : steady (new_controller P).
Proof.
  split; [| split; [| split]].
  - split; [| reflexivity]. intros p rs H. unfold promise_at in H. cbn in H.
    destruct p; discriminate H.
  - reflexivity.
  - split; [discriminate |]. intros (p & H & _). discriminate H.
  - intros p docs H. discriminate H.
Qed.

Lemma steady_loadData (P : Page) (state : GridState) (c : Controller P) :
  steady c -> steady (loadData P state c).
Proof.
  intros ((Hpending & Hrecent) & Hconsole & Hloading & Hshows).
  assert (Hlast : promise_at P (loadData P state c) (List.length (promises c))
                  = Some (mkPromise None [outer (List.length (promises c))])).
  { unfold promise_at. cbn [loadData promises].
    rewrite nth_error_app2 by lia. rewrite Nat.sub_diag. reflexivity. }
  split; [| split; [| split]].
  - split.
    + intros p rs H. unfold promise_at in H. cbn [loadData promises] in H.
      destruct (Nat.lt_ge_cases p (List.length (promises c))) as [Hlt | Hge].
      * rewrite nth_error_app1 in H by exact Hlt. exact (Hpending p rs H).
      * rewrite nth_error_app2 in H by exact Hge.
        destruct (p - List.length (promises c))%nat as [| k] eqn:Hk.
        -- cbn in H. injection H as <-. f_equal. f_equal. lia.
        -- cbn in H. destruct k; discriminate H.
    + cbn [loadData theMostRecentPromise promises]. rewrite length_app. cbn. lia.
  - exact Hconsole.
  - split; [| reflexivity]. intros _. exists (List.length (promises c)).
    split; [reflexivity |]. left. unfold result_of. rewrite Hlast. reflexivity.
  - intros p docs Hp Hres. cbn [loadData theMostRecentPromise] in Hp.
    injection Hp as <-. unfold result_of in Hres. rewrite Hlast in Hres.
    discriminate Hres.
Qed.

Lemma steady_settle (P : Page) (p : nat) (result : Settled)
    (c : Controller P) :
  steady c -> steady (settle P p result c).
Proof.
  intros Hc. pose proof Hc as ((Hpending & Hrecent) & Hconsole & Hloading & Hshows).
  unfold settle.
  destruct (promise_at P c p) as [[[r |] rs] |] eqn:Hp; try exact Hc.
  rewrite (Hpending p rs Hp). cbn [fold_left run_reaction].
  set (c1 := set_promises P
               (replace_nth (promises c) p (mkPromise (Some result) [])) c).
  assert (Hat : forall q,
             promise_at P c1 q
             = if Nat.eqb q p then Some (mkPromise (Some result) [])
               else promise_at P c q).
  { intros q. unfold promise_at, c1. cbn [set_promises promises].
    exact (nth_error_replace_nth _ _ _ _ _ Hp). }
  assert (Hres : forall q,
             result_of c1 q
             = if Nat.eqb q p then Some result else result_of c q).
  { intros q. unfold result_of. rewrite Hat.
    destruct (Nat.eqb q p); reflexivity. }
  assert (Hnone : result_of c p = None).
  { unfold result_of. rewrite Hp. reflexivity. }
  assert (Hwf1 : well_formed c1).
  { split.
    - intros q rs0 Hq. rewrite Hat in Hq.
      destruct (Nat.eqb q p); [discriminate Hq |]. exact (Hpending q rs0 Hq).
    - unfold c1. cbn [set_promises theMostRecentPromise promises].
      rewrite length_replace_nth.
      destruct (theMostRecentPromise c) as [recent |]; [exact Hrecent |].
      unfold promise_at in Hp. rewrite Hrecent in Hp. destruct p; discriminate Hp. }
  assert (Hkeep : theMostRecentPromise c <> Some p ->
                  steady c1).
  { intros Hne. split; [exact Hwf1 |]. split; [exact Hconsole |]. split.
    - unfold loading_iff. change (isLoading c1) with (isLoading c).
      change (theMostRecentPromise c1) with (theMostRecentPromise c).
      apply (iff_trans Hloading). split; intros (q & Hq & Hst); exists q;
        (split; [exact Hq |]); rewrite Hres in *;
        (destruct (Nat.eqb q p) eqn:Hqp;
         [apply Nat.eqb_eq in Hqp; subst q; contradiction | exact Hst]).
    - intros q docs Hq Hst.
      change (theMostRecentPromise c1) with (theMostRecentPromise c) in Hq.
      rewrite Hres in Hst.
      destruct (Nat.eqb q p) eqn:Hqp;
        [apply Nat.eqb_eq in Hqp; subst q; contradiction |].
      exact (Hshows q docs Hq Hst). }
  destruct result as [docs | err]; cbn [run_outer].
  - change (theMostRecentPromise c1) with (theMostRecentPromise c).
    destruct (theMostRecentPromise c) as [recent |] eqn:Hmr.
    + destruct (Nat.eqb p recent) eqn:Hpr.
      * apply Nat.eqb_eq in Hpr. subst recent.
        unfold then_inner. rewrite Hat, Nat.eqb_refl. cbn [run_inner].
        split; [| split; [| split]].
        -- split.
           ++ intros q rs0 Hq. exact (proj1 Hwf1 q rs0 Hq).
           ++ exact (proj2 Hwf1).
        -- exact Hconsole.
        -- split; [discriminate |]. intros (q & Hq & Hst).
           cbn [theMostRecentPromise] in Hq.
           change (theMostRecentPromise c1) with (theMostRecentPromise c) in Hq.
           rewrite Hmr in Hq. injection Hq as <-.
           assert (Hr : result_of c1 p = Some (Fulfilled docs))
             by (rewrite Hres, Nat.eqb_refl; reflexivity).
           unfold result_of, promise_at in Hst, Hr. cbn [promises] in Hst.
           rewrite Hr in Hst. destruct Hst as [Hst | (e & Hst)]; discriminate Hst.
        -- intros q docs0 Hq Hst. cbn [theMostRecentPromise] in Hq.
           change (theMostRecentPromise c1) with (theMostRecentPromise c) in Hq.
           rewrite Hmr in Hq. injection Hq as <-.
           assert (Hr : result_of c1 p = Some (Fulfilled docs))
             by (rewrite Hres, Nat.eqb_refl; reflexivity).
           unfold result_of, promise_at in Hst, Hr. cbn [promises] in Hst.
           rewrite Hr in Hst. injection Hst as <-. reflexivity.
      * apply Hkeep. intros Hx. injection Hx as <-.
        rewrite Nat.eqb_refl in Hpr. discriminate Hpr.
    + apply Hkeep. discriminate.
  - split; [exact Hwf1 |]. split; [exact Hconsole |]. split.
    + unfold loading_iff. change (isLoading c1) with (isLoading c).
      change (theMostRecentPromise c1) with (theMostRecentPromise c).
      apply (iff_trans Hloading). split; intros (q & Hq & Hst); exists q;
        (split; [exact Hq |]); rewrite Hres in *;
        destruct (Nat.eqb q p) eqn:Hqp.
      * right. eauto.
      * exact Hst.
      * apply Nat.eqb_eq in Hqp. subst q. left. exact Hnone.
      * exact Hst.
    + intros q docs Hq Hst.
      change (theMostRecentPromise c1) with (theMostRecentPromise c) in Hq.
      rewrite Hres in Hst.
      destruct (Nat.eqb q p); [discriminate Hst |].
      exact (Hshows q docs Hq Hst).
Qed.

Lemma steady_run_events (P : Page) (es : list GridEvent) (c : Controller P) :
  steady c -> steady (run_events P es c).
Proof.
  revert c. induction es as [| e es IH]; intros c Hc; [exact Hc |].
  cbn [run_events fold_left]. apply IH.
  destruct e as [state | p result]; cbn [handle].
  - apply steady_loadData. exact Hc.
  - apply steady_settle. exact Hc.
Qed.

(** X30: the most recent query wins. After any calls of loadData and any
    promises settled in any order, console.error was never called; the
    controller is loading exactly while its most recent promise is pending
    or was rejected, so a failed query leaves it loading; once the most
    recent promise is fulfilled the grid shows its documents, hydrated; and
    a promise that is not the most recent one, or that is rejected, changes
    neither the data nor the loading flag when it settles. *)
Theorem latest_query_wins (P : Page) (es : list GridEvent) :
  let c := run_events P es (new_controller P) in
  console c = [] /\
  (isLoading c = true <->
   exists p, theMostRecentPromise c = Some p /\
             (result_of c p = None
              \/ exists err, result_of c p = Some (Rejected err))) /\
  (forall p docs,
     theMostRecentPromise c = Some p ->
     result_of c p = Some (Fulfilled docs) ->
     data c = Some (hydrateData P docs)) /\
  (forall p result,
     theMostRecentPromise c <> Some p \/ (exists err, result = Rejected err) ->
     data (settle P p result c) = data c /\
     isLoading (settle P p result c) = isLoading c).
Proof.
  cbv zeta.
  destruct (steady_run_events P es (new_controller P) (steady_new P))
    as ((Hpending & _) & Hconsole & Hloading & Hshows).
  split; [exact Hconsole |]. split; [exact Hloading |]. split; [exact Hshows |].
  intros p result Hstale. unfold settle.
  destruct (promise_at P (run_events P es (new_controller P)) p)
    as [[[r |] rs] |] eqn:Hp; try (split; reflexivity).
  rewrite (Hpending p rs Hp). cbn [fold_left run_reaction].
  destruct result as [docs | err]; cbn [run_outer]; [| split; reflexivity].
  cbn [set_promises theMostRecentPromise].
  destruct Hstale as [Hne | (err & Hx)]; [| discriminate Hx].
  destruct (theMostRecentPromise (run_events P es (new_controller P)))
    as [recent |]; [| split; reflexivity].
  destruct (Nat.eqb p recent) eqn:Hpr; [| split; reflexivity].
  apply Nat.eqb_eq in Hpr. subst recent. contradiction Hne. reflexivity.
Qed.

(** * The theorems on concrete inputs *)


(** An empty poll of the sample project. *)
Lemma FetchRevisions_nothing_new_witness :
  FetchRevisions Sample.env Sample.tracker_plain Sample.empty_world
  = Ret None
      (add_log
         (mkLog Debug "no last recorded revision, using most recent revisions"
            "")
         Sample.empty_world).
Proof.
  rewrite (FetchRevisions_nothing_new Sample.env Sample.tracker_plain
             Sample.empty_world); [reflexivity | repeat split].
Defined.

(** The store holds r0 with order number 3: the order number 4 is accepted
    for r1. *)
Lemma sanityCheckOrderNum_accepts_iff_witness :
  exists oe w',
    sanityCheckOrderNum Sample.env 4 "proj" "r1" Sample.stale_world
      = Ret oe w' /\ oe = None.
Proof.
  destruct (sanityCheckOrderNum_accepts_iff Sample.env 4 "proj" "r1"
              Sample.stale_world eq_refl)
    as (oe & w' & Hrun & _ & _ & _ & Hiff).
  exists oe, w'. split; [exact Hrun |].
  apply Hiff. vm_compute. split; [discriminate | reflexivity].
Defined.

(** The local config of the project cannot be read. *)
Lemma local_config_errors_abort_witness :
  exists w',
    StoreRevisions_revision Sample.env Demo.tracker_local Sample.r1 None
      Sample.empty_world
    = Ret (Return (None, Some (errorString "no file"))) w' /\
    logs_only Sample.empty_world w'.
Proof.
  destruct (local_config_errors_abort Sample.env Demo.tracker_local Sample.r1
              None Sample.empty_world None (errorString "no file"))
    as (_ & w' & Hrun & Hlogs & _).
  - discriminate.
  - intros w0. reflexivity.
  - reflexivity.
  - intros w0. reflexivity.
  - reflexivity.
  - exists w'. split; assumption.
Defined.

(** A config in which the validator finds an error and a warning. *)
Lemma CreateVersionFromConfig_keeps_diagnostics_witness :
  exists v w',
    CreateVersionFromConfig Demo.env_invalid Sample.ref
      (Some (Sample.config [])) Sample.r1 false None Sample.empty_world
    = Ret (Some v, None) w' /\
    Version.Errors v = ["unknown task"] /\
    Version.Warnings v = ["unused variant"] /\
    Version.BuildVariants v = [] /\ builds w' = [] /\ versions w' = [v].
Proof.
  destruct (CreateVersionFromConfig Demo.env_invalid Sample.ref
              (Some (Sample.config [])) Sample.r1 false None Sample.empty_world)
    as [[[v |] [e |]] w' | reason w'] eqn:Hrun;
    try (vm_compute in Hrun; discriminate Hrun).
  destruct (CreateVersionFromConfig_keeps_diagnostics _ _ _ _ _ _ _ _ _ _ Hrun)
    as (verrs & Hval & _ & _ & He & Hw & Hstub).
  vm_compute in Hval. injection Hval as <-.
  cbn in He, Hw.
  destruct Hstub as (Hbv & Hb & _ & Hv & _); [rewrite He; discriminate |].
  exists v, w'. split; [reflexivity |].
  split; [exact He |]. split; [exact Hw |]. split; [exact Hbv |].
  split; [exact Hb | exact (Hv eq_refl)].
Defined.

(** The config has the variants linux-64, osx (disabled) and windows; the
    build of windows cannot be created. *)
Lemma createVersionItems_failed_build_keeps_builds_witness :
  exists v1 w1,
    createVersionItems Demo.env_build_fails (Sample.version_of "r1" 1 [])
      Sample.ref Sample.config2 Sample.empty_world
    = Ret (v1, Some (withStack (errorString "disk full"))) w1 /\
    map Build.BuildVariant (builds w1) = ["linux-64"] /\
    versions w1 = [].
Proof.
  destruct (createVersionItems_builds Demo.env_build_fails Sample.ref
              Sample.config2
              (model_NewTaskIdTable Demo.env_build_fails Sample.config2
                 (Sample.version_of "r1" 1 []))
              (Sample.version_of "r1" 1 [])
              [Sample.linux; Sample.osx_disabled] Sample.empty_world)
    as [[v1 [e |]] w1 | reason w1] eqn:Hpre;
    try (vm_compute in Hpre; discriminate Hpre).
  destruct (createVersionItems_failed_build_keeps_builds Demo.env_build_fails
              (Sample.version_of "r1" 1 []) v1 Sample.ref Sample.config2
              [Sample.linux; Sample.osx_disabled] [] Sample.windows
              Sample.empty_world w1 eq_refl eq_refl Hpre)
    as ((newb & Hb & Hnames & Hv) & Hfail & _).
  exists v1, w1. split; [apply Hfail; reflexivity |].
  split; [rewrite Hb; exact Hnames | exact Hv].
Defined.

(** alice is the author of the version and has a subscription of her
    own. *)
Lemma addBuildBreakSubscriptions_opt_outs_witness :
  addBuildBreakSubscriptions Demo.env_users
    (Version.set_AuthorID "alice" (Sample.version_of "r1" 1 []))
    Demo.ref_notifying Sample.empty_world
  = Ret None Sample.empty_world.
Proof.
  destruct (addBuildBreakSubscriptions_opt_outs Demo.env_users
              (Version.set_AuthorID "alice" (Sample.version_of "r1" 1 []))
              Demo.ref_notifying Sample.empty_world) as (H & _).
  apply (H (DBUser.mk "alice" "alice@example.com" "alice" "email" "sub-1"));
    [discriminate | reflexivity | discriminate].
Defined.

(** The admins are alice, nobody (unknown), bob and carol. *)
Lemma addBuildBreakSubscriptions_subscribes_admins_witness :
  exists oe w',
    addBuildBreakSubscriptions Demo.env_users (Sample.version_of "r1" 1 [])
      Demo.ref_notifying Sample.empty_world = Ret oe w' /\
    map Subscription.Subscriber (subscriptions w')
      = [Subscriber.mk "email" "alice@example.com";
         Subscriber.mk "slack" "bob.s"] /\
    oe <> None.
Proof.
  destruct (addBuildBreakSubscriptions_subscribes_admins Demo.env_users
              (Sample.version_of "r1" 1 []) Demo.ref_notifying
              Sample.empty_world)
    as (oe & w' & Hrun & Hs & _ & _ & _ & _ & _ & Hiff).
  - reflexivity.
  - left. reflexivity.
  - intros s w0. reflexivity.
  - exists oe, w'. split; [exact Hrun |].
    split; [rewrite Hs; reflexivity |].
    intros Hnone. apply Hiff in Hnone. discriminate Hnone.
Defined.

Lemma sample_cooperative (poller : RepoPoller) :
  (forall r w, GetRemoteConfig poller r w = (Some (Sample.config []), None)) ->
  (forall r w, snd (GetChangedFiles poller r w) = None) ->
  cooperative Sample.env (Sample.tracker poller) (fun _ => Sample.config []).
Proof.
  intros Hremote Hchanged.
  split; [intros q w; reflexivity |]. split; [reflexivity |].
  split; [exact Hremote |]. split; [exact Hchanged |].
  split; [intros w; exists 0%nat; reflexivity |].
  split; [intros v w; reflexivity |].
  split; [intros v name w; reflexivity |].
  split; [intros c; reflexivity |].
  split; [intros c; split; reflexivity |].
  split; [intros uid w; reflexivity | reflexivity].
Qed.

Lemma sample_fresh_batch (poller : RepoPoller) :
  fresh_batch Sample.env (Sample.tracker poller) [Sample.r2; Sample.r1]
    Sample.empty_world.
Proof.
  split.
  - cbn. repeat constructor; cbn; intuition discriminate.
  - split; [intros rev _; reflexivity |].
    split; [intros u rev []|].
    intros a b [<- | [<- | []]] [<- | [<- | []]] H;
      try reflexivity; vm_compute in H; discriminate H.
Qed.

Lemma sample_order_invariant (p : string) :
  order_invariant p Sample.empty_world.
Proof. split; constructor. Qed.

(** The batch r2, r1 on an empty store: r1 is stored first, then r2, each
    with the build of linux-64, and the result is the version of r2. *)
Lemma StoreRevisions_stores_fresh_batch_witness :
  exists added w',
    StoreRevisions Sample.env Sample.tracker_plain [Sample.r2; Sample.r1]
      Sample.empty_world = Ret (hd_error (List.rev added), None) w' /\
    versions w' = added /\
    map Version.Revision added = ["r1"; "r2"] /\
    StronglySorted Z.lt (map Version.RevisionOrderNumber added).
Proof.
  destruct (StoreRevisions_stores_fresh_batch Sample.env Sample.tracker_plain
              (fun _ => Sample.config [])
              (sample_cooperative
                 (Sample.poller (Sample.remote_without [] []) Sample.no_changes
                    [])
                 (fun r w => eq_refl) (fun r w => eq_refl))
              [Sample.r2; Sample.r1] Sample.empty_world
              (sample_order_invariant _) (sample_fresh_batch _))
    as (added & w' & Hrun & Hvs & Hrs & _ & Hsorted & _).
  exists added, w'. split; [exact Hrun |]. split; [exact Hvs |].
  split; [exact Hrs | exact Hsorted].
Defined.

(** A first poll that returns r2 and r1: the watermark ends at r2. *)
Lemma FetchRevisions_advances_watermark_witness :
  exists w',
    FetchRevisions Sample.env Demo.tracker_batch Sample.empty_world
      = Ret None w' /\
    last_revision w' "proj" = "r2"%string.
Proof.
  destruct (FetchRevisions_advances_watermark Sample.env Demo.tracker_batch
              (fun _ => Sample.config [])
              (sample_cooperative
                 (Sample.poller (Sample.remote_without [] []) Sample.no_changes
                    [Sample.r2; Sample.r1])
                 (fun r w => eq_refl) (fun r w => eq_refl))
              Sample.r2 [Sample.r1] Sample.empty_world)
    as (oe & w' & Hrun & Hlast & _ & Hok).
  - repeat split.
  - apply sample_order_invariant.
  - apply sample_fresh_batch.
  - intros q r w. reflexivity.
  - intros p w q. reflexivity.
  - exists w'. rewrite <- (Hok (fun w => eq_refl)). split; assumption.
Defined.

(** The run in which the stub of r1 is stored and r2 is expanded. *)
Lemma FetchRevisions_moves_watermark_only_after_store_witness :
  (forall q,
     last_revision
       (world_of (FetchRevisions Sample.env Sample.tracker_r1_missing
                    Sample.empty_world)) q
     = last_revision Sample.empty_world q) \/
  exists revisions w1 lv w2,
    revisions <> [] /\
    StoreRevisions Sample.env Sample.tracker_r1_missing revisions w1
      = Ret (Some lv, None) w2 /\
    (forall q, last_revision w1 q = last_revision Sample.empty_world q) /\
    UpdateLastRevision_fault Sample.env (Version.Identifier lv)
      (Version.Revision lv) w2 = None /\
    forall q,
      last_revision
        (world_of (FetchRevisions Sample.env Sample.tracker_r1_missing
                     Sample.empty_world)) q
      = if String.eqb q (Version.Identifier lv) then Version.Revision lv
        else last_revision Sample.empty_world q.
Proof.
  apply (FetchRevisions_moves_watermark_only_after_store Sample.env
           Sample.tracker_r1_missing Sample.empty_world).
  intros p w q. reflexivity.
Defined.

Lemma pointers_round_trip : strings_round_trip DemoRest.pointers.
Proof. intros s. reflexivity. Qed.

(** A comment on EVG-1. *)
Lemma notification_round_trips_witness :
  APIJiraComment_ToService DemoRest.pointers
    (APIJiraComment.mk (X := DemoRest.pointers) (Some "EVG-1")
       (Some "fixed in r2"))
  = (JIRAComment_pointer (Some (JIRAComment.mk "EVG-1" "fixed in r2")), None).
Proof.
  destruct (notification_round_trips DemoRest.pointers pointers_round_trip)
    as (Hcomment & _).
  destruct (Hcomment (APIJiraComment_zero DemoRest.pointers)
              (JIRAComment.mk "EVG-1" "fixed in r2"))
    as (c & Hbuild & _ & Hback).
  cbn in Hbuild. injection Hbuild as <-. exact Hback.
Defined.

(** An attachment with one field, and one with a nil field pointer. *)
Lemma SlackAttachment_round_trip_witness :
  (exists a,
     APISlackAttachment_BuildFromService DemoRest.pointers
       (APISlackAttachment_zero DemoRest.pointers)
       (SlackAttachment_value
          (DemoRest.attachment (Some [Some DemoRest.field])))
     = Value (a, None) /\
     APISlackAttachment_ToService DemoRest.pointers a
     = Value (SlackAttachment_pointer
                (Some (SlackAttachment.mk "danger" "build break" "evergreen"
                         "" "compile failed"
                         "https://evergreen.example.com/task/1" ""
                         (Some [Some DemoRest.field]) None "")), None)) /\
  APISlackAttachment_BuildFromService DemoRest.pointers
    (APISlackAttachment_zero DemoRest.pointers)
    (SlackAttachment_value (DemoRest.attachment (Some [None])))
  = Panics "nil pointer dereference: *v".
Proof.
  split.
  - destruct (SlackAttachment_round_trip DemoRest.pointers
                (APISlackAttachment_zero DemoRest.pointers)
                (DemoRest.attachment (Some [Some DemoRest.field]))
                pointers_round_trip eq_refl eq_refl) as (_ & H & _).
    destruct H as (a & Hbuild & _ & Hback).
    + repeat constructor. discriminate.
    + exists a. split; [exact Hbuild | exact Hback].
  - destruct (SlackAttachment_round_trip DemoRest.pointers
                (APISlackAttachment_zero DemoRest.pointers)
                (DemoRest.attachment (Some [None]))
                pointers_round_trip eq_refl eq_refl) as (_ & _ & H).
    apply H. intros Hall. inversion Hall as [| f fs Hf _]. apply Hf.
    reflexivity.
Defined.

(** A Slack message with two attachments. *)
Lemma APISlack_BuildFromService_total_witness :
  exists n,
    APISlack_BuildFromService DemoRest.pointers
      (APISlack_zero DemoRest.pointers)
      (Slack_value
         (Slack.mk "#builds" "compile failed"
            (Some [DemoRest.attachment None;
                   DemoRest.attachment (Some [Some DemoRest.field])])))
    = Value (n, None) /\
    List.length (range (APISlack.Attachments n)) = 2%nat.
Proof.
  destruct (APISlack_BuildFromService_total DemoRest.pointers
              (APISlack_zero DemoRest.pointers)
              (Slack.mk "#builds" "compile failed"
                 (Some [DemoRest.attachment None;
                        DemoRest.attachment (Some [Some DemoRest.field])])))
    as (_ & H & _).
  destruct H as (n & Hbuild & _ & _ & _ & _ & Hatt).
  - repeat constructor. discriminate.
  - exists n. split; [exact Hbuild |].
    destruct (Hatt ltac:(discriminate)) as [_ Hf2].
    apply Forall2_length in Hf2. rewrite <- Hf2. reflexivity.
Defined.

(** The same e-mail built twice into one receiver. *)
Lemma BuildFromService_reuses_receiver_slices_witness :
  exists n1 n2,
    APIEmail_BuildFromService DemoRest.pointers
      (APIEmail_zero DemoRest.pointers)
      (Email_value (Email.mk (X := DemoRest.pointers) "evergreen@example.com"
                      (Some ["alice@example.com"]) "build break" "..." true
                      None)) = Value (n1, None) /\
    APIEmail_BuildFromService DemoRest.pointers n1
      (Email_value (Email.mk (X := DemoRest.pointers) "evergreen@example.com"
                      (Some ["alice@example.com"]) "build break" "..." true
                      None)) = Value (n2, None) /\
    range (APIEmail.Recipients n2)
    = [Some "alice@example.com"; Some "alice@example.com"].
Proof.
  eexists. eexists. split; [reflexivity |]. split; [reflexivity |].
  destruct (BuildFromService_reuses_receiver_slices DemoRest.pointers)
    as (_ & _ & H).
  exact (H _ _ _ _ eq_refl eq_refl).
Defined.

(** Requests for the targets jira_comment and pager. *)
Lemma notificationPostHandler_Parse_dispatch_witness :
  snd (notificationPostHandler_Parse DemoRest.pointers DemoRest.environment
         (makeNotification DemoRest.pointers)
         (DemoRest.request "jira_comment" "{}" None)) = None /\
  notificationPostHandler_Parse DemoRest.pointers DemoRest.environment
    (makeNotification DemoRest.pointers) (DemoRest.request "pager" "{}" None)
  = (None, Some (errorString "'pager' is not a supported {target_id}")).
Proof.
  split.
  - destruct (notificationPostHandler_Parse_dispatch DemoRest.pointers
                DemoRest.environment (makeNotification DemoRest.pointers)
                (DemoRest.request "jira_comment" "{}" None)) as (_ & H).
    destruct (H eq_refl) as (handler & -> & _). reflexivity.
  - destruct (notificationPostHandler_Parse_dispatch DemoRest.pointers
                DemoRest.environment (makeNotification DemoRest.pointers)
                (DemoRest.request "pager" "{}" None)) as (H & _).
    exact (H eq_refl).
Defined.

(** The Slack route without a sender for Slack: a 500 and nothing sent. *)
Lemma RouteHandler_Run_sends_iff_ok_witness :
  exists ran,
    RouteHandler_Run DemoRest.pointers DemoRest.environment
      (slackNotificationPostHandler
         (mkTargetHandler (Some (APISlack_zero DemoRest.pointers)) None None))
    = Value ran /\
    ran_sent ran = [] /\ ran_response ran <> NewJSONResponse.
Proof.
  eexists. split; [reflexivity |].
  destruct (RouteHandler_Run_sends_iff_ok DemoRest.pointers
              DemoRest.environment
              (slackNotificationPostHandler
                 (mkTargetHandler (Some (APISlack_zero DemoRest.pointers))
                    None None)) _ eq_refl) as (_ & _ & Hnone & Herr).
  assert (Hne : snd (GetSender DemoRest.environment SenderSlack) <> None)
    by discriminate.
  split; [apply Hnone, Herr, Hne | apply Herr, Hne].
Defined.

(** A request whose body cannot be read, and one whose body is not JSON. *)
Lemma parse_errors_are_dropped_witness :
  (exists handler reason,
     notificationPostHandler_Parse DemoRest.pointers DemoRest.environment
       (makeNotification DemoRest.pointers)
       (DemoRest.request "email" "" (Some (errorString "unexpected EOF")))
     = (Some handler, None) /\
     notificationPostHandler_Run DemoRest.pointers DemoRest.environment
       (Some handler) = Panics reason) /\
  exists handler ran,
    notificationPostHandler_Parse DemoRest.pointers DemoRest.environment
      (makeNotification DemoRest.pointers)
      (DemoRest.request "jira_comment" "not json" None)
    = (Some handler, None) /\
    notificationPostHandler_Run DemoRest.pointers DemoRest.environment
      (Some handler) = Value ran /\
    ran_response ran = NewJSONResponse /\
    ran_sent ran = [("jira-comment", JIRACommentMessage "" "")].
Proof.
  destruct (parse_errors_are_dropped DemoRest.pointers DemoRest.environment
              (makeNotification DemoRest.pointers)
              (DemoRest.request "email" ""
                 (Some (errorString "unexpected EOF")))) as (Hread & _).
  destruct (parse_errors_are_dropped DemoRest.pointers DemoRest.environment
              (makeNotification DemoRest.pointers)
              (DemoRest.request "jira_comment" "not json" None))
    as (_ & Hjson).
  split.
  - destruct (Hread "" (errorString "unexpected EOF") eq_refl eq_refl)
      as (handler & reason & Hp & _ & Hr).
    exists handler, reason. split; assumption.
  - exact (Hjson "not json" (APIJiraComment_zero DemoRest.pointers)
             (errorString "invalid character") "jira-comment" eq_refl eq_refl
             eq_refl eq_refl).
Defined.
(** ** Runs of the Docker client on the sample daemon *)

(** Two hosts, one wrapper: the containers and images of the second host
    are asked of the daemon of the first, also after another Init. *)
Lemma operations_share_one_client_witness :
  exists w',
    run_operations DemoDocker.daemon
      [CallListContainers DemoDocker.parent;
       CallListContainers DemoDocker.other;
       CallInit "1.40";
       CallListImages DemoDocker.other] DemoDocker.ready
    = Value (tt, w') /\
    map snd (calls w')
    = [NewClient "tcp://10.0.0.1:3369" "1.23";
       ContainerList (mkClient "tcp://10.0.0.1:3369" "1.23") false;
       ContainerList (mkClient "tcp://10.0.0.1:3369" "1.23") false;
       GetHTTPClient;
       ImageList (mkClient "tcp://10.0.0.1:3369" "1.23") false] /\
    forall t c cl,
      In (t, c) (calls w') -> call_client c = Some cl ->
      client (impl w') = Some cl.
Proof.
  eexists. split; [vm_compute; reflexivity |]. split; [reflexivity |].
  match goal with
  | |- forall t c cl, In _ (calls ?W) -> _ =>
      destruct (operations_share_one_client DemoDocker.daemon
                  [CallListContainers DemoDocker.parent;
                   CallListContainers DemoDocker.other;
                   CallInit "1.40";
                   CallListImages DemoDocker.other] DemoDocker.ready W
                  ltac:(vm_compute; reflexivity))
        as (new & E & _ & Hon & _)
  end.
  intros t c cl Hin. apply (Hon t c cl).
  cbn [calls DemoDocker.ready app] in E. rewrite <- E. exact Hin.
Defined.

(** A host without an address, on a wrapper that has a client. *)
Lemma blank_host_is_rejected_witness :
  ListContainers DemoDocker.daemon DemoDocker.blank
    (mkCloud (mkDockerClientImpl "1.23" (Some DemoDocker.pooled)
                (Some (mkClient "tcp://10.0.0.1:3369" "1.23"))
                (Some DemoDocker.settings)) wrapper_http [] [])
  = Value ((None, Some blank_host_error),
           mkCloud (mkDockerClientImpl "1.23" (Some DemoDocker.pooled)
                      (Some (mkClient "tcp://10.0.0.1:3369" "1.23"))
                      (Some DemoDocker.settings)) wrapper_http [] []).
Proof.
  exact (proj1 (proj2 (proj2 (proj2 (proj2
           (blank_host_is_rejected DemoDocker.daemon DemoDocker.blank _
              eq_refl)))))).
Defined.

(** An image that has to be imported, by a docker client made during the
    call, and by one that was made before an Init. *)
Lemma EnsureImageDownloaded_restores_timeout_witness :
  (exists w',
     EnsureImageDownloaded DemoDocker.daemon DemoDocker.parent
       (ImageURL DemoDocker.image) DemoDocker.ready
     = Value (("ubuntu1604", None), w') /\
     timeout_of (impl w') = Some 30000000000 /\
     exists cl,
       filter DemoDocker.is_import (calls w')
       = [(Some 600000000000,
           ImageImport cl (ImageURL DemoDocker.image) "ubuntu1604")] /\
       forall t cl source imageName,
         In (t, ImageImport cl source imageName) (calls w') ->
         t = Some imageImportTimeout) /\
  (exists listed w1 w2 w3,
     ListContainers DemoDocker.daemon DemoDocker.parent DemoDocker.ready
     = Value ((listed, None), w1) /\
     Init DemoDocker.daemon "1.40" w1 = Value (None, w2) /\
     EnsureImageDownloaded DemoDocker.daemon DemoDocker.parent
       (ImageURL DemoDocker.image) w2
     = Value (("ubuntu1604", None), w3) /\
     timeout_of (impl w3) = Some 30000000000 /\
     exists cl,
       filter DemoDocker.is_import (calls w3)
       = [(Some 30000000000,
           ImageImport cl (ImageURL DemoDocker.image) "ubuntu1604")] /\
       forall t cl source imageName,
         In (t, ImageImport cl source imageName) (calls w3) ->
         t = Some (Timeout DemoDocker.pooled)).
Proof.
  split.
  - eexists. split; [vm_compute; reflexivity |].
    match goal with
    | |- timeout_of (impl ?W) = _ /\ _ =>
        destruct (EnsureImageDownloaded_restores_timeout DemoDocker.daemon
                    DemoDocker.parent (ImageURL DemoDocker.image) "ubuntu1604"
                    None DemoDocker.ready W ltac:(vm_compute; reflexivity))
          as (Hback & (new & E & Himport) & _)
    end.
    split; [exact (Hback eq_refl) |].
    eexists. split; [vm_compute; reflexivity |].
    intros t cl source imageName Hin.
    apply (Himport t cl source imageName);
      [| left; reflexivity].
    cbn [calls DemoDocker.ready app] in E. rewrite <- E. exact Hin.
  - eexists. eexists. eexists. eexists.
    split; [vm_compute; reflexivity |].
    split; [vm_compute; reflexivity |].
    match goal with
    | |- ?run = Value (_, ?W3) /\ _ =>
        assert (E3 : run = Value (("ubuntu1604", None), W3))
          by (vm_compute; reflexivity)
    end.
    split; [exact E3 |].
    destruct (EnsureImageDownloaded_restores_timeout _ _ _ _ _ _ _ E3)
      as (Hback & (new & E & Himport) & _).
    split; [vm_compute; reflexivity |].
    eexists. split; [vm_compute; reflexivity |].
    intros t cl source imageName Hin.
    rewrite E in Hin. apply in_app_or in Hin. destruct Hin as [Hin | Hin].
    + vm_compute in Hin.
      destruct Hin as [Hx | [Hx | [Hx | []]]]; discriminate Hx.
    + apply (Himport t cl source imageName Hin);
        [vm_compute; discriminate | vm_compute; reflexivity].
Defined.

(** The image of a URL, downloaded, built and run. *)
Lemma container_runs_the_built_image_witness :
  exists w1 w2 created w3 t cl config,
    EnsureImageDownloaded DemoDocker.daemon DemoDocker.parent
      (ImageURL DemoDocker.image) DemoDocker.ready
    = Value (("ubuntu1604", None), w1) /\
    BuildImageWithAgent DemoDocker.daemon DemoDocker.parent "ubuntu1604" w1
    = Value (("ubuntu1604:provisioned", None), w2) /\
    CreateContainer DemoDocker.daemon DemoDocker.parent DemoDocker.container
      DemoDocker.image w2 = Value ((created, None), w3) /\
    In (t, ContainerCreate cl config (Host.Id created)) (calls w3) /\
    Image config = "ubuntu1604:provisioned".
Proof.
  eexists. eexists. eexists. eexists.
  match goal with
  | |- exists t cl config,
         ?r1 = Value (_, ?W1) /\ ?r2 = Value (_, ?W2)
         /\ ?r3 = Value ((?C, _), ?W3) /\ _ =>
      assert (E1 : r1 = Value (("ubuntu1604", None), W1))
        by (vm_compute; reflexivity);
      assert (E2 : r2 = Value (("ubuntu1604:provisioned", None), W2))
        by (vm_compute; reflexivity);
      assert (E3 : r3 = Value ((C, None), W3)) by (vm_compute; reflexivity)
  end.
  destruct (container_runs_the_built_image _ _ _ _ _ _ _ _ _ _ _ _ _ _
              E1 E2 E3)
    as (_ & _ & _ & (t & cl & config & made & E & Hin & Himage)).
  exists t, cl, config.
  split; [exact E1 |]. split; [exact E2 |]. split; [exact E3 |].
  split; [| exact Himage].
  rewrite E. apply in_or_app. right. exact Hin.
Defined.

(** A container host without a secret, and one that has one. *)
Lemma container_gets_a_secret_witness :
  exists created w',
    CreateContainer DemoDocker.daemon DemoDocker.parent DemoDocker.container
      DemoDocker.image DemoDocker.ready = Value ((created, None), w') /\
    Host.Secret created = "73a1c0" /\
    forall t cl config name,
      In (t, ContainerCreate cl config name) (calls w') ->
      In "--host_secret=73a1c0" (Cmd config) /\ name = "container-1".
Proof.
  eexists. eexists. split; [vm_compute; reflexivity |].
  split; [reflexivity |].
  match goal with
  | |- forall t cl config name, In _ (calls ?W) -> _ =>
      destruct (container_gets_a_secret DemoDocker.daemon DemoDocker.parent
                  DemoDocker.container DemoDocker.image
                  (DemoDocker.with_secret "73a1c0" DemoDocker.container) None
                  DemoDocker.ready W)
        as (new & E & _ & Hcreate & _)
  end.
  - intros h w0 h' Hx. injection Hx as <-. discriminate.
  - vm_compute. reflexivity.
  - intros t cl config name Hin.
    cbn [calls DemoDocker.ready app] in E. rewrite E in Hin.
    destruct (Hcreate t cl config name Hin) as (_ & Hname & _ & Hsecret & _).
    split; [exact Hsecret | exact Hname].
Defined.

(** A daemon that removes nothing. *)
Lemma RemoveImage_reports_nothing_removed_witness :
  exists w',
    RemoveImage DemoDocker.daemon DemoDocker.parent "ubuntu1604"
      DemoDocker.ready
    = Value (Some (errorString "Failed to remove image 'ubuntu1604'"), w') /\
    (List.length (filter is_ImageRemove (calls w')) <= 1)%nat /\
    exists t cl w1 removed,
      generateClient DemoDocker.daemon DemoDocker.parent DemoDocker.ready
      = Value ((Some cl, None), w1) /\
      In (t, ImageRemove cl "ubuntu1604" true) (calls w') /\
      ImageRemove_result DemoDocker.daemon cl "ubuntu1604" w1 = (removed, None)
      /\ range removed = [].
Proof.
  eexists. split; [vm_compute; reflexivity |].
  match goal with
  | |- (_ (filter _ (calls ?W)) <= _)%nat /\ _ =>
      destruct (RemoveImage_reports_nothing_removed DemoDocker.daemon
                  DemoDocker.parent "ubuntu1604"
                  (Some (errorString "Failed to remove image 'ubuntu1604'"))
                  DemoDocker.ready W ltac:(vm_compute; reflexivity))
        as (new & E & _ & Honce & _ & _ & Hnothing)
  end.
  cbn [calls DemoDocker.ready app] in E.
  split; [rewrite E; exact Honce |].
  destruct (Hnothing eq_refl)
    as (t & cl & w1 & removed & Hmade & Hin & Hres & Hnil).
  exists t, cl, w1, removed.
  split; [exact Hmade |]. split; [rewrite E; exact Hin |].
  split; assumption.
Defined.

(** An Init with another version on a wrapper that has a client. *)
Lemma Init_keeps_cached_client_witness :
  exists w',
    Init DemoDocker.daemon "1.40"
      (mkCloud (mkDockerClientImpl "1.23" (Some DemoDocker.pooled)
                  (Some (mkClient "tcp://10.0.0.1:3369" "1.23"))
                  (Some DemoDocker.settings)) wrapper_http [] [])
    = Value (None, w') /\
    apiVersion (impl w') = "1.40" /\
    generateClient DemoDocker.daemon DemoDocker.other w'
    = Value ((Some (mkClient "tcp://10.0.0.1:3369" "1.23"), None), w').
Proof.
  eexists. split; [vm_compute; reflexivity |].
  match goal with
  | |- apiVersion (impl ?W) = _ /\ _ =>
      destruct (proj2 (Init_keeps_cached_client DemoDocker.daemon "1.40"
                         (mkCloud
                            (mkDockerClientImpl "1.23" (Some DemoDocker.pooled)
                               (Some (mkClient "tcp://10.0.0.1:3369" "1.23"))
                               (Some DemoDocker.settings)) wrapper_http [] []))
                  None W ltac:(discriminate) ltac:(vm_compute; reflexivity))
        as (Hversion & _ & _ & _ & _ & Hcached)
  end.
  split; [exact Hversion |].
  apply Hcached; [reflexivity | discriminate].
Defined.
(** ** Runs of the controller on the sample page *)

(** The filters of the sample state: the column of create_time is not
    found. *)
Lemma aggregation_is_capped_witness :
  getFilteringContext DemoPage.page DemoPage.state
  = [mkFilteringContext "probability" ">0.05" "number";
     mkFilteringContext "project" "=sys-perf" "string"] /\
  getAggChain DemoPage.page DemoPage.state
  = [compiled (P := DemoPage.page) "$match"; compiled (P := DemoPage.page) "$sort";
     limit 500].
Proof.
  split; [| reflexivity].
  rewrite (proj1 (aggregation_is_capped DemoPage.page DemoPage.state)).
  reflexivity.
Defined.

(** Two queries answered in the wrong order, and a query that fails. *)
Lemma latest_query_wins_witness :
  data (run_events DemoPage.page
          [Load DemoPage.state; Load DemoPage.state;
           Settle 1 (Fulfilled [DemoPage.point "b7a1"]);
           Settle 0 (Fulfilled [DemoPage.point "03fe"])]
          (new_controller DemoPage.page))
  = Some (hydrateData DemoPage.page [DemoPage.point "b7a1"]) /\
  isLoading (run_events DemoPage.page
               [Load DemoPage.state; Settle 0 (Rejected "timeout")]
               (new_controller DemoPage.page)) = true.
Proof.
  split.
  - destruct (latest_query_wins DemoPage.page
                [Load DemoPage.state; Load DemoPage.state;
                 Settle 1 (Fulfilled [DemoPage.point "b7a1"]);
                 Settle 0 (Fulfilled [DemoPage.point "03fe"])])
      as (_ & _ & Hshows & _).
    exact (Hshows 1%nat [DemoPage.point "b7a1"] eq_refl eq_refl).
  - destruct (latest_query_wins DemoPage.page
                [Load DemoPage.state; Settle 0 (Rejected "timeout")])
      as (_ & Hloading & _).
    apply Hloading. exists 0%nat. split; [reflexivity |]. right.
    exists "timeout". reflexivity.
Defined.
